(* ===== verification/_CoqProject ===== *)
-Q . S2P
Prelude.v
GoStrings.v
Encoding.v
GoTime.v
Sha256.v
RateLimit.v
AuditChain.v
World.v
AuditLog.v
Auth.v
Registry.v
Strategy.v
Dispatch.v
Http.v
Messages.v
AdminApi.v
Router.v
Typed.v
MockTelegram.v
Bot.v
System.v
Hook.v
Config.v
AdminSession.v
AdminKeys.v
ApiClient.v
AdminStore.v
Dashboard.v
AdminUi.v
AdminPages.v
AdminViews.v
Svg.v
AdminServer.v
UiTyped.v
KeyIssue.v
Deployment.v
Statements.v
Process.v
DevTools.v
