(* ===== verification/Prelude.v ===== *)
(** * telegram_server: a verification library

    The program relays messages of registered apps to Telegram users and keeps
    a tamper-evident audit log of everything it does.  It has two deployed
    processes over one PostgreSQL database: [cmd/server] serves the HTTP API and
    polls a Telegram bot; [cmd/adminui] serves the operator's pages, reads the
    database, issues and revokes API keys in it, and calls the server's API for
    everything else.  [internal/mocktelegram] stands in for Telegram in tests,
    [internal/skillsharness] replays transcripts against both, and [cmd/devseed]
    prints keys for development.

    ** How the code is modelled

    A computation is a function [World → A * World] (the monad [M] of World):
    the database tables, an open transaction, the clock, the deadline of the
    context, the calls made to Telegram, the log lines, the buckets of the
    limiters and an oracle that says how long each call to come takes and
    whether it succeeds, fails, or succeeds without acknowledgement.  A theorem
    about a handler thus holds for every failure of every call.  Go's
    [(A, error)] is [res]; [let?] and [guard?] are early returns.  SQL
    statements are functions on the tables with the constraints of the
    migrations.  Instants are nanoseconds and integers are [Z], with int64
    wrap-around or range checks where the code can reach them; [float64] is the
    interface [Float64], any monotone rounding that is exact on integers up to
    [2^53]; strings are bytes.

    Code outside the repository is an interface whose laws are its documented
    behaviour: [Float64] (RateLimit), [Postgres] and [Telegram] (World),
    [Argon2] (Auth), [Mux] (Router, chi's route matching); [net/http]'s
    transport, template parsing, [json.Indent], [percentile_cont],
    [math.Log10], [math.Pow], [pgxpool.New], [telego.NewBot] and [getMe] are
    arguments of what uses them.

    ** Files

    - Prelude, GoStrings, Encoding, GoTime, Sha256: the result type and the
      state monad, tactics, and the parts of Go's library the code uses
      (strings, strconv, hex, base64, RFC 3339 times, SHA-256, HMAC).
    - RateLimit: [internal/ratelimit], token buckets over any rounding.
    - AuditChain, AuditLog: [internal/audit], the canonical payload, the hash
      chain, its verifier, the writer, and concurrent writers as a step relation.
    - World: tables, transactions, the failing calls, and the relations
      ([keeps]) by which the invariants of programs are composed.
    - Auth: [internal/auth].  Registry: [internal/registry].
    - Strategy: [internal/dispatch/strategy].  Dispatch: [internal/dispatch]
      and its Telegram sender with the dispatch limiter.
    - Http: [internal/api/middleware] and the shared handler helpers; Messages:
      the four message endpoints; AdminApi: the admin endpoints; Router:
      [internal/api/server.go] and the wiring; Typed: the types of responses.
    - Bot: [internal/bot] and its handlers; System: server and bot together.
    - Hook: [internal/hook], which nothing calls yet.
    - Config: [internal/config], [internal/adminui/config.go] and [waitForDB].
    - MockTelegram: [internal/mocktelegram].
    - Admin UI ([internal/adminui]): AdminSession (session.go, csrf.go),
      AdminKeys (keystore.go), ApiClient (apiclient), AdminStore (store.go),
      Dashboard (builders of dashboard.go and delivery.go), AdminUi (requests,
      page data, login, middleware), AdminPages (apps.go, keys.go, users.go,
      testsend.go), AdminViews (audit.go and the handlers of dashboard.go and
      delivery.go), Svg (the drawings), AdminServer (server.go), UiTyped
      (templates.go and the shapes of responses).
    - KeyIssue: issuing in the UI against resolving in the server; Deployment:
      all processes over one database; Statements: every SQL statement that
      writes, as data, and which process issues it.
    - Process: [run] of both [main.go] files: start-up, the poller's goroutine
      and its cancellation, and shutdown as a timed state machine.
    - DevTools: [internal/skillsharness], [cmd/devseed] and the address of
      [cmd/mocktelegram].

    ** What is proved

    - The whole: [deployment_safe] (constraints, append-only verified log, no
      escalation, for every interleaving of requests, updates and pages with
      every failure), [revoked_forever], [issued_key_resolves],
      [responses_typed], [ui_responses_typed].
    - Statements: [commits_refine] (a run commits a list of statements its
      processes issue, and nothing else), [least_privilege] (what no event of a
      process can write), [any_schedule_safe] (what holds for every order of
      statements, whichever goroutine issues them), [tokens_spent_once].
    - Access: [guarded_effects], [ui_guarded], [Resolve_sound],
      [Resolve_complete], [session_sound], [logout_final], [guessing_bounded].
    - Auditing: [nothing_sent_unaudited], [dispatch_trail_exact],
      [tamper_evident], [concurrent_writers_chain], [verify_table_iff],
      [payload_determines_columns], [viewer_complete].
    - Routing and sending: [topic_resolution], [direct_resolution],
      [broadcast_resolution], [dm_resolution], [send_once], the admission bound
      and the progress of the limiters.
    - Administration: [patch_atomic] (a patch is all or nothing and implements
      its description), [purge_complete], [form_sets_capabilities],
      [wire_roundtrip].
    - Bot: [link_needs_token], [token_single_use], [flag_follows_rights],
      [intruders_expelled], [subscriptions_guarded], [provisioning],
      [anonymized_forever].
    - Pages: [chart_conserves], [cards_agree], [day_filter_exact],
      [drawings_inert] (no name in the database changes a drawing's markup).
    - Start and end: [waitForDB_terminates], [config_complete],
      [server_starts], [lifecycle_safe] (what the processes start with meets the
      hypotheses of the theorems about the whole), [shutdown_orderly],
      [shutdown_bounded], [drained_updates_lost], and [panics_contained].
    - Mock and tools: [mock_refines_history] (bounded windows refine full
      histories), [fixture_sound] and [fixture_counts_real] (what a passing
      fixture proves), [dev_keys_resolve].

    Invariants are proved once per statement: the classes [AuditClosed],
    [AdminClosed], [BotClosed] and [KeyClosed] say that a property of the tables
    survives the statements of a component, handlers are shown to keep any such
    property, and each theorem instantiates them.

    ** Fuel and bounds

    Loops over rows are structural.  [waitForDB] takes fuel: 62 rounds of half a
    second are more than its timeout of thirty seconds can hold, and
    [waitForDB_terminates] shows that they are enough.  [walk] and the viewer's
    paging take fuel above the number of matching rows, each page showing at
    least one.  String functions recurse on their length.  The mock's wait is a
    list of the events its select receives.

    The shutdown needs no fuel: its runs are lists of events, and
    [shutdown_bounded] gives the list that ends one.

    ** Not modelled, and why

    The HTML of the templates (not Go; pages are the data the templates are
    given); chi, pgx, telego, HTTP framing and the operating system's part of
    listening and signals (libraries, events of the models); a handler that
    panics after it has begun to answer (the answers of the code are single
    writes at the end).  Scheduling inside one process is sequential but for the
    audit writers and the mock's polls: a handler's reads are not interleaved
    with other handlers.  Its writes are: [any_schedule_safe] holds for every
    order of the statements [commits_refine] finds.

    ** Next

    Interleaving of the reads of concurrent handlers; the order of concurrent
    injections into the mock; PostgreSQL's isolation levels inside a
    transaction. *)

From stdpp Require Import base gmap sets list strings sorting.
From Stdlib Require Import ZArith Lia.

(** ** Notations

    [res E A] is a Go pair [(A, error)] of which exactly one half is
    meaningful; [ST S A] is a computation that threads a mutable store.  Both
    are used through stdpp's monad classes; the error-propagation forms below
    spell out Go's [if err != nil { ... }]. *)
Declare Scope go_scope.
Delimit Scope go_scope with go.

Inductive res (E A : Type) : Type :=
| Ok (a : A)
| Err (e : E).
Arguments Ok {E A} a.
Arguments Err {E A} e.

#[export] Instance res_eq_dec {E A} `{EqDecision E, EqDecision A} : EqDecision (res E A).
Proof. solve_decision. Defined.

Definition ST (S A : Type) : Type := S → A * S.

#[export] Instance st_ret S : MRet (ST S) := λ A a s, (a, s).
#[export] Instance st_bind S : MBind (ST S) := λ A B f m s,
  let '(a, s') := m s in f a s'.
#[export] Instance st_fmap S : FMap (ST S) := λ A B f m s,
  let '(a, s') := m s in (f a, s').

(** [st_get], [st_put] and [st_gets] read and replace the store. *)
Definition st_get {S} : ST S S := λ s, (s, s).
Definition st_put {S} (s : S) : ST S () := λ _, ((), s).
Definition st_gets {S A} (f : S → A) : ST S A := λ s, (f s, s).
Definition st_modify {S} (f : S → S) : ST S () := λ s, ((), f s).

(** A Go [for _, x := range xs] whose body only changes the store and an
    accumulator. *)
Fixpoint st_fold {S A B} (f : B → A → ST S B) (b : B) (xs : list A) : ST S B :=
  match xs with
  | [] => mret b
  | x :: xs' => b' ← f b x; st_fold f b' xs'
  end.

(** Running a sequence. *)
Lemma bind_run {S A B} (m : ST S A) (k : A → ST S B) s :
  (m ≫= k) s = (let '(a, s') := m s in k a s').
Proof. reflexivity. Qed.

(** [let? x := m else e => h ;; k] runs [m]; on an error the handler [h] ends
    the function (Go's early return), otherwise the function goes on with [k]. *)
Notation "'let?' x := m 'else' e => h ;; k" :=
  (mbind (λ r, match r with Ok x => k | Err e => h end) m)
  (at level 100, x name, m at level 99, e name, h at level 99, k at level 100,
   right associativity, only parsing) : go_scope.

(** [guard? b else h ;; k]: Go's [if !b { return h }]. *)
Notation "'guard?' b 'else' h ;; k" := (if (b : bool) then k else h)
  (at level 100, b at level 99, h at level 99, k at level 100,
   right associativity, only parsing) : go_scope.

(** ** Errors

    Go errors as values.  [Sentinel] is a package-level [errors.New] variable,
    [Msg] any other error, [PgError] an error the database server reports with
    its SQLSTATE, [Wrap pre e post] is [fmt.Errorf] with a [%w] verb
    between the texts [pre] and [post]. *)
Inductive sentinel :=
| ErrUnauthorized | ErrForbidden                              (* auth *)
| ErrInvalidHashFormat | ErrUnsupportedParams
| ErrBearerMalformed | ErrKeyNotFound
| ErrAppNotFound | ErrEmptyRecipients                         (* strategy *)
| ErrChatNotFound | ErrBotNotAdmin | ErrRateLimited           (* dispatch *)
| ErrTelegramAuth | ErrTransient
| ErrUserNotFound | ErrTokenNotFound | ErrTokenExpired        (* registry *)
| ErrTopicNotFound
| ErrShortCircuit                                             (* hook *)
| UiErrAppNotFound | ErrAppInactive | ErrPrefixTaken          (* adminui *)
| UiErrKeyNotFound
| ErrMissingRequired | UiErrMissingRequired                   (* config *)
| ErrNoRows                                                   (* pgx *)
| ErrContextDone.                                             (* context *)

#[export] Instance sentinel_eq_dec : EqDecision sentinel.
Proof. solve_decision. Defined.

Inductive error :=
| Sentinel (s : sentinel)
| Msg (m : string)
| PgError (code text : string)
| Wrap (pre : string) (e : error) (post : string).

#[export] Instance error_eq_dec : EqDecision error.
Proof. solve_decision. Defined.

(** [errors.Is]: follow the [%w] chain. *)
Fixpoint errors_is (e : error) (s : sentinel) : bool :=
  match e with
  | Sentinel s' => bool_decide (s' = s)
  | Msg _ | PgError _ _ => false
  | Wrap _ e' _ => errors_is e' s
  end.

(** [errors.As] with a [*pgconn.PgError] target: its SQLSTATE. *)
Fixpoint pg_code (e : error) : option string :=
  match e with
  | PgError code _ => Some code
  | Wrap _ e' _ => pg_code e'
  | _ => None
  end.

(** The text of the sentinels, as their [errors.New] spells it. *)
Definition sentinel_text (s : sentinel) : string :=
  match s with
  | ErrUnauthorized => "auth: unauthorized"
  | ErrForbidden => "auth: forbidden"
  | ErrInvalidHashFormat => "auth: argon2id encoded hash malformed"
  | ErrUnsupportedParams => "auth: argon2id parameters do not match pinned constants"
  | ErrBearerMalformed => "auth: bearer token malformed"
  | ErrKeyNotFound => "auth: key not found"
  | ErrAppNotFound => "strategy: app_id unknown"
  | ErrEmptyRecipients => "strategy: recipients empty"
  | ErrChatNotFound => "dispatch: chat not found"
  | ErrBotNotAdmin => "dispatch: bot not chat admin"
  | ErrRateLimited => "dispatch: rate limited by Telegram"
  | ErrTelegramAuth => "dispatch: telegram auth failed"
  | ErrTransient => "dispatch: transient failure"
  | ErrUserNotFound => "registry: user not found"
  | ErrTokenNotFound => "registry: pending supergroup token not found"
  | ErrTokenExpired => "registry: pending supergroup token expired"
  | ErrTopicNotFound => "registry: user topic not found"
  | ErrShortCircuit => "hook: short-circuit"
  | UiErrAppNotFound => "adminui: app not found"
  | ErrAppInactive => "adminui: app inactive"
  | ErrPrefixTaken => "adminui: key prefix already in use"
  | UiErrKeyNotFound => "adminui: key not found or already revoked"
  | ErrMissingRequired => "config: missing required env var"
  | UiErrMissingRequired => "adminui/config: missing required env var"
  | ErrNoRows => "no rows in result set"
  | ErrContextDone => "context deadline exceeded"
  end.

(** [err.Error()]. *)
Fixpoint error_text (e : error) : string :=
  match e with
  | Sentinel s => sentinel_text s
  | Msg m => m
  | PgError code text => "ERROR: " +:+ text +:+ " (SQLSTATE " +:+ code +:+ ")"
  | Wrap pre e' post => pre +:+ error_text e' +:+ post
  end.

Definition result (A : Type) : Type := res error A.

(** ** Dynamically typed values: Go's [any] as the source uses it. *)
Inductive any :=
| AStr (s : string)
| AInt (z : Z)
| ABool (b : bool)
| AStrs (l : list string)
| AInts (kind : string) (l : list (string * Z))
| ANil.

#[export] Instance any_eq_dec : EqDecision any.
Proof. solve_decision. Defined.

(** ** Machine integers *)

Definition int64_min : Z := (- 2 ^ 63)%Z.
Definition int64_max : Z := (2 ^ 63 - 1)%Z.
Definition in_int64 (z : Z) : bool := (int64_min <=? z)%Z && (z <=? int64_max)%Z.

(** ** Hint databases and tactics

    [srv] holds the lemmas that close the routine side conditions of the
    components. *)
Create HintDb srv discriminated.
#[export] Hint Constants Opaque : srv.
#[export] Hint Transparent result : srv.

(** Case analysis on the first [match]/[if] scrutinee of the goal or of a
    hypothesis, keeping its equation, then clean-up. *)
Ltac go_case :=
  match goal with
  | |- context [match ?x with _ => _ end] =>
      lazymatch x with context [match _ with _ => _ end] => fail | _ => destruct x eqn:? end
  | H : context [match ?x with _ => _ end] |- _ =>
      lazymatch x with context [match _ with _ => _ end] => fail | _ => destruct x eqn:? end
  end; simplify_eq/=.

Ltac go_cases := repeat (go_case; try done).

(** Boolean conditions to propositions. *)
Ltac go_bools :=
  repeat match goal with
  | H : _ && _ = true |- _ => apply andb_true_iff in H as [? ?]
  | H : _ || _ = false |- _ => apply orb_false_iff in H as [? ?]
  | H : negb _ = true |- _ => apply negb_true_iff in H
  | H : negb _ = false |- _ => apply negb_false_iff in H
  | H : bool_decide _ = true |- _ => apply bool_decide_eq_true in H
  | H : bool_decide _ = false |- _ => apply bool_decide_eq_false in H
  | H : String.eqb _ _ = true |- _ => apply String.eqb_eq in H
  | H : String.eqb _ _ = false |- _ => apply String.eqb_neq in H
  end.

(** ** Lists *)

Section lists.
Context {A B : Type}.

(** [st_fold] over an append is the fold over the two halves in turn. *)
Lemma st_fold_app {S} (f : B → A → ST S B) b (xs ys : list A) s :
  st_fold f b (xs ++ ys) s =
  (let '(b', s') := st_fold f b xs s in st_fold f b' ys s').
Proof.
  revert b s. induction xs as [|x xs IH]; intros b s; simpl; [done|].
  unfold mbind, st_bind. destruct (f b x s) as [b1 s1]. apply IH.
Qed.

(** Any relation that one iteration preserves holds across the loop. *)
Lemma st_fold_inv {S} (P : B → S → Prop) (f : B → A → ST S B) (xs : list A) :
  (∀ b x s, x ∈ xs → P b s → let '(b', s') := f b x s in P b' s') →
  ∀ b s, P b s → let '(b', s') := st_fold f b xs s in P b' s'.
Proof.
  induction xs as [|x xs IH]; intros Hf b s HP; simpl; [done|].
  unfold mbind, st_bind.
  pose proof (Hf b x s ltac:(left) HP) as H1.
  destruct (f b x s) as [b1 s1].
  apply IH; [|done]. intros ???? ?. apply Hf; [by right|done].
Qed.

(** Prefix test on lists as a boolean. *)
Fixpoint find_first (p : A → bool) (l : list A) : option A :=
  match l with
  | [] => None
  | x :: l' => if p x then Some x else find_first p l'
  end.

Lemma find_first_Some p l x : find_first p l = Some x → x ∈ l ∧ p x = true.
Proof.
  induction l as [|y l IH]; simpl; [done|].
  destruct (p y) eqn:E; intros; simplify_eq; [split; [left|done]|].
  destruct IH; [done|]. split; [by right|done].
Qed.

Lemma find_first_None p l : find_first p l = None ↔ ∀ x, x ∈ l → p x = false.
Proof.
  induction l as [|y l IH]; simpl; [set_solver|].
  destruct (p y) eqn:E; [|rewrite IH; set_solver].
  split; [done|]. intros H. rewrite (H y ltac:(left)) in E. done.
Qed.
End lists.

#[export] Hint Resolve find_first_Some : srv.

(** ** Reachability

    The reflexive-transitive closure preserves every invariant that one step
    preserves. *)
Lemma rtc_invariant {S} (R : relation S) (Inv : S → Prop) :
  (∀ s s', R s s' → Inv s → Inv s') → ∀ s s', rtc R s s' → Inv s → Inv s'.
Proof. intros HR s s' Hs. induction Hs; eauto. Qed.
