(* ===== verification/GoStrings.v ===== *)
(** * Go strings

    Go strings and byte slices are byte sequences, modelled by [string].  This
    file holds the functions of [strings] and [strconv] that the server uses,
    with the lemmas the components need: prefixes, searching, splitting, white
    space, case, and decimal integers with their round trip. *)

From stdpp Require Import base list strings.
From Stdlib Require Import ZArith NArith Lia.
From S2P Require Import Prelude.

Local Open Scope string_scope.
Local Open Scope nat_scope.

(** ** Concatenation *)

Lemma sapp_cons c a b : String c a +:+ b = String c (a +:+ b).
Proof. reflexivity. Qed.
Lemma sapp_nil_l s : "" +:+ s = s.
Proof. reflexivity. Qed.
Lemma sapp_nil_r s : s +:+ "" = s.
Proof. induction s as [|c s IH]; [done|]. rewrite sapp_cons. by rewrite IH. Qed.
Lemma sapp_assoc a b c : (a +:+ b) +:+ c = a +:+ (b +:+ c).
Proof. induction a as [|x a IH]; [done|]. rewrite !sapp_cons. by rewrite IH. Qed.
Lemma sapp_inj_l a b c : a +:+ b = a +:+ c → b = c.
Proof. induction a as [|x a IH]; [done|]. rewrite !sapp_cons. by intros [= ?%IH]. Qed.
Lemma slength_app a b : String.length (a +:+ b) = String.length a + String.length b.
Proof. induction a as [|x a IH]; [done|]. rewrite sapp_cons; simpl; by rewrite IH. Qed.
Lemma sapp_inj_len a b c d :
  String.length a = String.length c → a +:+ b = c +:+ d → a = c ∧ b = d.
Proof.
  revert c. induction a as [|x a IH]; intros [|y c]; simpl; try done.
  rewrite !sapp_cons. intros [=Hl] [= -> He]. by destruct (IH c Hl He) as [-> ->].
Qed.

Lemma sapp_inj_len_r a b c d :
  String.length b = String.length d → a +:+ b = c +:+ d → a = c ∧ b = d.
Proof.
  intros Hl He. apply sapp_inj_len; [|done].
  apply (f_equal String.length) in He. rewrite !slength_app in He. lia.
Qed.

(** ** Characters *)

Fixpoint sall (p : Ascii.ascii → bool) (s : string) : bool :=
  match s with "" => true | String c s' => p c && sall p s' end.

Lemma sall_app p a b : sall p (a +:+ b) = sall p a && sall p b.
Proof. induction a as [|c a IH]; [done|]. rewrite sapp_cons. simpl. by rewrite IH, andb_assoc. Qed.

Lemma sall_impl (p q : Ascii.ascii → bool) s :
  (∀ c, p c = true → q c = true) → sall p s = true → sall q s = true.
Proof.
  intros Hpq. induction s as [|c s IH]; simpl; [done|].
  intros [? ?]%andb_true_iff. apply andb_true_iff; auto.
Qed.

(** [no_byte c s]: the byte [c] does not occur in [s]. *)
Definition no_byte (c : Ascii.ascii) (s : string) : bool :=
  sall (λ x, negb (Ascii.eqb x c)) s.

Lemma no_byte_app c a b : no_byte c (a +:+ b) = no_byte c a && no_byte c b.
Proof. apply sall_app. Qed.

Lemma no_byte_cons_ne c x s : no_byte c (String x s) = true ↔ x ≠ c ∧ no_byte c s = true.
Proof.
  unfold no_byte; simpl. rewrite andb_true_iff, negb_true_iff, Ascii.eqb_neq. done.
Qed.

Fixpoint sdrop (n : nat) (s : string) : string :=
  match n, s with
  | 0, _ => s
  | S n', String _ s' => sdrop n' s'
  | S _, "" => ""
  end.

Fixpoint stake (n : nat) (s : string) : string :=
  match n, s with
  | S n', String c s' => String c (stake n' s')
  | _, _ => ""
  end.

Lemma stake_sdrop n s : stake n s +:+ sdrop n s = s.
Proof.
  revert s. induction n as [|n IH]; intros [|c s]; simpl; try done.
  rewrite sapp_cons. by rewrite IH.
Qed.
Lemma stake_app a b : stake (String.length a) (a +:+ b) = a.
Proof. induction a as [|c a IH]; [by destruct b|]. rewrite sapp_cons; simpl. by rewrite IH. Qed.
Lemma sdrop_app a b : sdrop (String.length a) (a +:+ b) = b.
Proof. induction a as [|c a IH]; [done|]. rewrite sapp_cons; simpl. done. Qed.
Lemma stake_all n s : String.length s ≤ n → stake n s = s.
Proof.
  revert s; induction n as [|n IH]; intros [|c s]; simpl; try done; intros; [lia|].
  rewrite IH by lia. done.
Qed.

(** A buffer of [n] bytes filled from [s]. *)
Fixpoint fit (n : nat) (s : string) : string :=
  match n with
  | O => ""
  | S n' => match s with String c s' => String c (fit n' s') | EmptyString => String (Ascii.ascii_of_nat 48) (fit n' "") end
  end.

Lemma fit_length n s : String.length (fit n s) = n.
Proof. revert s. induction n as [|n IH]; intros [|c s]; simpl; auto. Qed.
Lemma fit_id s : fit (String.length s) s = s.
Proof. induction s as [|c s IH]; simpl; [done|]. by rewrite IH. Qed.

(** ** [strings.HasPrefix], [strings.TrimPrefix] *)

Fixpoint has_prefix (p s : string) : bool :=
  match p, s with
  | "", _ => true
  | String a p', String b s' => Ascii.eqb a b && has_prefix p' s'
  | String _ _, "" => false
  end.

Definition trim_prefix (p s : string) : string :=
  if has_prefix p s then sdrop (String.length p) s else s.

Lemma has_prefix_app p s : has_prefix p (p +:+ s) = true.
Proof. induction p as [|c p IH]; [done|]. rewrite sapp_cons; simpl. by rewrite Ascii.eqb_refl. Qed.

Lemma has_prefix_spec p s : has_prefix p s = true ↔ ∃ t, s = p +:+ t.
Proof.
  split; [|intros [t ->]; apply has_prefix_app].
  revert s. induction p as [|c p IH]; intros s; simpl; [by exists s|].
  destruct s as [|d s]; [done|]. intros [->%Ascii.eqb_eq [t ->]%IH]%andb_true_iff.
  by exists t.
Qed.

Lemma trim_prefix_app p s : trim_prefix p (p +:+ s) = s.
Proof. unfold trim_prefix. rewrite has_prefix_app. apply sdrop_app. Qed.

(** ** [strings.IndexByte]: [None] is Go's [-1]. *)

Fixpoint index_byte (c : Ascii.ascii) (s : string) : option nat :=
  match s with
  | "" => None
  | String x s' => if Ascii.eqb x c then Some 0 else S <$> index_byte c s'
  end.

Lemma index_byte_Some c s i :
  index_byte c s = Some i ↔
  ∃ a b, s = a +:+ String c b ∧ no_byte c a = true ∧ String.length a = i.
Proof.
  revert i. induction s as [|x s IH]; intros i; simpl.
  - split; [done|]. intros ([|??]&?&?&_); done.
  - destruct (Ascii.eqb x c) eqn:E.
    + apply Ascii.eqb_eq in E as ->. split.
      * intros [= <-]. by exists "", s.
      * intros (a&b&Hs&Hn&<-). destruct a as [|y a]; [done|].
        rewrite sapp_cons in Hs. simplify_eq.
        apply no_byte_cons_ne in Hn as [? _]. done.
    + apply Ascii.eqb_neq in E. rewrite fmap_Some. split.
      * intros (j&(a&b&->&Hn&<-)%IH&->). exists (String x a), b.
        split; [done|]. split; [by apply no_byte_cons_ne|done].
      * intros (a&b&Hs&Hn&<-). destruct a as [|y a]; [rewrite sapp_nil_l in Hs; simplify_eq|].
        rewrite sapp_cons in Hs. simplify_eq. apply no_byte_cons_ne in Hn as [_ Hn].
        eexists. split; [apply IH; eauto|done].
Qed.

Lemma index_byte_app c a b : no_byte c a = true → index_byte c (a +:+ String c b) = Some (String.length a).
Proof. intros. apply index_byte_Some. eauto. Qed.

Lemma index_byte_None c s : index_byte c s = None ↔ no_byte c s = true.
Proof.
  induction s as [|x s IH]; [done|]. rewrite no_byte_cons_ne, <- IH. simpl.
  destruct (Ascii.eqb x c) eqn:E.
  - apply Ascii.eqb_eq in E. split; [done|]. by intros [? _].
  - apply Ascii.eqb_neq in E. rewrite fmap_None. naive_solver.
Qed.

(** ** [strings.Contains] *)

Fixpoint contains (sub s : string) : bool :=
  has_prefix sub s || match s with "" => false | String _ s' => contains sub s' end.

Lemma contains_spec sub s : contains sub s = true ↔ ∃ a b, s = a +:+ sub +:+ b.
Proof.
  induction s as [|x s IH]; simpl.
  - rewrite orb_false_r, has_prefix_spec. split.
    + intros [t Ht]. by exists "", t.
    + intros ([|??]&t&Ht); [|done]. by exists t.
  - rewrite orb_true_iff, IH, has_prefix_spec. split.
    + intros [[t Ht]|(a&b&->)]; [by exists "", t|by exists (String x a), b].
    + intros ([|y a]&b&Hs); [left; by exists b|right].
      rewrite sapp_cons in Hs. simplify_eq. eauto.
Qed.

(** ** [strings.Split] with a one-byte separator *)

Fixpoint split_on (c : Ascii.ascii) (s : string) : list string :=
  match s with
  | "" => [""]
  | String x s' =>
      if Ascii.eqb x c then "" :: split_on c s'
      else match split_on c s' with
           | p :: ps => String x p :: ps
           | [] => [String x ""]
           end
  end.

Lemma split_on_no_byte c s : no_byte c s = true → split_on c s = [s].
Proof.
  induction s as [|x s IH]; [done|]. rewrite no_byte_cons_ne. intros [Hx Hs]. simpl.
  apply Ascii.eqb_neq in Hx. rewrite Hx. by rewrite IH.
Qed.

Lemma split_on_app c a b :
  no_byte c a = true → split_on c (a +:+ String c b) = a :: split_on c b.
Proof.
  induction a as [|x a IH]; rewrite ?sapp_nil_l, ?sapp_cons; simpl.
  - by rewrite Ascii.eqb_refl.
  - intros [Hx Ha]%no_byte_cons_ne. apply Ascii.eqb_neq in Hx. rewrite Hx. by rewrite IH.
Qed.

(** [strings.SplitN s c 3]. *)
Definition split_n3 (c : Ascii.ascii) (s : string) : list string :=
  match index_byte c s with
  | None => [s]
  | Some i =>
      let r := sdrop (S i) s in
      match index_byte c r with
      | None => [stake i s; r]
      | Some j => [stake i s; stake j r; sdrop (S j) r]
      end
  end.

Lemma sdrop_S_app a c b : sdrop (S (String.length a)) (a +:+ String c b) = b.
Proof. induction a as [|x a IH]; [done|]. rewrite sapp_cons. exact IH. Qed.

Lemma split_n3_app c a b d :
  no_byte c a = true → no_byte c b = true →
  split_n3 c (a +:+ String c (b +:+ String c d)) = [a; b; d].
Proof.
  intros Ha Hb. unfold split_n3. rewrite index_byte_app by done.
  rewrite sdrop_S_app, index_byte_app by done.
  by rewrite sdrop_S_app, !stake_app.
Qed.

Lemma split_n3_iff c s a b d :
  split_n3 c s = [a; b; d] ↔
  s = a +:+ String c (b +:+ String c d) ∧ no_byte c a = true ∧ no_byte c b = true.
Proof.
  split; [|intros (->&?&?); by apply split_n3_app].
  unfold split_n3. destruct (index_byte c s) as [i|] eqn:Ei; [|done].
  apply index_byte_Some in Ei as (a'&r&->&Ha&<-). rewrite sdrop_S_app, stake_app.
  destruct (index_byte c r) as [j|] eqn:Ej; [|done].
  apply index_byte_Some in Ej as (b'&d'&->&Hb&<-). rewrite sdrop_S_app, stake_app.
  by intros [= -> -> ->].
Qed.

(** ** [strings.TrimSpace]

    The UTF-8 encodings of the code points with the Unicode property
    White_Space. *)

Definition chr (n : nat) : Ascii.ascii := Ascii.ascii_of_nat n.
Definition bytes (l : list nat) : string := foldr (λ n s, String (chr n) s) "" l.

Definition space_runes : list string :=
  map (λ n, bytes [n]) [9; 10; 11; 12; 13; 32] ++
  map bytes [[194; 133]; [194; 160]; [225; 154; 128]] ++
  map (λ n, bytes [226; 128; n]) (seq 128 11) ++
  map bytes [[226; 128; 168]; [226; 128; 169]; [226; 128; 175]; [226; 129; 159]; [227; 128; 128]].

(** Drop one leading rune of the table. *)
Definition strip_rune (rs : list string) (s : string) : option string :=
  match find_first (λ r, has_prefix r s) rs with
  | Some r => Some (sdrop (String.length r) s)
  | None => None
  end.

Fixpoint strip_runes (fuel : nat) (rs : list string) (s : string) : string :=
  match fuel with
  | 0 => s
  | S f => match strip_rune rs s with Some s' => strip_runes f rs s' | None => s end
  end.

Fixpoint srev_app (s acc : string) : string :=
  match s with "" => acc | String c s' => srev_app s' (String c acc) end.
Definition srev (s : string) : string := srev_app s "".

Definition trim_left (s : string) : string := strip_runes (String.length s) space_runes s.
Definition trim_right (s : string) : string :=
  srev (strip_runes (String.length s) (map srev space_runes) (srev s)).
Definition trim_space (s : string) : string := trim_right (trim_left s).

Example trim_space_ex : trim_space " 	tg_a_b 
" = "tg_a_b".
Proof. vm_compute. reflexivity. Qed.

(** ** [strings.ToLower]

    Exact on ASCII and on the two non-ASCII code points whose lower case is an
    ASCII letter (U+0130 and U+212A); the bytes of other non-ASCII runes are
    kept, which every caller only compares with ASCII words. *)

Definition lower_ascii (c : Ascii.ascii) : Ascii.ascii :=
  let n := Ascii.nat_of_ascii c in
  if (65 <=? n)%nat && (n <=? 90)%nat then chr (n + 32) else c.

Fixpoint to_lower (s : string) : string :=
  match s with
  | String a (String b s' as t) =>
      if Ascii.eqb a (chr 196) && Ascii.eqb b (chr 176) then String (chr 105) (to_lower s')
      else match s' with
           | String c s'' =>
               if Ascii.eqb a (chr 226) && Ascii.eqb b (chr 132) && Ascii.eqb c (chr 170)
               then String (chr 107) (to_lower s'')
               else String (lower_ascii a) (to_lower t)
           | "" => String (lower_ascii a) (to_lower t)
           end
  | String a "" => String (lower_ascii a) ""
  | "" => ""
  end.

Example to_lower_ex : to_lower "Chat NOT Found" = "chat not found".
Proof. vm_compute. reflexivity. Qed.

(** ** Decimal integers: [strconv.FormatInt], [strconv.ParseInt], [%d] *)

Definition digit (d : N) : Ascii.ascii := Ascii.ascii_of_N (48 + d).
Definition digit_val (c : Ascii.ascii) : option N :=
  let n := Ascii.N_of_ascii c in
  if (48 <=? n)%N && (n <=? 57)%N then Some (n - 48)%N else None.

Fixpoint format_aux (fuel : nat) (n : N) (acc : string) : string :=
  match fuel with
  | 0 => acc
  | S f => let acc' := String (digit (n mod 10)) acc in
           if (n <? 10)%N then acc' else format_aux f (n / 10) acc'
  end.

Definition format_uint (n : N) : string := format_aux (S (N.size_nat n)) n "".

Definition format_int (z : Z) : string :=
  if (z <? 0)%Z then String (chr 45) (format_uint (Z.to_N (- z))) else format_uint (Z.to_N z).

Fixpoint parse_digits (acc : N) (s : string) : option N :=
  match s with
  | "" => Some acc
  | String c s' => match digit_val c with
                   | Some d => parse_digits (acc * 10 + d) s'
                   | None => None
                   end
  end.

Definition parse_uint (s : string) : option N :=
  match s with "" => None | _ => parse_digits 0 s end.

(** [strconv.ParseInt s 10 64]: an optional sign, digits, and the range. *)
Definition parse_int (s : string) : option Z :=
  let '(neg, r) :=
    match s with
    | String c s' => if Ascii.eqb c (chr 45) then (true, s')
                     else if Ascii.eqb c (chr 43) then (false, s') else (false, s)
    | "" => (false, s)
    end in
  match parse_uint r with
  | Some n => let z := if neg : bool then (- Z.of_N n)%Z else Z.of_N n in
              if in_int64 z then Some z else None
  | None => None
  end.

Lemma digit_val_digit d : (d < 10)%N → digit_val (digit d) = Some d.
Proof.
  intros Hd. unfold digit_val, digit. rewrite Ascii.N_ascii_embedding by lia.
  rewrite (proj2 (N.leb_le _ _)), (proj2 (N.leb_le _ _)) by lia. simpl. f_equal. lia.
Qed.

Lemma parse_format_aux fuel n acc :
  (n < 2 ^ N.of_nat fuel)%N → fuel ≠ 0 →
  parse_digits 0 (format_aux fuel n acc) = parse_digits n acc.
Proof.
  revert n acc. induction fuel as [|f IH]; intros n acc Hn Hf; [done|].
  simpl format_aux. destruct (N.ltb_spec n 10).
  - simpl. rewrite N.mod_small by lia. rewrite digit_val_digit by lia. done.
  - assert (Hd : (n / 10 < 2 ^ N.of_nat f)%N).
    { apply N.Div0.div_lt_upper_bound.
      rewrite Nat2N.inj_succ, N.pow_succ_r' in Hn. lia. }
    rewrite IH; [| exact Hd | intros ->; simpl in Hd; lia].
    simpl. rewrite digit_val_digit by (apply N.mod_lt; lia).
    f_equal. rewrite (N.div_mod' n 10) at 3. lia.
Qed.

Lemma size_nat_gt n : (n < 2 ^ N.of_nat (N.size_nat n))%N.
Proof.
  destruct n as [|p]; [simpl; lia|]. unfold N.size_nat.
  induction p as [p IH|p IH|]; rewrite ?Nat2N.inj_succ; simpl Pos.size_nat;
    rewrite ?Nat2N.inj_succ, ?N.pow_succ_r' by lia; simpl; lia.
Qed.

Lemma format_aux_nonempty fuel n acc : fuel ≠ 0 → format_aux fuel n acc ≠ "".
Proof.
  assert (∀ f m s, s ≠ "" → format_aux f m s ≠ "") as Hne.
  { induction f as [|f IH]; intros m s Hs; simpl; [done|].
    destruct (m <? 10)%N; [done|]. by apply IH. }
  destruct fuel; [done|]; intros _; simpl. destruct (n <? 10)%N; [done|]. by apply Hne.
Qed.

Lemma parse_format_uint n : parse_uint (format_uint n) = Some n.
Proof.
  unfold parse_uint, format_uint.
  destruct (format_aux (S (N.size_nat n)) n "") as [|c s] eqn:E.
  - by apply format_aux_nonempty in E.
  - rewrite <- E, parse_format_aux; [done| |done].
    rewrite Nat2N.inj_succ, N.pow_succ_r'. pose proof (size_nat_gt n). lia.
Qed.

Definition is_digit (c : Ascii.ascii) : bool := bool_decide (is_Some (digit_val c)).

Lemma is_digit_digit d : (d < 10)%N → is_digit (digit d) = true.
Proof. intros. apply bool_decide_eq_true. rewrite digit_val_digit by done. eauto. Qed.

Lemma format_aux_digits fuel n acc :
  sall is_digit acc = true → sall is_digit (format_aux fuel n acc) = true.
Proof.
  revert n acc. induction fuel as [|f IH]; intros n acc Ha; simpl; [done|].
  assert (sall is_digit (String (digit (n mod 10)) acc) = true).
  { simpl. rewrite is_digit_digit, Ha; [done|]. apply N.mod_lt; lia. }
  destruct (n <? 10)%N; auto.
Qed.

Lemma format_uint_digits n : sall is_digit (format_uint n) = true.
Proof. by apply format_aux_digits. Qed.

Lemma digit_not c d : digit_val d = None → is_digit c = true → Ascii.eqb c d = false.
Proof.
  intros Hd [x Hx]%bool_decide_eq_true. apply Ascii.eqb_neq. intros ->. congruence.
Qed.

(** A decimal number contains no byte that is not a digit. *)
Lemma format_uint_no_byte c n : digit_val c = None → no_byte c (format_uint n) = true.
Proof.
  intros Hc. eapply sall_impl; [|apply format_uint_digits].
  intros x Hx. simpl. by rewrite (digit_not x c).
Qed.

Lemma format_int_no_byte c z :
  digit_val c = None → c ≠ chr 45 → no_byte c (format_int z) = true.
Proof.
  intros Hc Hm. unfold format_int. destruct (z <? 0)%Z; [|by apply format_uint_no_byte].
  apply no_byte_cons_ne. split; [congruence|]. by apply format_uint_no_byte.
Qed.

(** The round trip of decimal 64-bit integers. *)
Lemma parse_format_int z : in_int64 z = true → parse_int (format_int z) = Some z.
Proof.
  intros Hz. unfold format_int. destruct (Z.ltb_spec z 0).
  - unfold parse_int. simpl. rewrite parse_format_uint. rewrite Z2N.id by lia.
    rewrite Z.opp_involutive. by rewrite Hz.
  - unfold parse_int. pose proof (format_uint_digits (Z.to_N z)) as Hd.
    pose proof (parse_format_uint (Z.to_N z)) as Hp.
    destruct (format_uint (Z.to_N z)) as [|c s]; [done|].
    simpl in Hd. apply andb_true_iff in Hd as [Hc _].
    rewrite (digit_not c (chr 45)), (digit_not c (chr 43)) by done.
    rewrite Hp, Z2N.id by lia. by rewrite Hz.
Qed.

Lemma format_uint_inj x y : format_uint x = format_uint y → x = y.
Proof. intros H. apply (f_equal parse_uint) in H. rewrite !parse_format_uint in H. congruence. Qed.

Lemma format_uint_no_minus n s : format_uint n ≠ String (chr 45) s.
Proof.
  intros H. pose proof (format_uint_no_byte (chr 45) n eq_refl) as Hn. rewrite H in Hn.
  by apply no_byte_cons_ne in Hn as [? _].
Qed.

Lemma format_int_inj x y : format_int x = format_int y → x = y.
Proof.
  unfold format_int. destruct (Z.ltb_spec x 0), (Z.ltb_spec y 0); intros Heq.
  - injection Heq as Heq. apply format_uint_inj in Heq. lia.
  - by symmetry in Heq; apply format_uint_no_minus in Heq.
  - by apply format_uint_no_minus in Heq.
  - apply format_uint_inj in Heq. lia.
Qed.

(** ** Unicode

    [utf8_ok]: valid UTF-8 without the NUL byte, which is what a PostgreSQL
    [text] parameter accepts. *)
Definition in_range (c : Ascii.ascii) (lo hi : nat) : bool :=
  (lo <=? Ascii.nat_of_ascii c) && (Ascii.nat_of_ascii c <=? hi).

Fixpoint utf8_ok (s : string) : bool :=
  match s with
  | "" => true
  | String c s1 =>
      if in_range c 1 127 then utf8_ok s1
      else match s1 with
      | "" => false
      | String c1 s2 =>
          if in_range c 194 223 then in_range c1 128 191 && utf8_ok s2
          else match s2 with
          | "" => false
          | String c2 s3 =>
              let ok2 := in_range c2 128 191 in
              if in_range c 224 239 then
                (if Ascii.eqb c (chr 224) then in_range c1 160 191
                 else if Ascii.eqb c (chr 237) then in_range c1 128 159
                 else in_range c1 128 191) && ok2 && utf8_ok s3
              else match s3 with
              | "" => false
              | String c3 s4 =>
                  in_range c 240 244 &&
                  (if Ascii.eqb c (chr 240) then in_range c1 144 191
                   else if Ascii.eqb c (chr 244) then in_range c1 128 143
                   else in_range c1 128 191) && ok2 && in_range c3 128 191 && utf8_ok s4
              end
          end
      end
  end.

(** The length of the valid encoding at the head of a string, 0 if there is
    none ([utf8.DecodeRune] then reports one byte as U+FFFD). *)
Definition utf8_head (s : string) : nat :=
  match s with
  | "" => 0
  | String c s1 =>
      if in_range c 0 127 then 1
      else match s1 with
      | "" => 0
      | String c1 s2 =>
          if in_range c 194 223 then (if in_range c1 128 191 then 2 else 0)
          else match s2 with
          | "" => 0
          | String c2 s3 =>
              let ok2 := in_range c2 128 191 in
              if in_range c 224 239 then
                (if (if Ascii.eqb c (chr 224) then in_range c1 160 191
                     else if Ascii.eqb c (chr 237) then in_range c1 128 159
                     else in_range c1 128 191) && ok2 then 3 else 0)
              else match s3 with
              | "" => 0
              | String c3 _ =>
                  if in_range c 240 244 &&
                     (if Ascii.eqb c (chr 240) then in_range c1 144 191
                      else if Ascii.eqb c (chr 244) then in_range c1 128 143
                      else in_range c1 128 191) && ok2 && in_range c3 128 191 then 4 else 0
              end
          end
      end
  end.

(** [utf8.RuneCountInString], [utf8.Valid], and the text that [json.Marshal]
    writes for a string: invalid bytes become U+FFFD. *)
Fixpoint rune_count_aux (fuel : nat) (s : string) : nat :=
  match fuel, s with
  | S f, String _ _ => S (rune_count_aux f (sdrop (Nat.max 1 (utf8_head s)) s))
  | _, _ => 0
  end.
Definition rune_count (s : string) : nat := rune_count_aux (String.length s) s.

Fixpoint utf8_valid_aux (fuel : nat) (s : string) : bool :=
  match fuel, s with
  | S f, String _ _ => (1 <=? utf8_head s) && utf8_valid_aux f (sdrop (utf8_head s) s)
  | _, _ => true
  end.
Definition utf8_valid (s : string) : bool := utf8_valid_aux (String.length s) s.

Fixpoint to_valid_aux (fuel : nat) (s : string) : string :=
  match fuel, s with
  | S f, String _ _ =>
      let n := utf8_head s in
      if 1 <=? n then stake n s +:+ to_valid_aux f (sdrop n s)
      else bytes [239; 191; 189] +:+ to_valid_aux f (sdrop 1 s)
  | _, _ => ""
  end.
Definition to_valid_utf8 (s : string) : string := to_valid_aux (String.length s) s.

Lemma utf8_ok_head s : utf8_ok s = true → s ≠ "" → 1 <= utf8_head s /\ utf8_ok (sdrop (utf8_head s) s) = true.
Proof.
  destruct s as [|c s1]; [done|]. intros H _. cbn [utf8_ok] in H. unfold utf8_head.
  destruct (in_range c 1 127) eqn:E1.
  { assert (in_range c 0 127 = true) as ->; [|by split; [lia|]].
    unfold in_range in *. apply andb_true_iff in E1 as [_ ->]. apply andb_true_iff. by split. }
  assert (in_range c 0 127 = false ∨ c = chr 0) as [E0|Hz].
  { destruct (in_range c 0 127) eqn:E0; [right|by left]. unfold in_range in *.
    apply andb_true_iff in E0 as [_ E0]. rewrite E0, andb_true_r in E1. apply Nat.leb_gt in E1.
    rewrite <- (Ascii.ascii_nat_embedding c). unfold chr. f_equal. lia. }
  2:{ subst c. by destruct s1 as [|c1 [|c2 [|c3 s1]]]. }
  rewrite E0. destruct s1 as [|c1 s2]; [done|].
  destruct (in_range c 194 223) eqn:E2.
  { apply andb_true_iff in H as [-> H]. split; [lia|done]. }
  destruct s2 as [|c2 s3]; [done|]. cbv zeta in *.
  destruct (in_range c 224 239) eqn:E3.
  { apply andb_true_iff in H as [-> H]. split; [lia|done]. }
  destruct s3 as [|c3 s4]; [done|]. apply andb_true_iff in H as [-> H]. split; [lia|done].
Qed.

Lemma slength_sdrop n s : String.length (sdrop n s) = String.length s - n.
Proof. revert s. induction n as [|n IH]; intros [|c s]; simpl; try done; lia. Qed.

Lemma to_valid_id s : utf8_ok s = true → to_valid_utf8 s = s.
Proof.
  intros H. unfold to_valid_utf8. assert (String.length s ≤ String.length s) as Hl by lia.
  revert Hl H. generalize (String.length s) at 2 3 as fuel. intros fuel. revert s.
  induction fuel as [|fuel IH]; intros s Hl H; [by destruct s; simpl in *; [|lia]|].
  destruct s as [|c s]; [done|]. destruct (utf8_ok_head _ H) as [H1 H2]; [done|].
  cbn [to_valid_aux]. apply Nat.leb_le in H1 as Hb. rewrite Hb, IH; [apply stake_sdrop| |done].
  rewrite slength_sdrop. simpl in *. lia.
Qed.

(** Case folding as [regexp] and [encoding/json] do it on ASCII patterns: ASCII
    letters to lower case, LATIN SMALL LETTER LONG S to [s] and KELVIN SIGN to
    [k]. *)
Fixpoint fold_case (s : string) : string :=
  match s with
  | "" => ""
  | String c s1 =>
      match s1 with
      | String c1 s2 =>
          if Ascii.eqb c (chr 197) && Ascii.eqb c1 (chr 191) then String (chr 115) (fold_case s2)
          else match s2 with
          | String c2 s3 =>
              if Ascii.eqb c (chr 226) && Ascii.eqb c1 (chr 132) && Ascii.eqb c2 (chr 170)
              then String (chr 107) (fold_case s3)
              else String (lower_ascii c) (fold_case s1)
          | "" => String (lower_ascii c) (fold_case s1)
          end
      | "" => String (lower_ascii c) ""
      end
  end.

Example fold_kelvin : fold_case (bytes [226; 132; 170] +:+ "EY_T") = "key_t".
Proof. reflexivity. Qed.

(** ** [%q]

    The escapes of [strconv.Quote] on ASCII; other bytes are taken to belong to
    printable runes and are copied. *)
Definition hex_nibble (n : nat) : Ascii.ascii := if n <? 10 then chr (48 + n) else chr (87 + n).

Definition quote_byte (c : Ascii.ascii) (rest : string) : string :=
  let n := Ascii.nat_of_ascii c in
  let esc1 (d : nat) := String (chr 92) (String (chr d) rest) in
  match n with
  | 7 => esc1 97 | 8 => esc1 98 | 9 => esc1 116 | 10 => esc1 110 | 11 => esc1 118
  | 12 => esc1 102 | 13 => esc1 114 | 34 => esc1 34 | 92 => esc1 92
  | _ => if (n <? 32) || (n =? 127)
         then String (chr 92) (String (chr 120) (String (hex_nibble (n / 16)) (String (hex_nibble (n mod 16)) rest)))
         else String c rest
  end.

Fixpoint quote_body (s : string) : string :=
  match s with "" => String (chr 34) "" | String c s' => quote_byte c (quote_body s') end.

Definition go_quote (s : string) : string := String (chr 34) (quote_body s).
