(* ===== verification/Encoding.v ===== *)
(** * Byte encodings

    [encoding/hex] and [encoding/base64] (RawStdEncoding) as the server uses
    them, with the round trips the credential formats rest on. *)

From stdpp Require Import base list strings.
From Stdlib Require Import ZArith NArith Lia.
From S2P Require Import Prelude GoStrings.

Local Open Scope string_scope.
Local Open Scope N_scope.

Definition byte_val (c : Ascii.ascii) : N := Ascii.N_of_ascii c.
Definition byte_of (n : N) : Ascii.ascii := Ascii.ascii_of_N n.

Lemma byte_val_lt c : byte_val c < 256.
Proof. apply Ascii.N_ascii_bounded. Qed.
Lemma byte_of_val c : byte_of (byte_val c) = c.
Proof. apply Ascii.ascii_N_embedding. Qed.

(** ** Hex *)

Definition hex_digit (n : N) : Ascii.ascii :=
  if n <? 10 then byte_of (48 + n) else byte_of (87 + n).

(** [hex.EncodeToString]. *)
Fixpoint hex_encode (s : string) : string :=
  match s with
  | "" => ""
  | String c s' => String (hex_digit (byte_val c / 16)) (String (hex_digit (byte_val c mod 16)) (hex_encode s'))
  end.

Lemma hex_encode_length s : String.length (hex_encode s) = (2 * String.length s)%nat.
Proof. induction s as [|c s IH]; simpl; [done|]. rewrite IH. lia. Qed.

Definition is_hex (c : Ascii.ascii) : bool :=
  let n := byte_val c in ((48 <=? n) && (n <=? 57)) || ((97 <=? n) && (n <=? 102)).

(** Every number below [n] satisfies a boolean test: used to discharge facts
    about the digits of a small alphabet by evaluation. *)
Definition all_below (n : nat) (p : N → bool) : bool := forallb (λ i, p (N.of_nat i)) (seq 0 n).

Lemma all_below_spec n p i : all_below n p = true → i < N.of_nat n → p i = true.
Proof.
  unfold all_below. rewrite forallb_forall. intros H Hi.
  rewrite <- (N2Nat.id i). apply H. apply in_seq. lia.
Qed.

Lemma hex_digit_is_hex n : n < 16 → is_hex (hex_digit n) = true.
Proof. intros. by apply (all_below_spec 16 (λ n, is_hex (hex_digit n))). Qed.

Lemma hex_encode_is_hex s : sall is_hex (hex_encode s) = true.
Proof.
  induction s as [|c s IH]; simpl; [done|].
  pose proof (byte_val_lt c).
  rewrite !hex_digit_is_hex, IH; [done| |].
  - apply N.mod_lt. lia.
  - apply N.Div0.div_lt_upper_bound. lia.
Qed.

Lemma hex_digit_inj a b : a < 16 → b < 16 → hex_digit a = hex_digit b → a = b.
Proof.
  intros Ha Hb He.
  pose proof (all_below_spec 16 (λ a, all_below 16 (λ b, negb (Ascii.eqb (hex_digit a) (hex_digit b)) || (a =? b)))
    a eq_refl Ha) as H1. simpl in H1.
  pose proof (all_below_spec 16 _ b H1 Hb) as H2. simpl in H2.
  rewrite He, Ascii.eqb_refl in H2. by apply N.eqb_eq.
Qed.

Lemma hex_encode_inj s t : hex_encode s = hex_encode t → s = t.
Proof.
  revert t. induction s as [|c s IH]; intros [|d t]; simpl; try done.
  intros [= H1 H2 ->%IH]. f_equal. rewrite <- (byte_of_val c), <- (byte_of_val d). f_equal.
  pose proof (byte_val_lt c). pose proof (byte_val_lt d).
  apply hex_digit_inj in H1; [|by apply N.Div0.div_lt_upper_bound..].
  apply hex_digit_inj in H2; [|by apply N.mod_lt..].
  rewrite (N.div_mod' (byte_val c) 16), (N.div_mod' (byte_val d) 16). by rewrite H1, H2.
Qed.

Lemma hex_no_byte c s : is_hex c = false → no_byte c (hex_encode s) = true.
Proof.
  intros Hc. eapply sall_impl; [|apply hex_encode_is_hex].
  intros x Hx; simpl. apply negb_true_iff, Ascii.eqb_neq. intros ->. congruence.
Qed.

(** ** Base64, RawStdEncoding (no padding) *)

Definition b64_char (n : N) : Ascii.ascii :=
  if n <? 26 then byte_of (65 + n)
  else if n <? 52 then byte_of (71 + n)
  else if n <? 62 then byte_of (n - 4)
  else if n =? 62 then byte_of 43 else byte_of 47.

Definition b64_val (c : Ascii.ascii) : option N :=
  let n := byte_val c in
  if (65 <=? n) && (n <=? 90) then Some (n - 65)
  else if (97 <=? n) && (n <=? 122) then Some (n - 71)
  else if (48 <=? n) && (n <=? 57) then Some (n + 4)
  else if n =? 43 then Some 62
  else if n =? 47 then Some 63
  else None.

(** [EncodeToString]: three bytes give four sextets; one or two remaining
    bytes give two or three. *)
Fixpoint b64_encode (s : string) : string :=
  match s with
  | String a (String b (String c s')) =>
      let v := byte_val a * 65536 + byte_val b * 256 + byte_val c in
      String (b64_char (v / 262144)) (String (b64_char (v / 4096 mod 64))
        (String (b64_char (v / 64 mod 64)) (String (b64_char (v mod 64)) (b64_encode s'))))
  | String a (String b "") =>
      let v := byte_val a * 256 + byte_val b in
      String (b64_char (v / 1024)) (String (b64_char (v / 16 mod 64))
        (String (b64_char (v mod 16 * 4)) ""))
  | String a "" =>
      let v := byte_val a in
      String (b64_char (v / 4)) (String (b64_char (v mod 4 * 16)) "")
  | "" => ""
  end.

(** The decoder skips CR and LF. *)
Fixpoint drop_crlf (s : string) : string :=
  match s with
  | "" => ""
  | String c s' => if (byte_val c =? 10) || (byte_val c =? 13) then drop_crlf s' else String c (drop_crlf s')
  end.

Fixpoint b64_decode_quanta (s : string) : option string :=
  match s with
  | String a (String b (String c (String d s'))) =>
      match b64_val a, b64_val b, b64_val c, b64_val d, b64_decode_quanta s' with
      | Some a, Some b, Some c, Some d, Some r =>
          let v := a * 262144 + b * 4096 + c * 64 + d in
          Some (String (byte_of (v / 65536)) (String (byte_of (v / 256 mod 256)) (String (byte_of (v mod 256)) r)))
      | _, _, _, _, _ => None
      end
  | String a (String b (String c "")) =>
      match b64_val a, b64_val b, b64_val c with
      | Some a, Some b, Some c =>
          let v := a * 4096 + b * 64 + c in
          Some (String (byte_of (v / 1024)) (String (byte_of (v / 4 mod 256)) ""))
      | _, _, _ => None
      end
  | String a (String b "") =>
      match b64_val a, b64_val b with
      | Some a, Some b => Some (String (byte_of ((a * 64 + b) / 16)) "")
      | _, _ => None
      end
  | String _ "" => None
  | "" => Some ""
  end.

(** [DecodeString]; [None] is a CorruptInputError. *)
Definition b64_decode (s : string) : option string := b64_decode_quanta (drop_crlf s).

Lemma b64_val_char n : n < 64 → b64_val (b64_char n) = Some n.
Proof.
  intros Hn.
  assert (all_below 64 (λ n, bool_decide (b64_val (b64_char n) = Some n)) = true) as H
    by (vm_compute; reflexivity).
  apply (all_below_spec _ _ n) in H; [|lia]. by apply bool_decide_eq_true in H.
Qed.

Definition is_b64 (c : Ascii.ascii) : bool := bool_decide (is_Some (b64_val c)).

Lemma is_b64_char n : n < 64 → is_b64 (b64_char n) = true.
Proof. intros. apply bool_decide_eq_true. rewrite b64_val_char by done. eauto. Qed.

(** The quanta of three bytes, as a division fact. *)
Lemma b64_sextets v : v < 16777216 →
  v / 262144 < 64 ∧ v / 262144 * 262144 + v / 4096 mod 64 * 4096 + v / 64 mod 64 * 64 + v mod 64 = v.
Proof.
  intros Hv. split; [apply N.Div0.div_lt_upper_bound; lia|].
  pose proof (N.div_mod' v 64). pose proof (N.div_mod' (v / 64) 64) as H1.
  pose proof (N.div_mod' (v / 4096) 64) as H2.
  rewrite N.Div0.div_div in H1, H2. change (64 * 64) with 4096 in H1.
  change (4096 * 64) with 262144 in H2. lia.
Qed.

Lemma byte_triple a b c : a < 256 → b < 256 → c < 256 →
  let v := a * 65536 + b * 256 + c in
  v < 16777216 ∧ v / 65536 = a ∧ v / 256 mod 256 = b ∧ v mod 256 = c.
Proof.
  intros Ha Hb Hc v. unfold v. split; [lia|]. split; [|split].
  - symmetry. apply (N.div_unique _ _ _ (b * 256 + c)); lia.
  - replace ((a * 65536 + b * 256 + c) / 256) with (a * 256 + b)
      by (apply (N.div_unique _ _ _ c); lia).
    symmetry. apply (N.mod_unique _ _ a); lia.
  - symmetry. apply (N.mod_unique _ _ (a * 256 + b)); lia.
Qed.

(** Strong induction on the length, three bytes at a time. *)
Lemma string_ind3 (P : string → Prop) :
  P "" → (∀ a, P (String a "")) → (∀ a b, P (String a (String b ""))) →
  (∀ a b c s, P s → P (String a (String b (String c s)))) → ∀ s, P s.
Proof.
  intros H0 H1 H2 H3 s. enough (P s ∧ (∀ a, P (String a s)) ∧ (∀ a b, P (String a (String b s)))) by tauto.
  induction s as [|c s (IH0&IH1&IH2)]; eauto.
Qed.

Lemma b64_decode_quanta_encode s : b64_decode_quanta (b64_encode s) = Some s.
Proof.
  induction s as [|a|a b|a b c s IH] using string_ind3; [done| | |].
  - pose proof (byte_val_lt a) as Ha. cbn -[N.div N.modulo N.mul].
    pose proof (N.div_mod' (byte_val a) 4).
    rewrite !b64_val_char; [|pose proof (N.mod_lt (byte_val a) 4); lia|apply N.Div0.div_lt_upper_bound; lia].
    replace ((byte_val a / 4 * 64 + byte_val a mod 4 * 16) / 16) with (byte_val a).
    + by rewrite byte_of_val.
    + apply (N.div_unique _ _ _ 0); lia.
  - pose proof (byte_val_lt a) as Ha. pose proof (byte_val_lt b) as Hb.
    cbn -[N.div N.modulo N.mul N.add].
    set (v := byte_val a * 256 + byte_val b).
    pose proof (N.div_mod' v 16). pose proof (N.mod_lt v 16).
    pose proof (N.div_mod' (v / 16) 64) as Hv2. rewrite N.Div0.div_div in Hv2. change (16 * 64) with 1024 in Hv2.
    rewrite !b64_val_char; [|lia|apply N.mod_lt; lia|apply N.Div0.div_lt_upper_bound; lia].
    replace (v / 1024 * 4096 + v / 16 mod 64 * 64 + v mod 16 * 4) with (v * 4) by lia.
    replace (v * 4 / 1024) with (byte_val a) by (apply (N.div_unique _ _ _ (byte_val b * 4)); lia).
    replace (v * 4 / 4) with v by (symmetry; apply N.div_mul; lia).
    replace (v mod 256) with (byte_val b) by (apply (N.mod_unique _ _ (byte_val a)); lia).
    by rewrite !byte_of_val.
  - pose proof (byte_val_lt a) as Ha. pose proof (byte_val_lt b) as Hb. pose proof (byte_val_lt c) as Hc.
    destruct (byte_triple _ _ _ Ha Hb Hc) as (Hv & E1 & E2 & E3).
    cbn -[N.div N.modulo N.mul N.add].
    set (v := byte_val a * 65536 + byte_val b * 256 + byte_val c) in *.
    destruct (b64_sextets v Hv) as [Hs Ev].
    rewrite !b64_val_char by (first [done | apply N.mod_lt; lia]).
    rewrite IH, Ev, E1, E2, E3. by rewrite !byte_of_val.
Qed.

Lemma b64_encode_alphabet s : sall is_b64 (b64_encode s) = true.
Proof.
  induction s as [|a|a b|a b c s IH] using string_ind3; [done| | |].
  - pose proof (byte_val_lt a). cbn -[N.div N.modulo N.mul is_b64].
    rewrite !is_b64_char; [done|pose proof (N.mod_lt (byte_val a) 4); lia|apply N.Div0.div_lt_upper_bound; lia].
  - pose proof (byte_val_lt a). pose proof (byte_val_lt b). cbn -[N.div N.modulo N.mul N.add is_b64].
    set (v := byte_val a * 256 + byte_val b). pose proof (N.mod_lt v 16).
    rewrite !is_b64_char; [done|lia|apply N.mod_lt; lia|apply N.Div0.div_lt_upper_bound; lia].
  - destruct (byte_triple _ _ _ (byte_val_lt a) (byte_val_lt b) (byte_val_lt c)) as (Hv & _).
    cbn -[N.div N.modulo N.mul N.add is_b64]. destruct (b64_sextets _ Hv) as [Hs _].
    rewrite !is_b64_char by (first [done | apply N.mod_lt; lia]). by rewrite IH.
Qed.

Lemma b64_no_byte c s : b64_val c = None → no_byte c (b64_encode s) = true.
Proof.
  intros Hc. eapply sall_impl; [|apply b64_encode_alphabet].
  intros x Hx; simpl. apply negb_true_iff, Ascii.eqb_neq. intros ->.
  apply bool_decide_eq_true in Hx as [? ?]. congruence.
Qed.

Lemma drop_crlf_id s : sall is_b64 s = true → drop_crlf s = s.
Proof.
  induction s as [|c s IH]; simpl; [done|]. intros [Hc Hs]%andb_true_iff.
  destruct ((byte_val c =? 10) || (byte_val c =? 13)) eqn:E; [|by rewrite IH].
  exfalso. apply bool_decide_eq_true in Hc as [v Hv]. unfold b64_val in Hv.
  apply orb_true_iff in E as [E|E]; apply N.eqb_eq in E; rewrite E in Hv; done.
Qed.

(** Decoding inverts encoding. *)
Lemma b64_roundtrip s : b64_decode (b64_encode s) = Some s.
Proof.
  unfold b64_decode. rewrite drop_crlf_id by apply b64_encode_alphabet.
  apply b64_decode_quanta_encode.
Qed.

Example b64_ex : b64_encode "any carnal pleas" = "YW55IGNhcm5hbCBwbGVhcw".
Proof. vm_compute. reflexivity. Qed.
