(* ===== verification/GoTime.v ===== *)
(** * Times in RFC 3339

    [time.Parse] with the layout [time.RFC3339], as the audit search uses it: an
    instant in nanoseconds since the epoch; the dates and labels the admin UI
    formats and parses; and the calendar behind its buckets. *)

From stdpp Require Import base list strings.
From Stdlib Require Import Ascii ZArith NArith Lia.
From S2P Require Import Prelude GoStrings.

Local Open Scope string_scope.
Local Open Scope Z_scope.

(** ** The civil calendar *)

Definition leap_year (y : Z) : bool :=
  (Z.rem y 4 =? 0) && (negb (Z.rem y 100 =? 0) || (Z.rem y 400 =? 0)).

Definition days_in (m y : Z) : Z :=
  if m =? 2 then (if leap_year y then 29 else 28)
  else if (m =? 4) || (m =? 6) || (m =? 9) || (m =? 11) then 30 else 31.

(** Days since 1970-01-01 of a date of the proleptic Gregorian calendar. *)
Definition days_from_civil (y m d : Z) : Z :=
  let y := if m <=? 2 then y - 1 else y in
  let era := y / 400 in
  let yoe := y mod 400 in
  let doy := (153 * (m + (if 2 <? m then -3 else 9)) + 2) / 5 + d - 1 in
  let doe := yoe * 365 + yoe / 4 - yoe / 100 + doy in
  era * 146097 + doe - 719468.

(** ** Scanning *)

(** Exactly [n] digits. *)
Fixpoint digits (n : nat) (acc : N) (s : string) : option (Z * string) :=
  match n with
  | O => Some (Z.of_N acc, s)
  | S n' => match s with
            | String c s' => match digit_val c with
                             | Some d => digits n' (acc * 10 + d) s'
                             | None => None
                             end
            | EmptyString => None
            end
  end.

(** [getnum] without leading zero: one or two digits. *)
Definition one_or_two (s : string) : option (Z * string) :=
  match digits 2 0 s with Some r => Some r | None => digits 1 0 s end.

Definition lit (c : ascii) (s : string) : option string :=
  match s with String c' s' => if Ascii.eqb c c' then Some s' else None | EmptyString => None end.

Fixpoint take_digits (s : string) : string * string :=
  match s with
  | String c s' => if is_digit c then let '(d, r) := take_digits s' in (String c d, r) else ("", s)
  | EmptyString => ("", "")
  end.

(** The first nine digits of a fraction, in nanoseconds. *)
Fixpoint nanos (n : nat) (acc : N) (s : string) : Z :=
  match n with
  | O => Z.of_N acc
  | S n' => match s with
            | String c s' => nanos n' (acc * 10 + default 0%N (digit_val c)) s'
            | EmptyString => nanos n' (acc * 10) ""
            end
  end.

(** An optional fraction after the seconds: a period or a comma and a digit. *)
Definition fraction (s : string) : Z * string :=
  match s with
  | String c s' =>
      if Ascii.eqb c "."%char || Ascii.eqb c ","%char then
        match take_digits s' with
        | (EmptyString, _) => (0, s)
        | (d, r) => (nanos 9 0 d, r)
        end
      else (0, s)
  | EmptyString => (0, s)
  end.

(** [Z] or an offset; offsets of 24 hours or 60 minutes are let through. *)
Definition zone (s : string) : option (Z * string) :=
  match s with
  | String c s' =>
      if Ascii.eqb c "Z"%char then Some (0, s')
      else if Ascii.eqb c "+"%char || Ascii.eqb c "-"%char then
        '(h, s1) ← digits 2 0 s'; s2 ← lit ":"%char s1; '(m, s3) ← digits 2 0 s2;
        if (24 <? h) || (60 <? m) then None
        else Some ((if Ascii.eqb c "-"%char then -1 else 1) * (h * 3600 + m * 60), s3)
      else None
  | EmptyString => None
  end.

Definition parse_rfc3339 (s : string) : option Z :=
  '(y, s) ← digits 4 0 s; s ← lit "-"%char s;
  '(mo, s) ← digits 2 0 s; s ← lit "-"%char s;
  '(d, s) ← digits 2 0 s; s ← lit "T"%char s;
  '(h, s) ← one_or_two s; s ← lit ":"%char s;
  '(mi, s) ← digits 2 0 s; s ← lit ":"%char s;
  '(sec, s) ← digits 2 0 s;
  let '(ns, s) := fraction s in
  '(off, s) ← zone s;
  if negb (String.eqb s "") then None
  else if (mo <? 1) || (12 <? mo) || (d <? 1) || (days_in mo y <? d) then None
  else if (24 <=? h) || (60 <=? mi) || (60 <=? sec) then None
  else Some ((days_from_civil y mo d * 86400 + h * 3600 + mi * 60 + sec - off) * 1000000000 + ns).

Example parse_epoch : parse_rfc3339 "1970-01-01T00:00:00Z" = Some 0.
Proof. vm_compute. reflexivity. Qed.
Example parse_offset : parse_rfc3339 "2026-01-01T09:00:00.5+09:00" = Some 1767225600500000000.
Proof. vm_compute. reflexivity. Qed.
Example parse_leap : parse_rfc3339 "2023-02-29T00:00:00Z" = None.
Proof. vm_compute. reflexivity. Qed.

(** ** Formatting *)

(** The date of a day number: year, month, day. *)
Definition civil_from_days (z : Z) : Z * Z * Z :=
  let z := z + 719468 in
  let era := z / 146097 in
  let doe := z mod 146097 in
  let yoe := (doe - doe / 1460 + doe / 36524 - doe / 146096) / 365 in
  let doy := doe - (365 * yoe + yoe / 4 - yoe / 100) in
  let mp := (5 * doy + 2) / 153 in
  let d := doy - (153 * mp + 2) / 5 + 1 in
  let m := if mp <? 10 then mp + 3 else mp - 9 in
  ((yoe + era * 400) + (if m <=? 2 then 1 else 0), m, d).

Section calendar.

(** Within an era of 400 years. *)
Lemma year_of_era doe : 0 <= doe < 146097 →
  let yoe := (doe - doe / 1460 + doe / 36524 - doe / 146096) / 365 in
  let doy := doe - (365 * yoe + yoe / 4 - yoe / 100) in
  0 <= yoe <= 399 ∧ 0 <= doy <= 365.
Proof. intros H yoe doy. subst yoe doy. Z.to_euclidean_division_equations; lia. Qed.

(** The last day of a 366-day year that starts in March. *)
Lemma long_year doe : 0 <= doe < 146097 →
  let yoe := (doe - doe / 1460 + doe / 36524 - doe / 146096) / 365 in
  doe - (365 * yoe + yoe / 4 - yoe / 100) = 365 →
  (yoe + 1) mod 4 = 0 ∧ ((yoe + 1) mod 100 ≠ 0 ∨ yoe = 399).
Proof. intros H yoe Hd. subst yoe. Z.to_euclidean_division_equations; lia. Qed.

(** The months of a year that starts in March. *)
Lemma month_of_year doy : 0 <= doy <= 365 →
  let mp := (5 * doy + 2) / 153 in
  let d := doy - (153 * mp + 2) / 5 + 1 in
  0 <= mp <= 11 ∧ 1 <= d ∧
  d <= (if mp =? 11 then 29 else if (mp =? 1) || (mp =? 3) || (mp =? 6) || (mp =? 8) then 30 else 31) ∧
  (mp = 11 → d = 29 → doy = 365).
Proof.
  intros H mp d. subst mp d.
  repeat match goal with |- context [?a =? ?b] => destruct (Z.eqb_spec a b) end; simpl;
    Z.to_euclidean_division_equations; lia.
Qed.

Lemma leap_year_iff y : leap_year y = true ↔ y mod 4 = 0 ∧ (y mod 100 ≠ 0 ∨ y mod 400 = 0).
Proof.
  unfold leap_year. rewrite andb_true_iff, orb_true_iff, negb_true_iff, !Z.eqb_eq, Z.eqb_neq.
  rewrite !Z.rem_divide, <- !Z.mod_divide by done. done.
Qed.

Lemma civil_ok z : let '(y, m, d) := civil_from_days z in
  1 <= m <= 12 ∧ 1 <= d <= days_in m y ∧ days_from_civil y m d = z.
Proof.
  unfold civil_from_days.
  pose proof (Z.mod_pos_bound (z + 719468) 146097 ltac:(lia)) as Hdoe.
  pose proof (Z.div_mod (z + 719468) 146097 ltac:(lia)) as Hz.
  set (era := (z + 719468) / 146097) in *. set (doe := (z + 719468) mod 146097) in *.
  pose proof (year_of_era doe Hdoe) as H1. pose proof (long_year doe Hdoe) as H2. cbv zeta in H1, H2.
  set (yoe := (doe - doe / 1460 + doe / 36524 - doe / 146096) / 365) in *.
  destruct H1 as [Hy Hd]. set (doy := doe - (365 * yoe + yoe / 4 - yoe / 100)) in *.
  pose proof (month_of_year doy Hd) as H3. cbv zeta in H3.
  set (mp := (5 * doy + 2) / 153) in *.
  set (d := doy - (153 * mp + 2) / 5 + 1) in *.
  destruct H3 as (Hm&Hd1&Hd2&Hlast).
  set (Y := yoe + era * 400).
  assert (Y / 400 = era) as HY1 by (unfold Y; rewrite Z.div_add, Z.div_small by lia; lia).
  assert (Y mod 400 = yoe) as HY2 by (unfold Y; rewrite Z.mod_add, Z.mod_small by lia; lia).
  destruct (Z.ltb_spec mp 10).
  - destruct (Z.leb_spec (mp + 3) 2); [lia|]. rewrite Z.add_0_r. split; [lia|]. split.
    + split; [done|]. unfold days_in. repeat case_match; go_bools; lia.
    + unfold days_from_civil. destruct (Z.leb_spec (mp + 3) 2), (Z.ltb_spec 2 (mp + 3)); [lia|lia| |lia].
      rewrite HY1, HY2. replace (mp + 3 + -3) with mp by lia. unfold d, doy. lia.
  - destruct (Z.leb_spec (mp - 9) 2); [|lia]. split; [lia|]. split.
    + split; [done|]. unfold days_in.
      destruct (Z.eqb_spec (mp - 9) 2).
      * replace mp with 11 in Hd2, Hlast by lia. simpl in Hd2.
        destruct (leap_year (Y + 1)) eqn:El; [lia|]. apply not_true_iff_false in El.
        destruct (decide (d = 29)); [|lia]. exfalso. apply El, leap_year_iff.
        destruct (H2 (Hlast eq_refl ltac:(done))) as [Ha Hb]. unfold Y. clear -Ha Hb Hy.
        Z.to_euclidean_division_equations; lia.
      * replace mp with 10 in * by lia. simpl in Hd2. done.
    + unfold days_from_civil. destruct (Z.leb_spec (mp - 9) 2), (Z.ltb_spec 2 (mp - 9)); [lia| |lia..].
      replace (Y + 1 - 1) with Y by lia. rewrite HY1, HY2. replace (mp - 9 + 9) with mp by lia. unfold d, doy. lia.
Qed.
End calendar.

(** [appendInt] of package [time]: at least [n] digits. *)
Fixpoint pad (n : nat) (v : N) : string :=
  match n with
  | O => ""
  | S n' => pad n' (v / 10) +:+ String (digit (v mod 10)) ""
  end.

Definition append_int (n : nat) (v : Z) : string :=
  let body v := if (v <? 10 ^ N.of_nat n)%N then pad n v else format_uint v in
  if v <? 0 then "-" +:+ body (Z.to_N (- v)) else body (Z.to_N v).

(** The layout [2006-01-02] on a day number, and [15:04] on seconds of a day. *)
Definition date_text (day : Z) : string :=
  let '(y, m, d) := civil_from_days day in
  append_int 4 y +:+ "-" +:+ append_int 2 m +:+ "-" +:+ append_int 2 d.

Definition hm_text (s : Z) : string := append_int 2 (s / 3600) +:+ ":" +:+ append_int 2 (s / 60 mod 60).

Definition unix_day (t : Z) : Z := t / 1000000000 / 86400.
Definition day_seconds (t : Z) : Z := (t / 1000000000) mod 86400.

(** [t.UTC().Format(time.RFC3339)]. *)
Definition format_rfc3339 (t : Z) : string :=
  date_text (unix_day t) +:+ "T" +:+ hm_text (day_seconds t) +:+ ":" +:+ append_int 2 (day_seconds t mod 60) +:+ "Z".

(** [t.UTC().Format("2006-01-02")] and [t.UTC().Format("01-02 15:04")]. *)
Definition format_date (t : Z) : string := date_text (unix_day t).
Definition format_label (t : Z) : string :=
  let '(_, m, d) := civil_from_days (unix_day t) in
  append_int 2 m +:+ "-" +:+ append_int 2 d +:+ " " +:+ hm_text (day_seconds t).

(** [time.Parse("2006-01-02", s)]: midnight of the day. *)
Definition parse_date (s : string) : option Z :=
  '(y, s) ← digits 4 0 s; s ← lit "-"%char s;
  '(mo, s) ← digits 2 0 s; s ← lit "-"%char s;
  '(d, s) ← digits 2 0 s;
  if negb (String.eqb s "") then None
  else if (mo <? 1) || (12 <? mo) || (d <? 1) || (days_in mo y <? d) then None
  else Some (days_from_civil y mo d * 86400 * 1000000000).

Lemma digits_pad n : ∀ m acc v rest, (v < 10 ^ N.of_nat n)%N →
  digits (n + m) acc (pad n v +:+ rest) = digits m (acc * 10 ^ N.of_nat n + v) rest.
Proof.
  induction n as [|n IH]; intros m acc v rest Hv.
  - simpl in *. f_equal. lia.
  - rewrite Nat2N.inj_succ, N.pow_succ_r' in Hv |- *. simpl pad.
    replace (S n + m)%nat with (n + S m)%nat by lia. rewrite sapp_assoc, IH.
    2:{ apply N.Div0.div_lt_upper_bound. lia. }
    simpl. rewrite digit_val_digit by (apply N.mod_lt; lia). f_equal.
    pose proof (N.div_mod' v 10). lia.
Qed.

Lemma digits_append n v rest : 0 <= v < 10 ^ Z.of_nat n →
  digits n 0 (append_int n v +:+ rest) = Some (v, rest).
Proof.
  intros Hv. unfold append_int. destruct (Z.ltb_spec v 0); [lia|].
  assert (Z.to_N v < 10 ^ N.of_nat n)%N as Hn.
  { apply N2Z.inj_lt. rewrite Z2N.id, N2Z.inj_pow, nat_N_Z by lia. lia. }
  apply N.ltb_lt in Hn as Hb. rewrite Hb.
  pose proof (digits_pad n 0 0 (Z.to_N v) rest Hn) as H1. rewrite Nat.add_0_r in H1. rewrite H1. simpl.
  do 2 f_equal. lia.
Qed.

Lemma one_or_two_append v rest : 0 <= v < 100 → one_or_two (append_int 2 v +:+ rest) = Some (v, rest).
Proof. intros Hv. unfold one_or_two. by rewrite digits_append by lia. Qed.

Lemma lit_app c rest : lit c (String c "" +:+ rest) = Some rest.
Proof. simpl. by rewrite Ascii.eqb_refl. Qed.

(** Years of four digits. *)
Definition four_digit_year (day : Z) : bool :=
  let '(y, _, _) := civil_from_days day in (0 <=? y) && (y <=? 9999).

(** ** Round trips *)

#[local] Arguments digits : simpl never.
#[local] Arguments append_int : simpl never.
#[local] Arguments one_or_two : simpl never.

Ltac scan := repeat (rewrite ?sapp_nil_l;
  first [rewrite digits_append by lia | rewrite one_or_two_append by lia]; simpl).

Lemma parse_format_date t : four_digit_year (unix_day t) = true →
  parse_date (format_date t) = Some (unix_day t * 86400 * 1000000000).
Proof.
  unfold format_date, date_text, four_digit_year. pose proof (civil_ok (unix_day t)) as Hc.
  destruct (civil_from_days (unix_day t)) as [[y m] d]. destruct Hc as (Hm&Hd&Hz).
  rewrite andb_true_iff, !Z.leb_le. intros Hy. unfold parse_date.
  assert (d < 100) by (unfold days_in in Hd; repeat case_match; lia).
  rewrite <- (sapp_nil_r (append_int 2 d)). scan.
  destruct (Z.ltb_spec m 1), (Z.ltb_spec 12 m), (Z.ltb_spec d 1), (Z.ltb_spec (days_in m y) d); try lia.
  simpl. by rewrite Hz.
Qed.

Lemma parse_format_rfc3339 t : four_digit_year (unix_day t) = true →
  parse_rfc3339 (format_rfc3339 t) = Some (t / 1000000000 * 1000000000).
Proof.
  unfold format_rfc3339, date_text, four_digit_year. pose proof (civil_ok (unix_day t)) as Hc.
  destruct (civil_from_days (unix_day t)) as [[y m] d]. destruct Hc as (Hm&Hd&Hz).
  rewrite andb_true_iff, !Z.leb_le. intros Hy. unfold parse_rfc3339, hm_text.
  assert (d < 100) by (unfold days_in in Hd; repeat case_match; lia).
  pose proof (Z.mod_pos_bound (t / 1000000000) 86400 ltac:(lia)) as Hs.
  change ((t / 1000000000) mod 86400) with (day_seconds t) in Hs.
  set (s := day_seconds t) in *.
  assert (0 <= s / 3600 < 24) as Hh by (Z.to_euclidean_division_equations; lia).
  pose proof (Z.mod_pos_bound (s / 60) 60 ltac:(lia)) as Hmi.
  pose proof (Z.mod_pos_bound s 60 ltac:(lia)) as Hse.
  rewrite !sapp_assoc. scan.
  destruct (Z.ltb_spec m 1), (Z.ltb_spec 12 m), (Z.ltb_spec d 1), (Z.ltb_spec (days_in m y) d); try lia.
  destruct (Z.leb_spec 24 (s / 3600)), (Z.leb_spec 60 ((s / 60) mod 60)), (Z.leb_spec 60 (s mod 60)); try lia.
  simpl. rewrite Hz. f_equal.
  assert (unix_day t * 86400 + s = t / 1000000000) as <-.
  { unfold unix_day, s, day_seconds. pose proof (Z.div_mod (t / 1000000000) 86400 ltac:(lia)). lia. }
  Z.to_euclidean_division_equations; lia.
Qed.

Example format_rfc3339_ex : format_rfc3339 1767225600500000000 = "2026-01-01T00:00:00Z".
Proof. vm_compute. reflexivity. Qed.
Example format_label_ex : format_label 1783378680000000000 = "07-06 22:58".
Proof. vm_compute. reflexivity. Qed.

(** ** Months *)

(** Days before 1 March of a year. *)
Lemma march_days y : y / 400 * 146097 + (y mod 400 * 365 + y mod 400 / 4 - y mod 400 / 100) =
  365 * y + y / 4 - y / 100 + y / 400.
Proof. Z.to_euclidean_division_equations; lia. Qed.

Lemma march_next y : 365 * (y + 1) + (y + 1) / 4 - (y + 1) / 100 + (y + 1) / 400 =
  365 * y + y / 4 - y / 100 + y / 400 + 365 + (if leap_year (y + 1) then 1 else 0).
Proof.
  destruct (leap_year (y + 1)) eqn:E.
  - apply leap_year_iff in E. Z.to_euclidean_division_equations; lia.
  - apply not_true_iff_false in E. rewrite leap_year_iff in E. Z.to_euclidean_division_equations; lia.
Qed.

Lemma days_from_civil_eq y m d : days_from_civil y m d =
  (if m <=? 2 then 365 * (y - 1) + (y - 1) / 4 - (y - 1) / 100 + (y - 1) / 400
   else 365 * y + y / 4 - y / 100 + y / 400) +
  (153 * (m + (if 2 <? m then -3 else 9)) + 2) / 5 + d - 1 - 719468.
Proof.
  unfold days_from_civil. pose proof (march_days y). pose proof (march_days (y - 1)).
  destruct (m <=? 2); lia.
Qed.

(** A month starts when the previous one is over. *)
Lemma next_month y m : 1 <= m <= 12 →
  days_from_civil (if m =? 12 then y + 1 else y) (if m =? 12 then 1 else m + 1) 1 =
  days_from_civil y m 1 + days_in m y.
Proof.
  intros Hm. rewrite !days_from_civil_eq. pose proof (march_next (y - 1)) as H.
  replace (y - 1 + 1) with y in H by lia. unfold days_in.
  assert (m = 1 ∨ m = 2 ∨ m = 3 ∨ m = 4 ∨ m = 5 ∨ m = 6 ∨ m = 7 ∨ m = 8 ∨ m = 9 ∨ m = 10 ∨ m = 11 ∨ m = 12) as Hc by lia.
  destruct Hc as [->|[->|[->|[->|[->|[->|[->|[->|[->|[->|[->| ->]]]]]]]]]]];
    repeat match goal with |- context [Zpos ?a + Zpos ?b] =>
      let r := eval vm_compute in (Zpos a + Zpos b) in change (Zpos a + Zpos b) with r end;
    cbn -[Z.add Z.sub Z.mul Z.div leap_year]; rewrite ?Z.add_simpl_r;
    repeat match goal with |- context [(153 * ?e + 2) / 5] =>
      let r := eval vm_compute in ((153 * e + 2) / 5) in change ((153 * e + 2) / 5) with r end;
    revert H; destruct (leap_year y); lia.
Qed.

(** Months numbered from January of year 0, and their first days. *)
Definition month_index (day : Z) : Z := let '(y, m, _) := civil_from_days day in y * 12 + (m - 1).
Definition month_start (i : Z) : Z := days_from_civil (i / 12) (i mod 12 + 1) 1.

Lemma month_parts y m : 1 <= m <= 12 → (y * 12 + (m - 1)) / 12 = y ∧ (y * 12 + (m - 1)) mod 12 + 1 = m.
Proof. intros Hm. Z.to_euclidean_division_equations; lia. Qed.

Lemma month_start_next i : month_start (i + 1) = month_start i + days_in (i mod 12 + 1) (i / 12).
Proof.
  unfold month_start. rewrite <- next_month by (Z.to_euclidean_division_equations; lia).
  destruct (Z.eqb_spec (i mod 12 + 1) 12).
  - f_equal; Z.to_euclidean_division_equations; lia.
  - f_equal; Z.to_euclidean_division_equations; lia.
Qed.

Lemma days_in_pos m y : 28 <= days_in m y <= 31.
Proof. unfold days_in. repeat case_match; lia. Qed.

Lemma month_start_lt i j : i < j → month_start i < month_start j.
Proof.
  intros Hij. replace j with (i + 1 + Z.of_nat (Z.to_nat (j - i - 1))) by lia.
  generalize (Z.to_nat (j - i - 1)) as n. clear j Hij. induction n as [|n IH].
  - rewrite Z.add_0_r, month_start_next. pose proof (days_in_pos (i mod 12 + 1) (i / 12)). lia.
  - replace (i + 1 + Z.of_nat (S n)) with (i + 1 + Z.of_nat n + 1) by lia.
    rewrite month_start_next. pose proof (days_in_pos ((i + 1 + Z.of_nat n) mod 12 + 1) ((i + 1 + Z.of_nat n) / 12)). lia.
Qed.

Lemma month_start_le i j : i <= j → month_start i <= month_start j.
Proof. intros H. destruct (decide (i = j)) as [->|]; [lia|]. pose proof (month_start_lt i j). lia. Qed.

(** A day lies in its month. *)
Lemma month_index_spec day : month_start (month_index day) <= day < month_start (month_index day + 1).
Proof.
  rewrite month_start_next. unfold month_index, month_start. pose proof (civil_ok day) as Hc.
  destruct (civil_from_days day) as [[y m] d]. destruct Hc as (Hm&Hd&Hz).
  destruct (month_parts y m Hm) as [-> ->]. rewrite days_from_civil_eq in *. lia.
Qed.

Lemma month_index_start i : month_index (month_start i) = i.
Proof.
  pose proof (month_index_spec (month_start i)) as [H1 H2].
  destruct (Z.lt_trichotomy (month_index (month_start i)) i) as [H|[H|H]]; [|done|].
  - pose proof (month_start_le (month_index (month_start i) + 1) i). lia.
  - pose proof (month_start_lt i (month_index (month_start i))). lia.
Qed.

(** ** Texts determine what they show *)

Lemma append_int_inj n v v' : 0 <= v < 10 ^ Z.of_nat n → 0 <= v' < 10 ^ Z.of_nat n →
  append_int n v = append_int n v' → v = v'.
Proof.
  intros Hv Hv' He. pose proof (digits_append n v "" Hv) as H1. pose proof (digits_append n v' "" Hv') as H2.
  rewrite He, H2 in H1. congruence.
Qed.

Lemma pad_length n v : String.length (pad n v) = n.
Proof. revert v. induction n as [|n IH]; intros v; simpl; [done|]. rewrite slength_app, IH. simpl. lia. Qed.

Lemma append_int_length n v : 0 <= v < 10 ^ Z.of_nat n → String.length (append_int n v) = n.
Proof.
  intros Hv. unfold append_int. destruct (Z.ltb_spec v 0); [lia|].
  assert (Z.to_N v < 10 ^ N.of_nat n)%N as Hn%N.ltb_lt.
  { apply N2Z.inj_lt. rewrite Z2N.id, N2Z.inj_pow, nat_N_Z by lia. lia. }
  rewrite Hn. apply pad_length.
Qed.

Lemma date_text_inj a b : four_digit_year a = true → four_digit_year b = true → date_text a = date_text b → a = b.
Proof.
  intros Ha Hb He.
  assert (∀ d, unix_day (d * 86400 * 1000000000) = d) as Hd
    by (intros d; unfold unix_day; by rewrite !Z.div_mul).
  pose proof (parse_format_date (a * 86400 * 1000000000)) as H1.
  pose proof (parse_format_date (b * 86400 * 1000000000)) as H2.
  unfold format_date in *. rewrite !Hd in *. rewrite He, H2 in H1 by done. specialize (H1 Ha). simplify_eq. lia.
Qed.

Lemma date_text_length a : four_digit_year a = true → String.length (date_text a) = 10%nat.
Proof.
  unfold four_digit_year, date_text. pose proof (civil_ok a) as Hc.
  destruct (civil_from_days a) as [[y m] d]. destruct Hc as (Hm&Hd&_). intros [?%Z.leb_le ?%Z.leb_le]%andb_true_iff.
  pose proof (days_in_pos m y).
  rewrite !slength_app, !append_int_length by lia. done.
Qed.
