(* ===== verification/Sha256.v ===== *)
(** * SHA-256 and HMAC-SHA-256

    [crypto/sha256] and [crypto/hmac] of the Go standard library, executable,
    on byte strings (FIPS 180-4 and RFC 2104).  The audit chain, the session
    cookies and the CSRF tokens are computed with them. *)

From stdpp Require Import base list strings.
From Stdlib Require Import ZArith NArith Lia.
From S2P Require Import Prelude GoStrings Encoding.

Local Open Scope N_scope.

Definition mask32 : N := 4294967295.
Definition add32 (x y : N) : N := N.land (x + y) mask32.
Definition rotr (x n : N) : N :=
  N.lor (N.shiftr x n) (N.land (N.shiftl x (32 - n)) mask32).
Definition not32 (x : N) : N := N.lxor x mask32.

Definition ch (x y z : N) : N := N.lxor (N.land x y) (N.land (not32 x) z).
Definition maj (x y z : N) : N := N.lxor (N.lxor (N.land x y) (N.land x z)) (N.land y z).
Definition bsig0 (x : N) : N := N.lxor (N.lxor (rotr x 2) (rotr x 13)) (rotr x 22).
Definition bsig1 (x : N) : N := N.lxor (N.lxor (rotr x 6) (rotr x 11)) (rotr x 25).
Definition ssig0 (x : N) : N := N.lxor (N.lxor (rotr x 7) (rotr x 18)) (N.shiftr x 3).
Definition ssig1 (x : N) : N := N.lxor (N.lxor (rotr x 17) (rotr x 19)) (N.shiftr x 10).

Definition K256 : list N :=
  [1116352408; 1899447441; 3049323471; 3921009573; 961987163; 1508970993; 2453635748; 2870763221;
   3624381080; 310598401; 607225278; 1426881987; 1925078388; 2162078206; 2614888103; 3248222580;
   3835390401; 4022224774; 264347078; 604807628; 770255983; 1249150122; 1555081692; 1996064986;
   2554220882; 2821834349; 2952996808; 3210313671; 3336571891; 3584528711; 113926993; 338241895;
   666307205; 773529912; 1294757372; 1396182291; 1695183700; 1986661051; 2177026350; 2456956037;
   2730485921; 2820302411; 3259730800; 3345764771; 3516065817; 3600352804; 4094571909; 275423344;
   430227734; 506948616; 659060556; 883997877; 958139571; 1322822218; 1537002063; 1747873779;
   1955562222; 2024104815; 2227730452; 2361852424; 2428436474; 2756734187; 3204031479; 3329325298].

Record hstate := HState { ha : N; hb : N; hc : N; hd : N; he : N; hf : N; hg : N; hh : N }.

Definition H256 : hstate :=
  HState 1779033703 3144134277 1013904242 2773480762 1359893119 2600822924 528734635 1541459225.

Definition round (s : hstate) (k w : N) : hstate :=
  let t1 := add32 (add32 (add32 (add32 (hh s) (bsig1 (he s))) (ch (he s) (hf s) (hg s))) k) w in
  let t2 := add32 (bsig0 (ha s)) (maj (ha s) (hb s) (hc s)) in
  HState (add32 t1 t2) (ha s) (hb s) (hc s) (add32 (hd s) t1) (he s) (hf s) (hg s).

(** The message schedule; the window holds the last sixteen words, oldest
    first. *)
Fixpoint rounds (ks : list N) (win : list N) (s : hstate) : hstate :=
  match ks with
  | [] => s
  | k :: ks' =>
      match win with
      | w0 :: (w1 :: _) as win' =>
          let next := add32 (add32 (ssig1 (nth 14 win 0)) (nth 9 win 0))
                            (add32 (ssig0 w1) w0) in
          rounds ks' (tail win ++ [next]) (round s k w0)
      | _ => s
      end
  end.

Definition compress (s : hstate) (block : list N) : hstate :=
  let r := rounds K256 block s in
  HState (add32 (ha s) (ha r)) (add32 (hb s) (hb r)) (add32 (hc s) (hc r)) (add32 (hd s) (hd r))
         (add32 (he s) (he r)) (add32 (hf s) (hf r)) (add32 (hg s) (hg r)) (add32 (hh s) (hh r)).

Fixpoint vals (s : string) : list N :=
  match s with EmptyString => [] | String c s' => byte_val c :: vals s' end.

Fixpoint be_words (l : list N) : list N :=
  match l with
  | a :: b :: c :: d :: l' => (a * 16777216 + b * 65536 + c * 256 + d) :: be_words l'
  | _ => []
  end.

Definition be_bytes (n : nat) (v : N) : list N :=
  map (λ i, N.land (N.shiftr v (8 * N.of_nat (n - 1 - i))) 255) (seq 0 n).

(** Padding: 0x80, zeros, and the bit length on eight bytes. *)
Definition pad (l : list N) : list N :=
  let len := length l in
  let z := ((119 - len mod 64) mod 64)%nat in
  l ++ [128] ++ replicate z 0 ++ be_bytes 8 (N.of_nat (8 * len)).

Fixpoint blocks (fuel : nat) (ws : list N) (s : hstate) : hstate :=
  match fuel with
  | O => s
  | S f => match ws with
           | [] => s
           | _ => blocks f (drop 16 ws) (compress s (take 16 ws))
           end
  end.

Definition word_bytes (w : N) : string :=
  String (byte_of (w / 16777216 mod 256)) (String (byte_of (w / 65536 mod 256))
    (String (byte_of (w / 256 mod 256)) (String (byte_of (w mod 256)) EmptyString))).

(** [sha256.Sum256]. *)
Definition sha256 (m : string) : string :=
  let ws := be_words (pad (vals m)) in
  let s := blocks (length ws) ws H256 in
  word_bytes (ha s) +:+ word_bytes (hb s) +:+ word_bytes (hc s) +:+ word_bytes (hd s) +:+
  word_bytes (he s) +:+ word_bytes (hf s) +:+ word_bytes (hg s) +:+ word_bytes (hh s).

(** A digest has 32 bytes. *)
Lemma sha256_length m : String.length (sha256 m) = 32%nat.
Proof. unfold sha256. rewrite !slength_app. reflexivity. Qed.

(** [hmac.New(sha256.New, key)], [Write(msg)], [Sum(nil)]. *)
Definition xor_pad (v : N) (key : string) : string :=
  let k := if (64 <? String.length key)%nat then sha256 key else key in
  let ks := vals k ++ replicate (64 - String.length k) 0 in
  foldr (λ n s, String (byte_of (N.lxor n v)) s) EmptyString ks.

Definition hmac_sha256 (key msg : string) : string :=
  sha256 (xor_pad 92 key +:+ sha256 (xor_pad 54 key +:+ msg)).

Lemma hmac_sha256_length k m : String.length (hmac_sha256 k m) = 32%nat.
Proof. apply sha256_length. Qed.

(** Published test vectors. *)
Example sha256_abc :
  hex_encode (sha256 "abc") = "ba7816bf8f01cfea414140de5dae2223b00361a396177a9cb410ff61f20015ad"%string.
Proof. vm_compute. reflexivity. Qed.

Example sha256_two_blocks :
  hex_encode (sha256 "abcdbcdecdefdefgefghfghighijhijkijkljklmklmnlmnomnopnopq")
  = "248d6a61d20638b8e5c026930c3e6039a33ce45964ff2167f6ecedd419db06c1"%string.
Proof. vm_compute. reflexivity. Qed.

Example hmac_rfc4231_2 :
  hex_encode (hmac_sha256 "Jefe" "what do ya want for nothing?")
  = "5bdcc146bf60754e6a042426089575c75a003f089d2739839dec58b964ec3843"%string.
Proof. vm_compute. reflexivity. Qed.
