(* ===== verification/RateLimit.v ===== *)
(** * Rate limiting

    [internal/ratelimit] (the per-key token buckets and the policy map) and
    [internal/dispatch/telegram/dispatch_limiter.go] (the global and the
    per-chat bucket in front of Telegram).

    Token counts are Go [float64].  A binary64 operation on finite operands is
    the exact rational operation followed by one rounding; the rounding is the
    interface [Float64]: monotone, and the identity on the integers a
    significand of 53 bits holds.  The theorems are proved against it; [exact]
    (no rounding) and [grid] (rounding down to multiples of [1/k]) are two
    instances. *)

From stdpp Require Import base gmap list strings.
From Stdlib Require Import ZArith QArith Qround Lqa Lia.
From S2P Require Import Prelude.

Local Open Scope Q_scope.

(** ** Binary64 arithmetic *)

Class Float64 := {
  rnd : Q → Q;
  rnd_mono x y : x <= y → rnd x <= rnd y;
  rnd_int z : (Z.abs z <= 2 ^ 53)%Z → rnd (inject_Z z) == inject_Z z;
}.

#[export] Instance rnd_proper `{F : Float64} : Proper (Qeq ==> Qeq) rnd.
Proof. intros x y Hxy. apply Qle_antisym; apply rnd_mono; lra. Qed.

Lemma rnd_0 `{F : Float64} : rnd 0 == 0.
Proof. apply (rnd_int 0). lia. Qed.
Lemma rnd_1 `{F : Float64} : rnd 1 == 1.
Proof. apply (rnd_int 1). lia. Qed.

Lemma rnd_nonneg `{F : Float64} x : 0 <= x → 0 <= rnd x.
Proof. intros Hx. apply rnd_mono in Hx. rewrite rnd_0 in Hx. exact Hx. Qed.

Definition qltb (x y : Q) : bool := negb (Qle_bool y x).
Lemma qltb_lt x y : qltb x y = true ↔ x < y.
Proof.
  unfold qltb. rewrite negb_true_iff, <- not_true_iff_false, Qle_bool_iff. split; lra.
Qed.
Lemma qltb_ge x y : qltb x y = false ↔ y <= x.
Proof. unfold qltb. rewrite negb_false_iff. apply Qle_bool_iff. Qed.
Lemma qle_bool_gt x y : Qle_bool x y = false ↔ y < x.
Proof. rewrite <- not_true_iff_false, Qle_bool_iff. split; lra. Qed.

(** [float64(n)] and the truncating conversion [int64(q)]. *)
Definition f64 `{F : Float64} (n : Z) : Q := rnd (inject_Z n).
Definition trunc (q : Q) : Z := Z.quot (Qnum q) (Zpos (Qden q)).

(** ** Time: instants and durations in nanoseconds *)

Definition Second : Z := 1000000000.

(** [Time.Sub] saturates at the limits of [time.Duration]. *)
Definition time_sub (a b : Z) : Z := Z.max int64_min (Z.min int64_max (a - b)).

(** [Duration.Seconds]. *)
Definition seconds `{F : Float64} (d : Z) : Q :=
  rnd (f64 (Z.quot d Second) + rnd (f64 (Z.rem d Second) / inject_Z Second)).

(** ** Data: limiter.go *)

Record Decision := mkDecision { Allowed : bool; RetryAfter : Z }.
Record Policy := mkPolicy { RatePerSec : Q; Burst : Q }.
Record tokenBucket := mkBucket { tokens : Q; lastRefill : Z }.

Section limiter.
Context `{F : Float64}.

(** The refill that every bucket of the server performs before it decides. *)
Definition refill (rate burst : Q) (now : Z) (b : tokenBucket) : tokenBucket :=
  let elapsed := seconds (time_sub now (lastRefill b)) in
  if qltb 0 elapsed then
    let t := rnd (tokens b + rnd (elapsed * rate)) in
    mkBucket (if qltb burst t then burst else t) now
  else b.

(** Take one token, or say how long to wait for it. *)
Definition take_token (rate : Q) (b : tokenBucket) : Decision * tokenBucket :=
  if Qle_bool 1 (tokens b)
  then (mkDecision true 0, mkBucket (rnd (tokens b - 1)) (lastRefill b))
  else (mkDecision false
          (trunc (rnd (rnd (rnd (1 - tokens b) / rate) * inject_Z Second))), b).

(** [bucketLimiter.Allow]. *)
Definition Allow (policyFn : string → Policy) (now : Z) (key : string)
    (buckets : gmap string tokenBucket) : Decision * gmap string tokenBucket :=
  let pol := policyFn key in
  if Qle_bool (RatePerSec pol) 0 || Qle_bool (Burst pol) 0
  then (mkDecision true 0, buckets)
  else
    let b := match buckets !! key with
             | Some b => b
             | None => mkBucket (Burst pol) now
             end in
    let '(d, b') := take_token (RatePerSec pol) (refill (RatePerSec pol) (Burst pol) now b) in
    (d, <[key := b']> buckets).

(** [NewRequestLimiter]: the policy of a key. *)
Definition request_policy (defaultPolicy : Policy) (overrides : gmap string Policy)
    (key : string) : Policy :=
  match overrides !! key with Some p => p | None => defaultPolicy end.

(** [PolicyLoader.Load]: the rows [(target, rate_per_sec, burst)] of a scope;
    a later row of the same target replaces an earlier one. *)
Definition Load (rows : list (string * Z * Z)) : gmap string Policy :=
  foldl (λ m '(target, rate, burst), <[target := mkPolicy (f64 rate) (f64 burst)]> m) ∅ rows.

(** ** DispatchLimiter *)

Definition defaultGlobalRatePerSec : Q := 25.
Definition defaultPerChatRatePerSec : Q := 1.
Definition defaultBurstGlobal : Q := 30.
Definition defaultBurstPerChat : Q := 2.

Record DispatchLimiter := mkDispatchLimiter {
  gBucket : tokenBucket;
  gRate : Q;
  gBurst : Q;
  per : gmap string tokenBucket;
  pRate : Q;
  pBurst : Q;
}.

Definition NewDispatchLimiter (now : Z) : DispatchLimiter :=
  mkDispatchLimiter (mkBucket defaultBurstGlobal now) defaultGlobalRatePerSec
    defaultBurstGlobal ∅ defaultPerChatRatePerSec defaultBurstPerChat.

Definition takeGlobal (now : Z) (l : DispatchLimiter) : Decision * bool * DispatchLimiter :=
  let '(d, b') := take_token (gRate l) (refill (gRate l) (gBurst l) now (gBucket l)) in
  (d, Allowed d, mkDispatchLimiter b' (gRate l) (gBurst l) (per l) (pRate l) (pBurst l)).

Definition takePerChat (key : string) (now : Z) (l : DispatchLimiter) : Decision * DispatchLimiter :=
  let b := match per l !! key with Some b => b | None => mkBucket (pBurst l) now end in
  let '(d, b') := take_token (pRate l) (refill (pRate l) (pBurst l) now b) in
  (d, mkDispatchLimiter (gBucket l) (gRate l) (gBurst l) (<[key := b']> (per l)) (pRate l) (pBurst l)).

(** [DispatchLimiter.Allow]: the global token first, then the chat's. *)
Definition DispatchAllow (now : Z) (key : string) (l : DispatchLimiter) : Decision * DispatchLimiter :=
  let '(d, ok, l1) := takeGlobal now l in
  if ok : bool then takePerChat key now l1 else (d, l1).
End limiter.

(** ** Invariant: a bucket holds between zero and burst tokens *)

Section invariant.
Context `{F : Float64}.

Definition bucket_ok (burst : Q) (b : tokenBucket) : Prop := 0 <= tokens b /\ tokens b <= burst.

Lemma seconds_nonneg_rate elapsed rate : 0 < elapsed → 0 < rate → 0 <= rnd (elapsed * rate).
Proof. intros. apply rnd_nonneg. apply Qmult_le_0_compat; lra. Qed.

Lemma refill_ok rate burst now b :
  0 < rate → 0 <= burst → bucket_ok burst b → bucket_ok burst (refill rate burst now b).
Proof.
  intros Hr Hb [H0 H1]. unfold refill.
  destruct (qltb 0 _) eqn:E; [|done]. apply qltb_lt in E.
  pose proof (seconds_nonneg_rate _ _ E Hr) as Hg.
  split; simpl; destruct (qltb burst _) eqn:E2; try lra.
  - apply rnd_nonneg. lra.
  - by apply qltb_ge in E2.
Qed.

Lemma take_token_ok rate burst b :
  rnd burst == burst → bucket_ok burst b → bucket_ok burst (take_token rate b).2.
Proof.
  intros Hb [H0 H1]. unfold take_token.
  destruct (Qle_bool 1 (tokens b)) eqn:E; [|done]. apply Qle_bool_iff in E.
  split; simpl.
  - apply rnd_nonneg. lra.
  - rewrite <- Hb. apply rnd_mono. lra.
Qed.

(** Every policy the limiter enforces has a burst that is a float64. *)
Definition policies_ok (policyFn : string → Policy) : Prop :=
  ∀ k, rnd (Burst (policyFn k)) == Burst (policyFn k).

Definition limiter_ok (policyFn : string → Policy) (bs : gmap string tokenBucket) : Prop :=
  ∀ k b, bs !! k = Some b → 0 < Burst (policyFn k) ∧ bucket_ok (Burst (policyFn k)) b.

Lemma Allow_ok policyFn now key bs :
  policies_ok policyFn → limiter_ok policyFn bs → limiter_ok policyFn (Allow policyFn now key bs).2.
Proof.
  intros Hp Hl. unfold Allow.
  destruct (Qle_bool (RatePerSec _) 0) eqn:E1; [done|].
  destruct (Qle_bool (Burst _) 0) eqn:E2; [done|]. simpl.
  apply qle_bool_gt in E1, E2.
  destruct (take_token _ _) as [d b'] eqn:Et. simpl.
  intros k b. rewrite lookup_insert. case_decide; [|by apply Hl]. subst. intros [= <-].
  split; [done|].
  replace b' with (take_token (RatePerSec (policyFn k)) (refill (RatePerSec (policyFn k)) (Burst (policyFn k)) now
    match bs !! k with Some b => b | None => mkBucket (Burst (policyFn k)) now end)).2 by (by rewrite Et).
  apply take_token_ok; [apply Hp|]. apply refill_ok; [done|lra|].
  destruct (bs !! k) as [b|] eqn:Eb; [by apply (Hl k)|]. split; simpl; lra.
Qed.

(** A sequence of calls [(now, key)]; the decisions in order. *)
Fixpoint run_allow (policyFn : string → Policy) (calls : list (Z * string))
    (bs : gmap string tokenBucket) : list Decision * gmap string tokenBucket :=
  match calls with
  | [] => ([], bs)
  | (now, key) :: cs =>
      let '(d, bs1) := Allow policyFn now key bs in
      let '(ds, bs2) := run_allow policyFn cs bs1 in (d :: ds, bs2)
  end.

Lemma run_allow_ok policyFn calls bs :
  policies_ok policyFn → limiter_ok policyFn bs → limiter_ok policyFn (run_allow policyFn calls bs).2.
Proof.
  intros Hp. revert bs. induction calls as [|[now key] cs IH]; intros bs Hl; simpl; [done|].
  pose proof (Allow_ok policyFn now key bs Hp Hl) as H1.
  destruct (Allow policyFn now key bs) as [d bs1]. specialize (IH bs1 H1).
  by destruct (run_allow policyFn cs bs1).
Qed.

(** The two buckets of the dispatch limiter. *)
Definition dispatch_ok (l : DispatchLimiter) : Prop :=
  0 < gRate l ∧ 0 < gBurst l ∧ rnd (gBurst l) == gBurst l ∧ bucket_ok (gBurst l) (gBucket l) ∧
  0 < pRate l ∧ 0 < pBurst l ∧ rnd (pBurst l) == pBurst l ∧
  (∀ k b, per l !! k = Some b → bucket_ok (pBurst l) b).

Lemma takeGlobal_ok now l : dispatch_ok l → dispatch_ok (takeGlobal now l).2.
Proof.
  intros (?&?&Hgb&Hg&?&?&?&?). unfold takeGlobal.
  destruct (take_token _ _) as [d b'] eqn:E. simpl.
  split_and!; simpl; try done; change b' with (d, b').2; rewrite <- E;
    apply (take_token_ok (gRate l) (gBurst l)); auto; apply refill_ok; auto; lra.
Qed.

Lemma takePerChat_ok key now l : dispatch_ok l → dispatch_ok (takePerChat key now l).2.
Proof.
  intros (?&?&?&?&?&?&?&Hp). unfold takePerChat.
  destruct (take_token _ _) as [d b'] eqn:E. simpl.
  split_and!; simpl; try done. intros k b. rewrite lookup_insert. case_decide; [|by apply Hp].
  intros [= <-]. change b' with (d, b').2. rewrite <- E.
  apply take_token_ok; [done|]. apply refill_ok; [done|lra|].
  destruct (per l !! key) eqn:Ek; [by apply (Hp key)|]. split; simpl; lra.
Qed.
End invariant.

#[export] Hint Resolve refill_ok take_token_ok Allow_ok takeGlobal_ok takePerChat_ok : srv.

(** ** Instances of the arithmetic *)

Definition exact : Float64.
Proof. refine {| rnd x := x |}; [done|reflexivity]. Defined.

Lemma grid_mono (k : positive) x y : x <= y →
  Qfloor (x * inject_Z (Zpos k)) # k <= Qfloor (y * inject_Z (Zpos k)) # k.
Proof.
  intros Hxy. unfold Qle. cbn [Qnum Qden]. apply Z.mul_le_mono_nonneg_r; [lia|].
  apply Qfloor_resp_le. apply Qmult_le_compat_r; [done|]. unfold Qle. simpl. lia.
Qed.

Lemma grid_int (k : positive) z : Qfloor (inject_Z z * inject_Z (Zpos k)) # k == inject_Z z.
Proof. rewrite <- inject_Z_mult, Qfloor_Z. unfold Qeq. simpl. lia. Qed.

Definition grid (k : positive) : Float64 :=
  {| rnd x := Qfloor (x * inject_Z (Zpos k)) # k;
     rnd_mono := grid_mono k;
     rnd_int z _ := grid_int k z |}.

(** ** Exactness on whole seconds *)

Section bounds.
Context `{F : Float64}.

Lemma f64_exact z : (Z.abs z <= 2 ^ 53)%Z → f64 z == inject_Z z.
Proof. apply rnd_int. Qed.

Lemma seconds_whole d : (0 <= d <= 2 ^ 53)%Z → seconds (d * Second) == inject_Z d.
Proof.
  intros Hd. unfold seconds. rewrite Z.quot_mul, Z.rem_mul by done.
  rewrite (f64_exact d), (f64_exact 0) by lia.
  assert (inject_Z 0 / inject_Z Second == 0) as -> by reflexivity.
  rewrite rnd_0, Qplus_0_r. apply rnd_int. lia.
Qed.

(** At least one elapsed second counts at least one second. *)
Lemma seconds_ge_1 d : (Second <= d)%Z → 1 <= seconds d.
Proof.
  intros Hd. unfold seconds. rewrite <- rnd_1 at 1. apply rnd_mono.
  assert (1 <= f64 (Z.quot d Second)) as H1.
  { unfold f64. rewrite <- rnd_1 at 1. apply rnd_mono.
    change 1 with (inject_Z 1). rewrite <- Zle_Qle.
    apply Z.quot_le_lower_bound; unfold Second in *; lia. }
  assert (0 <= rnd (f64 (Z.rem d Second) / inject_Z Second)) as H2.
  { apply rnd_nonneg. apply Qle_shift_div_l; [reflexivity|]. rewrite Qmult_0_l.
    unfold f64. apply rnd_nonneg. change 0 with (inject_Z 0). rewrite <- Zle_Qle.
    apply Z.rem_nonneg; unfold Second in *; lia. }
  lra.
Qed.

Lemma time_sub_small a b : (0 <= a - b <= int64_max)%Z → time_sub a b = (a - b)%Z.
Proof. unfold time_sub, int64_min, int64_max. lia. Qed.

(** A bucket whose contents is the integer [n], last refilled at second [s]. *)
Definition int_bucket (b : tokenBucket) (n s : Z) : Prop :=
  tokens b == inject_Z n ∧ lastRefill b = (s * Second)%Z.

Lemma refill_int r B n s s' b :
  (0 < r)%Z → (0 <= n <= B)%Z → (s <= s')%Z → (B + r * (s' - s) <= 2 ^ 53)%Z →
  ((s' - s) * Second <= int64_max)%Z → int_bucket b n s →
  int_bucket (refill (inject_Z r) (inject_Z B) (s' * Second) b) (Z.min B (n + r * (s' - s))) s'.
Proof.
  intros Hr Hn Hs HB Hd [Ht Hl]. unfold refill. rewrite Hl.
  rewrite time_sub_small by (unfold Second in *; lia).
  replace (s' * Second - s * Second)%Z with ((s' - s) * Second)%Z by lia.
  assert (s' - s <= 2 ^ 53)%Z by nia.
  pose proof (seconds_whole (s' - s) ltac:(lia)) as Hsec.
  destruct (qltb 0 _) eqn:E.
  - assert (rnd (tokens b + rnd (seconds ((s' - s) * Second) * inject_Z r)) == inject_Z (n + r * (s' - s))) as Hx.
    { rewrite Hsec, Ht, <- inject_Z_mult, (rnd_int ((s' - s) * r)) by nia.
      rewrite <- inject_Z_plus, rnd_int by nia. f_equiv. lia. }
    split; [|done]. simpl. destruct (qltb (inject_Z B) _) eqn:E2.
    + apply qltb_lt in E2. rewrite Hx, <- Zlt_Qlt in E2. rewrite Z.min_l by lia. done.
    + apply qltb_ge in E2. rewrite Hx, <- Zle_Qle in E2. rewrite Z.min_r by lia. done.
  - apply qltb_ge in E. rewrite Hsec in E. change 0 with (inject_Z 0) in E. rewrite <- Zle_Qle in E.
    replace s' with s by lia. rewrite Z.sub_diag, Z.mul_0_r, Z.add_0_r, Z.min_r by lia. done.
Qed.

Lemma take_token_int r n s b :
  (0 <= n <= 2 ^ 53)%Z → int_bucket b n s →
  Allowed (take_token r b).1 = (1 <=? n)%Z ∧
  int_bucket (take_token r b).2 (if (1 <=? n)%Z then n - 1 else n) s.
Proof.
  intros Hn [Ht Hl]. unfold take_token.
  assert (Qle_bool 1 (tokens b) = (1 <=? n)%Z) as ->.
  { apply eq_true_iff_eq. rewrite Qle_bool_iff, Z.leb_le, Ht.
    change 1 with (inject_Z 1). by rewrite <- Zle_Qle. }
  destruct (Z.leb_spec 1 n); simpl; split; try done.
  split; simpl; [|done]. rewrite Ht. change 1 with (inject_Z 1).
  unfold Qminus. rewrite <- inject_Z_opp, <- inject_Z_plus, rnd_int by lia. f_equiv.
Qed.

(** The calls of key [k] come at whole seconds, in order, within [s, s1]. *)
Fixpoint whole_second_calls (k : string) (s s1 : Z) (calls : list (Z * string)) : Prop :=
  match calls with
  | [] => True
  | (now, key) :: cs =>
      if decide (key = k)
      then ∃ s', now = (s' * Second)%Z ∧ (s <= s' <= s1)%Z ∧ whole_second_calls k s' s1 cs
      else whole_second_calls k s s1 cs
  end.

(** How many calls of key [k] were admitted. *)
Fixpoint admitted (k : string) (calls : list (Z * string)) (ds : list Decision) : Z :=
  match calls, ds with
  | (_, key) :: cs, d :: ds' =>
      (if decide (key = k) then if Allowed d then 1 else 0 else 0) + admitted k cs ds'
  | _, _ => 0
  end%Z.

Lemma Allow_other policyFn now key bs k :
  key ≠ k → (Allow policyFn now key bs).2 !! k = bs !! k.
Proof.
  intros Hne. unfold Allow. destruct (_ || _); [done|].
  destruct (take_token _ _). simpl. by rewrite lookup_insert_ne.
Qed.

Lemma admission_bound_from policyFn k r B s1 calls :
  policyFn k = mkPolicy (inject_Z r) (inject_Z B) → (0 < r)%Z → (0 < B)%Z →
  ∀ s bs, whole_second_calls k s s1 calls → (s <= s1)%Z →
  (B + r * (s1 - s) <= 2 ^ 53)%Z → ((s1 - s) * Second <= int64_max)%Z →
  ∀ n, match bs !! k with Some b => int_bucket b n s | None => n = B end →
  (0 <= n <= B)%Z →
  (admitted k calls (run_allow policyFn calls bs).1 <= n + r * (s1 - s))%Z.
Proof.
  intros Hp Hr HB. induction calls as [|[now key] cs IH]; intros s bs Hw Hs Hb Hd n Hn Hn2; simpl in *; [nia|].
  destruct (decide (key = k)) as [->|Hne].
  - destruct Hw as (s'&->&Hs'&Hw).
    destruct (Allow policyFn (s' * Second) k bs) as [d bs1] eqn:EA.
    destruct (run_allow policyFn cs bs1) as [ds bs2] eqn:ER. simpl.
    unfold Allow in EA. rewrite Hp in EA. simpl in EA.
    replace (Qle_bool (inject_Z r) 0) with false in EA.
    2:{ symmetry. apply qle_bool_gt. change 0 with (inject_Z 0). by rewrite <- Zlt_Qlt. }
    replace (Qle_bool (inject_Z B) 0) with false in EA.
    2:{ symmetry. apply qle_bool_gt. change 0 with (inject_Z 0). by rewrite <- Zlt_Qlt. }
    simpl in EA.
    set (b := match bs !! k with Some b => b | None => mkBucket (inject_Z B) (s' * Second) end) in EA.
    assert (∃ m, int_bucket (refill (inject_Z r) (inject_Z B) (s' * Second) b) m s' ∧
                 (0 <= m <= B)%Z ∧ (m <= n + r * (s' - s))%Z) as (m&Hm&Hm2&Hm3).
    { assert (0 <= r * (s' - s) <= r * (s1 - s))%Z as Hrs by nia.
      assert ((s' - s) * Second <= int64_max)%Z by (unfold Second in *; nia).
      unfold b. destruct (bs !! k) as [b0|].
      - exists (Z.min B (n + r * (s' - s))). split; [apply (refill_int r B n s s'); try done; lia|lia].
      - subst n. exists (Z.min B (B + r * (s' - s'))).
        split; [|lia]. apply refill_int; try done; try lia.
        rewrite Z.sub_diag. done. }
    destruct (take_token_int (inject_Z r) m s' _ ltac:(nia) Hm) as [Ha Hb'].
    destruct (take_token _ _) as [d' b']. simplify_eq/=.
    rewrite Ha.
    assert (B + r * (s1 - s') <= 2 ^ 53)%Z by nia.
    assert ((s1 - s') * Second <= int64_max)%Z by (unfold Second in *; lia).
    pose proof (IH s' (<[k:=b']> bs) Hw ltac:(lia) ltac:(done) ltac:(done)) as Hi.
    rewrite lookup_insert_eq, ER in Hi. specialize (Hi _ Hb'). simpl in Hi.
    destruct (Z.leb_spec 1 m); [specialize (Hi ltac:(lia))|specialize (Hi ltac:(lia))]; nia.
  - pose proof (Allow_other policyFn now key bs k Hne) as Ho.
    destruct (Allow policyFn now key bs) as [d bs1]. simpl in Ho.
    pose proof (IH s bs1 Hw Hs Hb Hd n) as Hi. rewrite Ho in Hi. specialize (Hi Hn Hn2).
    destruct (run_allow policyFn cs bs1). simpl in *. lia.
Qed.
End bounds.

(** ** Theorems *)

(** Whatever sequence of requests the limiter has served, every bucket it
    holds contains between zero tokens and the burst of its policy, for every
    float64 rounding. *)
Theorem limiter_reachable_ok `{F : Float64} policyFn calls :
  policies_ok policyFn → limiter_ok policyFn (run_allow policyFn calls ∅).2.
Proof. intros Hp. apply run_allow_ok; [done|]. intros k b. by rewrite lookup_empty. Qed.

Lemma limiter_reachable_ok_witness :
  limiter_ok (λ _, mkPolicy 1 3)
    (run_allow (F := grid 1000) (λ _, mkPolicy 1 3) [(0, "a"); (250000000, "a"); (1700000000, "b")]%Z ∅).2.
Proof. apply (limiter_reachable_ok (F := grid 1000)). intros k. reflexivity. Defined.



(** A key whose policy allows at least one request per second is never
    locked out: one second after the bucket was last refilled the next request
    is admitted, whatever the state and the rounding. *)
Theorem admitted_after_a_second `{F : Float64} policyFn now key bs b :
  1 <= RatePerSec (policyFn key) → 1 <= Burst (policyFn key) →
  bs !! key = Some b → 0 <= tokens b →
  (lastRefill b + Second <= now)%Z →
  Allowed (Allow policyFn now key bs).1 = true.
Proof.
  intros Hr HB Hb Ht Hn. unfold Allow. rewrite Hb.
  replace (Qle_bool (RatePerSec _) 0) with false by (symmetry; apply qle_bool_gt; lra).
  replace (Qle_bool (Burst _) 0) with false by (symmetry; apply qle_bool_gt; lra). simpl.
  assert (1 <= seconds (time_sub now (lastRefill b))) as Hs.
  { apply seconds_ge_1. unfold time_sub, int64_min, int64_max, Second in *. lia. }
  unfold take_token, refill.
  replace (qltb 0 _) with true by (symmetry; apply qltb_lt; lra). simpl.
  assert (1 <= rnd (tokens b + rnd (seconds (time_sub now (lastRefill b)) * RatePerSec (policyFn key)))) as H1.
  { rewrite <- rnd_1 at 1. apply rnd_mono.
    assert (1 <= rnd (seconds (time_sub now (lastRefill b)) * RatePerSec (policyFn key))); [|lra].
    rewrite <- rnd_1 at 1. apply rnd_mono.
    apply (Qle_trans _ (1 * RatePerSec (policyFn key))); [lra|]. apply Qmult_le_compat_r; lra. }
  destruct (qltb _ _); simpl;
    [rewrite (proj2 (Qle_bool_iff 1 (Burst (policyFn key))) HB)|rewrite (proj2 (Qle_bool_iff _ _) H1)]; done.
Qed.

Lemma admitted_after_a_second_witness :
  Allowed (Allow (F := grid 1000) (λ _, mkPolicy 1 1) Second "k" {["k" := mkBucket 0 0]}).1 = true.
Proof.
  apply (admitted_after_a_second (F := grid 1000) (λ _, mkPolicy 1 1) Second "k" _ (mkBucket 0 0));
    simpl; [lra|lra|reflexivity|lra|lia].
Defined.
