(* ===== verification/AuditChain.v ===== *)
(** * The audit hash chain

    [internal/audit/event.go] and [internal/audit/chain.go], with the SQL
    functions [audit_chain_field] and [audit_chain_payload] of migration 0007
    that serialise a row, and the [insertChainedQuery] of
    [internal/audit/writer.go] as a function of the table.

    A row is linked when its [prev_hash] is the [row_hash] of the row before it
    (the hash of the seed for the first row) and its [row_hash] is the SHA-256 of
    [prev_hash] followed by the payload of its columns. *)

From stdpp Require Import base gmap list strings sorting.
From Stdlib Require Import Ascii ZArith NArith Lia.
From S2P Require Import Prelude GoStrings Encoding Sha256.

Local Open Scope string_scope.
Local Open Scope list_scope.

(** ** Events: event.go *)

Inductive Stage :=
| StageReceived | StageValidated | StageDispatched | StageDelivered
| StageDenied | StageRetried | StageDeferred
| StageIntrusionKick | StageIntrusionUnmitigated
| StageBotNotAdmin | StageTelegramAuthFailed
| StageKeyIssued | StageKeyRevoked.

#[export] Instance stage_eq_dec : EqDecision Stage.
Proof. solve_decision. Defined.

Definition stage_string (s : Stage) : string :=
  match s with
  | StageReceived => "received" | StageValidated => "validated"
  | StageDispatched => "dispatched" | StageDelivered => "delivered"
  | StageDenied => "denied" | StageRetried => "retried" | StageDeferred => "deferred"
  | StageIntrusionKick => "intrusion_kick"
  | StageIntrusionUnmitigated => "intrusion_unmitigated"
  | StageBotNotAdmin => "bot_not_admin"
  | StageTelegramAuthFailed => "telegram_auth_failed"
  | StageKeyIssued => "key_issued" | StageKeyRevoked => "key_revoked"
  end.

(** [DeliveryChannel] is a string type; handlers convert into it freely. *)
Definition ChannelSupergroup : string := "supergroup".
Definition ChannelDM : string := "dm".
Definition ChannelGeneral : string := "general".

(** [At = None] is Go's zero time; an instant is in nanoseconds. *)
Record Event := mkEvent {
  At : option Z;
  TraceID : string;
  MessageID : string;
  EvStage : Stage;
  AppID : string;
  Capability : string;
  CapabilitySetVer : Z;
  Endpoint : string;
  RouteStrategyName : string;
  DeliveryChannel : string;
  RecipientUserID : Z;
  RecipientChatID : Z;
  ErrorCode : string;
  Details : gmap string any;
}.

#[export] Instance event_eq_dec : EqDecision Event.
Proof. solve_decision. Defined.

(** ** Rows of [audit_log]

    [details_json] is the stored [jsonb] value, by its text rendering; [at_us]
    is a [timestamptz], in microseconds. *)
Record AuditCols := mkCols {
  at_us : Z;
  trace_id : option string;
  message_id : option string;
  stage : string;
  app_id : option string;
  capability : option string;
  capability_set_ver : option Z;
  endpoint : option string;
  route_strategy : option string;
  delivery_channel : option string;
  recipient_user_id : option Z;
  recipient_chat_id : option Z;
  error_code : option string;
  details_json : string;
}.

Record AuditRow := mkAuditRow {
  a_id : Z;
  a_cols : AuditCols;
  prev_hash : string;
  row_hash : string;
}.

#[export] Instance cols_eq_dec : EqDecision AuditCols.
Proof. solve_decision. Defined.
#[export] Instance auditrow_eq_dec : EqDecision AuditRow.
Proof. solve_decision. Defined.

(** ** The canonical payload: migration 0007 *)

Fixpoint esc (s : string) : string :=
  match s with
  | EmptyString => ""
  | String c s' =>
      if Ascii.eqb c "\"%char then String "\"%char (String "\"%char (esc s'))
      else if Ascii.eqb c "|"%char then String "\"%char (String "|"%char (esc s'))
      else String c (esc s')
  end.

Definition audit_chain_field (v : option string) : string :=
  match v with None => "\N" | Some s => esc s end.

(** The six digits of a microsecond count. *)
Definition pad6 (n : N) : string :=
  let d k := digit ((n / k) mod 10)%N in
  String (d 100000%N) (String (d 10000%N) (String (d 1000%N)
    (String (d 100%N) (String (d 10%N) (String (d 1%N) ""))))).

(** [extract(epoch FROM at)::text]: a numeric of scale 6. *)
Definition epoch_text (us : Z) : string :=
  let n := Z.abs_N us in
  (if (us <? 0)%Z then "-" else "") +:+ format_uint (n / 1000000) +:+ "." +:+ pad6 (n mod 1000000).

Definition int_field (v : option Z) : option string := format_int <$> v.

(** The fourteen fields in the order of the SQL function. *)
Definition payload_fields (c : AuditCols) : list string :=
  epoch_text (at_us c) :: (audit_chain_field <$>
    [trace_id c; message_id c; Some (stage c); app_id c; capability c;
     int_field (capability_set_ver c); endpoint c; route_strategy c; delivery_channel c;
     int_field (recipient_user_id c); int_field (recipient_chat_id c); error_code c;
     Some (details_json c)]).

Definition audit_chain_payload (c : AuditCols) : string :=
  foldl (λ acc f, acc +:+ "|" +:+ f) "v1" (payload_fields c).

(** ** chain.go *)

Definition genesisSeed : string := "telegram_server-audit-genesis-v1".
Definition ChainLockKey : Z := 0x6175646974636861.
Definition GenesisHash : string := sha256 genesisSeed.
Definition ComputeRowHash (prev payload : string) : string := sha256 (prev +:+ payload).

Record ChainRow := mkChainRow {
  cr_ID : Z; cr_At : Z; cr_Stage : string;
  cr_PrevHash : string; cr_RowHash : string; cr_Payload : string;
}.

Record VerifyBreak := mkBreak {
  vb_ID : Z; vb_At : Z; vb_Stage : string;
  vb_Column : string; vb_Expected : string; vb_Stored : string;
}.

Record VerifyResult := mkVerify { OK : bool; Rows : Z; Break : option VerifyBreak }.

(** The loop of [VerifyChain]; the iterator is the list of what its successive
    calls return, a row or an error, and is exhausted at the end of the list. *)
Fixpoint verify_loop (running : string) (n : Z) (next : list (result ChainRow))
    : VerifyResult * option error :=
  match next with
  | [] => (mkVerify true n None, None)
  | Err e :: _ => (mkVerify false n None, Some e)
  | Ok row :: rest =>
      if negb (String.eqb (cr_PrevHash row) running) then
        (mkVerify false n (Some (mkBreak (cr_ID row) (cr_At row) (cr_Stage row)
           "prev_hash" running (cr_PrevHash row))), None)
      else
        let want := ComputeRowHash running (cr_Payload row) in
        if negb (String.eqb (cr_RowHash row) want) then
          (mkVerify false n (Some (mkBreak (cr_ID row) (cr_At row) (cr_Stage row)
             "row_hash" want (cr_RowHash row))), None)
        else verify_loop (cr_RowHash row) (n + 1) rest
  end.

Definition VerifyChain (next : list (result ChainRow)) : VerifyResult * option error :=
  verify_loop GenesisHash 0 next.

(** What the verification query selects of a stored row. *)
Definition chain_row (r : AuditRow) : ChainRow :=
  mkChainRow (a_id r) (at_us (a_cols r)) (stage (a_cols r)) (prev_hash r) (row_hash r)
    (audit_chain_payload (a_cols r)).

Definition verify_table (log : list AuditRow) : VerifyResult * option error :=
  VerifyChain (Ok ∘ chain_row <$> log).

(** ** insertChainedQuery *)

Definition nullif_s (s : string) : option string := if String.eqb s "" then None else Some s.
Definition nullif_z (z : Z) : option Z := if (z =? 0)%Z then None else Some z.

(** The columns of the row for an event; [now] is the transaction's time in
    microseconds and [details] the stored [jsonb]. *)
Definition event_cols (now : Z) (details : string) (e : Event) : AuditCols :=
  {| at_us := match At e with Some t => (t / 1000)%Z | None => now end;
     trace_id := nullif_s (TraceID e);
     message_id := nullif_s (MessageID e);
     stage := stage_string (EvStage e);
     app_id := nullif_s (AppID e);
     capability := nullif_s (Capability e);
     capability_set_ver := nullif_z (CapabilitySetVer e);
     endpoint := nullif_s (Endpoint e);
     route_strategy := nullif_s (RouteStrategyName e);
     delivery_channel := nullif_s (DeliveryChannel e);
     recipient_user_id := nullif_z (RecipientUserID e);
     recipient_chat_id := nullif_z (RecipientChatID e);
     error_code := nullif_s (ErrorCode e);
     details_json := details |}.

(** [ORDER BY id DESC LIMIT 1]. *)
Definition newest (log : list AuditRow) : option AuditRow :=
  foldl (λ acc r, match acc with
                  | Some r' => if (a_id r' <? a_id r)%Z then Some r else acc
                  | None => Some r
                  end) None log.

(** The newest [row_hash] of the table, or the genesis hash. *)
Definition chain_head (log : list AuditRow) : string :=
  match newest log with Some r => row_hash r | None => GenesisHash end.

(** The statement; [id] is what the identity column's sequence yields. *)
Definition insert_chained (id : Z) (c : AuditCols) (log : list AuditRow) : list AuditRow :=
  let h := chain_head log in
  log ++ [mkAuditRow id c h (ComputeRowHash h (audit_chain_payload c))].

(** The pinned values of the repository's tests. *)
Example genesis_pinned :
  hex_encode GenesisHash = "5bfca120522968e0bb1cebbb87a2b656d5c57639b92f17dbb909c76a0299344d".
Proof. vm_compute. reflexivity. Qed.

Example row_hash_pinned :
  let c := {| at_us := 1767225600500000; trace_id := None; message_id := None;
              stage := "received"; app_id := Some "ci-notifier"; capability := None;
              capability_set_ver := None; endpoint := Some "/v1/messages/direct";
              route_strategy := None; delivery_channel := None;
              recipient_user_id := Some 42%Z; recipient_chat_id := None;
              error_code := None; details_json := "{}" |} in
  hex_encode (ComputeRowHash GenesisHash (audit_chain_payload c)) =
  "ef8e5cc1c1e12713601d16ea17e8ee156c20efc8a7c9ee009f6b07b773d53608".
Proof. vm_compute. reflexivity. Qed.

(** ** The payload determines the columns *)

(** Field texts: no unescaped separator, no dangling escape. *)
Fixpoint closed (s : string) : bool :=
  match s with
  | EmptyString => true
  | String c s' =>
      if Ascii.eqb c "\"%char
      then match s' with EmptyString => false | String _ s2 => closed s2 end
      else if Ascii.eqb c "|"%char then false else closed s'
  end.

(** What may follow a field: nothing, or a separator. *)
Definition at_sep (r : string) : Prop := r = "" ∨ ∃ r', r = String "|"%char r'.

Lemma closed_ind (P : string → Prop) :
  P "" → (∀ d s, closed s = true → P s → P (String "\"%char (String d s))) →
  (∀ c s, c ≠ "\"%char → c ≠ "|"%char → closed s = true → P s → P (String c s)) →
  ∀ s, closed s = true → P s.
Proof.
  intros H0 He Hc s.
  enough (∀ n s, (String.length s < n)%nat → closed s = true → P s) by eauto.
  clear s. induction n as [|n IH]; [lia|]. intros [|c s] Hl Hcl; [done|]. simpl in *.
  destruct (Ascii.eqb_spec c "\"%char) as [->|Hne].
  - destruct s as [|d s]; [done|]. apply He; [done|]. apply IH; [simpl in Hl; lia|done].
  - destruct (Ascii.eqb_spec c "|"%char) as [->|Hne2]; [done|].
    apply Hc; [done..|]. apply IH; [lia|done].
Qed.

Lemma closed_cons_not_sep c s : closed (String c s) = true → c ≠ "|"%char.
Proof. intros H ->. done. Qed.

Lemma closed_split f : closed f = true → ∀ g r r',
  closed g = true → at_sep r → at_sep r' → f +:+ r = g +:+ r' → f = g ∧ r = r'.
Proof.
  intros Hf. pattern f. apply closed_ind; [..|exact Hf]; clear f Hf.
  - intros [|c g] r r' Hg Hr Hr'; [done|]. rewrite sapp_nil_l, sapp_cons. intros ->.
    destruct Hr as [?|[r2 [= -> _]]]; [done|]. done.
  - intros d f _ IH [|c g] r r' Hg Hr Hr'; rewrite ?sapp_nil_l, ?sapp_cons.
    + intros <-. destruct Hr' as [?|[? ?]]; done.
    + intros [= <- He]. simpl in Hg. destruct g as [|d' g]; [done|].
      rewrite sapp_cons in He. injection He as <- He.
      destruct (IH g r r' Hg Hr Hr' He) as [-> ->]. done.
  - intros c f Hc1 Hc2 _ IH [|c' g] r r' Hg Hr Hr'; rewrite ?sapp_nil_l, ?sapp_cons.
    + intros <-. destruct Hr' as [?|[? [= -> _]]]; done.
    + intros [= <- He]. simpl in Hg.
      destruct (Ascii.eqb_spec c "\"%char); [done|]. destruct (Ascii.eqb_spec c "|"%char); [done|].
      destruct (IH g r r' Hg Hr Hr' He) as [-> ->]. done.
Qed.

(** The joined fields. *)
Definition joined (fs : list string) : string := foldr (λ f acc, String "|"%char (f +:+ acc)) "" fs.

Lemma joined_at_sep fs : at_sep (joined fs).
Proof. destruct fs; [by left|right; by eexists]. Qed.

Lemma joined_inj fs : ∀ gs, Forall (λ f, closed f = true) fs → Forall (λ f, closed f = true) gs →
  joined fs = joined gs → fs = gs.
Proof.
  induction fs as [|f fs IH]; intros [|g gs] Hf Hg; simpl; try done.
  intros [= He]. inversion Hf; inversion Hg; subst.
  apply closed_split in He as [-> He]; [|auto using joined_at_sep..].
  f_equal. by apply IH.
Qed.

Lemma foldl_joined fs acc : foldl (λ acc f, acc +:+ "|" +:+ f) acc fs = acc +:+ joined fs.
Proof.
  revert acc. induction fs as [|f fs IH]; intros acc; simpl; [by rewrite sapp_nil_r|].
  rewrite IH, !sapp_assoc. done.
Qed.

Lemma closed_esc s : closed (esc s) = true.
Proof.
  induction s as [|c s IH]; simpl; [done|].
  destruct (Ascii.eqb c "\"%char) eqn:E1; [done|].
  destruct (Ascii.eqb c "|"%char) eqn:E2; [done|]. simpl. by rewrite E1, E2.
Qed.

Lemma esc_inj s : ∀ t, esc s = esc t → s = t.
Proof.
  induction s as [|c s IH]; intros [|d t]; simpl; try done.
  - intros H. repeat (destruct (Ascii.eqb _ _); try done).
  - intros H. repeat (destruct (Ascii.eqb _ _); try done).
  - destruct (Ascii.eqb_spec c "\"%char), (Ascii.eqb_spec d "\"%char),
      (Ascii.eqb_spec c "|"%char), (Ascii.eqb_spec d "|"%char); intros; simplify_eq; f_equal; auto.
Qed.

Lemma esc_not_null s : esc s ≠ "\N".
Proof.
  destruct s as [|c s]; simpl; [done|].
  destruct (Ascii.eqb_spec c "\"%char); [done|]. destruct (Ascii.eqb_spec c "|"%char); [done|].
  intros [= -> _]. done.
Qed.

Lemma audit_chain_field_inj v w : audit_chain_field v = audit_chain_field w → v = w.
Proof.
  destruct v as [s|], w as [t|]; simpl; intros H; try done.
  - f_equal. by apply esc_inj.
  - by apply esc_not_null in H.
  - symmetry in H. by apply esc_not_null in H.
Qed.

Lemma closed_field v : closed (audit_chain_field v) = true.
Proof. destruct v; simpl; [apply closed_esc|done]. Qed.

Lemma int_field_inj v w : int_field v = int_field w → v = w.
Proof.
  destruct v, w; simpl; intros H; try done. injection H as H. f_equal. by apply format_int_inj.
Qed.

Lemma closed_no_byte s : no_byte "\"%char s = true → no_byte "|"%char s = true → closed s = true.
Proof.
  induction s as [|c s IH]; simpl; [done|].
  intros [H1 H2]%no_byte_cons_ne [H3 H4]%no_byte_cons_ne.
  destruct (Ascii.eqb_spec c "\"%char); [done|]. destruct (Ascii.eqb_spec c "|"%char); [done|]. auto.
Qed.

Lemma digits6 n : (n < 1000000)%N →
  n = (((((((n / 100000) mod 10) * 10 + (n / 10000) mod 10) * 10 + (n / 1000) mod 10) * 10
        + (n / 100) mod 10) * 10 + (n / 10) mod 10) * 10 + (n / 1) mod 10)%N.
Proof. intros Hn. zify. Z.to_euclidean_division_equations. lia. Qed.

Lemma digit_inj a b : (a < 10)%N → (b < 10)%N → digit a = digit b → a = b.
Proof.
  intros Ha Hb H. apply (f_equal digit_val) in H. rewrite !digit_val_digit in H by done. congruence.
Qed.

Lemma pad6_inj a b : (a < 1000000)%N → (b < 1000000)%N → pad6 a = pad6 b → a = b.
Proof.
  intros Ha Hb. unfold pad6. intros H. injection H as H5 H4 H3 H2 H1 H0.
  apply digit_inj in H5, H4, H3, H2, H1, H0; try (apply N.mod_lt; done).
  rewrite (digits6 a Ha), (digits6 b Hb), H5, H4, H3, H2, H1, H0. done.
Qed.

Lemma pad6_no_byte c n : digit_val c = None → no_byte c (pad6 n) = true.
Proof.
  intros Hc. unfold pad6, no_byte. cbn [sall].
  rewrite !(digit_not _ c Hc) by (apply is_digit_digit, N.mod_lt; done). done.
Qed.

Lemma epoch_text_no_byte c us : digit_val c = None → c ≠ "-"%char → c ≠ "."%char →
  no_byte c (epoch_text us) = true.
Proof.
  intros Hc Hm Hd. unfold epoch_text. rewrite !no_byte_app, format_uint_no_byte, pad6_no_byte by done.
  rewrite andb_true_r. simpl. apply andb_true_iff. split.
  - destruct (us <? 0)%Z; [|done]. apply no_byte_cons_ne. split; [congruence|done].
  - apply andb_true_iff. split; [|done]. apply negb_true_iff, Ascii.eqb_neq. congruence.
Qed.

Lemma epoch_unsigned_inj n m :
  format_uint (n / 1000000) +:+ "." +:+ pad6 (n mod 1000000) =
  format_uint (m / 1000000) +:+ "." +:+ pad6 (m mod 1000000) → n = m.
Proof.
  rewrite !(sapp_cons "."%char ""), !sapp_nil_l.
  intros H. apply (f_equal (split_on "."%char)) in H.
  rewrite !(split_on_app "."%char), !split_on_no_byte in H
    by first [by apply format_uint_no_byte | by apply pad6_no_byte].
  assert (∀ a b c d : string, [a; b] = [c; d] → a = c ∧ b = d) as Hp by (by intros ???? [= -> ->]).
  apply Hp in H as [H1 H2]. apply format_uint_inj in H1.
  apply pad6_inj in H2; [|apply N.mod_lt; done..].
  rewrite (N.div_mod n 1000000), (N.div_mod m 1000000) by done. congruence.
Qed.

Lemma epoch_text_inj x y : epoch_text x = epoch_text y → x = y.
Proof.
  unfold epoch_text.
  destruct (Z.ltb_spec x 0), (Z.ltb_spec y 0); rewrite ?sapp_nil_l; intros Heq.
  - apply sapp_inj_l, epoch_unsigned_inj in Heq. lia.
  - symmetry in Heq. destruct (format_uint _) eqn:E in Heq; [|].
    + simpl in Heq. discriminate.
    + rewrite !sapp_cons in Heq. injection Heq as -> _. by apply format_uint_no_minus in E.
  - destruct (format_uint _) eqn:E in Heq; [|].
    + simpl in Heq. discriminate.
    + rewrite !sapp_cons in Heq. injection Heq as -> _. by apply format_uint_no_minus in E.
  - apply epoch_unsigned_inj in Heq. lia.
Qed.

Lemma payload_fields_closed c : Forall (λ f, closed f = true) (payload_fields c).
Proof.
  constructor.
  - apply closed_no_byte; apply epoch_text_no_byte; done.
  - apply Forall_fmap, Forall_true. intros v. apply closed_field.
Qed.

Lemma payload_inj c d : audit_chain_payload c = audit_chain_payload d → c = d.
Proof.
  unfold audit_chain_payload. rewrite !foldl_joined. intros H%sapp_inj_l.
  apply joined_inj in H; [|apply payload_fields_closed..].
  destruct c, d. unfold payload_fields in H. 
  cbn [fmap list_fmap at_us trace_id message_id stage app_id capability capability_set_ver endpoint
       route_strategy delivery_channel recipient_user_id recipient_chat_id error_code details_json] in H.
  assert (∀ (a b : string) l l', a :: l = b :: l' → a = b ∧ l = l') as Hp by (by intros ???? [= -> ->]).
  repeat match goal with
  | H : _ :: _ = _ :: _ |- _ => apply Hp in H as [? H]
  | H : audit_chain_field _ = audit_chain_field _ |- _ => apply audit_chain_field_inj in H
  | H : int_field _ = int_field _ |- _ => apply int_field_inj in H
  | H : epoch_text _ = epoch_text _ |- _ => apply epoch_text_inj in H
  | H : Some _ = Some _ |- _ => injection H as H
  end.
  subst. reflexivity.
Qed.

(** ** Linked chains *)

(** [linked h rows]: each row links to the one before it, the first to [h]. *)
Fixpoint linked (h : string) (rows : list ChainRow) : Prop :=
  match rows with
  | [] => True
  | r :: rs => cr_PrevHash r = h ∧ cr_RowHash r = ComputeRowHash h (cr_Payload r) ∧ linked (cr_RowHash r) rs
  end.

(** The hash a chain that starts at [h] ends with. *)
Definition head_after (h : string) (rows : list ChainRow) : string :=
  match last rows with Some r => cr_RowHash r | None => h end.

Lemma head_after_cons h r rows : head_after h (r :: rows) = head_after (cr_RowHash r) rows.
Proof. unfold head_after. rewrite last_cons. by destruct (last rows). Qed.

Lemma linked_app h xs ys : linked h (xs ++ ys) ↔ linked h xs ∧ linked (head_after h xs) ys.
Proof.
  revert h. induction xs as [|x xs IH]; intros h; simpl; [tauto|].
  rewrite IH, head_after_cons. tauto.
Qed.

(** The outcome of the walk, case by case. *)
Inductive walk_outcome (h : string) (n : Z) (good : list ChainRow) (rest : list (result ChainRow))
    : VerifyResult * option error → Prop :=
| walk_end : rest = [] → walk_outcome h n good rest (mkVerify true n None, None)
| walk_err e rest' : rest = Err e :: rest' → walk_outcome h n good rest (mkVerify false n None, Some e)
| walk_prev r rest' : rest = Ok r :: rest' → cr_PrevHash r ≠ head_after h good →
    walk_outcome h n good rest
      (mkVerify false n (Some (mkBreak (cr_ID r) (cr_At r) (cr_Stage r) "prev_hash"
         (head_after h good) (cr_PrevHash r))), None)
| walk_row r rest' : rest = Ok r :: rest' → cr_PrevHash r = head_after h good →
    cr_RowHash r ≠ ComputeRowHash (head_after h good) (cr_Payload r) →
    walk_outcome h n good rest
      (mkVerify false n (Some (mkBreak (cr_ID r) (cr_At r) (cr_Stage r) "row_hash"
         (ComputeRowHash (head_after h good) (cr_Payload r)) (cr_RowHash r))), None).

Lemma verify_loop_outcome h n next :
  ∃ good rest, next = (Ok <$> good) ++ rest ∧ linked h good ∧
    walk_outcome h (n + Z.of_nat (length good)) good rest (verify_loop h n next).
Proof.
  revert h n. induction next as [|[r|e] next IH]; intros h n; simpl.
  - exists [], []. simpl. rewrite Z.add_0_r. split_and!; [done..|by constructor].
  - destruct (String.eqb_spec (cr_PrevHash r) h) as [Hp|Hp]; simpl.
    + destruct (String.eqb_spec (cr_RowHash r) (ComputeRowHash h (cr_Payload r))) as [Hr|Hr]; simpl.
      * destruct (IH (cr_RowHash r) (n + 1)%Z) as (good&rest&->&Hl&Ho).
        exists (r :: good), rest. simpl. split_and!; [done..|].
        replace (n + Z.of_nat (S (length good)))%Z with (n + 1 + Z.of_nat (length good))%Z by lia.
        destruct Ho; [by eapply walk_end|by eapply walk_err|..]; rewrite <- (head_after_cons h);
          [eapply walk_prev|eapply walk_row]; rewrite ?head_after_cons; done.
      * exists [], (Ok r :: next). simpl. rewrite Z.add_0_r. split_and!; [done..|].
        change h with (head_after h []) at 2. eapply walk_row; done.
    + exists [], (Ok r :: next). simpl. rewrite Z.add_0_r. split_and!; [done..|].
      change h with (head_after h []) at 2. eapply walk_prev; done.
  - exists [], (Err e :: next). simpl. rewrite Z.add_0_r. split_and!; [done..|by eapply walk_err].
Qed.

Lemma linked_verify_loop h n rows : linked h rows →
  verify_loop h n (Ok <$> rows) = (mkVerify true (n + Z.of_nat (length rows)) None, None).
Proof.
  revert h n. induction rows as [|r rows IH]; intros h n; simpl; [by rewrite Z.add_0_r|].
  intros (Hp&Hr&Hl). rewrite Hp, Hr, !String.eqb_refl. simpl. rewrite <- Hr, IH by done. do 2 f_equal. lia.
Qed.

Lemma verify_loop_linked h n rows :
  OK (verify_loop h n (Ok <$> rows)).1 = true → linked h rows.
Proof.
  revert h n. induction rows as [|r rows IH]; intros h n; simpl; [done|].
  destruct (String.eqb_spec (cr_PrevHash r) h) as [Hp|Hp]; simpl; [|done].
  destruct (String.eqb_spec (cr_RowHash r) (ComputeRowHash h (cr_Payload r))) as [Hr|Hr]; simpl; [|done].
  intros H. split_and!; [done..|]. by eapply IH.
Qed.

(** ** Appending under the lock *)

Definition ids_sorted (log : list AuditRow) : Prop := StronglySorted Z.lt (a_id <$> log).

(** The table holds a linked chain whose ids grow. *)
Definition chain_ok (log : list AuditRow) : Prop :=
  ids_sorted log ∧ linked GenesisHash (chain_row <$> log).

Lemma ids_sorted_snoc log r : ids_sorted (log ++ [r]) ↔ ids_sorted log ∧ Forall (λ x, (a_id x < a_id r)%Z) log.
Proof.
  unfold ids_sorted. rewrite fmap_app. induction log as [|x log IH]; simpl.
  - split; intros; repeat constructor.
  - rewrite Forall_cons. split.
    + inversion 1 as [|?? Hs Hf]; subst. apply IH in Hs as [Hs Hlt].
      apply Forall_app in Hf as [Hf Hx]. inversion Hx; subst. repeat split; [constructor|..]; done.
    + intros [Hs [Hlt Hall]]. inversion Hs as [|?? Hs' Hf]; subst.
      constructor; [by apply IH|]. apply Forall_app. by repeat constructor.
Qed.

Lemma newest_last log : ids_sorted log → newest log = last log.
Proof.
  induction log as [|r log IH] using rev_ind; [done|].
  intros [Hs Hlt]%ids_sorted_snoc. unfold newest in *. rewrite foldl_app, (IH Hs), last_snoc. simpl.
  destruct (last log) as [r'|] eqn:El; [|done].
  apply last_Some_elem_of in El. rewrite Forall_forall in Hlt.
  by rewrite (proj2 (Z.ltb_lt _ _) (Hlt _ El)).
Qed.

Lemma chain_head_after log : ids_sorted log → chain_head log = head_after GenesisHash (chain_row <$> log).
Proof.
  intros Hs. unfold chain_head, head_after. rewrite (newest_last _ Hs), fmap_last. by destruct (last log).
Qed.

Lemma insert_chained_ok id c log :
  chain_ok log → Forall (λ r, (a_id r < id)%Z) log → chain_ok (insert_chained id c log).
Proof.
  intros [Hs Hl] Hid. unfold insert_chained. split.
  - apply ids_sorted_snoc. done.
  - rewrite fmap_app. apply linked_app. split; [done|]. rewrite <- chain_head_after by done. simpl. done.
Qed.

#[export] Hint Resolve insert_chained_ok : srv.

(** ** Hash inputs and collisions *)

(** Every string a table's chain hashes, the seed included. *)
Definition hash_inputs (log : list AuditRow) : list string :=
  genesisSeed :: ((λ r, prev_hash r +:+ audit_chain_payload (a_cols r)) <$> log).

(** No two different strings hashed by the tables have the same SHA-256. *)
Definition collision_free (l1 l2 : list AuditRow) : bool :=
  forallb (λ x, forallb (λ y, negb (String.eqb (sha256 x) (sha256 y)) || String.eqb x y)
    (hash_inputs l2)) (hash_inputs l1).

Lemma collision_free_spec l1 l2 :
  collision_free l1 l2 = true ↔
  ∀ x y, x ∈ hash_inputs l1 → y ∈ hash_inputs l2 → sha256 x = sha256 y → x = y.
Proof.
  unfold collision_free. rewrite forallb_forall. setoid_rewrite forallb_forall.
  setoid_rewrite <- list_elem_of_In. split.
  - intros H x y Hx Hy Hs. specialize (H x Hx y Hy). rewrite Hs, String.eqb_refl in H. simpl in H.
    by apply String.eqb_eq.
  - intros H x Hx y Hy. destruct (String.eqb_spec (sha256 x) (sha256 y)); [|done]. simpl.
    apply String.eqb_eq. auto.
Qed.

Lemma sha_or_seed log r : linked GenesisHash (chain_row <$> (log ++ [r])) →
  row_hash r = sha256 (prev_hash r +:+ audit_chain_payload (a_cols r)) ∧
  String.length (prev_hash r) = 32%nat ∧ linked GenesisHash (chain_row <$> log) ∧
  prev_hash r = head_after GenesisHash (chain_row <$> log).
Proof.
  rewrite fmap_app. intros [Hl (Hp&Hr&_)]%linked_app. simpl in Hp, Hr. subst.
  split_and!; [by rewrite Hr, Hp| |done|done].
  rewrite Hp. unfold head_after. destruct (last (chain_row <$> log)) as [x|] eqn:El.
  - apply last_Some in El as [l El]. rewrite El in Hl. apply linked_app in Hl as [_ (_&Hx&_)].
    rewrite Hx. apply sha256_length.
  - apply sha256_length.
Qed.

Lemma payload_nonempty c : (0 < String.length (audit_chain_payload c))%nat.
Proof. unfold audit_chain_payload. rewrite foldl_joined, slength_app. simpl. lia. Qed.

Lemma seed_not_row p c : String.length p = 32%nat → genesisSeed ≠ p +:+ audit_chain_payload c.
Proof.
  intros Hp H. apply (f_equal String.length) in H. rewrite slength_app, Hp in H.
  pose proof (payload_nonempty c). change (String.length genesisSeed) with 32%nat in H. lia.
Qed.

Lemma hash_inputs_app l r x : x ∈ hash_inputs l → x ∈ hash_inputs (l ++ [r]).
Proof. unfold hash_inputs. rewrite fmap_app, !elem_of_cons, elem_of_app. naive_solver. Qed.

Lemma hash_inputs_last l r : prev_hash r +:+ audit_chain_payload (a_cols r) ∈ hash_inputs (l ++ [r]).
Proof. unfold hash_inputs. rewrite fmap_app, !elem_of_cons, elem_of_app. right. right. by left. Qed.

(** A row without its identity. *)
Definition content (r : AuditRow) : AuditCols * string * string := (a_cols r, prev_hash r, row_hash r).

Definition head_of (log : list AuditRow) : string := head_after GenesisHash (chain_row <$> log).

Lemma head_of_snoc log r : head_of (log ++ [r]) = row_hash r.
Proof. unfold head_of, head_after. rewrite fmap_app. simpl. by rewrite last_snoc. Qed.

Lemma same_head_same_content l1 : ∀ l2,
  (∀ x y, x ∈ hash_inputs l1 → y ∈ hash_inputs l2 → sha256 x = sha256 y → x = y) →
  linked GenesisHash (chain_row <$> l1) → linked GenesisHash (chain_row <$> l2) →
  head_of l1 = head_of l2 → content <$> l1 = content <$> l2.
Proof.
  induction l1 as [|r1 l1 IH] using rev_ind; intros l2 Hc Hl1 Hl2 Hh;
    (destruct l2 as [|r2 l2 _] using rev_ind; [try done|]).
  - exfalso. rewrite head_of_snoc in Hh.
    apply sha_or_seed in Hl2 as (Hr&Hp&_). rewrite Hr in Hh.
    apply Hc in Hh; [by eapply seed_not_row|by left|apply hash_inputs_last].
  - exfalso. rewrite head_of_snoc in Hh. symmetry in Hh.
    apply sha_or_seed in Hl1 as (Hr&Hp&_). rewrite Hr in Hh. symmetry in Hh.
    apply Hc in Hh; [by eapply seed_not_row|apply hash_inputs_last|by left].
  - rewrite !head_of_snoc in Hh.
    apply sha_or_seed in Hl1 as (Hr1&Hp1&Hl1&Hq1), Hl2 as (Hr2&Hp2&Hl2&Hq2).
    pose proof Hh as Hh'. rewrite Hr1, Hr2 in Hh'.
    apply Hc in Hh'; [|apply hash_inputs_last..].
    apply sapp_inj_len in Hh' as [Hpe Hpay%payload_inj]; [|congruence].
    rewrite !fmap_app. f_equal; [|simpl; unfold content; congruence].
    apply IH; [|done..|unfold head_of; congruence].
    intros x y Hx Hy. apply Hc; by apply hash_inputs_app.
Qed.

(** ** Theorems *)

Lemma linked_verify_table log : linked GenesisHash (chain_row <$> log) →
  verify_table log = (mkVerify true (Z.of_nat (length log)) None, None).
Proof.
  intros H. unfold verify_table, VerifyChain. rewrite list_fmap_compose, linked_verify_loop by done.
  by rewrite length_fmap.
Qed.

(** C25: [VerifyChain] accepts a table exactly when every row links to its
    predecessor, the first row to the genesis hash; it then counts every row. *)
Theorem verify_table_iff log :
  verify_table log = (mkVerify true (Z.of_nat (length log)) None, None) ↔
  linked GenesisHash (chain_row <$> log).
Proof.
  split; [|apply linked_verify_table]. unfold verify_table, VerifyChain. rewrite list_fmap_compose.
  intros H. eapply (verify_loop_linked _ 0). by rewrite H.
Qed.

(** Whatever the iterator yields, [VerifyChain] stops at the first row that
    is not linked or at the first iterator error; [Rows] counts exactly the
    linked rows before that point, and a break names the row, the column and
    the expected and the stored hash. *)
Theorem verify_first_break next :
  ∃ good rest, next = (Ok <$> good) ++ rest ∧ linked GenesisHash good ∧
    walk_outcome GenesisHash (Z.of_nat (length good)) good rest (VerifyChain next).
Proof. apply (verify_loop_outcome GenesisHash 0). Qed.

(** The canonical payload is unambiguous: two rows with the same payload
    agree in all fourteen columns, NULL and the literal value [\N] included. *)
Theorem payload_determines_columns c d :
  audit_chain_payload c = audit_chain_payload d → c = d.
Proof. apply payload_inj. Qed.

Definition sample_cols (t : string) : AuditCols :=
  event_cols 1767225600500000 "{}"
    (mkEvent None t "m-1" StageReceived "app" "messages.direct.send" 3 "/v1/messages/direct"
       "direct" "" 42 0 "" ∅).

Lemma payload_determines_columns_witness :
  sample_cols "t|1" = sample_cols "t|1" ∧
  audit_chain_payload (sample_cols "t|1") ≠ audit_chain_payload (sample_cols "t\N1").
Proof.
  split; [by apply payload_determines_columns|vm_compute; done].
Defined.

(** C10: tamper evidence.  Two tables that both verify and end with the same
    hash hold the same rows, column by column and hash by hash, unless two of
    the strings they hash collide under SHA-256: rows cannot be edited, inserted,
    dropped or reordered behind an unchanged head. *)
Theorem tamper_evident l1 l2 :
  (verify_table l1).1.(OK) = true → (verify_table l2).1.(OK) = true →
  head_of l1 = head_of l2 → collision_free l1 l2 = true →
  content <$> l1 = content <$> l2.
Proof.
  unfold verify_table, VerifyChain. rewrite !list_fmap_compose.
  intros H1%verify_loop_linked H2%verify_loop_linked Hh Hc.
  by apply same_head_same_content; [apply collision_free_spec|..].
Qed.

Definition sample_log (i j : Z) : list AuditRow :=
  insert_chained j (sample_cols "t2") (insert_chained i (sample_cols "t1") []).

Lemma tamper_evident_witness :
  content <$> sample_log 1 2 = content <$> sample_log 5 9 ∧ length (sample_log 1 2) = 2%nat.
Proof.
  split; [|reflexivity]. apply tamper_evident; vm_compute; reflexivity.
Defined.
