(* ===== verification/World.v ===== *)
(** * The world the server runs in

    The PostgreSQL database of [migrations/], the clock, the Telegram Bot API,
    entropy and the structured log, and the effect monad [M] the components are
    written in.

    Outside systems are interfaces: [Postgres] leaves open what SQL leaves open
    (the order of unordered rows, the collation, the rendering of [jsonb]);
    [Telegram] is an arbitrary state machine.  Every call to either pops an entry
    of an oracle: how long the call takes and whether it succeeds, fails, or
    takes effect but is reported as failed (a lost acknowledgement).  A call
    made after the context's deadline fails. *)

From stdpp Require Import base gmap list strings sorting.
From Stdlib Require Import ZArith Lia.
From S2P Require Import Prelude GoStrings AuditChain RateLimit.

Local Open Scope string_scope.
Local Open Scope list_scope.

(** ** Tables *)

Record AppRow := mkApp {
  app_name : string;
  app_description : string;
  app_min_grade : string;
  app_active : bool;
  app_created_at : Z;
  app_updated_at : Z;
  capability_set_version : Z;
  app_created_by : string;
}.

Record KeyRow := mkKey {
  k_app_id : string;
  key_hash : string;
  key_prefix : string;
  k_label : string;
  k_created_at : Z;
  revoked_at : option Z;
}.

Record UserRow := mkUser {
  telegram_id : Z;
  username : option string;
  grade : string;
  preferred_lang : option string;
  agreed_at : option Z;
  personal_supergroup_chat_id : option Z;
  personal_supergroup_linked_at : option Z;
  bot_is_admin_in_supergroup : bool;
  consecutive_failures : Z;
  status : string;
  anonymized : bool;
  u_created_at : Z;
  u_updated_at : Z;
}.

Record TokenRow := mkToken { tok_user_id : Z; expires_at : Z; tok_created_at : Z }.

#[export] Instance app_row_eq_dec : EqDecision AppRow.
Proof. solve_decision. Defined.
#[export] Instance key_row_eq_dec : EqDecision KeyRow.
Proof. solve_decision. Defined.
#[export] Instance user_row_eq_dec : EqDecision UserRow.
Proof. solve_decision. Defined.
#[export] Instance token_row_eq_dec : EqDecision TokenRow.
Proof. solve_decision. Defined.

(** Primary keys are map keys; [user_subscriptions] and [app_capabilities] are
    sets; the identity sequences are kept beside their tables. *)
Record Database := mkDb {
  apps : gmap string AppRow;
  app_capabilities : gset (string * string);
  app_keys : gmap Z KeyRow;
  users : gmap Z UserRow;
  user_subscriptions : gset (Z * string);
  user_topics : gmap (Z * string) Z;
  pending_tokens : gmap string TokenRow;
  policies : list (string * string * Z * Z);
  audit_log : list AuditRow;
  seq_keys : Z;
  seq_users : Z;
  seq_audit : Z;
}.

Definition empty_db : Database := mkDb ∅ ∅ ∅ ∅ ∅ ∅ ∅ [] [] 1 1 1.

Definition set_apps f db := mkDb (f (apps db)) (app_capabilities db) (app_keys db) (users db)
  (user_subscriptions db) (user_topics db) (pending_tokens db) (policies db) (audit_log db)
  (seq_keys db) (seq_users db) (seq_audit db).
Definition set_capabilities f db := mkDb (apps db) (f (app_capabilities db)) (app_keys db) (users db)
  (user_subscriptions db) (user_topics db) (pending_tokens db) (policies db) (audit_log db)
  (seq_keys db) (seq_users db) (seq_audit db).
Definition set_keys f db := mkDb (apps db) (app_capabilities db) (f (app_keys db)) (users db)
  (user_subscriptions db) (user_topics db) (pending_tokens db) (policies db) (audit_log db)
  (seq_keys db) (seq_users db) (seq_audit db).
Definition set_users f db := mkDb (apps db) (app_capabilities db) (app_keys db) (f (users db))
  (user_subscriptions db) (user_topics db) (pending_tokens db) (policies db) (audit_log db)
  (seq_keys db) (seq_users db) (seq_audit db).
Definition set_subscriptions f db := mkDb (apps db) (app_capabilities db) (app_keys db) (users db)
  (f (user_subscriptions db)) (user_topics db) (pending_tokens db) (policies db) (audit_log db)
  (seq_keys db) (seq_users db) (seq_audit db).
Definition set_topics f db := mkDb (apps db) (app_capabilities db) (app_keys db) (users db)
  (user_subscriptions db) (f (user_topics db)) (pending_tokens db) (policies db) (audit_log db)
  (seq_keys db) (seq_users db) (seq_audit db).
Definition set_tokens f db := mkDb (apps db) (app_capabilities db) (app_keys db) (users db)
  (user_subscriptions db) (user_topics db) (f (pending_tokens db)) (policies db) (audit_log db)
  (seq_keys db) (seq_users db) (seq_audit db).
Definition set_audit f db := mkDb (apps db) (app_capabilities db) (app_keys db) (users db)
  (user_subscriptions db) (user_topics db) (pending_tokens db) (policies db) (f (audit_log db))
  (seq_keys db) (seq_users db) (seq_audit db).
Definition set_seq_users f db := mkDb (apps db) (app_capabilities db) (app_keys db) (users db)
  (user_subscriptions db) (user_topics db) (pending_tokens db) (policies db) (audit_log db)
  (seq_keys db) (f (seq_users db)) (seq_audit db).
Definition set_seq_audit f db := mkDb (apps db) (app_capabilities db) (app_keys db) (users db)
  (user_subscriptions db) (user_topics db) (pending_tokens db) (policies db) (audit_log db)
  (seq_keys db) (seq_users db) (f (seq_audit db)).
Definition set_seq_keys f db := mkDb (apps db) (app_capabilities db) (app_keys db) (users db)
  (user_subscriptions db) (user_topics db) (pending_tokens db) (policies db) (audit_log db)
  (f (seq_keys db)) (seq_users db) (seq_audit db).

(** ** What SQL leaves open *)

(** Values without text, which [jsonb] always stores. *)
Definition is_plain (v : any) : bool := match v with AInt _ | ABool _ | ANil => true | _ => false end.

Class Postgres := {
  plan {A} : list A → list A;
  plan_perm {A} (l : list A) : plan l ≡ₚ l;
  collate : list string → list string;
  collate_perm l : collate l ≡ₚ l;
  jsonb_of : gmap string any → option string;
  jsonb_of_empty : jsonb_of ∅ = Some "{}";
  jsonb_of_plain m : map_Forall (λ _ v, is_plain v = true) m → is_Some (jsonb_of m);
}.

(** ** Telegram *)

Record SendMessageParams := mkSend { sm_ChatID : Z; sm_Text : string; sm_Thread : Z }.

(** A Bot API method returns its result, possibly a nil pointer, or an error
    text, and may change the state of the service. *)
Class Telegram := {
  tg : Type;
  tg_sendMessage : SendMessageParams → tg → res string (option Z) * tg;
  tg_createForumTopic : Z → string → tg → res string (option Z) * tg;
  tg_closeForumTopic : Z → Z → tg → res string () * tg;
  tg_banChatMember : Z → Z → tg → res string () * tg;
}.

(** ** The world *)

(** How a call ends. *)
Inductive outcome := Done | Failed | Unacked.

Record World `{Telegram} := mkWorld {
  w_db : Database;
  w_tx : option Database;
  w_now : Z;
  w_deadline : option Z;
  w_oracle : list (Z * outcome);
  w_tg : tg;
  w_uuid : nat → string;
  w_uuid_n : nat;
  w_rand : nat → option string;
  w_rand_n : nat;
  w_logs : list (gmap string any);
  w_requests : gmap string tokenBucket;
  w_dispatch : DispatchLimiter;
}.

Section world.
Context `{TG : Telegram}.

Local Abbreviation M := (ST World).

Definition with_db (db : Database) (w : World) : World :=
  mkWorld _ db (w_tx w) (w_now w) (w_deadline w) (w_oracle w) (w_tg w) (w_uuid w) (w_uuid_n w)
    (w_rand w) (w_rand_n w) (w_logs w) (w_requests w) (w_dispatch w).
Definition with_tx (tx : option Database) (w : World) : World :=
  mkWorld _ (w_db w) tx (w_now w) (w_deadline w) (w_oracle w) (w_tg w) (w_uuid w) (w_uuid_n w)
    (w_rand w) (w_rand_n w) (w_logs w) (w_requests w) (w_dispatch w).
Definition with_clock (now : Z) (o : list (Z * outcome)) (w : World) : World :=
  mkWorld _ (w_db w) (w_tx w) now (w_deadline w) o (w_tg w) (w_uuid w) (w_uuid_n w)
    (w_rand w) (w_rand_n w) (w_logs w) (w_requests w) (w_dispatch w).
Definition with_deadline (d : option Z) (w : World) : World :=
  mkWorld _ (w_db w) (w_tx w) (w_now w) d (w_oracle w) (w_tg w) (w_uuid w) (w_uuid_n w)
    (w_rand w) (w_rand_n w) (w_logs w) (w_requests w) (w_dispatch w).
Definition with_tg (t : tg) (w : World) : World :=
  mkWorld _ (w_db w) (w_tx w) (w_now w) (w_deadline w) (w_oracle w) t (w_uuid w) (w_uuid_n w)
    (w_rand w) (w_rand_n w) (w_logs w) (w_requests w) (w_dispatch w).
Definition with_uuid_n (n : nat) (w : World) : World :=
  mkWorld _ (w_db w) (w_tx w) (w_now w) (w_deadline w) (w_oracle w) (w_tg w) (w_uuid w) n
    (w_rand w) (w_rand_n w) (w_logs w) (w_requests w) (w_dispatch w).
Definition with_rand_n (n : nat) (w : World) : World :=
  mkWorld _ (w_db w) (w_tx w) (w_now w) (w_deadline w) (w_oracle w) (w_tg w) (w_uuid w) (w_uuid_n w)
    (w_rand w) n (w_logs w) (w_requests w) (w_dispatch w).
Definition with_logs (l : list (gmap string any)) (w : World) : World :=
  mkWorld _ (w_db w) (w_tx w) (w_now w) (w_deadline w) (w_oracle w) (w_tg w) (w_uuid w) (w_uuid_n w)
    (w_rand w) (w_rand_n w) l (w_requests w) (w_dispatch w).
Definition with_requests (b : gmap string tokenBucket) (w : World) : World :=
  mkWorld _ (w_db w) (w_tx w) (w_now w) (w_deadline w) (w_oracle w) (w_tg w) (w_uuid w) (w_uuid_n w)
    (w_rand w) (w_rand_n w) (w_logs w) b (w_dispatch w).
Definition with_dispatch (l : DispatchLimiter) (w : World) : World :=
  mkWorld _ (w_db w) (w_tx w) (w_now w) (w_deadline w) (w_oracle w) (w_tg w) (w_uuid w) (w_uuid_n w)
    (w_rand w) (w_rand_n w) (w_logs w) (w_requests w) l.

(** ** Calls to outside systems *)

Definition past_deadline (now : Z) (d : option Z) : bool :=
  match d with Some d => (d <=? now)%Z | None => false end.

(** One call: its latency passes, then it ends as the oracle says; an
    exhausted oracle answers at once and successfully. *)
Definition call : M (outcome * error) := λ w,
  let '(lat, out, rest) := match w_oracle w with
                           | [] => (0, Done, [])
                           | (lat, out) :: rest => (Z.max 0 lat, out, rest)
                           end%Z in
  let now := (w_now w + lat)%Z in
  let w' := with_clock now rest w in
  if past_deadline now (w_deadline w)
  then ((match out with Done => Failed | _ => out end, Sentinel ErrContextDone), w')
  else ((out, Msg "connection failure"), w').

(** A statement outside a transaction.  [args] are its text parameters: one
    that is not valid text fails the statement.  A statement that violates a
    constraint changes nothing. *)
Definition db_exec {A} (args : list string) (f : Z → Database → result A * Database) : M (result A) :=
  '(out, e) ← call;
  match out return M (result A) with
  | Failed => mret (Err e)
  | _ => λ w,
      if forallb utf8_ok args then
        let '(r, db') := f (w_now w / 1000)%Z (w_db w) in
        match out, r with
        | Done, _ => (r, with_db db' w)
        | _, _ => (Err e, with_db db' w)
        end
      else (Err (Msg "invalid byte sequence for encoding UTF8"), w)
  end.

(** A query. *)
Definition db_query {A} (args : list string) (f : Z → Database → result A) : M (result A) :=
  db_exec args (λ now db, (f now db, db)).

(** A round trip without effect: [Ping], or the ends of a read-only
    transaction. *)
Definition db_ping : M (result ()) :=
  '(out, e) ← call;
  match out return M (result ()) with Done => mret (Ok ()) | _ => mret (Err e) end.

(** *** Transactions: [w_tx] is the transaction's private copy *)

Definition tx_begin : M (result ()) :=
  '(out, e) ← call;
  match out return M (result ()) with
  | Done => λ w, (Ok (), with_tx (Some (w_db w)) w)
  | _ => mret (Err e)
  end.

Definition tx_exec {A} (args : list string) (f : Z → Database → result A * Database) : M (result A) :=
  '(out, e) ← call;
  match out return M (result A) with
  | Done => λ w,
      match w_tx w with
      | None => (Err (Msg "tx is closed"), w)
      | Some db =>
          if forallb utf8_ok args then
            let '(r, db') := f (w_now w / 1000)%Z db in (r, with_tx (Some db') w)
          else (Err (Msg "invalid byte sequence for encoding UTF8"), w)
      end
  | _ => mret (Err e)
  end.

Definition tx_query {A} (args : list string) (f : Z → Database → result A) : M (result A) :=
  tx_exec args (λ now db, (f now db, db)).

(** [Commit]: an unacknowledged commit has taken effect. *)
Definition tx_commit : M (result ()) :=
  '(out, e) ← call;
  (λ w,
    match w_tx w with
    | None => (Err (Msg "tx is closed"), w)
    | Some db =>
        match out with
        | Done => (Ok (), with_tx None (with_db db w))
        | Unacked => (Err e, with_tx None (with_db db w))
        | Failed => (Err e, with_tx None w)
        end
    end) : M (result ()).

(** The deferred [tx.Rollback]: it runs when the function returns. *)
Definition tx_rollback : M () := st_modify (with_tx None).
Definition rolling_back {A} (m : M A) : M A := a ← m; tx_rollback;; mret a.

(** [context.WithTimeout] around a call: the earlier deadline counts, and the
    caller's is back afterwards. *)
Definition within {A} (d : Z) (m : M A) : M A :=
  old ← st_gets w_deadline;
  st_modify (λ w, with_deadline (Some (match old with Some o => Z.min o (w_now w + d) | None => w_now w + d end)%Z) w);;
  a ← m;
  st_modify (with_deadline old);;
  mret a.

(** A Bot API call: an error text of the transport or of the API. *)
Definition tg_call {A} (f : tg → res string A * tg) : M (res string A) :=
  '(out, e) ← call;
  match out return M (res string A) with
  | Failed => mret (Err (error_text e))
  | _ => λ w,
      let '(r, t) := f (w_tg w) in
      match out with
      | Done => (r, with_tg t w)
      | _ => (Err (error_text e), with_tg t w)
      end
  end.

Definition SendMessage (p : SendMessageParams) : M (res string (option Z)) := tg_call (tg_sendMessage p).
Definition CreateForumTopic (chat : Z) (name : string) : M (res string (option Z)) :=
  tg_call (tg_createForumTopic chat name).
Definition CloseForumTopic (chat thread : Z) : M (res string ()) := tg_call (tg_closeForumTopic chat thread).
Definition BanChatMember (chat user : Z) : M (res string ()) := tg_call (tg_banChatMember chat user).

(** [uuid.NewString], and [crypto/rand.Read] into a buffer of [n] bytes. *)
Definition uuid_NewString : M string := λ w, (w_uuid w (w_uuid_n w), with_uuid_n (S (w_uuid_n w)) w).
Definition rand_Read (n : nat) : M (result string) := λ w,
  (match w_rand w (w_rand_n w) with Some b => Ok (fit n b) | None => Err (Msg "entropy source failed") end,
   with_rand_n (S (w_rand_n w)) w).

(** ** Logging: internal/api/middleware/logger.go *)

Definition secret_patterns : list string :=
  ["authorization"; "apikey"; "api_key"; "api-key"; "token"; "secret"; "password";
   "sshkey"; "ssh_key"; "ssh-key"; "bearer"].

(** [RedactKey]: the case-insensitive alternation of [secretKeyPattern]. *)
Definition RedactKey (k : string) : bool :=
  existsb (λ p, contains p (fold_case k)) secret_patterns.

(** [logWriter.emit]. *)
Definition emit (fields : gmap string any) : M () :=
  st_modify (λ w, with_logs
    (w_logs w ++ [map_imap (λ k v, Some (if RedactKey k then AStr "[REDACTED]" else v)) fields]) w).

(** [Log]; the timestamp is kept as the instant it renders. *)
Definition Log (level event : string) (fields : gmap string any) : M () := λ w,
  emit (<["event" := AStr event]> (<["level" := AStr level]> (<["ts" := AInt (w_now w)]> fields))) w.
End world.

(** Computations of the server. *)
Abbreviation M := (ST World).

(** ** Reasoning about computations

    [keeps R m]: every run of [m] relates the world before to the world after
    by [R].  The combinators preserve it for every preorder [R]. *)

Section keeps.
Context `{TG : Telegram}.

Definition keeps (R : relation World) {A} (m : M A) : Prop := ∀ w, R w (m w).2.

Context (R : relation World) `{!PreOrder R}.

Lemma keeps_ret {A} (a : A) : keeps R (mret a).
Proof. intros w. reflexivity. Qed.

Lemma keeps_gets {A} (f : World → A) : keeps R (st_gets f).
Proof. intros w. reflexivity. Qed.

Lemma keeps_bind {A B} (m : M A) (k : A → M B) :
  keeps R m → (∀ a, keeps R (k a)) → keeps R (m ≫= k).
Proof.
  intros Hm Hk w. unfold mbind, st_bind. specialize (Hm w). destruct (m w) as [a w1].
  etrans; [exact Hm|apply Hk].
Qed.

Lemma keeps_fold {A B} (f : B → A → M B) b xs :
  (∀ b x, keeps R (f b x)) → keeps R (st_fold f b xs).
Proof.
  intros Hf. revert b. induction xs as [|x xs IH]; intros b; simpl; [apply keeps_ret|].
  apply keeps_bind; [apply Hf|done].
Qed.
End keeps.

(** Decompose a computation down to its primitive calls. *)
Ltac keeps_step :=
  match goal with
  | |- keeps _ (mret _) => apply keeps_ret, _
  | |- keeps _ (st_gets _) => apply keeps_gets, _
  | |- keeps _ (mbind _ _) => apply keeps_bind; [apply _| |intros ?]
  | |- keeps _ (st_fold _ _ _) => apply keeps_fold; [apply _|intros ? ?]
  | |- keeps _ (match ?x with _ => _ end) => destruct x eqn:?
  | |- keeps _ (let '(_, _) := ?x in _) => destruct x eqn:?
  end.
Ltac keeps_all := repeat (keeps_step || (progress eauto with srv) || (progress intros)).

(** ** Invariants of the database

    [db_inv P]: [P] holds of the committed database and of the private copy of an
    open transaction. *)
Section invariants.
Context `{TG : Telegram} (P : Database → Prop).

Definition db_inv (w : World) : Prop := P (w_db w) ∧ ∀ db, w_tx w = Some db → P db.
Definition inv_step : relation World := λ w w', db_inv w → db_inv w'.

#[export] Instance inv_step_preorder : PreOrder inv_step.
Proof. split; repeat intro; firstorder. Qed.

Lemma inv_call : keeps inv_step call.
Proof.
  intros w. unfold call. destruct (w_oracle w) as [|[lat out] rest]; case_match; intros Hi; exact Hi.
Qed.

Lemma inv_db_exec {A} args (f : Z → Database → result A * Database) :
  (∀ now db, P db → P (f now db).2) → keeps inv_step (db_exec args f).
Proof.
  intros Hf. unfold db_exec. apply keeps_bind; [apply _|apply inv_call|]. intros [out e].
  destruct out; [|apply keeps_ret, _|]; intros w; (destruct (forallb utf8_ok args); [|done]);
    specialize (Hf (w_now w / 1000)%Z (w_db w)); destruct (f _ (w_db w)) as [r db'];
    intros [H1 H2]; simpl; split; simpl; auto.
Qed.

Lemma inv_db_query {A} args (f : Z → Database → result A) : keeps inv_step (db_query args f).
Proof. apply inv_db_exec. done. Qed.

Lemma inv_db_ping : keeps inv_step db_ping.
Proof.
  unfold db_ping. apply keeps_bind; [apply _|apply inv_call|]. intros [[] e]; apply keeps_ret, _.
Qed.

Lemma inv_tx_begin : keeps inv_step tx_begin.
Proof.
  unfold tx_begin. apply keeps_bind; [apply _|apply inv_call|]. intros [[] e]; [|apply keeps_ret, _..].
  intros w [H1 H2]. split; simpl; [done|]. by intros ? [= <-].
Qed.

Lemma inv_tx_exec {A} args (f : Z → Database → result A * Database) :
  (∀ now db, P db → P (f now db).2) → keeps inv_step (tx_exec args f).
Proof.
  intros Hf. unfold tx_exec. apply keeps_bind; [apply _|apply inv_call|]. intros [[] e]; [|apply keeps_ret, _..].
  intros w. destruct (w_tx w) as [db|] eqn:E; [|done]. destruct (forallb utf8_ok args); [|done].
  specialize (Hf (w_now w / 1000)%Z db). destruct (f _ db) as [r db'].
  intros [H1 H2]. split; simpl; [done|]. intros ? [= <-]. auto.
Qed.

Lemma inv_tx_query {A} args (f : Z → Database → result A) : keeps inv_step (tx_query args f).
Proof. apply inv_tx_exec. done. Qed.

Lemma inv_tx_commit : keeps inv_step tx_commit.
Proof.
  unfold tx_commit. apply keeps_bind; [apply _|apply inv_call|]. intros [out e] w.
  destruct (w_tx w) as [db|] eqn:E; [|done]. destruct out; intros [H1 H2]; (split; [by eauto|intros ?; done]).
Qed.

Lemma inv_tx_rollback : keeps inv_step tx_rollback.
Proof. intros w [H1 H2]. by split. Qed.

Lemma inv_rolling_back {A} (m : M A) : keeps inv_step m → keeps inv_step (rolling_back m).
Proof.
  intros Hm. apply keeps_bind; [apply _|done|]. intros a. apply keeps_bind; [apply _|apply inv_tx_rollback|].
  intros _. apply keeps_ret, _.
Qed.

Lemma inv_tg_call {A} (f : tg → res string A * tg) : keeps inv_step (tg_call f).
Proof.
  unfold tg_call. apply keeps_bind; [apply _|apply inv_call|]. intros [[] e]; [|apply keeps_ret, _|];
    intros w; destruct (f (w_tg w)); simpl; intros H; exact H.
Qed.

Lemma inv_within {A} d (m : M A) : keeps inv_step m → keeps inv_step (within d m).
Proof.
  intros Hm. unfold within. apply keeps_bind; [apply _|by apply keeps_gets, _|]. intros old.
  apply keeps_bind; [apply _|intros w Hi; exact Hi|]. intros _.
  apply keeps_bind; [apply _|done|]. intros a. apply keeps_bind; [apply _|intros w Hi; exact Hi|].
  intros _. apply keeps_ret, _.
Qed.

Lemma inv_uuid : keeps inv_step uuid_NewString.
Proof. intros w Hi. exact Hi. Qed.
Lemma inv_rand n : keeps inv_step (rand_Read n).
Proof. intros w Hi. exact Hi. Qed.
Lemma inv_emit fields : keeps inv_step (emit fields).
Proof. intros w Hi. exact Hi. Qed.
Lemma inv_Log level event fields : keeps inv_step (Log level event fields).
Proof. intros w Hi. exact Hi. Qed.
End invariants.

#[export] Hint Resolve inv_step_preorder inv_call inv_db_exec inv_db_query inv_db_ping inv_tx_begin inv_tx_exec
  inv_tx_query inv_tx_commit inv_tx_rollback inv_rolling_back inv_tg_call inv_uuid inv_rand inv_emit
  inv_Log inv_within : srv.

(** ** What a call leaves alone *)

Section frames.
Context `{TG : Telegram}.

(** Everything but the clock, the oracle and the database. *)
Definition same_rest (w w' : World) : Prop :=
  w_tx w' = w_tx w ∧ w_deadline w' = w_deadline w ∧ w_tg w' = w_tg w ∧
  w_uuid w' = w_uuid w ∧ w_uuid_n w' = w_uuid_n w ∧ w_rand w' = w_rand w ∧ w_rand_n w' = w_rand_n w ∧
  w_logs w' = w_logs w ∧ w_requests w' = w_requests w ∧ w_dispatch w' = w_dispatch w.

#[export] Instance same_rest_preorder : PreOrder same_rest.
Proof. split; [by repeat split|]. unfold same_rest. intros ??? H1 H2. destruct_and!. by split_and!; etrans. Qed.

Lemma call_spec w :
  w_db (call w).2 = w_db w ∧ same_rest w (call w).2 ∧ (w_now w <= w_now (call w).2)%Z.
Proof.
  unfold call. destruct (w_oracle w) as [|[lat out] rest]; case_match; simpl;
    (split; [done|split; [by repeat split|lia]]).
Qed.

Lemma db_exec_spec {A} args (f : Z → Database → result A * Database) w :
  same_rest w (db_exec args f w).2 ∧
  (∀ a, (db_exec args f w).1 = Ok a →
     ∃ now, (f now (w_db w)).1 = Ok a ∧ w_db (db_exec args f w).2 = (f now (w_db w)).2) ∧
  (w_db (db_exec args f w).2 = w_db w ∨ ∃ now, w_db (db_exec args f w).2 = (f now (w_db w)).2).
Proof.
  unfold db_exec, mbind, st_bind.
  destruct (call_spec w) as (D&S&_). destruct (call w) as [[out e] w1]. simpl in *.
  destruct out; simpl; [|by split_and!; [|done|left]|];
    (destruct (forallb utf8_ok args); [|by split_and!; [|done|left]]);
    rewrite D; destruct (f (w_now w1 / 1000)%Z (w_db w)) as [r db'] eqn:E; simpl;
    (split_and!; [exact S| |right; exists (w_now w1 / 1000)%Z; by rewrite E]).
  - intros a ->. exists (w_now w1 / 1000)%Z. by rewrite E.
  - done.
Qed.

Lemma db_query_spec {A} args (f : Z → Database → result A) w :
  w_db (db_query args f w).2 = w_db w ∧ same_rest w (db_query args f w).2 ∧
  (∀ a, (db_query args f w).1 = Ok a → ∃ now, f now (w_db w) = Ok a).
Proof.
  destruct (db_exec_spec args (λ now db, (f now db, db)) w) as (S&H1&H2). split_and!; [|done|].
  - by destruct H2 as [H2|[? H2]].
  - intros a Ha. destruct (H1 a Ha) as (now&?&_). by exists now.
Qed.

Lemma db_ping_spec w : w_db (db_ping w).2 = w_db w ∧ same_rest w (db_ping w).2.
Proof.
  unfold db_ping, mbind, st_bind. destruct (call_spec w) as (D&S&_).
  destruct (call w) as [[[] e] w1]; done.
Qed.
End frames.

(** ** What the calls of a transaction do *)

Section transactions.
Context `{TG : Telegram}.

Lemma tx_begin_spec w :
  w_db (tx_begin w).2 = w_db w ∧
  (∀ u, (tx_begin w).1 = Ok u → w_tx (tx_begin w).2 = Some (w_db w)) ∧
  (∀ e, (tx_begin w).1 = Err e → w_tx (tx_begin w).2 = w_tx w).
Proof.
  unfold tx_begin, mbind, st_bind. destruct (call_spec w) as (D&(T&_)&_).
  destruct (call w) as [[[] e] w1]; simpl in *; rewrite ?D; split_and!; done.
Qed.

(** A statement works on the private copy; one that fails leaves it as it was
    unless the statement itself reports the failure. *)
Lemma tx_exec_spec {A} args (f : Z → Database → result A * Database) w :
  w_db (tx_exec args f w).2 = w_db w ∧
  ∀ a, (tx_exec args f w).1 = Ok a → ∃ db now, w_tx w = Some db ∧ (f now db).1 = Ok a ∧
    w_tx (tx_exec args f w).2 = Some (f now db).2.
Proof.
  unfold tx_exec, mbind, st_bind. destruct (call_spec w) as (D&(T&_)&_).
  destruct (call w) as [[[] e] w1]; simpl in *; [|done..].
  rewrite T. destruct (w_tx w) as [db|]; [|done]. destruct (forallb utf8_ok args); [|done].
  destruct (f _ db) as [r db'] eqn:E. simpl. split; [done|]. intros a ->.
  exists db, (w_now w1 / 1000)%Z. by rewrite E.
Qed.

Lemma tx_query_spec {A} args (f : Z → Database → result A) w :
  w_db (tx_query args f w).2 = w_db w ∧
  ∀ a, (tx_query args f w).1 = Ok a → ∃ db now, w_tx w = Some db ∧ f now db = Ok a ∧
    w_tx (tx_query args f w).2 = Some db.
Proof. apply (tx_exec_spec args (λ now db, (f now db, db)) w). Qed.

(** A commit ends the transaction: it happens or not, and when it is
    acknowledged it has happened. *)
Lemma tx_commit_spec w db : w_tx w = Some db →
  w_tx (tx_commit w).2 = None ∧
  (w_db (tx_commit w).2 = db ∨ w_db (tx_commit w).2 = w_db w ∧ ∃ e, (tx_commit w).1 = Err e).
Proof.
  intros Ht. unfold tx_commit, mbind, st_bind. destruct (call_spec w) as (D&(T&_)&_).
  destruct (call w) as [[out e] w1]. simpl in *. rewrite T, Ht.
  destruct out; simpl; split; eauto.
Qed.

Lemma rolling_back_eq {A} (m : M A) w : rolling_back m w = ((m w).1, with_tx None (m w).2).
Proof. unfold rolling_back, tx_rollback, st_modify, mbind, st_bind. by destruct (m w). Qed.
End transactions.

(** ** Computations that only read *)

Section reads.
Context `{TG : Telegram}.

Definition reads : relation World := λ w w',
  w_db w' = w_db w ∧ same_rest w w' ∧ (w_oracle w = [] → w_oracle w' = []).

#[export] Instance reads_preorder : PreOrder reads.
Proof. split; [done|]. intros ??? (H1&S1&O1) (H2&S2&O2). split_and!; [congruence|by etrans|auto]. Qed.

Lemma reads_call : keeps reads call.
Proof.
  intros w. destruct (call_spec w) as (?&?&_). split_and!; [done..|].
  intros Ho. unfold call. rewrite Ho. by case_match.
Qed.
Lemma reads_db_query {A} args (f : Z → Database → result A) : keeps reads (db_query args f).
Proof.
  unfold db_query, db_exec. apply keeps_bind; [apply _|apply reads_call|].
  intros [[] e]; [|apply keeps_ret, _|]; intros w; (case_match; [|done]);
    unfold reads, same_rest; simpl; split_and!; done.
Qed.
Lemma reads_db_ping : keeps reads db_ping.
Proof.
  unfold db_ping. apply keeps_bind; [apply _|apply reads_call|]. intros [[] e]; apply keeps_ret, _.
Qed.

Lemma reads_within {A} d (m : M A) : keeps reads m → keeps reads (within d m).
Proof.
  intros Hm w. unfold within, mbind, st_bind, st_gets, st_modify, mret, st_ret.
  match goal with |- context [m ?x] => specialize (Hm x); destruct (m x) as [a w1] end.
  destruct Hm as (Hd&Hs&Ho). unfold same_rest in *. simpl in *. destruct_and!. repeat split; auto.
Qed.

Lemma reads_inv P w w' : reads w w' → inv_step P w w'.
Proof. intros (Hd&(Ht&_)&_) Hi. unfold db_inv in *. by rewrite Hd, Ht. Qed.
End reads.

#[export] Hint Resolve reads_call reads_db_query reads_db_ping reads_within : srv.

(** ** Computations that do not talk to Telegram *)

Section quiet.
Context `{TG : Telegram}.

Definition quiet : relation World := λ w w', w_tg w' = w_tg w.

#[export] Instance quiet_preorder : PreOrder quiet.
Proof. split; [done|]. intros ??? H1 H2. unfold quiet in *. congruence. Qed.

Lemma quiet_call : keeps quiet call.
Proof. intros w. apply call_spec. Qed.
Lemma quiet_db_exec {A} args (f : Z → Database → result A * Database) : keeps quiet (db_exec args f).
Proof. intros w. apply db_exec_spec. Qed.
Lemma quiet_db_query {A} args (f : Z → Database → result A) : keeps quiet (db_query args f).
Proof. intros w. apply db_query_spec. Qed.
Lemma quiet_db_ping : keeps quiet db_ping.
Proof. intros w. apply db_ping_spec. Qed.
Lemma quiet_tx_begin : keeps quiet tx_begin.
Proof.
  unfold tx_begin. apply keeps_bind; [apply _|apply quiet_call|]. intros [[] e]; [|apply keeps_ret, _..]. done.
Qed.
Lemma quiet_tx_exec {A} args (f : Z → Database → result A * Database) : keeps quiet (tx_exec args f).
Proof.
  unfold tx_exec. apply keeps_bind; [apply _|apply quiet_call|]. intros [[] e]; [|apply keeps_ret, _..].
  intros w. destruct (w_tx w); [|done]. destruct (forallb _ _); [|done]. by destruct (f _ _).
Qed.
Lemma quiet_tx_query {A} args (f : Z → Database → result A) : keeps quiet (tx_query args f).
Proof. apply quiet_tx_exec. Qed.
Lemma quiet_tx_commit : keeps quiet tx_commit.
Proof.
  unfold tx_commit. apply keeps_bind; [apply _|apply quiet_call|]. intros [out e] w.
  destruct (w_tx w); [|done]. by destruct out.
Qed.
Lemma quiet_tx_rollback : keeps quiet tx_rollback.
Proof. done. Qed.
Lemma quiet_rolling_back {A} (m : M A) : keeps quiet m → keeps quiet (rolling_back m).
Proof.
  intros Hm. apply keeps_bind; [apply _|done|]. intros a. apply keeps_bind; [apply _|apply quiet_tx_rollback|].
  intros _. apply keeps_ret, _.
Qed.
Lemma quiet_within {A} d (m : M A) : keeps quiet m → keeps quiet (within d m).
Proof.
  intros Hm w. unfold within, mbind, st_bind, st_gets, st_modify, mret, st_ret.
  match goal with |- context [m ?x] => specialize (Hm x); destruct (m x) as [a w1] end. exact Hm.
Qed.
Lemma quiet_uuid : keeps quiet uuid_NewString.
Proof. done. Qed.
Lemma quiet_rand n : keeps quiet (rand_Read n).
Proof. done. Qed.
Lemma quiet_Log level event fields : keeps quiet (Log level event fields).
Proof. done. Qed.
End quiet.

#[export] Hint Resolve quiet_call quiet_db_exec quiet_db_query quiet_db_ping quiet_tx_begin quiet_tx_exec
  quiet_tx_query quiet_tx_commit quiet_tx_rollback quiet_rolling_back quiet_uuid quiet_rand quiet_Log quiet_within : srv.

(** ** Computations that leave a part of the database alone *)

Section same.
Context `{TG : Telegram} {X : Type} (f : Database → X).

Definition same : relation World := λ w w', f (w_db w') = f (w_db w).

#[export] Instance same_preorder : PreOrder same.
Proof. split; [done|]. intros ??? H1 H2. unfold same in *. congruence. Qed.

Lemma same_reads {A} (m : M A) : keeps reads m → keeps same m.
Proof. intros Hm w. destruct (Hm w) as [D _]. unfold same. by rewrite D. Qed.
Lemma same_db_exec {A} args (g : Z → Database → result A * Database) :
  (∀ now db, f (g now db).2 = f db) → keeps same (db_exec args g).
Proof.
  intros Hg w. destruct (db_exec_spec args g w) as (_&_&[D|[now D]]); unfold same; rewrite D; [done|apply Hg].
Qed.
Lemma same_db_query {A} args (g : Z → Database → result A) : keeps same (db_query args g).
Proof. apply same_db_exec. done. Qed.
Lemma same_tg_call {A} (g : tg → res string A * tg) : keeps same (tg_call g).
Proof.
  intros w. unfold same, tg_call, mbind, st_bind. destruct (call_spec w) as (D&_).
  destruct (call w) as [[[] e] w1]; simpl in *; [|by rewrite D|]; destruct (g (w_tg w1)); simpl; by rewrite D.
Qed.
Lemma same_Log level event fields : keeps same (Log level event fields).
Proof. done. Qed.
Lemma same_rand n : keeps same (rand_Read n).
Proof. done. Qed.
End same.

#[export] Hint Resolve same_db_exec same_db_query same_tg_call same_Log same_rand : srv.

(** ** Runs without failures *)

Section calm.
Context `{TG : Telegram}.

(** No call is going to fail and the deadline has not passed. *)
Definition calm (w : World) : Prop := w_oracle w = [] ∧ past_deadline (w_now w) (w_deadline w) = false.

Lemma call_calm w : calm w → call w = ((Done, Msg "connection failure"), w).
Proof.
  intros [Ho Hd]. unfold call. rewrite Ho, Z.add_0_r, Hd. f_equal.
  destruct w. simpl in *. by subst.
Qed.

Lemma db_exec_calm {A} args (f : Z → Database → result A * Database) w :
  calm w → forallb utf8_ok args = true →
  db_exec args f w = ((f (w_now w / 1000)%Z (w_db w)).1, with_db (f (w_now w / 1000)%Z (w_db w)).2 w).
Proof.
  intros Hw Ha. unfold db_exec, mbind, st_bind. rewrite (call_calm _ Hw), Ha. by destruct (f _ _).
Qed.

Lemma with_db_id w : with_db (w_db w) w = w.
Proof. by destruct w. Qed.

Lemma db_query_calm {A} args (f : Z → Database → result A) w :
  calm w → forallb utf8_ok args = true →
  db_query args f w = (f (w_now w / 1000)%Z (w_db w), w).
Proof. intros Hw Ha. unfold db_query. rewrite db_exec_calm by done. simpl. by rewrite with_db_id. Qed.

Lemma db_ping_calm w : calm w → db_ping w = (Ok (), w).
Proof. intros Hw. unfold db_ping, mbind, st_bind. by rewrite (call_calm _ Hw). Qed.

Lemma tx_begin_calm w : calm w → tx_begin w = (Ok (), with_tx (Some (w_db w)) w).
Proof. intros Hw. unfold tx_begin, mbind, st_bind. by rewrite (call_calm _ Hw). Qed.

Lemma tx_exec_calm {A} args (f : Z → Database → result A * Database) w db :
  calm w → forallb utf8_ok args = true → w_tx w = Some db →
  tx_exec args f w = ((f (w_now w / 1000)%Z db).1, with_tx (Some (f (w_now w / 1000)%Z db).2) w).
Proof.
  intros Hw Ha Ht. unfold tx_exec, mbind, st_bind. rewrite (call_calm _ Hw), Ha, Ht. by destruct (f _ _).
Qed.

Lemma tx_commit_calm w db : calm w → w_tx w = Some db → tx_commit w = (Ok (), with_tx None (with_db db w)).
Proof. intros Hw Ht. unfold tx_commit, mbind, st_bind. by rewrite (call_calm _ Hw), Ht. Qed.

Lemma tg_call_calm {A} (f : tg → res string A * tg) w :
  calm w → tg_call f w = ((f (w_tg w)).1, with_tg (f (w_tg w)).2 w).
Proof. intros Hw. unfold tg_call, mbind, st_bind. rewrite (call_calm _ Hw). by destruct (f _). Qed.
End calm.

(** ** Runs without failures and without a deadline *)

Section serene.
Context `{TG : Telegram}.

Definition serene (w : World) : Prop := w_oracle w = [] ∧ w_deadline w = None.

Lemma serene_calm w : serene w → calm w.
Proof. intros [Ho Hd]. split; [done|]. by rewrite Hd. Qed.

(** Leaves the database and an open transaction alone, and stays serene. *)
Definition neutral : relation World := λ w w',
  w_db w' = w_db w ∧ w_tx w' = w_tx w ∧ (serene w → serene w').

#[export] Instance neutral_preorder : PreOrder neutral.
Proof. split; [done|]. intros ??? (?&?&?) (?&?&?). split_and!; [congruence..|auto]. Qed.

Lemma neutral_call : keeps neutral call.
Proof.
  intros w. destruct (call_spec w) as (D&(T&L&_)&_). split_and!; [done..|].
  intros Hs. rewrite (call_calm _ (serene_calm _ Hs)). done.
Qed.
Lemma neutral_tg_call {A} (f : tg → res string A * tg) : keeps neutral (tg_call f).
Proof.
  unfold tg_call. apply keeps_bind; [apply _|apply neutral_call|].
  intros [[] e]; [|apply keeps_ret, _|]; intros w; destruct (f (w_tg w)); (split_and!; [done..|]); intros Hs; exact Hs.
Qed.
Lemma reads_neutral w w' : reads w w' → neutral w w'.
Proof.
  intros (Hd&(Ht&Hl&_)&Ho). split_and!; [done..|]. intros [H1 H2]. split; [auto|congruence].
Qed.
Lemma neutral_inv P w w' : neutral w w' → inv_step P w w'.
Proof. intros (Hd&Ht&_) Hi. unfold db_inv in *. by rewrite Hd, Ht. Qed.
End serene.

#[export] Hint Resolve neutral_call neutral_tg_call : srv.

(** ** Example interfaces, for concrete runs *)

(** A rendering of the details that satisfies the interface. *)
Definition any_text (v : any) : string :=
  match v with
  | AStr s => "\q" +:+ s +:+ "\q"
  | AInt z => format_int z
  | ABool true => "true"
  | ABool false => "false"
  | AStrs l => "[" +:+ foldr (λ s acc, s +:+ "," +:+ acc) "" l +:+ "]"
  | AInts kind l => kind +:+ foldr (λ '(k, z) acc, "," +:+ k +:+ ":" +:+ format_int z +:+ acc) "" l
  | ANil => "null"
  end.

Definition text_order : Postgres.
Proof.
  refine {| plan A l := l; collate l := merge_sort (λ a b, String.leb a b) l;
            jsonb_of m := Some ("{" +:+ foldr (λ '(k, v) acc, k +:+ ": " +:+ any_text v +:+ acc) "}" (map_to_list m)) |}.
  - done.
  - intros l. apply merge_sort_Permutation.
  - done.
  - intros m _. by eexists.
Defined.

(** A Telegram that accepts everything and remembers what it was asked. *)
Inductive tg_event :=
| EvSent (p : SendMessageParams)
| EvCreated (chat : Z) (name : string)
| EvClosed (chat thread : Z)
| EvBanned (chat user : Z).

Definition recorder : Telegram :=
  {| tg := list tg_event;
     tg_sendMessage p t := (Ok (Some (Z.of_nat (S (length t)))), t ++ [EvSent p]);
     tg_createForumTopic c n t := (Ok (Some (Z.of_nat (S (length t)))), t ++ [EvCreated c n]);
     tg_closeForumTopic c i t := (Ok (), t ++ [EvClosed c i]);
     tg_banChatMember c u t := (Ok (), t ++ [EvBanned c u]) |}.

Definition rec_world (now : Z) (db : Database) : @World recorder :=
  @mkWorld recorder db None now None [] ([] : @tg recorder) (λ n, "uuid-" +:+ format_int (Z.of_nat n)) 0
    (λ n, Some ("entropy-entropy" +:+ format_int (Z.of_nat n))) 0 [] ∅ (NewDispatchLimiter now).

Lemma rec_world_calm now db : calm (TG := recorder) (rec_world now db).
Proof. by split. Qed.
Lemma rec_world_db now db : @w_db recorder (rec_world now db) = db.
Proof. reflexivity. Qed.
