(* ===== verification/AuditLog.v ===== *)
(** * Writing the audit log

    [internal/audit/writer.go].  [PgWrite] is [PgWriter.Write] with its four
    database round trips, any of which may fail.  [wstep] is the same protocol
    as a step relation between any number of concurrent writers: the advisory
    lock [ChainLockKey] orders them. *)

From stdpp Require Import base gmap list strings sorting relations.
From Stdlib Require Import ZArith Lia.
From S2P Require Import Prelude GoStrings Encoding Sha256 AuditChain RateLimit World.

Local Open Scope string_scope.
Local Open Scope list_scope.

(** ** The Writer interface; a nil interface value is [None] *)

Record Writer `{Telegram} := mkWriter { Write : Event → M (result ()) }.

(** The text parameters of the insert. *)
Definition event_texts (e : Event) : list string :=
  [TraceID e; MessageID e; AppID e; Capability e; Endpoint e; RouteStrategyName e;
   DeliveryChannel e; ErrorCode e].

(** The CHECK constraint on [delivery_channel]. *)
Definition channel_ok (c : string) : bool :=
  String.eqb c "" || String.eqb c ChannelSupergroup || String.eqb c ChannelDM || String.eqb c ChannelGeneral.

Section writer.
Context `{PG : Postgres} `{TG : Telegram}.

(** The columns the insert stores, or [None] when the statement is rejected. *)
Definition insert_cols (now : Z) (e : Event) : option AuditCols :=
  if forallb utf8_ok (event_texts e) && channel_ok (DeliveryChannel e)
  then (λ d, event_cols now d e) <$> jsonb_of (Details e)
  else None.

(** [PgWriter.Write].  The sequence of the identity column is advanced by the
    insert and is not rolled back with it. *)
Definition PgWrite (e : Event) : M (result ()) :=
  '(o1, e1) ← call;
  match o1 return M (result ()) with
  | Failed | Unacked => mret (Err (Wrap "audit: begin: " e1 ""))
  | Done =>
      now ← st_gets (λ w, w_now w / 1000)%Z;
      '(o2, e2) ← call;
      match o2 return M (result ()) with
      | Failed | Unacked => mret (Err (Wrap "audit: chain lock: " e2 ""))
      | Done =>
          '(o3, e3) ← call;
          match o3 return M (result ()) with
          | Failed | Unacked => mret (Err (Wrap "audit: insert: " e3 ""))
          | Done =>
              match insert_cols now e return M (result ()) with
              | None => mret (Err (Wrap "audit: insert: " (Msg "statement rejected") ""))
              | Some c =>
                  db ← st_gets w_db;
                  let log' := insert_chained (seq_audit db) c (audit_log db) in
                  st_modify (λ w, with_db (set_seq_audit (λ n, n + 1)%Z (w_db w)) w);;
                  '(o4, e4) ← call;
                  match o4 return M (result ()) with
                  | Done => st_modify (λ w, with_db (set_audit (λ _, log') (w_db w)) w);; mret (Ok ())
                  | Unacked => st_modify (λ w, with_db (set_audit (λ _, log') (w_db w)) w);;
                               mret (Err (Wrap "audit: commit: " e4 ""))
                  | Failed => mret (Err (Wrap "audit: commit: " e4 ""))
                  end
              end
          end
      end
  end.

Definition PgWriter : Writer := mkWriter _ PgWrite.
End writer.

(** ** The table invariant *)

Definition audit_ok (db : Database) : Prop :=
  chain_ok (audit_log db) ∧ Forall (λ r, (a_id r < seq_audit db)%Z) (audit_log db).

Lemma audit_ok_empty : audit_ok empty_db.
Proof. repeat constructor. Qed.

Lemma audit_ok_seq db : audit_ok db → audit_ok (set_seq_audit (λ n, n + 1)%Z db).
Proof.
  intros [H1 H2]. split; [done|]. simpl. eapply Forall_impl; [exact H2|]. simpl. lia.
Qed.

Lemma audit_ok_insert c db : audit_ok db →
  audit_ok (set_audit (λ _, insert_chained (seq_audit db) c (audit_log db))
    (set_seq_audit (λ n, n + 1)%Z db)).
Proof.
  intros [H1 H2]. split; simpl; [by apply insert_chained_ok|].
  unfold insert_chained. apply Forall_app. split.
  - eapply Forall_impl; [exact H2|]. simpl. lia.
  - repeat constructor. simpl. lia.
Qed.

(** ** What one write does *)

Section write_spec.
Context `{PG : Postgres} `{TG : Telegram}.

(** The database after the event has been recorded. *)
Definition recorded (c : AuditCols) (db : Database) : Database :=
  set_audit (λ _, insert_chained (seq_audit db) c (audit_log db)) (set_seq_audit (λ n, n + 1)%Z db).

(** The three ways a write ends. *)
Inductive write_outcome (e : Event) (w : World) : result () * World → Prop :=
| written now c w' : insert_cols now e = Some c → (w_now w / 1000 <= now <= w_now w' / 1000)%Z →
    w_db w' = recorded c (w_db w) → same_rest w w' → write_outcome e w (Ok (), w')
| lost err w' : w_db w' = w_db w ∨ w_db w' = set_seq_audit (λ n, n + 1)%Z (w_db w) →
    same_rest w w' → write_outcome e w (Err err, w')
| unacked now c err w' : insert_cols now e = Some c → (w_now w / 1000 <= now <= w_now w' / 1000)%Z →
    w_db w' = recorded c (w_db w) → same_rest w w' → write_outcome e w (Err err, w').

Lemma PgWrite_outcome e w : write_outcome e w (PgWrite e w).
Proof.
  unfold PgWrite, mbind, st_bind, st_gets, st_modify, mret, st_ret.
  destruct (call_spec w) as (D1&S1&N1). destruct (call w) as [[o1 e1] w1]. simpl in *.
  destruct o1; [|by eapply lost; [left|]..].
  destruct (call_spec w1) as (D2&S2&N2). destruct (call w1) as [[o2 e2] w2]. simpl in *.
  assert (same_rest w w2) by (by etrans).
  destruct o2; [|by eapply lost; [left; congruence|]..].
  destruct (call_spec w2) as (D3&S3&N3). destruct (call w2) as [[o3 e3] w3]. simpl in *.
  assert (same_rest w w3) by (by etrans).
  destruct o3; [|by eapply lost; [left; congruence|]..].
  destruct (insert_cols _ e) as [c|] eqn:Ec; [|by eapply lost; [left; congruence|]].
  set (w3' := with_db _ w3).
  destruct (call_spec w3') as (D4&S4&N4). destruct (call w3') as [[o4 e4] w4]. simpl in *.
  assert (same_rest w w4) by (etrans; [done|exact S4]).
  assert (w_now w / 1000 <= w_now w1 / 1000 <= w_now w4 / 1000)%Z
    by (split; apply Z.div_le_mono; lia).
  assert (w_db w3 = w_db w) as Hdb by congruence.
  destruct o4.
  - eapply written; [exact Ec|done|simpl; by rewrite D4, Hdb|done].
  - eapply lost; [right; simpl in *; by rewrite D4, Hdb|done].
  - eapply unacked; [exact Ec|done|simpl; by rewrite D4, Hdb|done].
Qed.

Lemma inv_PgWrite (P : Database → Prop) e :
  (∀ db, P db → P (set_seq_audit (λ n, n + 1)%Z db)) → (∀ c db, P db → P (recorded c db)) →
  keeps (inv_step P) (PgWrite e).
Proof.
  intros Hs Hr w. destruct (PgWrite_outcome e w) as [? ? ? ? ? Hd Ht|? ? Hd Ht|? ? ? ? ? ? Hd Ht];
    intros [H1 H2]; simpl; destruct Ht as (Ht&_); split; rewrite ?Ht; try done; simpl.
  - rewrite Hd. auto.
  - destruct Hd as [-> | ->]; auto.
  - rewrite Hd. auto.
Qed.

Lemma quiet_PgWrite e : keeps quiet (PgWrite e).
Proof.
  intros w. destruct (PgWrite_outcome e w) as [? ? ? ? ? ? Ht|? ? ? Ht|? ? ? ? ? ? ? Ht];
    by destruct Ht as (_&_&Ht&_).
Qed.

Lemma PgWrite_calm e w c :
  calm w → insert_cols (w_now w / 1000) e = Some c →
  PgWrite e w = (Ok (), with_db (recorded c (w_db w)) w).
Proof.
  intros Hw Hc. unfold PgWrite, mbind, st_bind, st_gets, st_modify, mret, st_ret.
  rewrite (call_calm _ Hw). do 2 rewrite (call_calm _ Hw). rewrite Hc.
  rewrite (call_calm _) by (destruct Hw; by split). done.
Qed.
End write_spec.

#[export] Hint Resolve audit_ok_seq audit_ok_insert inv_PgWrite quiet_PgWrite : srv.

(** ** Concurrent writers *)

(** Where a writer is: its transaction has begun, holds the lock, has inserted
    its row, or is over. *)
Inductive wpc :=
| WBegun (c : AuditCols)
| WLocked (c : AuditCols)
| WInserted (r : AuditRow)
| WDone (ok : bool).

Record wstate := mkW { ws_log : list AuditRow; ws_seq : Z; ws_lock : option nat; ws_pcs : gmap nat wpc }.

Definition active (p : wpc) : bool := match p with WDone _ => false | _ => true end.
Definition holds_lock (p : wpc) : bool :=
  match p with WLocked _ | WInserted _ => true | _ => false end.

Definition release (i : nat) (s : wstate) : option nat :=
  if decide (ws_lock s = Some i) then None else ws_lock s.

(** One statement of one writer.  An insert sees the committed table: each
    statement of a READ COMMITTED transaction has its own snapshot. *)
Inductive wstep : wstate → wstate → Prop :=
| w_begin i c s : ws_pcs s !! i = None →
    wstep s (mkW (ws_log s) (ws_seq s) (ws_lock s) (<[i := WBegun c]> (ws_pcs s)))
| w_lock i c s : ws_pcs s !! i = Some (WBegun c) → ws_lock s = None →
    wstep s (mkW (ws_log s) (ws_seq s) (Some i) (<[i := WLocked c]> (ws_pcs s)))
| w_insert i c s : ws_pcs s !! i = Some (WLocked c) →
    wstep s (mkW (ws_log s) (ws_seq s + 1) (ws_lock s)
      (<[i := WInserted (mkAuditRow (ws_seq s) c (chain_head (ws_log s))
           (ComputeRowHash (chain_head (ws_log s)) (audit_chain_payload c)))]> (ws_pcs s)))
| w_commit i r s : ws_pcs s !! i = Some (WInserted r) →
    wstep s (mkW (ws_log s ++ [r]) (ws_seq s) (release i s) (<[i := WDone true]> (ws_pcs s)))
| w_abort i p s : ws_pcs s !! i = Some p → active p = true →
    wstep s (mkW (ws_log s) (ws_seq s) (release i s) (<[i := WDone false]> (ws_pcs s))).

Definition winit (log : list AuditRow) (seq : Z) : wstate := mkW log seq None ∅.

(** Exactly the lock's holder is past [WBegun], and the row it has inserted
    extends the committed chain. *)
Definition winv (s : wstate) : Prop :=
  chain_ok (ws_log s) ∧ Forall (λ r, (a_id r < ws_seq s)%Z) (ws_log s) ∧
  (∀ i, ws_lock s = Some i ↔ ∃ p, ws_pcs s !! i = Some p ∧ holds_lock p = true) ∧
  (∀ i r, ws_pcs s !! i = Some (WInserted r) → chain_ok (ws_log s ++ [r]) ∧ (a_id r < ws_seq s)%Z).

(** A writer that does not hold the lock after its step, nobody else moving. *)
Lemma winv_off i p s log : winv s → holds_lock p = false →
  (log = ws_log s ∨ ∃ r, ws_pcs s !! i = Some (WInserted r) ∧ log = ws_log s ++ [r]) →
  winv (mkW log (ws_seq s) (release i s) (<[i := p]> (ws_pcs s))).
Proof.
  intros (H1&H2&H3&H4) Hp Hlog.
  assert (∀ j, release i s = Some j ↔ j ≠ i ∧ ws_lock s = Some j) as Hrel.
  { intros j. unfold release. case_decide; naive_solver. }
  assert (∀ j q, j ≠ i → ws_pcs s !! j = Some q → holds_lock q = true → log = ws_log s) as Hother.
  { intros j q Hne Hj Hq. destruct Hlog as [|(r&Hr&_)]; [done|].
    assert (ws_lock s = Some i) by (apply H3; eauto). assert (ws_lock s = Some j) by (apply H3; eauto).
    congruence. }
  split_and!; simpl.
  - destruct Hlog as [->|(r&Hr&->)]; [done|]. by apply (H4 i).
  - destruct Hlog as [->|(r&Hr&->)]; [done|]. apply Forall_app. split; [done|].
    repeat constructor. by apply (H4 i).
  - intros j. rewrite Hrel, lookup_insert. case_decide; subst.
    + split; [naive_solver|]. intros (?&[= <-]&?). congruence.
    + rewrite H3. naive_solver.
  - intros j r. rewrite lookup_insert. case_decide; [intros [= ->]; done|]. intros Hj.
    rewrite (Hother j _ ltac:(done) Hj eq_refl). by apply (H4 j).
Qed.

(** The lock's holder moves on. *)
Lemma winv_on i p s seq : winv s → holds_lock p = true → (ws_seq s <= seq)%Z →
  (ws_lock s = None ∨ ws_lock s = Some i) →
  (∀ r, p = WInserted r → chain_ok (ws_log s ++ [r]) ∧ (a_id r < seq)%Z) →
  winv (mkW (ws_log s) seq (Some i) (<[i := p]> (ws_pcs s))).
Proof.
  intros (H1&H2&H3&H4) Hp Hseq Hl Hr.
  assert (∀ j q, j ≠ i → ws_pcs s !! j = Some q → holds_lock q = false) as Hother.
  { intros j q Hne Hj. destruct (holds_lock q) eqn:E; [|done].
    assert (ws_lock s = Some j) by (apply H3; eauto). destruct Hl; congruence. }
  split_and!; simpl; [done| | |].
  - eapply Forall_impl; [exact H2|]. simpl. lia.
  - intros j. rewrite lookup_insert. case_decide; subst.
    + split; [naive_solver|done].
    + split; [congruence|]. intros (q&Hq&Hh). rewrite (Hother j q) in Hh; done.
  - intros j r. rewrite lookup_insert. case_decide; [intros [= ->]; by apply Hr|].
    intros Hj. by apply (Hother j) in Hj.
Qed.

Lemma release_other i s : ws_lock s ≠ Some i → release i s = ws_lock s.
Proof. intros H. unfold release. by case_decide. Qed.

Lemma wstep_inv s s' : wstep s s' → winv s → winv s'.
Proof.
  intros Hstep Hi. pose proof Hi as (H1&H2&H3&H4).
  destruct Hstep as [i c s Hn|i c s Hb Hl|i c s Hk|i r s Hr|i p s Hp Ha].
  - rewrite <- (release_other i s); [apply winv_off; auto|].
    rewrite H3. intros (?&?&?). congruence.
  - apply winv_on; auto; lia || done.
  - assert (ws_lock s = Some i) as Hl by (apply H3; eauto). rewrite Hl.
    apply winv_on; auto; [lia|]. intros r [= <-]. simpl. split; [|lia].
    by apply (insert_chained_ok (ws_seq s) c).
  - apply winv_off; eauto.
  - apply winv_off; auto.
Qed.

(** ** The lock is needed

    Without it two writers read the same head. *)
Definition no_lock_log (c1 c2 : AuditCols) : list AuditRow :=
  let row i c := mkAuditRow i c GenesisHash (ComputeRowHash GenesisHash (audit_chain_payload c)) in
  [row 1%Z c1; row 2%Z c2].

Example unlocked_writers_break_the_chain :
  (verify_table (no_lock_log (sample_cols "a") (sample_cols "b"))).1.(OK) = false.
Proof. vm_compute. reflexivity. Qed.

(** ** Theorems *)

(** One audit write, whichever of its four round trips fails, leaves the
    hash chain linked and its ids growing, changes no earlier row and nothing
    outside the database; success means that exactly the event's row was
    appended at the head. *)
Theorem write_appends `{Postgres} `{Telegram} e w :
  let '(r, w') := PgWrite e w in
  (audit_ok (w_db w) → audit_ok (w_db w')) ∧
  (∃ rows, audit_log (w_db w') = audit_log (w_db w) ++ rows ∧ (length rows <= 1)%nat) ∧
  same_rest w w' ∧
  (r = Ok () → ∃ now c, insert_cols now e = Some c ∧ (w_now w / 1000 <= now <= w_now w' / 1000)%Z ∧
     audit_log (w_db w') = insert_chained (seq_audit (w_db w)) c (audit_log (w_db w))).
Proof.
  destruct (PgWrite_outcome e w) as [now c w' ? ? Hd|err w' Hd|now c err w' ? ? Hd].
  - rewrite Hd. split_and!; [apply audit_ok_insert|by eexists|done|]. intros _. by exists now, c.
  - split_and!; [| |done|done].
    + destruct Hd as [-> | ->]; auto using audit_ok_seq.
    + exists []. rewrite app_nil_r. destruct Hd as [-> | ->]; simpl; split; auto; lia.
  - rewrite Hd. split_and!; [apply audit_ok_insert|by eexists|done|done].
Qed.


