(* ===== verification/Auth.v ===== *)
(** * Authentication

    [internal/auth]: capabilities, the Argon2id key hashes and the key store.
    The Argon2id function itself is the interface [Argon2]. *)

From stdpp Require Import base gmap list strings.
From Stdlib Require Import Ascii ZArith NArith Lia.
From S2P Require Import Prelude GoStrings Encoding AuditChain RateLimit World.

Local Open Scope string_scope.
Local Open Scope list_scope.

(** ** capability.go *)

Definition CapMessagesDirect : string := "messages.direct.send".
Definition CapMessagesDirectDM : string := "messages.direct.dm".
Definition CapMessagesTopic : string := "messages.topic.send".
Definition CapMessagesBroadcast : string := "messages.broadcast.send".
Definition CapNoopInvoke : string := "noop.invoke".
Definition CapAppsRegister : string := "apps.register".
Definition CapUsersPromote : string := "users.promote".
Definition CapUsersDeactivate : string := "users.deactivate".
Definition CapAuditSearch : string := "audit.search".
Definition CapAuditFreeze : string := "audit.freeze".

(** [CapabilitySet], with [NewCapabilitySet], [Has] and [Add]. *)
Definition CapabilitySet : Type := gset string.
Definition NewCapabilitySet (caps : list string) : CapabilitySet := list_to_set caps.
Definition Has (s : CapabilitySet) (c : string) : bool := bool_decide (c ∈ s).
Definition Add (s : CapabilitySet) (c : string) : CapabilitySet := {[c]} ∪ s.

Record RequesterIdentity := mkRequester {
  ri_AppID : string;
  ri_Capabilities : CapabilitySet;
  ri_CapabilitySetVer : Z;
  ri_KeyPrefix : string;
}.

Definition no_requester : RequesterIdentity := mkRequester "" ∅ 0 "".

(** [RequesterFrom] reads the context's requester; [Require] checks it. *)
Definition RequesterFrom (ctx : option RequesterIdentity) : RequesterIdentity * bool :=
  match ctx with Some r => (r, true) | None => (no_requester, false) end.

Definition Require_cap (ctx : option RequesterIdentity) (cap : string) : result () :=
  let '(r, ok) := RequesterFrom ctx in
  if negb ok then Err (Sentinel ErrUnauthorized)
  else if negb (Has (ri_Capabilities r) cap) then Err (Sentinel ErrForbidden)
  else Ok ().

(** ** argon2.go *)

Definition Argon2Memory : N := 65536.
Definition Argon2Iterations : N := 3.
Definition Argon2Parallelism : N := 1.
Definition Argon2KeyLen : nat := 32.
Definition Argon2SaltLen : nat := 16.

(** [argon2.IDKey password salt time memory threads keyLen] returns [keyLen]
    bytes. *)
Class Argon2 := {
  IDKey : string → string → N → N → N → nat → string;
  IDKey_length pw salt t m p n : String.length (IDKey pw salt t m p n) = n;
}.

(** [fmt.Sscanf] with ["%d"] into an unsigned integer of [w] bits: skip blanks
    but no newline, at least one digit, no sign, no overflow. *)
Fixpoint span_digits (s : string) : string * string :=
  match s with
  | String c s' => if is_digit c then let '(d, r) := span_digits s' in (String c d, r) else ("", s)
  | EmptyString => ("", "")
  end.

Definition blank_runes : list string := filter (λ r, r ≠ bytes [10%nat]) space_runes.

Definition scan_uint (w : N) (s : string) : option (N * string) :=
  let '(d, r) := span_digits (strip_runes (String.length s) blank_runes s) in
  match parse_uint d with
  | Some n => if (n <? 2 ^ w)%N then Some (n, r) else None
  | None => None
  end.

(** A literal of the format. *)
Definition scan_lit (p s : string) : option string :=
  if has_prefix p s then Some (trim_prefix p s) else None.

(** [Sscanf(s, "m=%d,t=%d,p=%d", &mem, &iter, &par)]; input after the last verb
    is not looked at. *)
Definition scan_params (s : string) : option (N * N * N) :=
  s1 ← scan_lit "m=" s; '(mem, s2) ← scan_uint 32 s1;
  s3 ← scan_lit ",t=" s2; '(iter, s4) ← scan_uint 32 s3;
  s5 ← scan_lit ",p=" s4; '(par, _) ← scan_uint 8 s5;
  Some (mem, iter, par).

Section argon2.
Context `{A2 : Argon2}.

Definition encodeArgon2id (cleartext salt : string) : string :=
  let key := IDKey cleartext salt Argon2Iterations Argon2Memory Argon2Parallelism Argon2KeyLen in
  "$argon2id$v=19$m=" +:+ format_uint Argon2Memory +:+ ",t=" +:+ format_uint Argon2Iterations
    +:+ ",p=" +:+ format_uint Argon2Parallelism +:+ "$" +:+ b64_encode salt +:+ "$" +:+ b64_encode key.

(** [HashAPIKey]: 16 random bytes of salt. *)
Definition HashAPIKey `{Telegram} (cleartext : string) : M (result string) :=
  r ← rand_Read Argon2SaltLen;
  match r with
  | Ok salt => mret (Ok (encodeArgon2id cleartext salt))
  | Err e => mret (Err (Wrap "auth: read salt: " e ""))
  end.

Definition VerifyAPIKey (cleartext encoded : string) : result bool :=
  match split_on "$"%char encoded with
  | [p0; p1; p2; p3; p4; p5] =>
      if negb (String.eqb p0 "" && String.eqb p1 "argon2id") then Err (Sentinel ErrInvalidHashFormat)
      else if negb (String.eqb p2 "v=19") then Err (Sentinel ErrInvalidHashFormat)
      else match scan_params p3 with
      | None => Err (Sentinel ErrInvalidHashFormat)
      | Some (mem, iter, par) =>
          if negb (N.eqb mem Argon2Memory && N.eqb iter Argon2Iterations && N.eqb par Argon2Parallelism)
          then Err (Sentinel ErrUnsupportedParams)
          else match b64_decode p4, b64_decode p5 with
          | Some salt, Some want =>
              Ok (String.eqb (IDKey cleartext salt iter mem par (String.length want)) want)
          | _, _ => Err (Sentinel ErrInvalidHashFormat)
          end
      end
  | _ => Err (Sentinel ErrInvalidHashFormat)
  end.

(** ** store.go *)

Definition bearerPrefix : string := "tg_".

Definition ParseBearer (token : string) : result string :=
  if negb (has_prefix bearerPrefix token) then Err (Sentinel ErrBearerMalformed)
  else
    let rest := trim_prefix bearerPrefix token in
    match index_byte "_"%char rest with
    | None => Err (Sentinel ErrBearerMalformed)
    | Some idx =>
        if (idx <=? 0)%nat || (String.length rest - 1 <=? idx)%nat
        then Err (Sentinel ErrBearerMalformed) else Ok (stake idx rest)
    end.

(** The key query: live keys of active apps with that prefix. *)
Definition key_rows (prefix : string) (db : Database) : list (string * string * Z) :=
  omap (λ '(_, k),
    if String.eqb (key_prefix k) prefix && bool_decide (revoked_at k = None)
    then match apps db !! k_app_id k with
         | Some a => if app_active a then Some (k_app_id k, key_hash k, capability_set_version a) else None
         | None => None
         end
    else None) (map_to_list (app_keys db)).

(** The capability query. *)
Definition capability_rows (app : string) (db : Database) : list string :=
  omap (λ '(a, c), if String.eqb a app then Some c else None) (elements (app_capabilities db)).

(** The row loop: the first row whose hash verifies; unreadable hashes are
    skipped. *)
Fixpoint match_key (bearer : string) (rows : list (string * string * Z)) : option (string * Z) :=
  match rows with
  | [] => None
  | (app, hash, ver) :: rest =>
      match VerifyAPIKey bearer hash with
      | Ok true => Some (app, ver)
      | _ => match_key bearer rest
      end
  end.

(** [KeyStore.Resolve]. *)
Definition Resolve `{Postgres} `{Telegram} (bearer : string) : M (result RequesterIdentity) :=
  match ParseBearer bearer with
  | Err e => mret (Err e)
  | Ok prefix =>
      (let? _ := db_ping else e => mret (Err (Wrap "auth: begin: " e "")) ;;
       let? rows := db_query [prefix] (λ _ db, Ok (plan (key_rows prefix db)))
         else e => mret (Err (Wrap "auth: query key: " e "")) ;;
       match match_key bearer rows with
       | None => mret (Err (Sentinel ErrKeyNotFound))
       | Some (app, ver) =>
           let? caps := db_query [app] (λ _ db, Ok (plan (capability_rows app db)))
             else e => mret (Err (Wrap "auth: query caps: " e "")) ;;
           let? _ := db_ping else e => mret (Err (Wrap "auth: commit: " e "")) ;;
           mret (Ok (mkRequester app (foldl Add (NewCapabilitySet []) caps) ver prefix))
       end)%go
  end.
End argon2.

(** ** Bearer tokens *)

Lemma parse_bearer_iff token p :
  ParseBearer token = Ok p ↔
  ∃ secret, token = "tg_" +:+ p +:+ String "_"%char secret ∧
    p ≠ "" ∧ secret ≠ "" ∧ no_byte "_"%char p = true.
Proof.
  unfold ParseBearer. split.
  - destruct (has_prefix bearerPrefix token) eqn:Hp; simpl; [|done].
    apply has_prefix_spec in Hp as [rest ->]. rewrite trim_prefix_app.
    destruct (index_byte _ rest) as [idx|] eqn:Ei; [|done].
    apply index_byte_Some in Ei as (a&b&->&Ha&<-).
    destruct (Nat.leb_spec (String.length a) 0); [done|].
    rewrite slength_app. simpl.
    destruct (Nat.leb_spec (String.length a + S (String.length b) - 1) (String.length a)); [done|].
    simpl. rewrite stake_app. intros [= <-]. exists b. split_and!; try done.
    + intros ->. simpl in *. lia.
    + intros ->. simpl in *. lia.
  - intros (s&->&Hp&Hs&Hn). change "tg_" with bearerPrefix.
    rewrite has_prefix_app, trim_prefix_app. simpl.
    rewrite index_byte_app by done. rewrite slength_app. simpl.
    destruct (Nat.leb_spec (String.length p) 0); [destruct p; simpl in *; [done|lia]|].
    destruct (Nat.leb_spec (String.length p + S (String.length s) - 1) (String.length p));
      [destruct s; simpl in *; [done|lia]|].
    simpl. by rewrite stake_app.
Qed.

(** ** Key hashes *)

Section hashes.
Context `{A2 : Argon2}.

Lemma split_encoded c salt :
  split_on "$"%char (encodeArgon2id c salt) =
  [""; "argon2id"; "v=19"; "m=65536,t=3,p=1"; b64_encode salt;
   b64_encode (IDKey c salt Argon2Iterations Argon2Memory Argon2Parallelism Argon2KeyLen)].
Proof.
  unfold encodeArgon2id. set (h := b64_encode (IDKey _ _ _ _ _ _)).
  change (format_uint Argon2Memory) with "65536". change (format_uint Argon2Iterations) with "3".
  change (format_uint Argon2Parallelism) with "1".
  change (split_on "$"%char ("" +:+ String "$"%char ("argon2id" +:+ String "$"%char ("v=19" +:+ String "$"%char
    ("m=65536,t=3,p=1" +:+ String "$"%char (b64_encode salt +:+ String "$"%char h))))) =
    [""; "argon2id"; "v=19"; "m=65536,t=3,p=1"; b64_encode salt; h]).
  rewrite !split_on_app by first [done | by apply b64_no_byte].
  rewrite split_on_no_byte by (by apply b64_no_byte). done.
Qed.

Lemma verify_encoded c c' salt :
  VerifyAPIKey c' (encodeArgon2id c salt) =
  Ok (String.eqb (IDKey c' salt Argon2Iterations Argon2Memory Argon2Parallelism Argon2KeyLen)
        (IDKey c salt Argon2Iterations Argon2Memory Argon2Parallelism Argon2KeyLen)).
Proof.
  unfold VerifyAPIKey. rewrite split_encoded. cbn -[b64_decode scan_params IDKey Argon2Memory].
  replace (scan_params "m=65536,t=3,p=1") with (Some (Argon2Memory, Argon2Iterations, Argon2Parallelism))
    by (vm_compute; reflexivity).
  rewrite !N.eqb_refl, !b64_roundtrip. simpl. by rewrite IDKey_length.
Qed.
End hashes.

(** ** Resolution *)

Section resolve.
Context `{A2 : Argon2} `{PG : Postgres} `{TG : Telegram}.

(** [live_key db bearer id]: a stored key that is not revoked, of an active
    app, matches the bearer, and [id] is that app with its capabilities. *)
Definition live_key (db : Database) (bearer : string) (id : RequesterIdentity) : Prop :=
  ∃ kid k a, app_keys db !! kid = Some k ∧ revoked_at k = None ∧
    apps db !! k_app_id k = Some a ∧ app_active a = true ∧
    ParseBearer bearer = Ok (key_prefix k) ∧ VerifyAPIKey bearer (key_hash k) = Ok true ∧
    ri_AppID id = k_app_id k ∧ ri_KeyPrefix id = key_prefix k ∧
    ri_CapabilitySetVer id = capability_set_version a ∧
    (∀ c, c ∈ ri_Capabilities id ↔ (k_app_id k, c) ∈ app_capabilities db).

Lemma key_rows_elem prefix db app hash ver :
  (app, hash, ver) ∈ key_rows prefix db ↔
  ∃ kid k a, app_keys db !! kid = Some k ∧ key_prefix k = prefix ∧ revoked_at k = None ∧
    apps db !! k_app_id k = Some a ∧ app_active a = true ∧
    app = k_app_id k ∧ hash = key_hash k ∧ ver = capability_set_version a.
Proof.
  unfold key_rows. rewrite list_elem_of_omap. split.
  - intros ([kid k]&Hk&Hc). apply elem_of_map_to_list in Hk.
    go_cases; go_bools; subst; eauto 15.
  - intros (kid&k&a&Hk&Hp&Hr&Ha&Hact&->&->&->). exists (kid, k).
    rewrite elem_of_map_to_list. split; [done|].
    by rewrite Hp, String.eqb_refl, bool_decide_true, Ha, Hact.
Qed.

Lemma capability_rows_elem app db c : c ∈ capability_rows app db ↔ (app, c) ∈ app_capabilities db.
Proof.
  unfold capability_rows. rewrite list_elem_of_omap. split.
  - intros ([a c']&Hin&Hc). apply elem_of_elements in Hin. go_cases. go_bools. by subst.
  - intros Hin. exists (app, c). rewrite elem_of_elements, String.eqb_refl. done.
Qed.

Lemma foldl_Add_elem c caps s : c ∈ foldl Add s caps ↔ c ∈ s ∨ c ∈ caps.
Proof. revert s. induction caps as [|x caps IH]; intros s; simpl; [set_solver|]. rewrite IH. unfold Add. set_solver. Qed.

Lemma match_key_Some bearer rows app ver :
  match_key bearer rows = Some (app, ver) →
  ∃ hash, (app, hash, ver) ∈ rows ∧ VerifyAPIKey bearer hash = Ok true.
Proof.
  induction rows as [|[[a h] v] rows IH]; simpl; [done|].
  destruct (VerifyAPIKey bearer h) as [[]|] eqn:E.
  - intros [= -> ->]. exists h. split; [left|done].
  - intros (hash&?&?)%IH. exists hash. split; [by right|done].
  - intros (hash&?&?)%IH. exists hash. split; [by right|done].
Qed.

Lemma match_key_None bearer rows app hash ver :
  match_key bearer rows = None → (app, hash, ver) ∈ rows → VerifyAPIKey bearer hash ≠ Ok true.
Proof.
  induction rows as [|[[a h] v] rows IH]; simpl; [set_solver|].
  destruct (VerifyAPIKey bearer h) as [[]|] eqn:E; [done|..]; intros Hn [Heq|Hin]%elem_of_cons;
    simplify_eq; auto; congruence.
Qed.

Lemma Resolve_reads bearer : keeps reads (Resolve bearer).
Proof. unfold Resolve. destruct (ParseBearer bearer); keeps_all. Qed.

Lemma inv_Resolve P bearer : keeps (inv_step P) (Resolve bearer).
Proof. intros w. apply reads_inv, Resolve_reads. Qed.

Lemma Resolve_frame bearer w :
  w_db (Resolve bearer w).2 = w_db w ∧ same_rest w (Resolve bearer w).2.
Proof. destruct (Resolve_reads bearer w) as (?&?&_). done. Qed.
End resolve.

Lemma quiet_Resolve `{Argon2} `{Postgres} `{Telegram} bearer : keeps quiet (Resolve bearer).
Proof. intros w. apply Resolve_frame. Qed.

#[export] Hint Resolve inv_Resolve quiet_Resolve : srv.

Section resolve_spec.
Context `{A2 : Argon2} `{PG : Postgres} `{TG : Telegram}.

Lemma Resolve_Ok bearer w id :
  (Resolve bearer w).1 = Ok id → live_key (w_db w) bearer id.
Proof.
  unfold Resolve. destruct (ParseBearer bearer) as [prefix|] eqn:Ep; [|done].
  unfold mbind, st_bind.
  destruct (db_ping_spec w) as [D1 S1]. destruct (db_ping w) as [[[]|e] w1]; [|done]. simpl in *.
  match goal with |- context [db_query ?a ?f w1] =>
    destruct (db_query_spec a f w1) as (D2&S2&R2); destruct (db_query a f w1) as [[rows|e] w2] end;
    simpl in *; [|done].
  destruct (R2 rows eq_refl) as (_&[= Hrows]).
  destruct (match_key bearer rows) as [[app ver]|] eqn:Em; simpl; [|done].
  match goal with |- context [db_query ?a ?f w2] =>
    destruct (db_query_spec a f w2) as (D3&S3&R3); destruct (db_query a f w2) as [[caps|e] w3] end;
    simpl in *; [|done].
  destruct (R3 caps eq_refl) as (_&[= Hcaps]).
  destruct (db_ping_spec w3) as [D4 S4]. destruct (db_ping w3) as [[[]|e] w4]; simpl in *; [|done].
  intros [= <-].
  apply match_key_Some in Em as (hash&Hin&Hv).
  rewrite <- Hrows, D1, plan_perm in Hin.
  apply key_rows_elem in Hin as (kid&k&a&Hk&Hp&Hr&Ha&Hact&->&->&->).
  exists kid, k, a. subst prefix. split_and!; try done. simpl. intros c.
  rewrite foldl_Add_elem, <- Hcaps, plan_perm, capability_rows_elem, D2, D1.
  unfold NewCapabilitySet. set_solver.
Qed.

(** The unique index on [key_prefix]. *)
Definition prefix_unique (db : Database) : Prop :=
  ∀ i j k k', app_keys db !! i = Some k → app_keys db !! j = Some k' →
    key_prefix k = key_prefix k' → i = j.

Lemma Resolve_calm bearer w kid k a :
  calm w → prefix_unique (w_db w) →
  app_keys (w_db w) !! kid = Some k → revoked_at k = None →
  apps (w_db w) !! k_app_id k = Some a → app_active a = true →
  ParseBearer bearer = Ok (key_prefix k) → VerifyAPIKey bearer (key_hash k) = Ok true →
  utf8_ok (key_prefix k) = true → utf8_ok (k_app_id k) = true →
  ∃ caps, Resolve bearer w =
    (Ok (mkRequester (k_app_id k) caps (capability_set_version a) (key_prefix k)), w).
Proof.
  intros Hw Hu Hk Hr Ha Hact Hp Hv U1 U2. unfold Resolve. rewrite Hp. unfold mbind, st_bind.
  rewrite db_ping_calm by done.
  rewrite db_query_calm by (simpl; rewrite ?U1; done). simpl.
  assert (∀ app hash ver, (app, hash, ver) ∈ plan (key_rows (key_prefix k) (w_db w)) →
    app = k_app_id k ∧ ver = capability_set_version a) as Hall.
  { intros app hash ver. rewrite plan_perm. intros (i&k'&a'&Hk'&Hp'&_&Ha'&_&->&->&->)%key_rows_elem.
    assert (i = kid) as -> by (by eapply Hu). simplify_eq. done. }
  destruct (match_key bearer _) as [[app ver]|] eqn:Em.
  - apply match_key_Some in Em as (hash&Hin&_). apply Hall in Hin as [-> ->].
    rewrite db_query_calm by (simpl; rewrite ?U2; done). rewrite db_ping_calm by done. eauto.
  - exfalso. eapply match_key_None; [exact Em| |exact Hv].
    rewrite plan_perm. apply key_rows_elem. eauto 12.
Qed.
End resolve_spec.

(** ** Theorems *)

(** [ParseBearer] accepts exactly the tokens [tg_<prefix>_<secret>] with a
    nonempty prefix free of underscores and a nonempty secret, and returns that
    prefix. *)
Theorem ParseBearer_iff token p :
  ParseBearer token = Ok p ↔
  ∃ secret, token = "tg_" +:+ p +:+ String "_"%char secret ∧
    p ≠ "" ∧ secret ≠ "" ∧ no_byte "_"%char p = true.
Proof. apply parse_bearer_iff. Qed.

(** Verifying against a hash the server produced compares Argon2id outputs
    under the pinned parameters and the stored salt; in particular the key that
    was hashed always verifies, whatever its bytes and the salt. *)
Theorem VerifyAPIKey_encode `{Argon2} c c' salt :
  VerifyAPIKey c (encodeArgon2id c salt) = Ok true ∧
  VerifyAPIKey c' (encodeArgon2id c salt) =
  Ok (String.eqb (IDKey c' salt 3 65536 1 32) (IDKey c salt 3 65536 1 32)).
Proof. rewrite !verify_encoded, String.eqb_refl. done. Qed.

(** A stored hash is ever accepted or compared only if it is a six-part
    Argon2id string of version 19 with the pinned memory, iterations and
    parallelism and decodable salt and key; anything else is an error. *)
Theorem VerifyAPIKey_pinned `{Argon2} cleartext encoded b :
  VerifyAPIKey cleartext encoded = Ok b →
  ∃ params p4 p5 salt want,
    split_on "$"%char encoded = [""; "argon2id"; "v=19"; params; p4; p5] ∧
    scan_params params = Some (65536, 3, 1)%N ∧ b64_decode p4 = Some salt ∧ b64_decode p5 = Some want ∧
    b = String.eqb (IDKey cleartext salt 3 65536 1 (String.length want)) want.
Proof.
  unfold VerifyAPIKey. intros Hv.
  destruct (split_on _ _) as [|p0 [|p1 [|p2 [|p3 [|p4 [|p5 [|]]]]]]]; try done.
  destruct (String.eqb_spec p0 ""), (String.eqb_spec p1 "argon2id"), (String.eqb_spec p2 "v=19");
    simpl in Hv; try done. subst.
  destruct (scan_params p3) as [[[mem iter] par]|] eqn:Es; [|done].
  destruct (N.eqb_spec mem Argon2Memory), (N.eqb_spec iter Argon2Iterations), (N.eqb_spec par Argon2Parallelism);
    simpl in Hv; try done. subst.
  destruct (b64_decode p4) as [salt|] eqn:E4; [|done]. destruct (b64_decode p5) as [want|] eqn:E5; [|done].
  injection Hv as <-. by exists p3, p4, p5, salt, want.
Qed.

(** A stand-in for the hash function: the salted key cut or padded to length. *)
Definition toy_argon2 : Argon2 :=
  {| IDKey pw salt t m p n := fit n (pw +:+ salt); IDKey_length pw salt t m p n := fit_length n _ |}.

Lemma VerifyAPIKey_pinned_witness :
  ∃ params p4 p5 salt want,
    split_on "$"%char (encodeArgon2id (A2 := toy_argon2) "tg_ab_c" "0123456789abcdef") =
      [""; "argon2id"; "v=19"; params; p4; p5] ∧
    scan_params params = Some (65536, 3, 1)%N ∧ b64_decode p4 = Some salt ∧ b64_decode p5 = Some want ∧
    true = String.eqb (IDKey (Argon2 := toy_argon2) "tg_ab_c" salt 3 65536 1 (String.length want)) want.
Proof.
  apply (VerifyAPIKey_pinned (H := toy_argon2)). vm_compute. reflexivity.
Defined.

(** C12: authentication is sound: an identity is only ever produced for a
    bearer that matches a stored key which is not revoked and belongs to an
    active app, and the identity carries that app, the version and exactly the
    capabilities granted to it; the database is not changed. *)
Theorem Resolve_sound `{Argon2} `{Postgres} `{Telegram} bearer w :
  (∀ id, (Resolve bearer w).1 = Ok id → live_key (w_db w) bearer id) ∧
  w_db (Resolve bearer w).2 = w_db w.
Proof. split; [intros id; apply Resolve_Ok|apply Resolve_frame]. Qed.

(** Authentication is complete: while no call fails, the holder of a live
    key of an active app is recognised, as that app. *)
Theorem Resolve_complete `{Argon2} `{Postgres} `{Telegram} bearer w kid k a :
  calm w → prefix_unique (w_db w) →
  app_keys (w_db w) !! kid = Some k → revoked_at k = None →
  apps (w_db w) !! k_app_id k = Some a → app_active a = true →
  ParseBearer bearer = Ok (key_prefix k) → VerifyAPIKey bearer (key_hash k) = Ok true →
  utf8_ok (key_prefix k) = true → utf8_ok (k_app_id k) = true →
  ∃ id, Resolve bearer w = (Ok id, w) ∧ ri_AppID id = k_app_id k ∧ live_key (w_db w) bearer id.
Proof.
  intros Hw Hu Hk Hr Ha Hact Hp Hv U1 U2.
  destruct (Resolve_calm bearer w kid k a) as [caps Hres]; try done.
  eexists. split_and!; [exact Hres|done|]. apply Resolve_Ok. by rewrite Hres.
Qed.

Definition sample_key_db : Database :=
  set_capabilities (λ _, {[("app", "noop.invoke")]})
    (set_apps (λ _, {["app" := mkApp "App" "" "user" true 0 0 4 ""]})
      (set_keys (λ _, {[7%Z := mkKey "app" (encodeArgon2id (A2 := toy_argon2) "tg_ab_c" "0123456789abcdef") "ab" "" 0 None]})
        empty_db)).

Lemma Resolve_complete_witness :
  ∃ id, Resolve (A2 := toy_argon2) (H := text_order) (H0 := recorder) "tg_ab_c" (rec_world 0 sample_key_db) =
      (Ok id, rec_world 0 sample_key_db) ∧ ri_AppID id = "app" ∧
      live_key (A2 := toy_argon2) sample_key_db "tg_ab_c" id.
Proof.
  apply (Resolve_complete (H := toy_argon2) (H0 := text_order) (H1 := recorder)
    "tg_ab_c" (rec_world 0 sample_key_db) 7
    (mkKey "app" (encodeArgon2id (A2 := toy_argon2) "tg_ab_c" "0123456789abcdef") "ab" "" 0 None)
    (mkApp "App" "" "user" true 0 0 4 "")).
  - apply rec_world_calm.
  - intros i j k k' Hi Hj _. simpl in Hi, Hj.
    apply lookup_singleton_Some in Hi as [<- _], Hj as [<- _]. done.
  - reflexivity.
  - reflexivity.
  - reflexivity.
  - reflexivity.
  - reflexivity.
  - vm_compute. reflexivity.
  - reflexivity.
  - reflexivity.
Defined.
