(* ===== verification/Registry.v ===== *)
(** * The user registry

    [internal/registry]: users ([user.go]), personal supergroups and their
    invitation tokens ([personal_supergroup.go]) and forum topics
    ([user_topics.go]).  Each SQL statement is a function of the database; each
    method runs it as one call.

    [db_wf] is the database's well-formedness: the constraints of the schema
    plus what the code maintains itself. *)

From stdpp Require Import base gmap list strings sorting.
From Stdlib Require Import ZArith Lia.
From S2P Require Import Prelude GoStrings AuditChain RateLimit World AuditLog.

Local Open Scope string_scope.
Local Open Scope list_scope.

(** ** Constraints of the schema *)

Definition grades : list string := ["user"; "developer"; "admin"].
Definition statuses : list string := ["active"; "paused"; "anonymized"].

Definition user_ok (u : UserRow) : Prop :=
  grade u ∈ grades ∧ status u ∈ statuses ∧
  (anonymized u = true ↔ status u = "anonymized") ∧
  (status u = "anonymized" → personal_supergroup_chat_id u = None).

Definition app_ok (a : AppRow) : Prop := app_min_grade a ∈ grades ∧ (1 <= capability_set_version a)%Z.

Record db_wf (db : Database) : Prop := mkWf {
  wf_users : map_Forall (λ i u, user_ok u ∧ (i < seq_users db)%Z) (users db);
  wf_tg_unique : ∀ i j u v, users db !! i = Some u → users db !! j = Some v →
    telegram_id u = telegram_id v → i = j;
  wf_apps : map_Forall (λ _, app_ok) (apps db);
  wf_caps : ∀ a c, (a, c) ∈ app_capabilities db → is_Some (apps db !! a);
  wf_keys : map_Forall (λ i k, is_Some (apps db !! k_app_id k) ∧ (i < seq_keys db)%Z) (app_keys db);
  wf_prefix : ∀ i j k k', app_keys db !! i = Some k → app_keys db !! j = Some k' →
    key_prefix k = key_prefix k' → i = j;
  wf_subs : ∀ u a, (u, a) ∈ user_subscriptions db → is_Some (users db !! u) ∧ is_Some (apps db !! a);
  wf_topics : map_Forall (λ ua _, is_Some (users db !! ua.1) ∧ is_Some (apps db !! ua.2)) (user_topics db);
  wf_tokens : map_Forall (λ _ t, is_Some (users db !! tok_user_id t)) (pending_tokens db);
  wf_audit : audit_ok db;
}.

(** ** user.go *)

Record User := mkU {
  U_ID : Z; U_TelegramID : Z; U_Username : string; U_Grade : string; U_PreferredLang : string;
  U_AgreedAt : option Z; U_PersonalSupergroupID : option Z; U_PersonalLinkedAt : option Z;
  U_BotIsAdmin : bool; U_Status : string; U_Anonymized : bool; U_CreatedAt : Z; U_UpdatedAt : Z;
}.

Definition coalesce (o : option string) : string := match o with Some s => s | None => "" end.

(** The columns the statements return. *)
Definition scan_user (id : Z) (u : UserRow) : User :=
  mkU id (telegram_id u) (coalesce (username u)) (grade u) (coalesce (preferred_lang u))
    (agreed_at u) (personal_supergroup_chat_id u) (personal_supergroup_linked_at u)
    (bot_is_admin_in_supergroup u) (status u) (anonymized u) (u_created_at u) (u_updated_at u).

Definition find_by_telegram (t : Z) (db : Database) : option (Z * UserRow) :=
  find_first (λ p, (telegram_id p.2 =? t)%Z) (map_to_list (users db)).

(** A new row: the column defaults of the schema. *)
Definition new_user (t : Z) (name lang : string) (now : Z) : UserRow :=
  mkUser t (nullif_s name) "user" (nullif_s lang) None None None false 0 "active" false now now.

(** INSERT ... ON CONFLICT (telegram_id) DO UPDATE; the identity is drawn
    before the conflict is detected. *)
Definition sql_upsert_user (t : Z) (name lang : string) (now : Z) (db : Database) : result User * Database :=
  let id := seq_users db in
  let db1 := set_seq_users (λ n, n + 1)%Z db in
  match find_by_telegram t db with
  | Some (i, u) =>
      let u' := mkUser (telegram_id u)
                  (match nullif_s name with Some n => Some n | None => username u end)
                  (grade u) (preferred_lang u) (agreed_at u)
                  (personal_supergroup_chat_id u) (personal_supergroup_linked_at u)
                  (bot_is_admin_in_supergroup u) (consecutive_failures u) (status u) (anonymized u)
                  (u_created_at u) now in
      (Ok (scan_user i u'), set_users (<[i := u']>) db1)
  | None =>
      match users db !! id with
      | Some _ => (Err (Msg "duplicate key value violates unique constraint"), db1)
      | None => (Ok (scan_user id (new_user t name lang now)), set_users (<[id := new_user t name lang now]>) db1)
      end
  end.

(** UPDATE users SET ... WHERE id = i AND p: the number of rows and the table. *)
Definition sql_update_user (i : Z) (p : UserRow → bool) (f : Z → UserRow → UserRow) (now : Z) (db : Database)
    : result Z * Database :=
  match users db !! i with
  | Some u => if p u then (Ok 1%Z, set_users (<[i := f now u]>) db) else (Ok 0%Z, db)
  | None => (Ok 0%Z, db)
  end.

Definition set_agreed (now : Z) (u : UserRow) : UserRow :=
  mkUser (telegram_id u) (username u) (grade u) (preferred_lang u) (Some now)
    (personal_supergroup_chat_id u) (personal_supergroup_linked_at u) (bot_is_admin_in_supergroup u)
    (consecutive_failures u) (status u) (anonymized u) (u_created_at u) now.

Definition set_anonymized (now : Z) (u : UserRow) : UserRow :=
  mkUser (telegram_id u) None (grade u) None (agreed_at u) None None false
    (consecutive_failures u) "anonymized" true (u_created_at u) now.

Definition set_status (s : string) (now : Z) (u : UserRow) : UserRow :=
  mkUser (telegram_id u) (username u) (grade u) (preferred_lang u) (agreed_at u)
    (personal_supergroup_chat_id u) (personal_supergroup_linked_at u) (bot_is_admin_in_supergroup u)
    (consecutive_failures u) s (anonymized u) (u_created_at u) now.

Definition set_link (chat : option Z) (linked : option Z) (now : Z) (u : UserRow) : UserRow :=
  mkUser (telegram_id u) (username u) (grade u) (preferred_lang u) (agreed_at u)
    chat linked false (consecutive_failures u) (status u) (anonymized u) (u_created_at u) now.

Definition set_bot_admin (b : bool) (now : Z) (u : UserRow) : UserRow :=
  mkUser (telegram_id u) (username u) (grade u) (preferred_lang u) (agreed_at u)
    (personal_supergroup_chat_id u) (personal_supergroup_linked_at u) b
    (consecutive_failures u) (status u) (anonymized u) (u_created_at u) now.

Definition set_grade (g : string) (_ : Z) (u : UserRow) : UserRow :=
  mkUser (telegram_id u) (username u) g (preferred_lang u) (agreed_at u)
    (personal_supergroup_chat_id u) (personal_supergroup_linked_at u) (bot_is_admin_in_supergroup u)
    (consecutive_failures u) (status u) (anonymized u) (u_created_at u) (u_updated_at u).

Definition not_anonymized (u : UserRow) : bool := negb (String.eqb (status u) "anonymized").

Section registry.
Context `{PG : Postgres} `{TG : Telegram}.
Local Open Scope go_scope.

Definition UpsertOnStart (t : Z) (name lang : string) : M (result User) :=
  let? u := db_exec [name; lang] (sql_upsert_user t name lang)
    else e => mret (Err (Wrap "registry: upsert user: " e "")) ;;
  mret (Ok u).

Definition GetByTelegramID (t : Z) : M (result User) :=
  let? u := db_query [] (λ _ db, match find_by_telegram t db with
                                  | Some (i, u) => Ok (scan_user i u)
                                  | None => Err (Sentinel ErrNoRows)
                                  end)
    else e => (if errors_is e ErrNoRows then mret (Err (Sentinel ErrUserNotFound))
               else mret (Err (Wrap "registry: get user: " e ""))) ;;
  mret (Ok u).

Definition MarkAgreed (i : Z) : M (result bool) :=
  let? n := db_exec [] (sql_update_user i (λ u, bool_decide (agreed_at u = None)) set_agreed)
    else e => mret (Err (Wrap "registry: mark agreed: " e "")) ;;
  mret (Ok (n =? 1)%Z).

Definition Anonymize (i : Z) : M (result ()) :=
  let? _n := db_exec [] (sql_update_user i (λ _, true) set_anonymized)
    else e => mret (Err (Wrap "registry: anonymize: " e "")) ;;
  mret (Ok ()).

Definition SetStatus (i : Z) (s : string) : M (result ()) :=
  if negb (String.eqb s "active") && negb (String.eqb s "paused")
  then mret (Err (Msg ("registry: invalid status " +:+ go_quote s)))
  else
    let? _n := db_exec [s] (sql_update_user i not_anonymized (set_status s))
      else e => mret (Err (Wrap "registry: set status: " e "")) ;;
    mret (Ok ()).

(** ** personal_supergroup.go *)

(** INSERT ... ON CONFLICT (token) DO NOTHING, with the foreign key. *)
Definition sql_issue_token (token : string) (i secs : Z) (now : Z) (db : Database) : result () * Database :=
  match pending_tokens db !! token, users db !! i with
  | Some _, _ => (Ok (), db)
  | None, None => (Err (Msg "insert violates foreign key constraint"), db)
  | None, Some _ => (Ok (), set_tokens (<[token := mkToken i (now + secs * 1000000) now]>) db)
  end%Z.

(** [ttl] in nanoseconds; [int(ttl.Seconds())] truncates. *)
Definition IssueToken (token : string) (i ttl : Z) : M (result ()) :=
  let? _u := db_exec [token] (sql_issue_token token i (Z.quot ttl Second))
    else e => mret (Err (Wrap "registry: issue token: " e "")) ;;
  mret (Ok ()).

(** DELETE ... RETURNING. *)
Definition sql_delete_token (token : string) (_ : Z) (db : Database) : result TokenRow * Database :=
  match pending_tokens db !! token with
  | Some t => (Ok t, set_tokens (delete token) db)
  | None => (Err (Sentinel ErrNoRows), db)
  end.

Definition ConsumeToken (token : string) : M (result Z) :=
  let? t := db_exec [token] (sql_delete_token token)
    else e => (if errors_is e ErrNoRows then mret (Err (Sentinel ErrTokenNotFound))
               else mret (Err (Wrap "registry: consume token: " e ""))) ;;
  now ← st_gets w_now;
  if (expires_at t * 1000 <? now)%Z then mret (Err (Sentinel ErrTokenExpired))
  else mret (Ok (tok_user_id t)).

Definition LinkSupergroup (i chat : Z) : M (result ()) :=
  let? _n := db_exec [] (sql_update_user i not_anonymized (λ now, set_link (Some chat) (Some now) now))
    else e => mret (Err (Wrap "registry: link supergroup: " e "")) ;;
  mret (Ok ()).

Definition SetBotIsAdmin (i : Z) (b : bool) : M (result ()) :=
  let? _n := db_exec [] (sql_update_user i (λ _, true) (set_bot_admin b))
    else e => mret (Err (Wrap "registry: set bot is admin: " e "")) ;;
  mret (Ok ()).

Definition ResetLink (i : Z) : M (result ()) :=
  let? _n := db_exec [] (sql_update_user i (λ _, true) (set_link None None))
    else e => mret (Err (Wrap "registry: reset link: " e "")) ;;
  mret (Ok ()).

(** The ids of the users linked to a chat, in the order rows come. *)
Definition users_of_chat (chat : Z) (db : Database) : list Z :=
  plan (omap (λ '(i, u), if bool_decide (personal_supergroup_chat_id u = Some chat) then Some i else None)
    (map_to_list (users db))).

(** [QueryRow] takes the first row. *)
Definition FindUserByChatID (chat : Z) : M (result Z) :=
  let? i := db_query [] (λ _ db, match users_of_chat chat db with
                                  | i :: _ => Ok i
                                  | [] => Err (Sentinel ErrNoRows)
                                  end)
    else e => (if errors_is e ErrNoRows then mret (Err (Sentinel ErrUserNotFound))
               else mret (Err (Wrap "registry: find by chat: " e ""))) ;;
  mret (Ok i).

(** ** user_topics.go *)

Definition sql_add_topic (i : Z) (app : string) (topic : Z) (_ : Z) (db : Database) : result () * Database :=
  match user_topics db !! (i, app) with
  | Some _ => (Ok (), db)
  | None =>
      match users db !! i, apps db !! app with
      | Some _, Some _ => (Ok (), set_topics (<[(i, app) := topic]>) db)
      | _, _ => (Err (Msg "insert violates foreign key constraint"), db)
      end
  end.

Definition AddTopic (i : Z) (app : string) (topic : Z) : M (result ()) :=
  let? _u := db_exec [app] (sql_add_topic i app topic)
    else e => mret (Err (Wrap "registry: add user topic: " e "")) ;;
  mret (Ok ()).

Definition RemoveTopic (i : Z) (app : string) : M (result ()) :=
  let? _u := db_exec [app] (λ _ db, (Ok (), set_topics (delete (i, app)) db))
    else e => mret (Err (Wrap "registry: remove user topic: " e "")) ;;
  mret (Ok ()).

Definition GetTopicID (i : Z) (app : string) : M (result Z) :=
  let? t := db_query [app] (λ _ db, match user_topics db !! (i, app) with
                                     | Some t => Ok t
                                     | None => Err (Sentinel ErrNoRows)
                                     end)
    else e => (if errors_is e ErrNoRows then mret (Err (Sentinel ErrTopicNotFound))
               else mret (Err (Wrap "registry: get topic id: " e ""))) ;;
  mret (Ok t).

(** The topics of a user in the order of their apps (without their creation
    times, which no caller reads). *)
Definition topics_of (i : Z) (db : Database) : list (string * Z) :=
  omap (λ app, (λ t, (app, t)) <$> user_topics db !! (i, app))
    (collate (omap (λ '((j, app), _), if (j =? i)%Z then Some app else None) (map_to_list (user_topics db)))).

Definition ListForUser (i : Z) : M (result (list (string * Z))) :=
  let? l := db_query [] (λ _ db, Ok (topics_of i db))
    else e => mret (Err (Wrap "registry: list topics: " e "")) ;;
  mret (Ok l).

Definition missing_topics (i : Z) (db : Database) : list string :=
  collate (omap (λ '(j, app), if (j =? i)%Z && bool_decide (user_topics db !! (i, app) = None)
                              then Some app else None) (elements (user_subscriptions db))).

Definition ListSubscribedAppsWithoutTopic (i : Z) : M (result (list string)) :=
  let? l := db_query [] (λ _ db, Ok (missing_topics i db))
    else e => mret (Err (Wrap "registry: list missing topics: " e "")) ;;
  mret (Ok l).

Lemma topics_of_elem i db app t : (app, t) ∈ topics_of i db ↔ user_topics db !! (i, app) = Some t.
Proof.
  unfold topics_of. rewrite list_elem_of_omap. split.
  - intros (a&_&(t'&Ht&[= -> ->])%fmap_Some). done.
  - intros Ht. exists app. rewrite collate_perm, list_elem_of_omap. split; [|by rewrite Ht].
    exists ((i, app), t). by rewrite elem_of_map_to_list, Z.eqb_refl.
Qed.

(** A subscribed app is in one of the two lists and not in both. *)
Lemma topics_partition i db app : (i, app) ∈ user_subscriptions db →
  app ∈ (topics_of i db).*1 ↔ app ∉ missing_topics i db.
Proof.
  intros Hs.
  assert (app ∈ missing_topics i db ↔ user_topics db !! (i, app) = None) as ->.
  { unfold missing_topics. rewrite collate_perm, list_elem_of_omap. split.
    - intros ([j a]&_&Hx). case_match; [|done]. simplify_eq. by apply andb_true_iff in H as [_ H%bool_decide_eq_true].
    - intros Hn. exists (i, app). rewrite elem_of_elements. split; [done|]. by rewrite Z.eqb_refl, bool_decide_true. }
  rewrite list_elem_of_fmap. split.
  - intros ([a t]&->&Ht%topics_of_elem). simpl. by rewrite Ht.
  - intros Hn. destruct (user_topics db !! (i, app)) as [t|] eqn:E; [|done]. exists (app, t). by rewrite topics_of_elem.
Qed.
End registry.

(** ** Well-formedness is preserved *)

Lemma wf_empty : db_wf empty_db.
Proof.
  constructor; simpl; try (intros ? ? ?; by rewrite ?lookup_empty); try (intros; set_solver);
    try apply map_Forall_empty; try (intros ? ? ? ?; by rewrite lookup_empty). apply audit_ok_empty.
Qed.

Lemma find_by_telegram_Some t db i u :
  find_by_telegram t db = Some (i, u) → users db !! i = Some u ∧ telegram_id u = t.
Proof.
  intros [Hin Ht]%find_first_Some. apply elem_of_map_to_list in Hin. simpl in Ht. split; [done|lia].
Qed.

Lemma find_by_telegram_None t db i u :
  find_by_telegram t db = None → users db !! i = Some u → telegram_id u ≠ t.
Proof.
  unfold find_by_telegram. rewrite find_first_None. intros Hn Hu Ht.
  specialize (Hn (i, u)). rewrite elem_of_map_to_list in Hn. specialize (Hn Hu). simpl in Hn. lia.
Qed.

(** On a well-formed database the lookup is the unique user of that id. *)
Lemma find_by_telegram_iff t db i u : db_wf db →
  find_by_telegram t db = Some (i, u) ↔ users db !! i = Some u ∧ telegram_id u = t.
Proof.
  intros Hwf. split; [apply find_by_telegram_Some|]. intros [Hu Ht].
  destruct (find_by_telegram t db) as [[j v]|] eqn:E.
  - apply find_by_telegram_Some in E as [Hv Htv].
    assert (j = i) as -> by (eapply wf_tg_unique; eauto; congruence). congruence.
  - by eapply find_by_telegram_None in E.
Qed.

Section wf.
Lemma is_Some_insert {K V} `{Countable K} (m : gmap K V) i j v :
  is_Some (m !! j) → is_Some (<[i := v]> m !! j).
Proof. intros Hj. rewrite lookup_insert. case_decide; [by eexists|done]. Qed.

Lemma wf_update_user db i u u' : db_wf db → users db !! i = Some u →
  telegram_id u' = telegram_id u → user_ok u' → db_wf (set_users (<[i := u']>) db).
Proof.
  intros Hwf Hu Ht Hok. destruct Hwf. constructor; simpl; try done.
  - apply map_Forall_insert_2; [|done]. split; [done|]. by apply (wf_users0 i u).
  - intros x y a b. rewrite !lookup_insert. repeat case_decide; intros; simplify_eq; try done; try by eauto.
    + eapply (wf_tg_unique0 x y); eauto; congruence.
    + eapply (wf_tg_unique0 x y); eauto; congruence.
  - intros x a Hx. destruct (wf_subs0 x a Hx). split; [by apply is_Some_insert|done].
  - intros k v Hk. destruct (wf_topics0 k v Hk). split; [by apply is_Some_insert|done].
  - intros k v Hk. apply is_Some_insert. by apply (wf_tokens0 k v).
Qed.

Lemma wf_seq_users db : db_wf db → db_wf (set_seq_users (λ n, n + 1)%Z db).
Proof.
  intros Hwf. destruct Hwf. constructor; simpl; try done.
  intros i u Hu. destruct (wf_users0 i u Hu). split; [done|lia].
Qed.

Lemma wf_new_user db u : db_wf db → user_ok u →
  (∀ i v, users db !! i = Some v → telegram_id v ≠ telegram_id u) →
  db_wf (set_users (<[seq_users db := u]>) (set_seq_users (λ n, n + 1)%Z db)).
Proof.
  intros Hwf Hok Hfresh. destruct Hwf. constructor; simpl; try done.
  - apply map_Forall_insert_2; [split; [done|lia]|].
    intros i v Hv. destruct (wf_users0 i v Hv). split; [done|lia].
  - intros x y a b. rewrite !lookup_insert. repeat case_decide; intros; simplify_eq; try done.
    + by edestruct Hfresh.
    + by edestruct Hfresh.
    + by eauto.
  - intros x a Hx. destruct (wf_subs0 x a Hx). split; [by apply is_Some_insert|done].
  - intros k v Hk. destruct (wf_topics0 k v Hk). split; [by apply is_Some_insert|done].
  - intros k v Hk. apply is_Some_insert. by apply (wf_tokens0 k v).
Qed.

Lemma wf_set_tokens db f : db_wf db →
  map_Forall (λ _ t, is_Some (users db !! tok_user_id t)) (f (pending_tokens db)) → db_wf (set_tokens f db).
Proof. intros Hwf Hf. destruct Hwf. by constructor. Qed.

Lemma wf_set_topics db f : db_wf db →
  map_Forall (λ ua _, is_Some (users db !! ua.1) ∧ is_Some (apps db !! ua.2)) (f (user_topics db)) →
  db_wf (set_topics f db).
Proof. intros Hwf Hf. destruct Hwf. by constructor. Qed.

Lemma wf_set_subs db f : db_wf db →
  (∀ u a, (u, a) ∈ f (user_subscriptions db) → is_Some (users db !! u) ∧ is_Some (apps db !! a)) →
  db_wf (set_subscriptions f db).
Proof. intros Hwf Hf. destruct Hwf. by constructor. Qed.

Lemma wf_seq_audit db : db_wf db → db_wf (set_seq_audit (λ n, n + 1)%Z db).
Proof. intros Hwf. destruct Hwf. constructor; simpl; try done. by apply audit_ok_seq. Qed.

Lemma wf_recorded c db : db_wf db → db_wf (recorded c db).
Proof. intros Hwf. destruct Hwf. constructor; simpl; try done. by apply audit_ok_insert. Qed.

Lemma wf_sql_update_user i p f now db :
  (∀ u, user_ok u → p u = true → user_ok (f now u)) → (∀ u, telegram_id (f now u) = telegram_id u) →
  db_wf db → db_wf (sql_update_user i p f now db).2.
Proof.
  intros Hok Ht Hwf. unfold sql_update_user. destruct (users db !! i) as [u|] eqn:E; [|done].
  destruct (p u) eqn:Ep; [|done]. simpl. eapply wf_update_user; [done..|].
  apply Hok; [|done]. by apply (wf_users db Hwf i u).
Qed.

Lemma wf_sql_upsert_user t name lang now db : db_wf db → db_wf (sql_upsert_user t name lang now db).2.
Proof.
  intros Hwf. unfold sql_upsert_user. destruct (find_by_telegram t db) as [[i u]|] eqn:E.
  - apply find_by_telegram_Some in E as [Hu Ht]. simpl.
    eapply (wf_update_user (set_seq_users (λ n, n + 1)%Z db)); [by apply wf_seq_users|done..|].
    by destruct (wf_users db Hwf i u Hu) as [? _].
  - destruct (users db !! seq_users db) eqn:En; simpl; [by apply wf_seq_users|].
    apply wf_new_user; [done| |].
    + unfold user_ok, grades, statuses. simpl. split_and!; [left..|done|done]; done.
    + intros i v Hv. by eapply find_by_telegram_None in E.
Qed.
End wf.

(** ** Updates keep the row constraints *)

Lemma user_ok_agreed now u : user_ok u → user_ok (set_agreed now u).
Proof. done. Qed.
Lemma user_ok_anonymized now u : user_ok u → user_ok (set_anonymized now u).
Proof.
  intros (Hg&_). split_and!; [done| |done|done].
  unfold statuses. simpl. rewrite !elem_of_cons. auto.
Qed.
Lemma user_ok_status s now u : s = "active" ∨ s = "paused" → not_anonymized u = true →
  user_ok u → user_ok (set_status s now u).
Proof.
  intros Hs Hn (Hg&Hst&Ha&Hl). apply negb_true_iff, String.eqb_neq in Hn.
  split_and!; simpl; [done| | |].
  - unfold statuses. rewrite !elem_of_cons. destruct Hs; auto.
  - rewrite Ha. destruct Hs; subst; naive_solver.
  - intros ->. by destruct Hs.
Qed.
Lemma user_ok_link chat linked now u : not_anonymized u = true ∨ chat = None →
  user_ok u → user_ok (set_link chat linked now u).
Proof.
  intros Hn (Hg&Hst&Ha&Hl). split_and!; simpl; [done..|].
  intros Hs. destruct Hn as [Hn|]; [|done]. unfold not_anonymized in Hn. by rewrite Hs in Hn.
Qed.
Lemma user_ok_bot_admin b now u : user_ok u → user_ok (set_bot_admin b now u).
Proof. done. Qed.
Lemma user_ok_grade g now u : g ∈ grades → user_ok u → user_ok (set_grade g now u).
Proof. intros Hg (_&?&?&?). by split_and!. Qed.

#[export] Hint Resolve user_ok_agreed user_ok_anonymized user_ok_status user_ok_link user_ok_bot_admin
  user_ok_grade wf_sql_update_user wf_sql_upsert_user wf_seq_audit wf_recorded : srv.

Lemma wf_issue_token token i secs now db : db_wf db → db_wf (sql_issue_token token i secs now db).2.
Proof.
  intros Hwf. unfold sql_issue_token. destruct (pending_tokens db !! token); [done|].
  destruct (users db !! i) eqn:E; [|done]. simpl. apply wf_set_tokens; [done|].
  apply map_Forall_insert_2; [by eexists|apply Hwf].
Qed.

Lemma wf_delete_token token now db : db_wf db → db_wf (sql_delete_token token now db).2.
Proof.
  intros Hwf. unfold sql_delete_token. destruct (pending_tokens db !! token); [|done]. simpl.
  apply wf_set_tokens; [done|]. apply map_Forall_delete, Hwf.
Qed.

Lemma wf_add_topic i app t now db : db_wf db → db_wf (sql_add_topic i app t now db).2.
Proof.
  intros Hwf. unfold sql_add_topic. destruct (user_topics db !! (i, app)); [done|].
  destruct (users db !! i) eqn:Ei, (apps db !! app) eqn:Ea; try done. simpl.
  apply wf_set_topics; [done|]. apply map_Forall_insert_2; [simpl; rewrite Ei, Ea; split; by eexists|apply Hwf].
Qed.

Lemma wf_delete_topic i app db : db_wf db → db_wf (set_topics (delete (i, app)) db).
Proof. intros Hwf. apply wf_set_topics; [done|]. apply map_Forall_delete, Hwf. Qed.

#[export] Hint Extern 1 (db_wf (snd (_, _))) => cbn [snd] : srv.
#[export] Hint Resolve wf_issue_token wf_delete_token wf_add_topic wf_delete_topic : srv.

(** Every method keeps the database well formed, whatever fails. *)
Section methods_wf.
Context `{PG : Postgres} `{TG : Telegram}.
Local Abbreviation wf_kept := (keeps (inv_step db_wf)).

Lemma wf_UpsertOnStart t name lang : wf_kept (UpsertOnStart t name lang).
Proof. unfold UpsertOnStart. keeps_all. Qed.
Lemma wf_GetByTelegramID t : wf_kept (GetByTelegramID t).
Proof. unfold GetByTelegramID. keeps_all. Qed.
Lemma wf_MarkAgreed i : wf_kept (MarkAgreed i).
Proof. unfold MarkAgreed. keeps_all. Qed.
Lemma wf_Anonymize i : wf_kept (Anonymize i).
Proof. unfold Anonymize. keeps_all. Qed.
Lemma wf_SetStatus i s : wf_kept (SetStatus i s).
Proof.
  unfold SetStatus. destruct (String.eqb_spec s "active"), (String.eqb_spec s "paused"); simpl; keeps_all.
Qed.
Lemma wf_IssueToken token i ttl : wf_kept (IssueToken token i ttl).
Proof. unfold IssueToken. keeps_all. Qed.
Lemma wf_ConsumeToken token : wf_kept (ConsumeToken token).
Proof. unfold ConsumeToken. keeps_all. Qed.
Lemma wf_LinkSupergroup i chat : wf_kept (LinkSupergroup i chat).
Proof. unfold LinkSupergroup. keeps_all. Qed.
Lemma wf_SetBotIsAdmin i b : wf_kept (SetBotIsAdmin i b).
Proof. unfold SetBotIsAdmin. keeps_all. Qed.
Lemma wf_ResetLink i : wf_kept (ResetLink i).
Proof. unfold ResetLink. keeps_all. Qed.
Lemma wf_FindUserByChatID chat : wf_kept (FindUserByChatID chat).
Proof. unfold FindUserByChatID. keeps_all. Qed.
Lemma wf_AddTopic i app t : wf_kept (AddTopic i app t).
Proof. unfold AddTopic. keeps_all. Qed.
Lemma wf_RemoveTopic i app : wf_kept (RemoveTopic i app).
Proof. unfold RemoveTopic. keeps_all. Qed.
Lemma wf_GetTopicID i app : wf_kept (GetTopicID i app).
Proof. unfold GetTopicID. keeps_all. Qed.
Lemma wf_ListMissing i : wf_kept (ListSubscribedAppsWithoutTopic i).
Proof. unfold ListSubscribedAppsWithoutTopic. keeps_all. Qed.
Lemma wf_PgWrite e : wf_kept (PgWrite e).
Proof. apply inv_PgWrite; auto with srv. Qed.
End methods_wf.

#[export] Hint Resolve wf_UpsertOnStart wf_GetByTelegramID wf_MarkAgreed wf_Anonymize wf_SetStatus
  wf_IssueToken wf_ConsumeToken wf_LinkSupergroup wf_SetBotIsAdmin wf_ResetLink wf_FindUserByChatID
  wf_AddTopic wf_RemoveTopic wf_GetTopicID wf_ListMissing wf_PgWrite : srv.

(** ** The life of a user

    Every statement of the program that changes a row of [users]. *)
Inductive user_step : Database → Database → Prop :=
| us_upsert t name lang now db : user_step db (sql_upsert_user t name lang now db).2
| us_agree i now db :
    user_step db (sql_update_user i (λ u, bool_decide (agreed_at u = None)) set_agreed now db).2
| us_anonymize i now db : user_step db (sql_update_user i (λ _, true) set_anonymized now db).2
| us_status i s now db : s = "active" ∨ s = "paused" →
    user_step db (sql_update_user i not_anonymized (set_status s) now db).2
| us_link i chat now db :
    user_step db (sql_update_user i not_anonymized (λ now, set_link (Some chat) (Some now) now) now db).2
| us_admin i b now db : user_step db (sql_update_user i (λ _, true) (set_bot_admin b) now db).2
| us_reset i now db : user_step db (sql_update_user i (λ _, true) (set_link None None) now db).2
| us_grade i g now db : g ∈ grades → user_step db (sql_update_user i (λ _, true) (set_grade g) now db).2.

Lemma user_step_wf db db' : user_step db db' → db_wf db → db_wf db'.
Proof. destruct 1; intros Hwf; eauto 6 with srv. Qed.

(** An update of another row, or one that keeps a property of this row. *)
Lemma update_keeps (Q : UserRow → Prop) i j p f now db :
  (∀ u, Q u → p u = true → Q (f now u)) →
  (∃ u, users db !! i = Some u ∧ Q u) →
  ∃ u, users (sql_update_user j p f now db).2 !! i = Some u ∧ Q u.
Proof.
  intros Hf (u&Hu&HQ). unfold sql_update_user. destruct (users db !! j) as [v|] eqn:Ev; [|by exists u].
  destruct (p v) eqn:Ep; [|by exists u]. simpl. setoid_rewrite lookup_insert.
  case_decide; [|by exists u]. subst. assert (v = u) as -> by congruence. eauto.
Qed.

Lemma upsert_keeps (Q : UserRow → Prop) i t name lang now db :
  (∀ u u', Q u → status u' = status u → telegram_id u' = telegram_id u → Q u') →
  (∃ u, users db !! i = Some u ∧ Q u) →
  ∃ u, users (sql_upsert_user t name lang now db).2 !! i = Some u ∧ Q u.
Proof.
  intros Hf (u&Hu&HQ). unfold sql_upsert_user.
  destruct (find_by_telegram t db) as [[j v]|] eqn:E.
  - apply find_by_telegram_Some in E as [Hv _]. simpl. setoid_rewrite lookup_insert.
    case_decide; [|by exists u]. subst. assert (v = u) as -> by congruence. eexists. split; [done|].
    by apply (Hf u).
  - destruct (users db !! seq_users db) eqn:En; simpl; [by exists u|].
    setoid_rewrite lookup_insert. case_decide; [congruence|by exists u].
Qed.

Definition anonymized_as (t : Z) (u : UserRow) : Prop := status u = "anonymized" ∧ telegram_id u = t.

Lemma user_step_anonymized i t db db' : user_step db db' →
  (∃ u, users db !! i = Some u ∧ anonymized_as t u) → ∃ u, users db' !! i = Some u ∧ anonymized_as t u.
Proof.
  intros Hs Hu. destruct Hs; try (apply update_keeps; [|exact Hu]; intros ? [??]; try done).
  - apply upsert_keeps; [|done]. intros ? ? [??] ??. split; congruence.
  - unfold not_anonymized. intros Hn. rewrite H0 in Hn. done.
Qed.

(** ** Theorems *)

(** Anonymisation is final.  Whatever the program does to users
    afterwards, an anonymised user keeps their row and their telegram id, stays
    anonymised and is never linked to a chat again. *)
Theorem anonymized_forever db db' i u :
  db_wf db → users db !! i = Some u → status u = "anonymized" → rtc user_step db db' →
  ∃ u', users db' !! i = Some u' ∧ status u' = "anonymized" ∧ anonymized u' = true ∧
    telegram_id u' = telegram_id u ∧ personal_supergroup_chat_id u' = None.
Proof.
  intros Hwf Hu Hs Hr.
  assert (db_wf db' ∧ ∃ u', users db' !! i = Some u' ∧ anonymized_as (telegram_id u) u') as (Hwf'&u'&Hu'&Hs'&Ht').
  { refine (rtc_invariant user_step (λ d, db_wf d ∧ ∃ u', users d !! i = Some u' ∧ anonymized_as (telegram_id u) u')
      _ _ _ Hr _).
    - intros d d' Hd [? ?]. split; [by eapply user_step_wf|by eapply user_step_anonymized].
    - split; [done|]. exists u. done. }
  destruct (wf_users db' Hwf' i u' Hu') as [(_&_&Ha&Hl) _].
  exists u'. split_and!; [done|done|by apply Ha|done|by apply Hl].
Qed.

Definition one_user_db : Database := (sql_upsert_user 500 "ann" "ko" 10 empty_db).2.

Lemma one_user_db_wf : db_wf one_user_db.
Proof. apply wf_sql_upsert_user, wf_empty. Qed.

Lemma anonymized_forever_witness :
  ∃ u', users (sql_update_user 1 not_anonymized (λ now, set_link (Some 9%Z) (Some now) now) 30
      (sql_update_user 1 (λ _, true) set_anonymized 20 one_user_db).2).2 !! 1%Z = Some u' ∧
    status u' = "anonymized" ∧ anonymized u' = true ∧ telegram_id u' = 500%Z ∧
    personal_supergroup_chat_id u' = None.
Proof.
  apply (anonymized_forever (sql_update_user 1 (λ _, true) set_anonymized 20 one_user_db).2 _ 1
    (set_anonymized 20 (new_user 500 "ann" "ko" 10))).
  - apply wf_sql_update_user; auto using user_ok_anonymized, one_user_db_wf.
  - reflexivity.
  - reflexivity.
  - apply rtc_once, us_link.
Defined.

(** What redeeming a token does. *)
Lemma ConsumeToken_spec `{Postgres} `{Telegram} token w :
  users (w_db (ConsumeToken token w).2) = users (w_db w) ∧
  ∀ i, (ConsumeToken token w).1 = Ok i →
    (∃ t, pending_tokens (w_db w) !! token = Some t ∧ tok_user_id t = i ∧
       (w_now (ConsumeToken token w).2 <= expires_at t * 1000)%Z) ∧
    pending_tokens (w_db (ConsumeToken token w).2) !! token = None.
Proof.
  unfold ConsumeToken, mbind, st_bind.
  destruct (db_exec_spec [token] (sql_delete_token token) w) as (_&Hr&Hd).
  destruct (db_exec _ _ w) as [[t|e] w1]; simpl in *.
  - destruct (Hr t eq_refl) as (now&Ht&Hdb). unfold sql_delete_token in Ht, Hdb.
    destruct (pending_tokens (w_db w) !! token) as [t'|]; simplify_eq/=.
    destruct (Z.ltb_spec (expires_at t * 1000) (w_now w1)); simpl; rewrite Hdb; (split; [done|]); [done|].
    intros i [= <-]. split; [eauto|]. apply lookup_delete_eq.
  - destruct (errors_is e ErrNoRows); simpl; (split; [|done]);
      (destruct Hd as [->|[now ->]]; [done|]); unfold sql_delete_token; by case_match.
Qed.

(** An invitation token is single use and expires.  A token is only
    redeemed for the user it was issued to and before its expiry, and once
    redeemed (or found expired) no later attempt redeems it. *)
Theorem token_single_use `{Postgres} `{Telegram} token w i :
  (ConsumeToken token w).1 = Ok i →
  (∃ t, pending_tokens (w_db w) !! token = Some t ∧ tok_user_id t = i ∧
     (w_now (ConsumeToken token w).2 <= expires_at t * 1000)%Z) ∧
  pending_tokens (w_db (ConsumeToken token w).2) !! token = None ∧
  (∀ w2 j, pending_tokens (w_db w2) !! token = None → (ConsumeToken token w2).1 ≠ Ok j).
Proof.
  intros Hc. destruct (ConsumeToken_spec token w) as [_ Hok]. destruct (Hok i Hc) as [Ht Hn]. split_and!; [done..|].
  intros w2 j Hn2 Hj. destruct (ConsumeToken_spec token w2) as [_ Hok2].
  destruct (Hok2 j Hj) as [(t&Ht2&_) _]. congruence.
Qed.

Lemma token_single_use_witness :
  let w := rec_world 5000 (sql_issue_token "tok" 1 60 7 one_user_db).2 in
  pending_tokens (w_db (ConsumeToken (TG := recorder) "tok" w).2) !! "tok" = None.
Proof.
  intros w.
  apply (token_single_use (H := text_order) (H0 := recorder) "tok" w 1). vm_compute. reflexivity.
Defined.

(** [/start] of a known user changes two columns of one row: the name, when
    Telegram supplies one, and the update time; consent, link, grade and
    lifecycle are untouched.  (The name is written even for an anonymised
    user.) *)
Theorem upsert_known t name lang now db i u :
  db_wf db → users db !! i = Some u → telegram_id u = t →
  let '(r, db') := sql_upsert_user t name lang now db in
  users db' = <[i := mkUser t (match nullif_s name with Some n => Some n | None => username u end)
      (grade u) (preferred_lang u) (agreed_at u) (personal_supergroup_chat_id u)
      (personal_supergroup_linked_at u) (bot_is_admin_in_supergroup u) (consecutive_failures u)
      (status u) (anonymized u) (u_created_at u) now]> (users db) ∧
  (∃ v, users db' !! i = Some v ∧ r = Ok (scan_user i v)).
Proof.
  intros Hwf Hu Ht. unfold sql_upsert_user.
  assert (find_by_telegram t db = Some (i, u)) as -> by (by apply find_by_telegram_iff).
  simpl. rewrite Ht. split; [done|]. eexists. by rewrite lookup_insert_eq.
Qed.

(** The name of an anonymised user comes back with the next [/start]. *)
Lemma upsert_known_witness :
  let db := (sql_update_user 1 (λ _, true) set_anonymized 20 one_user_db).2 in
  ∃ v, users (sql_upsert_user 500 "ann" "ko" 30 db).2 !! 1%Z = Some v ∧
    status v = "anonymized" ∧ username v = Some "ann".
Proof.
  intros db.
  pose proof (upsert_known 500 "ann" "ko" 30 db 1 (set_anonymized 20 (new_user 500 "ann" "ko" 10))) as Hk.
  destruct Hk as [-> _].
  - apply wf_sql_update_user; auto using user_ok_anonymized, one_user_db_wf.
  - reflexivity.
  - reflexivity.
  - eexists. split; [apply lookup_insert_eq|]. done.
Defined.
