(* ===== verification/Strategy.v ===== *)
(** * Route strategies

    [internal/dispatch/strategy]: who receives a message.  Each strategy is a
    query, whose rows are a function of the database, followed by a loop over
    the rows. *)

From stdpp Require Import base gmap list strings sorting.
From Stdlib Require Import ZArith Lia.
From S2P Require Import Prelude GoStrings AuditChain RateLimit World AuditLog Registry.

Local Open Scope string_scope.
Local Open Scope list_scope.

(** ** strategy.go *)

Record Envelope := mkEnvelope { Text : string; SchemaVersion : Z }.

Record RecipientHandle := mkHandle { rh_UserID : Z; rh_ChatID : Z; rh_TopicID : Z; rh_Channel : string }.
Record ResolveError := mkSkip { re_UserID : Z; re_Code : string }.
Record ResolveResult := mkResolved { Recipients : list RecipientHandle; Skipped : list ResolveError }.

#[export] Instance handle_eq_dec : EqDecision RecipientHandle.
Proof. solve_decision. Defined.
#[export] Instance skip_eq_dec : EqDecision ResolveError.
Proof. solve_decision. Defined.
#[export] Instance resolved_eq_dec : EqDecision ResolveResult.
Proof. solve_decision. Defined.

Record SRequest := mkSRequest {
  sr_AppID : string; sr_Recipients : list Z; sr_MinGrade : string; sr_Envelope : Envelope }.

Record RouteStrategy `{Telegram} := mkStrategy {
  st_Name : string;
  st_Resolve : SRequest → M (result ResolveResult);
}.

Definition no_result : ResolveResult := mkResolved [] [].

(** The loops append to one of the two lists. *)
Definition skip (id : Z) (code : string) (r : ResolveResult) : ResolveResult :=
  mkResolved (Recipients r) (Skipped r ++ [mkSkip id code]).
Definition accept (h : RecipientHandle) (r : ResolveResult) : ResolveResult :=
  mkResolved (Recipients r ++ [h]) (Skipped r).

Definition ResolveCodeUnknownRecipient : string := "unknown_recipient".
Definition ResolveCodeRecipientInactive : string := "recipient_inactive".
Definition ResolveCodeRecipientNotSubbed : string := "recipient_not_subscribed".
Definition ResolveCodeRecipientNotLinked : string := "recipient_not_linked".
Definition ResolveCodeTopicMissing : string := "recipient_topic_missing".
Definition ResolveCodeBotNotAdmin : string := "bot_not_admin".
Definition ResolveCodeGradeInsufficient : string := "grade_insufficient".

(** ** Grades: topic.go *)

Definition gradeRank (g : string) : Z :=
  let g := to_lower (trim_space g) in
  if String.eqb g "admin" then 3
  else if String.eqb g "developer" || String.eqb g "dev" then 2
  else if String.eqb g "user" then 1 else 0.

Definition normalizeGrade (g : string) : string :=
  let g := to_lower (trim_space g) in
  if String.eqb g "dev" then "developer" else if String.eqb g "" then "user" else g.

Definition maxGrade (a b : string) : string := if (gradeRank b <=? gradeRank a)%Z then a else b.

(** ** Rows *)

(** ORDER BY id. *)
Definition id_le (p q : Z * UserRow) : Prop := (p.1 <= q.1)%Z.
#[export] Instance id_le_dec : RelDecision id_le.
Proof. intros p q. unfold id_le. apply _. Defined.
#[export] Instance id_le_total : Total id_le.
Proof. intros p q. unfold id_le. lia. Qed.
#[export] Instance id_le_trans : Transitive id_le.
Proof. intros p q r. unfold id_le. lia. Qed.

Definition users_by_id (db : Database) : list (Z * UserRow) :=
  merge_sort id_le (map_to_list (users db)).

Definition app_exists (app : string) (db : Database) : bool :=
  match apps db !! app with Some a => app_active a | None => false end.

Section strategies.
Context `{PG : Postgres} `{TG : Telegram}.
Local Open Scope go_scope.

(** ** direct.go *)

(** One row of the three outer joins for a requested id. *)
Record direct_row := mkDirectRow {
  dr_user : option (Z * UserRow); dr_subscribed : bool; dr_topic : option Z }.

Definition direct_join (app : string) (db : Database) (id : Z) : direct_row :=
  match users db !! id with
  | Some u => mkDirectRow (Some (id, u)) (bool_decide ((id, app) ∈ user_subscriptions db))
                (user_topics db !! (id, app))
  | None => mkDirectRow None false None
  end.

(** The loop.  [None] is the panic of an index out of range. *)
Fixpoint direct_loop (userIDs : list Z) (idx : nat) (seen : gset Z) (rows : list direct_row)
    (res : ResolveResult) : option ResolveResult :=
  match rows with
  | [] => Some res
  | row :: rest =>
      match userIDs !! idx with
      | None => None
      | Some requested =>
          let next := direct_loop userIDs (S idx) in
          match dr_user row with
          | None => next seen rest (skip requested ResolveCodeUnknownRecipient res)
          | Some (id, u) =>
              if bool_decide (id ∈ seen) then next seen rest res
              else
                let seen := {[id]} ∪ seen in
                if negb (String.eqb (status u) "active")
                then next seen rest (skip id ResolveCodeRecipientInactive res)
                else if negb (dr_subscribed row)
                then next seen rest (skip id ResolveCodeRecipientNotSubbed res)
                else match personal_supergroup_chat_id u with
                | None => next seen rest (skip id ResolveCodeRecipientNotLinked res)
                | Some chat =>
                    if negb (bot_is_admin_in_supergroup u)
                    then next seen rest (skip id ResolveCodeBotNotAdmin res)
                    else match dr_topic row with
                    | None => next seen rest (skip id ResolveCodeTopicMissing res)
                    | Some topic => next seen rest (accept (mkHandle id chat topic "supergroup") res)
                    end
                end
          end
      end
  end.

Definition ResolveDirect (userIDs : list Z) (app : string) : M (result ResolveResult) :=
  let? found := db_query [app] (λ _ db, Ok (app_exists app db))
    else e => mret (Err (Wrap "direct resolver: app lookup: " e "")) ;;
  guard? found else mret (Err (Sentinel ErrAppNotFound)) ;;
  let? rows := db_query [app] (λ _ db, Ok (plan (direct_join app db <$> userIDs)))
    else e => mret (Err (Wrap "direct resolver: query: " e "")) ;;
  match direct_loop userIDs 0 ∅ rows no_result with
  | Some r => mret (Ok r)
  | None => mret (Err (Msg "panic: index out of range"))
  end.

Definition DirectStrategy : RouteStrategy := mkStrategy _ "direct" (λ r,
  guard? negb (String.eqb (sr_AppID r) "") else mret (Err (Sentinel ErrAppNotFound)) ;;
  guard? negb (bool_decide (sr_Recipients r = [])) else mret (Err (Sentinel ErrEmptyRecipients)) ;;
  ResolveDirect (sr_Recipients r) (sr_AppID r)).

(** ** direct_dm.go *)

Definition dm_join (db : Database) (t : Z) : Z * option (Z * UserRow) := (t, find_by_telegram t db).

Fixpoint dm_loop (seen : gset Z) (rows : list (Z * option (Z * UserRow))) (res : ResolveResult)
    : ResolveResult :=
  match rows with
  | [] => res
  | (requested, None) :: rest => dm_loop seen rest (skip requested ResolveCodeUnknownRecipient res)
  | (requested, Some (id, u)) :: rest =>
      if bool_decide (id ∈ seen) then dm_loop seen rest res
      else
        let seen := {[id]} ∪ seen in
        if negb (String.eqb (status u) "active")
        then dm_loop seen rest (skip id ResolveCodeRecipientInactive res)
        else dm_loop seen rest (accept (mkHandle id (telegram_id u) 0 "dm") res)
  end.

Definition ResolveDirectDM (telegramIDs : list Z) : M (result ResolveResult) :=
  let? rows := db_query [] (λ _ db, Ok (plan (dm_join db <$> telegramIDs)))
    else e => mret (Err (Wrap "direct-dm resolver: query: " e "")) ;;
  mret (Ok (dm_loop ∅ rows no_result)).

Definition DirectDMStrategy : RouteStrategy := mkStrategy _ "direct-dm" (λ r,
  guard? negb (bool_decide (sr_Recipients r = [])) else mret (Err (Sentinel ErrEmptyRecipients)) ;;
  ResolveDirectDM (sr_Recipients r)).

(** ** topic.go *)

(** Active subscribers by id, with the topic if there is one. *)
Definition topic_rows (app : string) (db : Database) : list (Z * UserRow * option Z) :=
  omap (λ '(i, u), if String.eqb (status u) "active" && bool_decide ((i, app) ∈ user_subscriptions db)
                   then Some (i, u, user_topics db !! (i, app)) else None) (users_by_id db).

Definition topic_body (effective : string) (res : ResolveResult) (row : Z * UserRow * option Z) : ResolveResult :=
  let '(id, u, topic) := row in
  if (gradeRank (grade u) <? gradeRank effective)%Z then skip id ResolveCodeGradeInsufficient res
  else match personal_supergroup_chat_id u with
  | None => skip id ResolveCodeRecipientNotLinked res
  | Some chat =>
      if negb (bot_is_admin_in_supergroup u) then skip id ResolveCodeBotNotAdmin res
      else match topic with
      | None => skip id ResolveCodeTopicMissing res
      | Some t => accept (mkHandle id chat t "supergroup") res
      end
  end.

(** The app query: whether it is active, and its grade, ['user'] by default. *)
Definition app_grade (app : string) (db : Database) : bool * string :=
  (app_exists app db, match apps db !! app with Some a => app_min_grade a | None => "user" end).

Definition ResolveTopic (app requestMinGrade : string) : M (result ResolveResult) :=
  let? eg := db_query [app] (λ _ db, Ok (app_grade app db))
    else e => mret (Err (Wrap "topic resolver: app lookup: " e "")) ;;
  guard? eg.1 else mret (Err (Sentinel ErrAppNotFound)) ;;
  let? rows := db_query [app] (λ _ db, Ok (topic_rows app db))
    else e => mret (Err (Wrap "topic resolver: query: " e "")) ;;
  mret (Ok (foldl (topic_body (maxGrade eg.2 requestMinGrade)) no_result rows)).

Definition TopicStrategy : RouteStrategy := mkStrategy _ "topic" (λ r,
  guard? negb (String.eqb (sr_AppID r) "") else mret (Err (Sentinel ErrAppNotFound)) ;;
  ResolveTopic (sr_AppID r) (normalizeGrade (sr_MinGrade r))).

(** ** broadcast_all.go *)

Definition broadcast_rows (db : Database) : list (Z * UserRow) :=
  filter (λ p, status p.2 = "active") (users_by_id db).

Definition broadcast_body (minGrade : string) (res : ResolveResult) (row : Z * UserRow) : ResolveResult :=
  let '(id, u) := row in
  if (gradeRank (grade u) <? gradeRank minGrade)%Z then skip id ResolveCodeGradeInsufficient res
  else match personal_supergroup_chat_id u with
  | None => skip id ResolveCodeRecipientNotLinked res
  | Some chat =>
      if negb (bot_is_admin_in_supergroup u) then skip id ResolveCodeBotNotAdmin res
      else accept (mkHandle id chat 0 "general") res
  end.

Definition ResolveBroadcast (minGrade : string) : M (result ResolveResult) :=
  let? rows := db_query [] (λ _ db, Ok (broadcast_rows db))
    else e => mret (Err (Wrap "broadcast resolver: query: " e "")) ;;
  mret (Ok (foldl (broadcast_body minGrade) no_result rows)).

Definition BroadcastAllStrategy : RouteStrategy := mkStrategy _ "broadcast-all" (λ r,
  ResolveBroadcast (normalizeGrade (sr_MinGrade r))).
End strategies.

(** ** Loops that classify each row on its own *)

Definition verdict : Type := RecipientHandle + ResolveError.
Definition accepted (v : verdict) : option RecipientHandle := match v with inl h => Some h | inr _ => None end.
Definition refused (v : verdict) : option ResolveError := match v with inl _ => None | inr s => Some s end.
Definition push (r : ResolveResult) (v : verdict) : ResolveResult :=
  match v with inl h => accept h r | inr s => skip (re_UserID s) (re_Code s) r end.
Definition verdict_id (v : verdict) : Z := match v with inl h => rh_UserID h | inr s => re_UserID s end.

Lemma foldl_push vs r :
  foldl push r vs = mkResolved (Recipients r ++ omap accepted vs) (Skipped r ++ omap refused vs).
Proof.
  revert r. induction vs as [|[h|[i c]] vs IH]; intros r; simpl.
  - destruct r. simpl. by rewrite !app_nil_r.
  - rewrite IH. simpl. by rewrite <- app_assoc.
  - rewrite IH. simpl. by rewrite <- app_assoc.
Qed.

Lemma foldl_body {A} (body : ResolveResult → A → ResolveResult) (cls : A → verdict) rows :
  (∀ r x, body r x = push r (cls x)) →
  foldl body no_result rows = mkResolved (omap accepted (cls <$> rows)) (omap refused (cls <$> rows)).
Proof.
  intros Hb. transitivity (foldl push no_result (cls <$> rows)); [|apply foldl_push].
  generalize no_result. induction rows as [|x rows IH]; intros r; simpl; [done|]. by rewrite Hb, IH.
Qed.

(** Every row ends up in exactly one of the lists. *)
Lemma verdicts_partition vs :
  (rh_UserID <$> omap accepted vs) ++ (re_UserID <$> omap refused vs) ≡ₚ verdict_id <$> vs.
Proof.
  induction vs as [|[h|s] vs IH]; simpl; [done|by rewrite IH|]. by rewrite <- Permutation_middle, IH.
Qed.

Lemma omap_sorted {A B} (f : A → option B) (k : A → Z) (k' : B → Z) l :
  (∀ x y, f x = Some y → k' y = k x) → StronglySorted Z.lt (k <$> l) → StronglySorted Z.lt (k' <$> omap f l).
Proof.
  intros Hf. induction l as [|x l IH]; simpl; [constructor|]. inversion 1 as [|?? Hs Hx]; subst.
  destruct (f x) as [y|] eqn:E; [|auto]. simpl. constructor; [auto|].
  rewrite (Hf _ _ E). clear -Hf Hx. induction l as [|z l IH]; simpl; [constructor|].
  inversion Hx; subst. destruct (f z) as [w|] eqn:Ez; [|auto]. simpl. constructor; [|auto].
  by rewrite (Hf _ _ Ez).
Qed.

(** ** Users by id *)

Lemma users_by_id_elem db i u : (i, u) ∈ users_by_id db ↔ users db !! i = Some u.
Proof. unfold users_by_id. by rewrite merge_sort_Permutation, elem_of_map_to_list. Qed.

Lemma sorted_le_NoDup_lt (l : list Z) : StronglySorted Z.le l → NoDup l → StronglySorted Z.lt l.
Proof.
  induction l as [|x l IH]; [constructor|]. inversion 1 as [|?? Hs Hx]; inversion 1; subst.
  constructor; [auto|]. rewrite Forall_forall in *. intros y Hy. specialize (Hx y Hy).
  assert (x ≠ y) by (intros ->; done). lia.
Qed.

Lemma users_by_id_sorted db : StronglySorted Z.lt ((users_by_id db).*1).
Proof.
  apply sorted_le_NoDup_lt.
  - pose proof (StronglySorted_merge_sort id_le (map_to_list (users db))) as Hs. fold (users_by_id db) in Hs.
    induction Hs as [|x l Hs IH Hx]; simpl; constructor; [done|]. by rewrite Forall_fmap.
  - unfold users_by_id. rewrite merge_sort_Permutation. apply NoDup_fst_map_to_list.
Qed.

(** ** topic.go *)

Definition topic_verdict (effective : string) (row : Z * UserRow * option Z) : verdict :=
  let '(id, u, topic) := row in
  if (gradeRank (grade u) <? gradeRank effective)%Z then inr (mkSkip id ResolveCodeGradeInsufficient)
  else match personal_supergroup_chat_id u with
  | None => inr (mkSkip id ResolveCodeRecipientNotLinked)
  | Some chat =>
      if negb (bot_is_admin_in_supergroup u) then inr (mkSkip id ResolveCodeBotNotAdmin)
      else match topic with
      | None => inr (mkSkip id ResolveCodeTopicMissing)
      | Some t => inl (mkHandle id chat t "supergroup")
      end
  end.

Definition resolve_topic (effective app : string) (db : Database) : ResolveResult :=
  foldl (topic_body effective) no_result (topic_rows app db).

Lemma resolve_topic_eq effective app db :
  resolve_topic effective app db =
  mkResolved (omap accepted (topic_verdict effective <$> topic_rows app db))
    (omap refused (topic_verdict effective <$> topic_rows app db)).
Proof.
  apply foldl_body. intros r [[i u] t]. unfold topic_body, topic_verdict.
  repeat case_match; done.
Qed.

Lemma topic_rows_elem app db i u t :
  (i, u, t) ∈ topic_rows app db ↔
  users db !! i = Some u ∧ status u = "active" ∧ (i, app) ∈ user_subscriptions db ∧ t = user_topics db !! (i, app).
Proof.
  unfold topic_rows. rewrite list_elem_of_omap. split.
  - intros ([j v]&Hj&He). apply users_by_id_elem in Hj. go_cases. go_bools. done.
  - intros (Hu&Hs&Hin&->). exists (i, u). rewrite users_by_id_elem. split; [done|].
    by rewrite Hs, bool_decide_true.
Qed.

Lemma topic_rows_sorted app db : StronglySorted Z.lt ((λ row, row.1.1) <$> topic_rows app db).
Proof.
  apply (omap_sorted _ fst); [|apply users_by_id_sorted].
  intros [i u] [[j v] t] H. go_cases.
Qed.

Lemma topic_verdict_id eff row : verdict_id (topic_verdict eff row) = row.1.1.
Proof. destruct row as [[i u] t]. unfold topic_verdict. repeat case_match; done. Qed.

(** ** broadcast_all.go *)

Definition broadcast_verdict (minGrade : string) (row : Z * UserRow) : verdict :=
  let '(id, u) := row in
  if (gradeRank (grade u) <? gradeRank minGrade)%Z then inr (mkSkip id ResolveCodeGradeInsufficient)
  else match personal_supergroup_chat_id u with
  | None => inr (mkSkip id ResolveCodeRecipientNotLinked)
  | Some chat =>
      if negb (bot_is_admin_in_supergroup u) then inr (mkSkip id ResolveCodeBotNotAdmin)
      else inl (mkHandle id chat 0 "general")
  end.

Definition resolve_broadcast (minGrade : string) (db : Database) : ResolveResult :=
  foldl (broadcast_body minGrade) no_result (broadcast_rows db).

Lemma resolve_broadcast_eq minGrade db :
  resolve_broadcast minGrade db =
  mkResolved (omap accepted (broadcast_verdict minGrade <$> broadcast_rows db))
    (omap refused (broadcast_verdict minGrade <$> broadcast_rows db)).
Proof.
  apply foldl_body. intros r [i u]. unfold broadcast_body, broadcast_verdict. repeat case_match; done.
Qed.

Lemma broadcast_rows_elem db i u :
  (i, u) ∈ broadcast_rows db ↔ users db !! i = Some u ∧ status u = "active".
Proof. unfold broadcast_rows. rewrite list_elem_of_filter, users_by_id_elem. naive_solver. Qed.

Lemma broadcast_verdict_id g row : verdict_id (broadcast_verdict g row) = row.1.
Proof. destruct row as [i u]. unfold broadcast_verdict. repeat case_match; done. Qed.

Lemma omap_fmap_elem {A} (cls : A → verdict) (rows : list A) h :
  h ∈ omap accepted (cls <$> rows) ↔ ∃ row, row ∈ rows ∧ cls row = inl h.
Proof.
  rewrite list_elem_of_omap. setoid_rewrite list_elem_of_fmap. split.
  - intros (v&(row&->&Hin)&Ha). exists row. split; [done|]. destruct (cls row); simplify_eq/=; done.
  - intros (row&Hin&Hc). exists (inl h). split; [|done]. exists row. by rewrite Hc.
Qed.

(** ** direct.go *)

(** The verdict on a known user. *)
Definition direct_verdict (app : string) (db : Database) (id : Z) (u : UserRow) : verdict :=
  if negb (String.eqb (status u) "active") then inr (mkSkip id ResolveCodeRecipientInactive)
  else if negb (bool_decide ((id, app) ∈ user_subscriptions db))
  then inr (mkSkip id ResolveCodeRecipientNotSubbed)
  else match personal_supergroup_chat_id u with
  | None => inr (mkSkip id ResolveCodeRecipientNotLinked)
  | Some chat =>
      if negb (bot_is_admin_in_supergroup u) then inr (mkSkip id ResolveCodeBotNotAdmin)
      else match user_topics db !! (id, app) with
      | None => inr (mkSkip id ResolveCodeTopicMissing)
      | Some topic => inl (mkHandle id chat topic "supergroup")
      end
  end.

(** The verdicts of a loop that remembers the users it has seen: [known] looks a
    requested id up; [unknown idx id] is what is reported for an unknown one. *)
Fixpoint verdicts (known : Z → option (Z * verdict)) (unknown : nat → Z → Z) (idx : nat) (seen : gset Z)
    (l : list Z) : list verdict :=
  match l with
  | [] => []
  | id :: l' =>
      match known id with
      | None => inr (mkSkip (unknown idx id) ResolveCodeUnknownRecipient) :: verdicts known unknown (S idx) seen l'
      | Some (i, v) =>
          if bool_decide (i ∈ seen) then verdicts known unknown (S idx) seen l'
          else v :: verdicts known unknown (S idx) ({[i]} ∪ seen) l'
      end
  end.

Definition direct_known (app : string) (db : Database) (id : Z) : option (Z * verdict) :=
  (λ u, (id, direct_verdict app db id u)) <$> users db !! id.

Lemma direct_loop_verdicts app db ids l : ∀ idx seen res, (idx + length l <= length ids)%nat →
  direct_loop ids idx seen (direct_join app db <$> l) res =
  Some (foldl push res (verdicts (direct_known app db) (λ k _, default 0%Z (ids !! k)) idx seen l)).
Proof.
  induction l as [|id l IH]; intros idx seen res Hlen; [done|]. simpl in Hlen. cbn [fmap list_fmap direct_loop].
  destruct (lookup_lt_is_Some_2 ids idx ltac:(lia)) as [req Hreq]. rewrite Hreq.
  cbn [verdicts].
  destruct (users db !! id) as [u|] eqn:Eu.
  - assert (direct_known app db id = Some (id, direct_verdict app db id u)) as ->
      by (unfold direct_known; by rewrite Eu).
    assert (direct_join app db id = mkDirectRow (Some (id, u))
      (bool_decide ((id, app) ∈ user_subscriptions db)) (user_topics db !! (id, app))) as ->
      by (unfold direct_join; by rewrite Eu).
    cbn [dr_user dr_subscribed dr_topic].
    destruct (bool_decide (id ∈ seen)); [by rewrite IH by lia|].
    cbn [foldl]. unfold direct_verdict. rewrite !IH by lia.
    destruct (String.eqb (status u) "active"); [|done]. cbn [negb].
    destruct (bool_decide ((id, app) ∈ user_subscriptions db)); [|done]. cbn [negb].
    destruct (personal_supergroup_chat_id u); [|done].
    destruct (bot_is_admin_in_supergroup u); [|done]. cbn [negb].
    destruct (user_topics db !! (id, app)); by rewrite ?IH by lia.
  - assert (direct_known app db id = None) as -> by (unfold direct_known; by rewrite Eu).
    assert (direct_join app db id = mkDirectRow None false None) as -> by (unfold direct_join; by rewrite Eu).
    cbn [dr_user foldl]. rewrite Hreq. by rewrite IH by lia.
Qed.

Lemma verdicts_known known unknown l : ∀ idx seen v,
  (∀ i j k w w', known i = Some (k, w) → known j = Some (k, w') → w = w') →
  (∀ id i w, known id = Some (i, w) → verdict_id w = i) →
  v ∈ verdicts known unknown idx seen l →
  (∃ id i, id ∈ l ∧ known id = Some (i, v) ∧ i ∉ seen) ∨
  (∃ k id, l !! k = Some id ∧ known id = None ∧ v = inr (mkSkip (unknown (idx + k)%nat id) ResolveCodeUnknownRecipient)).
Proof.
  induction l as [|id l IH]; intros idx seen v Hf Hid; simpl; [set_solver|].
  destruct (known id) as [[i w]|] eqn:Ek.
  - case_bool_decide as Hs; [|intros [->|Hin]%elem_of_cons].
    + intros Hin. destruct (IH _ _ _ Hf Hid Hin) as [(x&j&?&?&?)|(k&x&?&?&->)].
      * left. exists x, j. split; [by right|done].
      * right. exists (S k), x. by rewrite Nat.add_succ_r.
    + left. exists id, i. split; [left|done].
    + destruct (IH _ _ _ Hf Hid Hin) as [(x&j&?&?&?)|(k&x&?&?&->)].
      * left. exists x, j. split; [by right|set_solver].
      * right. exists (S k), x. by rewrite Nat.add_succ_r.
  - intros [->|Hin]%elem_of_cons.
    + right. exists 0%nat, id. by rewrite Nat.add_0_r.
    + destruct (IH _ _ _ Hf Hid Hin) as [(x&j&?&?&?)|(k&x&?&?&->)].
      * left. exists x, j. split; [by right|done].
      * right. exists (S k), x. by rewrite Nat.add_succ_r.
Qed.

Lemma verdicts_complete known unknown l : ∀ idx seen id i v,
  (∀ i j k w w', known i = Some (k, w) → known j = Some (k, w') → w = w') →
  id ∈ l → known id = Some (i, v) → i ∉ seen → v ∈ verdicts known unknown idx seen l.
Proof.
  induction l as [|x l IH]; intros idx seen id i v Hf Hin Hk Hs; simpl; [set_solver|].
  apply elem_of_cons in Hin as [<-|Hin].
  - rewrite Hk, bool_decide_false by done. left.
  - destruct (known x) as [[j w]|] eqn:Ex.
    + case_bool_decide as Hj; [by eapply IH|].
      destruct (decide (i = j)) as [->|Hne].
      * rewrite (Hf _ _ _ _ _ Hk Ex). left.
      * right. eapply IH; eauto. set_solver.
    + right. by eapply IH.
Qed.

(** Nobody is accepted twice. *)
Lemma verdicts_accepted_NoDup known unknown l : ∀ idx seen,
  (∀ id i w, known id = Some (i, w) → verdict_id w = i) →
  NoDup (rh_UserID <$> omap accepted (verdicts known unknown idx seen l)) ∧
  (∀ h, h ∈ omap accepted (verdicts known unknown idx seen l) → rh_UserID h ∉ seen).
Proof.
  induction l as [|x l IH]; intros idx seen Hid; simpl; [split; [constructor|set_solver]|].
  destruct (known x) as [[i w]|] eqn:Ex; [|by apply IH].
  case_bool_decide as Hi; [by apply IH|].
  destruct (IH (S idx) ({[i]} ∪ seen) Hid) as [Hn Hs].
  destruct w as [h|s]; simpl.
  - pose proof (Hid _ _ _ Ex) as Hh. simpl in Hh. split.
    + constructor; [|done]. intros ([? ? ? ?]&Heq&Hin)%list_elem_of_fmap. specialize (Hs _ Hin). set_solver.
    + intros h' [->|Hin]%elem_of_cons; [congruence|]. specialize (Hs _ Hin). set_solver.
  - split; [done|]. intros h Hin. specialize (Hs _ Hin). set_solver.
Qed.

Lemma direct_known_inj app db i j k w w' :
  direct_known app db i = Some (k, w) → direct_known app db j = Some (k, w') → w = w'.
Proof. unfold direct_known. destruct (users db !! i) eqn:?, (users db !! j) eqn:?; simpl; intros; congruence. Qed.

Lemma direct_known_id app db id i w : direct_known app db id = Some (i, w) → verdict_id w = i.
Proof.
  unfold direct_known. destruct (users db !! id); simpl; [|done]. intros [= <- <-].
  unfold direct_verdict. repeat case_match; done.
Qed.

(** The outcome of the direct resolver on the rows in some order. *)
Definition resolve_direct `{Postgres} (ids : list Z) (app : string) (db : Database) : option ResolveResult :=
  direct_loop ids 0 ∅ (plan (direct_join app db <$> ids)) no_result.

Lemma resolve_direct_eq `{Postgres} ids app db :
  ∃ l, l ≡ₚ ids ∧ plan (direct_join app db <$> ids) = direct_join app db <$> l ∧
  resolve_direct ids app db = Some (
    let vs := verdicts (direct_known app db) (λ k _, default 0%Z (ids !! k)) 0 ∅ l in
    mkResolved (omap accepted vs) (omap refused vs)).
Proof.
  destruct (Permutation_map_inv (direct_join app db) ids (plan_perm (direct_join app db <$> ids))) as (l&Hl&Hp).
  exists l. split; [by symmetry|]. split; [done|]. unfold resolve_direct.
  replace (plan (direct_join app db <$> ids)) with (direct_join app db <$> l) by (symmetry; exact Hl).
  rewrite direct_loop_verdicts by (by rewrite (Permutation_length Hp)). by rewrite foldl_push.
Qed.

(** ** direct_dm.go *)

Definition dm_verdict (id : Z) (u : UserRow) : verdict :=
  if negb (String.eqb (status u) "active") then inr (mkSkip id ResolveCodeRecipientInactive)
  else inl (mkHandle id (telegram_id u) 0 "dm").

Definition dm_known (db : Database) (t : Z) : option (Z * verdict) :=
  (λ '(i, u), (i, dm_verdict i u)) <$> find_by_telegram t db.

Lemma dm_loop_verdicts db l : ∀ idx seen res,
  dm_loop seen (dm_join db <$> l) res =
  foldl push res (verdicts (dm_known db) (λ _ t, t) idx seen l).
Proof.
  induction l as [|t l IH]; intros idx seen res; simpl; [done|].
  unfold dm_known at 1. destruct (find_by_telegram t db) as [[i u]|]; simpl; [|apply IH].
  destruct (bool_decide (i ∈ seen)); [apply IH|]. unfold dm_verdict.
  destruct (String.eqb (status u) "active"); simpl; apply IH.
Qed.

Lemma dm_known_inj db i j k w w' : dm_known db i = Some (k, w) → dm_known db j = Some (k, w') → w = w'.
Proof.
  unfold dm_known. destruct (find_by_telegram i db) as [[a u]|] eqn:Ei; [|done].
  destruct (find_by_telegram j db) as [[b v]|] eqn:Ej; [|done]. simpl. intros [= <- <-] [= -> <-].
  apply find_by_telegram_Some in Ei as [Ei _], Ej as [Ej _]. congruence.
Qed.

Lemma dm_known_id db id i w : dm_known db id = Some (i, w) → verdict_id w = i.
Proof.
  unfold dm_known. destruct (find_by_telegram id db) as [[a u]|]; [|done]. intros [= <- <-].
  unfold dm_verdict. by case_match.
Qed.

Lemma dm_known_code db t i s : dm_known db t = Some (i, inr s) → re_Code s ≠ ResolveCodeUnknownRecipient.
Proof.
  unfold dm_known. destruct (find_by_telegram t db) as [[a u]|]; [|done]. simpl. unfold dm_verdict.
  by destruct (String.eqb (status u) "active"); intros [= <- <-].
Qed.

(** The reports of unknown ids among the verdicts. *)
Definition unknown_ids (l : list ResolveError) : list Z :=
  re_UserID <$> filter (λ s, re_Code s = ResolveCodeUnknownRecipient) l.

Lemma verdicts_unknown known unknown l : ∀ idx seen,
  (∀ id i s, known id = Some (i, inr s) → re_Code s ≠ ResolveCodeUnknownRecipient) →
  (∀ k id, unknown k id = id) →
  unknown_ids (omap refused (verdicts known unknown idx seen l)) = filter (λ id, known id = None) l.
Proof.
  intros idx seen Hc Hu. revert idx seen. unfold unknown_ids.
  induction l as [|x l IH]; intros idx seen; [done|]. cbn [verdicts].
  rewrite (filter_cons _ x l). destruct (known x) as [[i w]|] eqn:Ex.
  - rewrite (decide_False (P := Some (i, w) = None)) by done.
    case_bool_decide; [apply IH|]. destruct w as [h|s]; cbn [omap list_omap refused]; [apply IH|].
    rewrite filter_cons, decide_False by (by eapply Hc). apply IH.
  - rewrite (decide_True (P := None = None)) by done. cbn [omap list_omap refused].
    rewrite filter_cons, decide_True by done. cbn. by rewrite Hu, IH.
Qed.

Lemma accepted_sorted {A} (cls : A → verdict) (k : A → Z) (rows : list A) :
  (∀ x, verdict_id (cls x) = k x) → StronglySorted Z.lt (k <$> rows) →
  StronglySorted Z.lt (rh_UserID <$> omap accepted (cls <$> rows)).
Proof.
  intros Hk Hs. apply (omap_sorted _ verdict_id).
  - intros [h'|s] h Ha; simplify_eq/=. done.
  - rewrite <- list_fmap_compose. erewrite list_fmap_ext; [exact Hs|]. intros. apply Hk.
Qed.

Lemma verdicts_partition_rows {A} (cls : A → verdict) (k : A → Z) (rows : list A) :
  (∀ x, verdict_id (cls x) = k x) →
  (rh_UserID <$> omap accepted (cls <$> rows)) ++ (re_UserID <$> omap refused (cls <$> rows)) ≡ₚ k <$> rows.
Proof.
  intros Hk. rewrite verdicts_partition, <- list_fmap_compose. erewrite list_fmap_ext; [done|].
  intros. apply Hk.
Qed.

(** ** Who receives: the theorems *)

Section theorems.
Context `{PG : Postgres} `{TG : Telegram}.

Lemma ResolveTopic_Ok app g w r : (ResolveTopic app g w).1 = Ok r →
  ∃ a, apps (w_db w) !! app = Some a ∧ app_active a = true ∧
    r = resolve_topic (maxGrade (app_min_grade a) g) app (w_db w).
Proof.
  unfold ResolveTopic, mbind, st_bind.
  match goal with |- context [db_query ?a ?f w] =>
    destruct (db_query_spec a f w) as (D1&_&R1); destruct (db_query a f w) as [[eg|e] w1] end; simpl in *; [|done].
  destruct (R1 eg eq_refl) as (_&[= <-]). simpl.
  unfold app_exists. destruct (apps (w_db w) !! app) as [a|]; [|done].
  destruct (app_active a) eqn:Ea; [|done].
  match goal with |- context [db_query ?a ?f w1] =>
    destruct (db_query_spec a f w1) as (D2&_&R2); destruct (db_query a f w1) as [[rows|e] w2] end; simpl in *; [|done].
  destruct (R2 rows eq_refl) as (_&[= <-]). intros [= <-]. exists a. by rewrite D1.
Qed.

Lemma ResolveBroadcast_Ok g w r : (ResolveBroadcast g w).1 = Ok r → r = resolve_broadcast g (w_db w).
Proof.
  unfold ResolveBroadcast, mbind, st_bind.
  match goal with |- context [db_query ?a ?f w] =>
    destruct (db_query_spec a f w) as (D1&_&R1); destruct (db_query a f w) as [[rows|e] w1] end; simpl in *; [|done].
  destruct (R1 rows eq_refl) as (_&[= <-]). by intros [= <-].
Qed.

Lemma ResolveDirect_Ok ids app w r : (ResolveDirect ids app w).1 = Ok r →
  app_exists app (w_db w) = true ∧ resolve_direct ids app (w_db w) = Some r.
Proof.
  unfold ResolveDirect, mbind, st_bind.
  match goal with |- context [db_query ?a ?f w] =>
    destruct (db_query_spec a f w) as (D1&_&R1); destruct (db_query a f w) as [[found|e] w1] end; simpl in *; [|done].
  destruct (R1 found eq_refl) as (_&[= <-]). destruct (app_exists app (w_db w)); [|done].
  match goal with |- context [db_query ?a ?f w1] =>
    destruct (db_query_spec a f w1) as (D2&_&R2); destruct (db_query a f w1) as [[rows|e] w2] end; simpl in *; [|done].
  destruct (R2 rows eq_refl) as (_&[= <-]). unfold resolve_direct. rewrite D1.
  destruct (direct_loop _ _ _ _ _); [|done]. by intros [= <-].
Qed.

Lemma ResolveDirectDM_Ok ids w r : (ResolveDirectDM ids w).1 = Ok r →
  ∃ l, l ≡ₚ ids ∧ let vs := verdicts (dm_known (w_db w)) (λ _ t, t) 0 ∅ l in
    r = mkResolved (omap accepted vs) (omap refused vs).
Proof.
  unfold ResolveDirectDM, mbind, st_bind.
  match goal with |- context [db_query ?a ?f w] =>
    destruct (db_query_spec a f w) as (D1&_&R1); destruct (db_query a f w) as [[rows|e] w1] end; simpl in *; [|done].
  destruct (R1 rows eq_refl) as (_&[= <-]). intros [= <-].
  destruct (Permutation_map_inv (dm_join (w_db w)) ids (plan_perm _)) as (l&Hl&Hp).
  exists l. split; [by symmetry|].
  replace (plan (dm_join (w_db w) <$> ids)) with (dm_join (w_db w) <$> l) by (symmetry; exact Hl).
  by rewrite (dm_loop_verdicts _ _ 0), foldl_push.
Qed.
End theorems.

(** C18: a topic message of an active app goes exactly to its active
    subscribers whose grade reaches the higher of the app's and the request's
    minimum, who have linked a supergroup in which the bot is administrator and
    have a topic for the app; in ascending id order, each once; and every
    active subscriber is either sent to or reported as skipped. *)
Theorem topic_resolution `{Postgres} `{Telegram} app g w r :
  (ResolveTopic app g w).1 = Ok r →
  ∃ a, apps (w_db w) !! app = Some a ∧ app_active a = true ∧
  (∀ h, h ∈ Recipients r ↔ ∃ i u c t,
     users (w_db w) !! i = Some u ∧ status u = "active" ∧ (i, app) ∈ user_subscriptions (w_db w) ∧
     (Z.max (gradeRank (app_min_grade a)) (gradeRank g) <= gradeRank (grade u))%Z ∧
     personal_supergroup_chat_id u = Some c ∧ bot_is_admin_in_supergroup u = true ∧
     user_topics (w_db w) !! (i, app) = Some t ∧ h = mkHandle i c t "supergroup") ∧
  StronglySorted Z.lt (rh_UserID <$> Recipients r) ∧
  (rh_UserID <$> Recipients r) ++ (re_UserID <$> Skipped r) ≡ₚ
    (λ row, row.1.1) <$> topic_rows app (w_db w).
Proof.
  intros (a&Ha&Hact&->)%ResolveTopic_Ok. exists a. split; [done|]. split; [done|].
  rewrite resolve_topic_eq. cbn [Recipients Skipped].
  set (eff := maxGrade (app_min_grade a) g).
  assert (gradeRank eff = Z.max (gradeRank (app_min_grade a)) (gradeRank g)) as Heff
    by (unfold eff, maxGrade; case_match; lia).
  split_and!.
  - intros h. rewrite omap_fmap_elem. split.
    + intros ([[i u] t]&(Hu&Hs&Hin&->)%topic_rows_elem&Hv). unfold topic_verdict in Hv.
      destruct (Z.ltb_spec (gradeRank (grade u)) (gradeRank eff)); [done|].
      go_cases. go_bools. exists i, u. do 2 eexists. split_and!; eauto; lia.
    + intros (i&u&c&t&Hu&Hs&Hin&Hg&Hc&Hb&Ht&->). exists (i, u, user_topics (w_db w) !! (i, app)).
      rewrite topic_rows_elem. split; [done|]. unfold topic_verdict.
      destruct (Z.ltb_spec (gradeRank (grade u)) (gradeRank eff)); [lia|]. by rewrite Hc, Hb, Ht.
  - apply (accepted_sorted _ (λ row, row.1.1)); [apply topic_verdict_id|apply topic_rows_sorted].
  - apply verdicts_partition_rows, topic_verdict_id.
Qed.

(** A database with one of everything: app [alerts] (minimum grade developer),
    user 1 (developer, linked, topic), user 2 (plain user), user 3 (paused). *)
Definition sample_user (t : Z) (g st : string) (chat : option Z) : UserRow :=
  mkUser t (Some "u") g None (Some 1%Z) chat (Some 1%Z) true 0 st false 0 0.

Definition sample_db : Database :=
  mkDb {["alerts" := mkApp "Alerts" "" "developer" true 0 0 1 ""]} ∅ ∅
    {[1%Z := sample_user 101 "developer" "active" (Some (-1001)%Z);
      2%Z := sample_user 102 "user" "active" (Some (-1002)%Z);
      3%Z := sample_user 103 "admin" "paused" (Some (-1003)%Z)]}
    {[(1%Z, "alerts"); (2%Z, "alerts"); (3%Z, "alerts")]}
    {[(1%Z, "alerts") := 7%Z; (2%Z, "alerts") := 8%Z]} ∅ [] [] 1 4 1.

Lemma topic_resolution_witness :
  ∃ a, apps sample_db !! "alerts" = Some a ∧ app_active a = true ∧
  (∀ h, h ∈ [mkHandle 1 (-1001) 7 "supergroup"] ↔ ∃ i u c t,
     users sample_db !! i = Some u ∧ status u = "active" ∧ (i, "alerts") ∈ user_subscriptions sample_db ∧
     (Z.max (gradeRank (app_min_grade a)) (gradeRank "user") <= gradeRank (grade u))%Z ∧
     personal_supergroup_chat_id u = Some c ∧ bot_is_admin_in_supergroup u = true ∧
     user_topics sample_db !! (i, "alerts") = Some t ∧ h = mkHandle i c t "supergroup") ∧
  StronglySorted Z.lt [1%Z] ∧ [1%Z; 2%Z] ≡ₚ (λ row, row.1.1) <$> topic_rows "alerts" sample_db.
Proof.
  apply (topic_resolution (H := text_order) (H0 := recorder) "alerts" "user" (rec_world 0 sample_db)
    (mkResolved [mkHandle 1 (-1001) 7 "supergroup"] [mkSkip 2 "grade_insufficient"])).
  vm_compute. reflexivity.
Defined.

(** A broadcast goes exactly to the active users whose grade reaches the
    requested minimum and who have linked a supergroup in which the bot is
    administrator, in ascending id order, each once, to the general topic; and
    every active user is either sent to or reported as skipped. *)
Theorem broadcast_resolution `{Postgres} `{Telegram} g w r :
  (ResolveBroadcast g w).1 = Ok r →
  (∀ h, h ∈ Recipients r ↔ ∃ i u c,
     users (w_db w) !! i = Some u ∧ status u = "active" ∧ (gradeRank g <= gradeRank (grade u))%Z ∧
     personal_supergroup_chat_id u = Some c ∧ bot_is_admin_in_supergroup u = true ∧
     h = mkHandle i c 0 "general") ∧
  StronglySorted Z.lt (rh_UserID <$> Recipients r) ∧
  (rh_UserID <$> Recipients r) ++ (re_UserID <$> Skipped r) ≡ₚ (broadcast_rows (w_db w)).*1.
Proof.
  intros ->%ResolveBroadcast_Ok. rewrite resolve_broadcast_eq. cbn [Recipients Skipped].
  split_and!.
  - intros h. rewrite omap_fmap_elem. split.
    + intros ([i u]&(Hu&Hs)%broadcast_rows_elem&Hv). unfold broadcast_verdict in Hv.
      destruct (Z.ltb_spec (gradeRank (grade u)) (gradeRank g)); [done|].
      go_cases. go_bools. exists i, u. eexists. split_and!; eauto.
    + intros (i&u&c&Hu&Hs&Hg&Hc&Hb&->). exists (i, u). rewrite broadcast_rows_elem. split; [done|].
      unfold broadcast_verdict. destruct (Z.ltb_spec (gradeRank (grade u)) (gradeRank g)); [lia|].
      by rewrite Hc, Hb.
  - apply (accepted_sorted _ fst); [apply broadcast_verdict_id|].
    unfold broadcast_rows. pose proof (users_by_id_sorted (w_db w)) as Hs.
    induction (users_by_id (w_db w)) as [|x l IH]; [constructor|]. rewrite filter_cons.
    inversion Hs as [|?? Hs' Hx]; subst. case_decide; [|by apply IH]. cbn. constructor; [by apply IH|].
    rewrite Forall_forall in *. intros y (z&->&[_ Hz]%list_elem_of_filter)%list_elem_of_fmap.
    apply Hx, list_elem_of_fmap. eauto.
  - apply verdicts_partition_rows, broadcast_verdict_id.
Qed.

Lemma broadcast_resolution_witness :
  (∀ h, h ∈ [mkHandle 1 (-1001) 0 "general"; mkHandle 2 (-1002) 0 "general"] ↔ ∃ i u c,
     users sample_db !! i = Some u ∧ status u = "active" ∧ (gradeRank "user" <= gradeRank (grade u))%Z ∧
     personal_supergroup_chat_id u = Some c ∧ bot_is_admin_in_supergroup u = true ∧
     h = mkHandle i c 0 "general") ∧
  StronglySorted Z.lt [1%Z; 2%Z] ∧ [1%Z; 2%Z] ≡ₚ (broadcast_rows sample_db).*1.
Proof.
  apply (broadcast_resolution (H := text_order) (H0 := recorder) "user" (rec_world 0 sample_db)
    (mkResolved [mkHandle 1 (-1001) 0 "general"; mkHandle 2 (-1002) 0 "general"] [])).
  vm_compute. reflexivity.
Defined.

(** C19: a direct message to named users, in whatever order the database
    returns the rows, goes exactly to those requested users who are active,
    subscribed to the app, linked, with the bot as administrator and with a
    topic, each once however often they are named; the row index never leaves
    the request's list. *)
Theorem direct_resolution `{Postgres} `{Telegram} ids app w :
  (∃ r, resolve_direct ids app (w_db w) = Some r) ∧
  (∀ r, (ResolveDirect ids app w).1 = Ok r →
     app_exists app (w_db w) = true ∧
     (∀ h, h ∈ Recipients r ↔ ∃ i u c t, i ∈ ids ∧
        users (w_db w) !! i = Some u ∧ status u = "active" ∧ (i, app) ∈ user_subscriptions (w_db w) ∧
        personal_supergroup_chat_id u = Some c ∧ bot_is_admin_in_supergroup u = true ∧
        user_topics (w_db w) !! (i, app) = Some t ∧ h = mkHandle i c t "supergroup") ∧
     NoDup (rh_UserID <$> Recipients r)).
Proof.
  destruct (resolve_direct_eq ids app (w_db w)) as (l&Hl&_&Hr). split; [by eexists|].
  intros r [Hex Hr']%ResolveDirect_Ok. rewrite Hr in Hr'. injection Hr' as <-. split; [done|].
  cbn [Recipients]. split; [|apply verdicts_accepted_NoDup, direct_known_id].
  intros h. rewrite list_elem_of_omap. split.
  - intros ([h'|s]&Hin&Ha); simplify_eq/=.
    apply verdicts_known in Hin as [(id&i&Hid&Hk&_)|(?&?&_&_&?)];
      [|done|apply direct_known_inj|apply direct_known_id].
    rewrite Hl in Hid. unfold direct_known in Hk.
    destruct (users (w_db w) !! id) as [u|] eqn:Hu; [|done]. simpl in Hk. injection Hk as <- Hk.
    unfold direct_verdict in Hk. go_cases. go_bools. naive_solver.
  - intros (i&u&c&t&Hi&Hu&Hs&Hsub&Hc&Hb&Ht&->). exists (inl (mkHandle i c t "supergroup")). split; [|done].
    eapply (verdicts_complete _ _ _ _ _ i i); [apply direct_known_inj|by rewrite Hl| |set_solver].
    unfold direct_known. rewrite Hu. simpl. unfold direct_verdict.
    by rewrite Hs, bool_decide_true, Hc, Hb, Ht.
Qed.

(** A database that returns rows last to first. *)
Definition backwards : Postgres.
Proof.
  refine {| plan A l := reverse l; collate l := l; jsonb_of m := @jsonb_of text_order m |}.
  - intros A l. apply reverse_Permutation.
  - done.
  - done.
  - intros m _. by eexists.
Defined.

(** The direct resolver names an unknown recipient by the position of its
    row.  Where rows come in the order of the request the report is right; SQL
    promises no order, and with the rows reversed the same request reports a
    user who exists, and has been sent the message, as unknown. *)
Theorem direct_unknown_by_position :
  resolve_direct (H := text_order) [1; 77]%Z "alerts" sample_db =
    Some (mkResolved [mkHandle 1 (-1001) 7 "supergroup"] [mkSkip 77 "unknown_recipient"]) ∧
  resolve_direct (H := backwards) [1; 77]%Z "alerts" sample_db =
    Some (mkResolved [mkHandle 1 (-1001) 7 "supergroup"] [mkSkip 1 "unknown_recipient"]).
Proof. split; vm_compute; reflexivity. Qed.

(** A direct DM, in whatever order the database returns the rows, goes
    exactly to the active users with a requested Telegram id, in their private
    chat, each once; and the ids reported as unknown are exactly the requested
    ids nobody has, as often as they were requested. *)
Theorem dm_resolution `{Postgres} `{Telegram} ids w r :
  (ResolveDirectDM ids w).1 = Ok r →
  (db_wf (w_db w) → ∀ h, h ∈ Recipients r ↔ ∃ i u, telegram_id u ∈ ids ∧
     users (w_db w) !! i = Some u ∧ status u = "active" ∧ h = mkHandle i (telegram_id u) 0 "dm") ∧
  NoDup (rh_UserID <$> Recipients r) ∧
  unknown_ids (Skipped r) ≡ₚ filter (λ t, find_by_telegram t (w_db w) = None) ids.
Proof.
  intros (l&Hl&->)%ResolveDirectDM_Ok. cbn [Recipients Skipped]. split_and!.
  - intros Hwf h. rewrite list_elem_of_omap. split.
    + intros ([h'|s]&Hin&Ha); simplify_eq/=.
      apply verdicts_known in Hin as [(t&i&Ht&Hk&_)|(?&?&_&_&?)];
        [|done|apply dm_known_inj|apply dm_known_id].
      rewrite Hl in Ht. unfold dm_known in Hk.
      destruct (find_by_telegram t (w_db w)) as [[j u]|] eqn:Hf; [|done]. simpl in Hk. injection Hk as <- Hk.
      apply find_by_telegram_Some in Hf as [Hu Htu]. unfold dm_verdict in Hk. go_cases. go_bools. subst. eauto 10.
    + intros (i&u&Ht&Hu&Hs&->). exists (inl (mkHandle i (telegram_id u) 0 "dm")). split; [|done].
      eapply (verdicts_complete _ _ _ _ _ (telegram_id u) i); [apply dm_known_inj|by rewrite Hl| |set_solver].
      unfold dm_known. assert (find_by_telegram (telegram_id u) (w_db w) = Some (i, u)) as ->
        by (by apply find_by_telegram_iff). simpl. unfold dm_verdict. by rewrite Hs.
  - apply verdicts_accepted_NoDup, dm_known_id.
  - rewrite verdicts_unknown; [|by intros; eapply dm_known_code|done].
    rewrite (list_filter_iff _ (λ t, find_by_telegram t (w_db w) = None)); [by rewrite Hl|].
    intros t. unfold dm_known.
    by destruct (find_by_telegram t (w_db w)) as [[]|].
Qed.

Lemma dm_resolution_witness :
  (db_wf sample_db → ∀ h, h ∈ [mkHandle 2 102 0 "dm"] ↔ ∃ i u, telegram_id u ∈ [102; 103; 999; 102]%Z ∧
     users sample_db !! i = Some u ∧ status u = "active" ∧ h = mkHandle i (telegram_id u) 0 "dm") ∧
  NoDup [2%Z] ∧
  unknown_ids [mkSkip 999 "unknown_recipient"; mkSkip 3 "recipient_inactive"] ≡ₚ
    filter (λ t, find_by_telegram t sample_db = None) [102; 103; 999; 102]%Z.
Proof.
  apply (dm_resolution (H := backwards) (H0 := recorder) [102; 103; 999; 102]%Z (rec_world 0 sample_db)
    (mkResolved [mkHandle 2 102 0 "dm"] [mkSkip 999 "unknown_recipient"; mkSkip 3 "recipient_inactive"])).
  vm_compute. reflexivity.
Defined.

(** Grades fail closed on the stored side: a user whose stored grade is
    not one of the known ones receives no topic message and no broadcast as
    long as the minimum asked for is a known grade. *)
Lemma unknown_stored_grade_refused eff app db u i t :
  gradeRank (grade u) = 0%Z → gradeRank eff ≠ 0%Z →
  topic_verdict eff (i, u, t) = inr (mkSkip i ResolveCodeGradeInsufficient) ∧
  broadcast_verdict eff (i, u) = inr (mkSkip i ResolveCodeGradeInsufficient) ∧
  (∀ h, h ∈ Recipients (resolve_topic eff app db) → users db !! rh_UserID h ≠ Some u).
Proof.
  intros Hg He.
  assert (0 < gradeRank eff)%Z as Hpos by (unfold gradeRank in *; repeat case_match; lia).
  assert ((gradeRank (grade u) <? gradeRank eff)%Z = true) as Hlt by lia.
  split_and!; [by simpl; rewrite Hlt..|].
  intros h Hin Hu. rewrite resolve_topic_eq in Hin. apply omap_fmap_elem in Hin as ([[j v] t']&Hj&Hv).
  apply topic_rows_elem in Hj as (Hj&_). pose proof (topic_verdict_id eff (j, v, t')) as Hid.
  rewrite Hv in Hid. simpl in Hid. subst j. assert (v = u) as -> by congruence.
  simpl in Hv. by rewrite Hlt in Hv.
Qed.

Lemma unknown_stored_grade_refused_witness :
  topic_verdict "user" (9%Z, sample_user 1 "superuser" "active" (Some 5%Z), Some 4%Z) =
  inr (mkSkip 9 ResolveCodeGradeInsufficient).
Proof. by apply (unknown_stored_grade_refused "user" "alerts" sample_db). Defined.

(** The requested side is open: a broadcast whose [min_grade] is not a
    known grade (a misspelt one, say) is not refused and filters nobody: every
    active, linked user whose supergroup the bot administers receives it. *)
Theorem unknown_requested_grade_open g db i u c :
  gradeRank (normalizeGrade g) = 0%Z →
  users db !! i = Some u → status u = "active" →
  personal_supergroup_chat_id u = Some c → bot_is_admin_in_supergroup u = true →
  mkHandle i c 0 "general" ∈ Recipients (resolve_broadcast (normalizeGrade g) db).
Proof.
  intros Hg Hu Hs Hc Hb. rewrite resolve_broadcast_eq. apply omap_fmap_elem. exists (i, u).
  rewrite broadcast_rows_elem. split; [done|]. unfold broadcast_verdict. rewrite Hg.
  destruct (Z.ltb_spec (gradeRank (grade u)) 0) as [Hn|]; [|by rewrite Hc, Hb].
  unfold gradeRank in Hn. repeat case_match; lia.
Qed.

Lemma unknown_requested_grade_open_witness :
  mkHandle 2 (-1002) 0 "general" ∈ Recipients (resolve_broadcast (normalizeGrade "admins") sample_db) ∧
  Recipients (resolve_broadcast (normalizeGrade "admin") sample_db) = [].
Proof.
  split; [|vm_compute; reflexivity].
  by apply (unknown_requested_grade_open "admins" sample_db 2 (sample_user 102 "user" "active" (Some (-1002)%Z))).
Defined.

(** ** The interface to the message pipeline: resolving only reads *)

Section frames.
Context `{PG : Postgres} `{TG : Telegram}.

Lemma reads_ResolveDirect ids app : keeps reads (ResolveDirect ids app).
Proof. unfold ResolveDirect. keeps_all. Qed.
Lemma reads_ResolveDirectDM ids : keeps reads (ResolveDirectDM ids).
Proof. unfold ResolveDirectDM. keeps_all. Qed.
Lemma reads_ResolveTopic app g : keeps reads (ResolveTopic app g).
Proof. unfold ResolveTopic. keeps_all. Qed.
Lemma reads_ResolveBroadcast g : keeps reads (ResolveBroadcast g).
Proof. unfold ResolveBroadcast. keeps_all. Qed.
End frames.

#[export] Hint Resolve reads_ResolveDirect reads_ResolveDirectDM reads_ResolveTopic reads_ResolveBroadcast : srv.

(** Channels and reasons the audit log accepts. *)
Definition verdict_ok (v : verdict) : bool :=
  match v with inl h => channel_ok (rh_Channel h) | inr s => utf8_ok (re_Code s) end.
Definition result_ok (r : ResolveResult) : Prop :=
  Forall (λ h, channel_ok (rh_Channel h) = true) (Recipients r) ∧
  Forall (λ s, utf8_ok (re_Code s) = true) (Skipped r).

Lemma result_ok_verdicts vs : Forall (λ v, verdict_ok v = true) vs →
  result_ok (mkResolved (omap accepted vs) (omap refused vs)).
Proof.
  unfold result_ok. cbn [Recipients Skipped].
  induction 1 as [|[h|s] vs Hv _ [IH1 IH2]]; simpl; split; try constructor; done.
Qed.

Lemma verdicts_ok known unknown idx seen l :
  (∀ id i v, known id = Some (i, v) → verdict_ok v = true) →
  Forall (λ v, verdict_ok v = true) (verdicts known unknown idx seen l).
Proof.
  intros Hk. revert idx seen. induction l as [|x l IH]; intros idx seen; simpl; [constructor|].
  destruct (known x) as [[i v]|] eqn:E; [|by constructor; [reflexivity|]].
  case_bool_decide; [done|]. constructor; [by eapply Hk|done].
Qed.

Class ReadOnly `{Telegram} (s : RouteStrategy) := {
  ro_reads r : keeps reads (st_Resolve s r);
  ro_ok r w res : (st_Resolve s r w).1 = Ok res → result_ok res;
}.

#[export] Instance direct_read_only `{Postgres} `{Telegram} : ReadOnly DirectStrategy.
Proof.
  split; [intros; simpl; keeps_all|]. intros r w res. simpl.
  destruct (String.eqb _ _); [done|]. destruct (bool_decide _); [done|]. simpl.
  intros [_ Hr]%ResolveDirect_Ok.
  destruct (resolve_direct_eq (sr_Recipients r) (sr_AppID r) (w_db w)) as (l&_&_&Hl).
  rewrite Hl in Hr. injection Hr as <-. apply result_ok_verdicts, verdicts_ok.
  intros id i v. unfold direct_known. destruct (users (w_db w) !! id); [|done]. intros [= _ <-].
  unfold direct_verdict. repeat case_match; reflexivity.
Qed.
#[export] Instance topic_read_only `{Telegram} : ReadOnly TopicStrategy.
Proof.
  split; [intros; simpl; keeps_all|]. intros r w res. simpl.
  destruct (String.eqb _ _); [done|]. simpl. intros (a&_&_&->)%ResolveTopic_Ok.
  rewrite resolve_topic_eq. apply result_ok_verdicts, Forall_fmap, Forall_true.
  intros [[i u] t]. unfold topic_verdict. simpl. repeat case_match; reflexivity.
Qed.
#[export] Instance broadcast_read_only `{Telegram} : ReadOnly BroadcastAllStrategy.
Proof.
  split; [intros; simpl; keeps_all|]. intros r w res. simpl. intros ->%ResolveBroadcast_Ok.
  rewrite resolve_broadcast_eq. apply result_ok_verdicts, Forall_fmap, Forall_true.
  intros [i u]. unfold broadcast_verdict. simpl. repeat case_match; reflexivity.
Qed.
#[export] Instance direct_dm_read_only `{Postgres} `{Telegram} : ReadOnly DirectDMStrategy.
Proof.
  split; [intros; simpl; keeps_all|]. intros r w res. simpl.
  destruct (bool_decide _); [done|]. simpl. intros (l&_&->)%ResolveDirectDM_Ok.
  apply result_ok_verdicts, verdicts_ok. intros id i v. unfold dm_known.
  destruct (find_by_telegram id (w_db w)) as [[j u]|]; [|done]. intros [= _ <-].
  unfold dm_verdict. case_match; reflexivity.
Qed.

Lemma ro_inv `{Telegram} (s : RouteStrategy) `{!ReadOnly s} P r : keeps (inv_step P) (st_Resolve s r).
Proof. intros w. apply reads_inv, ro_reads. Qed.

#[export] Hint Resolve ro_inv : srv.
