(* ===== verification/Dispatch.v ===== *)
(** * Sending to Telegram

    [internal/dispatch/dispatcher.go] and
    [internal/dispatch/telegram/dispatcher.go], with the limiter of
    [dispatch_limiter.go] behind the [RateLimiter] interface. *)

From stdpp Require Import base gmap list strings.
From Stdlib Require Import ZArith QArith Lia.
From S2P Require Import Prelude GoStrings AuditChain RateLimit World AuditLog Registry Strategy.

Local Open Scope string_scope.
Local Open Scope Z_scope.
Local Open Scope list_scope.

(** ** Interfaces *)

Record DeliveryResult := mkDelivery { TelegramMessageID : Z; DeliveredAt : Z }.

Record Dispatcher `{Telegram} := mkDispatcher {
  d_Send : RecipientHandle → Envelope → M (result DeliveryResult);
}.

(** [ratelimit.RateLimiter]. *)
Record RateLimiter `{Telegram} := mkLimiter { rl_Allow : string → M (result Decision) }.

Section dispatch.
Context `{F : Float64} `{TG : Telegram}.

(** The dispatch limiter reads the clock and holds its buckets itself. *)
Definition dispatch_limiter : RateLimiter := mkLimiter _ (λ key w,
  let '(d, l) := DispatchAllow (w_now w) key (w_dispatch w) in (Ok d, with_dispatch l w)).

(** [select] between the context and a timer of [d] nanoseconds: whether the
    timer fired. *)
Definition wait (d : Z) : M bool := λ w,
  match w_deadline w with
  | Some dl =>
      if dl <=? w_now w + d
      then (false, with_clock (Z.max (w_now w) dl) (w_oracle w) w)
      else (true, with_clock (w_now w + d) (w_oracle w) w)
  | None => (true, with_clock (w_now w + d) (w_oracle w) w)
  end.

(** ** classify *)

Definition classify (err : string) : error :=
  let low := to_lower err in
  let wrap s := Wrap "" (Sentinel s) (": " +:+ err) in
  if contains "chat not found" low then wrap ErrChatNotFound
  else if contains "bot is not a member" low || contains "not enough rights" low
          || contains "have no rights" low then wrap ErrBotNotAdmin
  else if contains "too many requests" low || contains "retry_after" low then wrap ErrRateLimited
  else if contains "unauthorized" low then wrap ErrTelegramAuth
  else wrap ErrTransient.

Definition send_params (h : RecipientHandle) (env : Envelope) : SendMessageParams :=
  mkSend (rh_ChatID h) (Text env) (if 0 <? rh_TopicID h then rh_TopicID h else 0).

Definition chat_key (h : RecipientHandle) : string := "chat:" +:+ format_int (rh_ChatID h).

(** The Telegram call at the end of [Send]. *)
Definition deliver (h : RecipientHandle) (env : Envelope) : M (result DeliveryResult) :=
  r ← SendMessage (send_params h env);
  match r return M (result DeliveryResult) with
  | Err e => mret (Err (classify e))
  | Ok None => mret (Err (Sentinel ErrTransient))
  | Ok (Some id) => now ← st_gets w_now; mret (Ok (mkDelivery id now))
  end.

(** [Dispatcher.Send]. *)
Definition Send (limiter : option RateLimiter) (h : RecipientHandle) (env : Envelope) : M (result DeliveryResult) :=
  match limiter with
  | None => deliver h env
  | Some rl =>
      d ← rl_Allow rl (chat_key h);
      match d return M (result DeliveryResult) with
      | Err _ => deliver h env
      | Ok d =>
          if Allowed d then deliver h env
          else if 0 <? RetryAfter d then
            fired ← wait (RetryAfter d);
            if fired : bool then deliver h env else mret (Err (Sentinel ErrContextDone))
          else mret (Err (Sentinel ErrRateLimited))
      end
  end.

Definition tg_dispatcher (limiter : option RateLimiter) : Dispatcher := mkDispatcher _ (Send limiter).
End dispatch.

(** ** What one send does *)

Section send_spec.
Context `{F : Float64} `{TG : Telegram}.

(** At most one request reaches Telegram, with these parameters. *)
Definition sent_once (p : SendMessageParams) (w w' : World) : Prop :=
  w_tg w' = w_tg w ∨ w_tg w' = (tg_sendMessage p (w_tg w)).2.

Lemma tg_call_spec {A} (f : tg → res string A * tg) w :
  w_db (tg_call f w).2 = w_db w ∧ w_tx (tg_call f w).2 = w_tx w ∧
  w_dispatch (tg_call f w).2 = w_dispatch w ∧ w_now w <= w_now (tg_call f w).2 ∧
  (w_tg (tg_call f w).2 = w_tg w ∨ w_tg (tg_call f w).2 = (f (w_tg w)).2) ∧
  (∀ a, (tg_call f w).1 = Ok a → (f (w_tg w)).1 = Ok a ∧ w_tg (tg_call f w).2 = (f (w_tg w)).2).
Proof.
  unfold tg_call, mbind, st_bind. destruct (call_spec w) as (D&S&N). destruct (call w) as [[out e] w1].
  simpl in *. destruct S as (Htx&_&Htg&_&_&_&_&_&_&Hdl).
  destruct out; simpl; [| |]; rewrite ?Htg; try (destruct (f (w_tg w)) as [r t]; simpl);
    split_and!; auto; done.
Qed.

Lemma deliver_spec h env w :
  w_db (deliver h env w).2 = w_db w ∧ w_dispatch (deliver h env w).2 = w_dispatch w ∧
  sent_once (send_params h env) w (deliver h env w).2 ∧
  (∀ d, (deliver h env w).1 = Ok d →
     (tg_sendMessage (send_params h env) (w_tg w)).1 = Ok (Some (TelegramMessageID d)) ∧
     w_tg (deliver h env w).2 = (tg_sendMessage (send_params h env) (w_tg w)).2).
Proof.
  unfold deliver, SendMessage, mbind, st_bind.
  destruct (tg_call_spec (tg_sendMessage (send_params h env)) w) as (D&_&L&_&T&R).
  destruct (tg_call _ w) as [r w1]. simpl in *.
  destruct r as [[id|]|e]; simpl; (split_and!; [done..|]).
  - intros d [= <-]. simpl. by apply R.
  - intros d. done.
  - intros d. done.
Qed.

Lemma wait_spec d w : w_db (wait d w).2 = w_db w ∧ w_tg (wait d w).2 = w_tg w ∧
  w_dispatch (wait d w).2 = w_dispatch w ∧ w_tx (wait d w).2 = w_tx w.
Proof. unfold wait. destruct (w_deadline w); [case_match|]; done. Qed.

Lemma neutral_wait d : keeps neutral (wait d).
Proof.
  intros w. unfold wait. destruct (w_deadline w) eqn:E.
  - case_match; (split_and!; [done..|]); intros [_ Hd]; congruence.
  - split_and!; [done..|]. intros Hs. exact Hs.
Qed.

Lemma neutral_deliver h env : keeps neutral (deliver h env).
Proof. unfold deliver, SendMessage. keeps_all. Qed.

Lemma neutral_dispatch_allow key : keeps neutral (rl_Allow dispatch_limiter key).
Proof. intros w. simpl. destruct (DispatchAllow _ _ _). split_and!; [done..|]. intros Hs. exact Hs. Qed.
End send_spec.

#[export] Hint Resolve neutral_wait neutral_deliver neutral_dispatch_allow : srv.

Lemma neutral_Send `{Float64} `{Telegram} h env : keeps neutral (Send (Some dispatch_limiter) h env).
Proof. unfold Send. keeps_all. Qed.
#[export] Hint Resolve neutral_Send : srv.

(** ** Theorems *)

(** C20: sending to one recipient asks Telegram at most once, with exactly the
    recipient's chat, the envelope's text and the topic (none for ids that are
    not positive), changes nothing in the database, and reports success only
    with the message id Telegram returned for that request. *)
Theorem send_once `{Float64} `{Telegram} h env w :
  let '(r, w') := Send (Some dispatch_limiter) h env w in
  sent_once (mkSend (rh_ChatID h) (Text env) (if 0 <? rh_TopicID h then rh_TopicID h else 0)) w w' ∧
  w_db w' = w_db w ∧
  (∀ d, r = Ok d →
     (tg_sendMessage (send_params h env) (w_tg w)).1 = Ok (Some (TelegramMessageID d)) ∧
     w_tg w' = (tg_sendMessage (send_params h env) (w_tg w)).2).
Proof.
  unfold Send, mbind, st_bind. simpl. destruct (DispatchAllow _ _ _) as [d l].
  fold (send_params h env).
  destruct (Allowed d).
  - destruct (deliver_spec h env (with_dispatch l w)) as (D&_&S&R). by destruct (deliver _ _ _).
  - destruct (0 <? RetryAfter d); [|by split_and!; [left|..]].
    destruct (wait_spec (RetryAfter d) (with_dispatch l w)) as (D&T&_).
    destruct (wait _ _) as [[] w1]; simpl in *; [|by split_and!; [left|..]].
    destruct (deliver_spec h env w1) as (D'&_&S&R). unfold sent_once in *. rewrite T in S, R.
    destruct (deliver _ _ _). simpl in *. split_and!; [done|congruence|done].
Qed.

(** The error classes of a failed send are decided by the text Telegram
    answers with, case-insensitively and in this order of precedence; a text
    with none of the markers is transient. *)
Lemma classify_order err :
  let has s := contains s (to_lower err) = true in
  let kind s := errors_is (classify err) s = true in
  (kind ErrChatNotFound ↔ has "chat not found") ∧
  (kind ErrBotNotAdmin ↔ ¬ has "chat not found" ∧
     (has "bot is not a member" ∨ has "not enough rights" ∨ has "have no rights")) ∧
  (kind ErrTransient → ¬ has "chat not found" ∧ ¬ has "bot is not a member" ∧ ¬ has "not enough rights" ∧
     ¬ has "have no rights" ∧ ¬ has "too many requests" ∧ ¬ has "retry_after" ∧ ¬ has "unauthorized") ∧
  (kind ErrRateLimited → has "too many requests" ∨ has "retry_after") ∧
  (kind ErrTelegramAuth → has "unauthorized").
Proof.
  cbv zeta. unfold classify.
  destruct (contains "chat not found" _) eqn:E1; simpl; [naive_solver|].
  destruct (contains "bot is not a member" _) eqn:E2; simpl; [naive_solver|].
  destruct (contains "not enough rights" _) eqn:E3; simpl; [naive_solver|].
  destruct (contains "have no rights" _) eqn:E4; simpl; [naive_solver|].
  destruct (contains "too many requests" _) eqn:E5; simpl; [naive_solver|].
  destruct (contains "retry_after" _) eqn:E6; simpl; [naive_solver|].
  destruct (contains "unauthorized" _) eqn:E7; simpl; naive_solver.
Qed.

(** A send that the limiter refuses waits and is then made without a token:
    the buckets after the wait are the buckets of the refusal. *)
Lemma send_after_wait_takes_no_token `{Float64} `{Telegram} h env w d l :
  DispatchAllow (w_now w) (chat_key h) (w_dispatch w) = (d, l) → Allowed d = false →
  w_dispatch (Send (Some dispatch_limiter) h env w).2 = l.
Proof.
  intros Hd Ha. unfold Send, mbind, st_bind. simpl. rewrite Hd. rewrite Ha.
  destruct (0 <? RetryAfter d); [|done].
  destruct (wait_spec (RetryAfter d) (with_dispatch l w)) as (_&_&L&_).
  destruct (wait _ _) as [[] w1]; simpl in *; [|done].
  destruct (deliver_spec h env w1) as (_&L'&_). simpl in L. by rewrite L', L.
Qed.

(** [n] messages to one chat, one after the other. *)
Definition send_many `{Float64} `{Telegram} (n : nat) (h : RecipientHandle) (env : Envelope) : M nat :=
  st_fold (λ k _, r ← Send (Some dispatch_limiter) h env;
                  mret (match r with Ok _ => S k | Err _ => k end)) 0%nat (seq 0 n).

(** The per-chat policy of one message per second with a burst of two is
    exceeded: twelve messages to one chat, sent in sequence, all go out within
    five seconds, where the policy admits seven. *)
Theorem dispatch_rate_exceeded :
  let '(sent, w') := send_many (H := exact) (H0 := recorder) 12 (mkHandle 1 (-5) 0 "dm") (mkEnvelope "hi" 1)
                       (rec_world 0 empty_db) in
  sent = 12%nat ∧ length (w_tg w') = 12%nat ∧ w_now w' = 5 * Second ∧
  (defaultBurstPerChat + defaultPerChatRatePerSec * 5 == 7)%Q.
Proof. vm_compute. repeat split. Qed.

Lemma send_after_wait_takes_no_token_witness :
  let w := (send_many (H := exact) (H0 := recorder) 2 (mkHandle 1 (-5) 0 "dm") (mkEnvelope "hi" 1)
             (rec_world 0 empty_db)).2 in
  let dl := DispatchAllow (F := exact) (w_now w) "chat:-5" (w_dispatch w) in
  w_dispatch (Send (TG := recorder) (Some (dispatch_limiter (F := exact)))
    (mkHandle 1 (-5) 0 "dm") (mkEnvelope "hi" 1) w).2 = dl.2.
Proof.
  intros w dl.
  apply (send_after_wait_takes_no_token (H := exact) (H0 := recorder) _ _ w dl.1 dl.2); vm_compute; reflexivity.
Defined.
