(* ===== verification/Http.v ===== *)
(** * HTTP: requests, responses, JSON bodies and the middleware

    [internal/api/middleware] and the shared helpers of
    [internal/api/handlers/common.go] that do not depend on a strategy.  A
    handler maps a request and its context to a response; a middleware maps
    handlers to handlers. *)

From stdpp Require Import base gmap list strings.
From Stdlib Require Import ZArith QArith Qround Lia.
From S2P Require Import Prelude GoStrings AuditChain RateLimit World AuditLog Auth Registry Strategy.
From S2P Require Import Dispatch.

Local Open Scope string_scope.
Local Open Scope Z_scope.
Local Open Scope list_scope.

(** ** JSON

    A parsed value.  [JInt] is a number literal without fraction and exponent,
    [JNum] any other number. *)
Inductive json :=
| JNull
| JBool (b : bool)
| JInt (z : Z)
| JNum (text : string)
| JStr (s : string)
| JArr (l : list json)
| JObj (l : list (string * json)).

(** A struct field: the member name and how a value is stored into the struct;
    [None] is a decoding error. *)
Definition field (S : Type) : Type := string * (json → S → option S).

(** [encoding/json] prefers the exact name, then a case-insensitive match. *)
Definition find_field {S} (fs : list (field S)) (k : string) : option (field S) :=
  match find_first (λ f, String.eqb f.1 k) fs with
  | Some f => Some f
  | None => find_first (λ f, String.eqb (fold_case f.1) (fold_case k)) fs
  end.

(** A struct with unknown fields disallowed: null leaves it alone, members are
    stored in order, anything but an object is an error. *)
Definition decode_struct {S} (fs : list (field S)) (j : json) (s : S) : option S :=
  match j with
  | JNull => Some s
  | JObj kvs => foldl (λ acc '(k, v), s ← acc; f ← find_field fs k; f.2 v s) (Some s) kvs
  | _ => None
  end.

(** Scalars: null leaves the old value. *)
Definition decode_string (j : json) (old : string) : option string :=
  match j with JNull => Some old | JStr s => Some s | _ => None end.
Definition decode_int64 (j : json) (old : Z) : option Z :=
  match j with JNull => Some old | JInt z => if in_int64 z then Some z else None | _ => None end.
Definition decode_bool (j : json) (old : bool) : option bool :=
  match j with JNull => Some old | JBool b => Some b | _ => None end.

(** Slices: null is the nil slice. *)
Definition decode_list {A} (zero : A) (el : json → A → option A) (j : json) : option (list A) :=
  match j with JNull => Some [] | JArr l => mapM (λ x, el x zero) l | _ => None end.

(** Pointers: null is nil. *)
Definition decode_ptr {A} (zero : A) (el : json → A → option A) (j : json) : option (option A) :=
  match j with JNull => Some None | _ => Some <$> el j zero end.

(** ** Requests and responses *)

(** [r_Body] is the first JSON value of the body, if there is one; [r_Query]
    and [r_Param] are the query and the URL parameters by name. *)
Record HttpRequest := mkRequest {
  r_Method : string;
  r_Path : string;
  r_Authorization : string;
  r_TraceHeader : string;
  r_RemoteAddr : string;
  r_Query : string → string;
  r_Param : string → string;
  r_Body : option json;
}.

(** The request context. *)
Record Ctx := mkCtx { c_TraceID : string; c_Requester : option RequesterIdentity }.

Record dispatchReport := mkReport { dr_UserID : Z; dr_Status : string; dr_Reason : string; dr_MessageID : Z }.
Record dispatchResponse := mkDispatchResponse {
  dp_MessageID : string; dp_Delivered : Z; dp_Skipped : Z; dp_Failed : Z; dp_Recipients : list dispatchReport }.

Inductive body :=
| BError (code : string)
| BObject (fields : gmap string any)
| BText (s : string)
| BDispatch (r : dispatchResponse)
| BSearch (rows : list AuditRow) (limit : Z).

Record Response := mkResponse {
  rs_Status : Z;
  rs_Body : body;
  rs_RetryAfter : option string;
  rs_TraceID : option string;
}.

Definition StatusOK : Z := 200.
Definition StatusCreated : Z := 201.
Definition StatusBadRequest : Z := 400.
Definition StatusUnauthorized : Z := 401.
Definition StatusForbidden : Z := 403.
Definition StatusNotFound : Z := 404.
Definition StatusMethodNotAllowed : Z := 405.
Definition StatusConflict : Z := 409.
Definition StatusTooManyRequests : Z := 429.
Definition StatusInternalServerError : Z := 500.
Definition StatusServiceUnavailable : Z := 503.

(** [writeJSON] and [writeError]. *)
Definition writeJSON (status : Z) (b : body) : Response := mkResponse status b None None.
Definition writeError (status : Z) (code : string) : Response := writeJSON status (BError code).

(** The texts of [http.Error]: a JSON object with one member. *)
Definition error_json (code : string) : string :=
  "{" +:+ go_quote "error" +:+ ":" +:+ go_quote code +:+ "}".

(** [decodeStrict]. *)
Definition decodeStrict {S} (fs : list (field S)) (zero : S) (r : HttpRequest) : option S :=
  j ← r_Body r; decode_struct fs j zero.

(** [%.0f]: the nearest integer, ties to even. *)
Definition round_half_even (q : Q) : Z :=
  let f := Qfloor q in
  let d := (q - inject_Z f)%Q in
  if qltb d (1 # 2) then f else if qltb (1 # 2) d then f + 1 else if Z.even f then f else f + 1.

(** An event with everything empty. *)
Definition zero_event (s : Stage) : Event := mkEvent None "" "" s "" "" 0 "" "" "" 0 0 "" ∅.

Section middleware.
Context `{F : Float64} `{TG : Telegram}.

Definition Handler : Type := HttpRequest → Ctx → M Response.

(** A handler that may panic before it has answered: [None].  The handlers of
    the server are [panic_free]. *)
Definition PanicHandler : Type := HttpRequest → Ctx → M (option Response).
Definition panic_free (h : Handler) : PanicHandler := λ r c, resp ← h r c; mret (Some resp).

(** ** auth.go *)

Definition write_opt (aw : option Writer) (e : Event) : M (result ()) :=
  match aw with Some a => Write a e | None => mret (Ok ()) end.

Definition denyAndAudit (r : HttpRequest) (c : Ctx) (aw : option Writer) (code : string) (status : Z) : M Response :=
  write_opt aw (mkEvent None (c_TraceID c) "" StageDenied "" "" 0 (r_Path r) "" "" 0 0 code ∅);;
  Log "info" "auth_denied" {["trace_id" := AStr (c_TraceID c); "reason" := AStr code; "path" := AStr (r_Path r)]};;
  mret (writeError status code).

Definition Auth (resolver : string → M (result RequesterIdentity)) (aw : option Writer) (next : Handler) : Handler :=
  λ r c,
    let hdr := r_Authorization r in
    if negb (has_prefix "Bearer " hdr) then denyAndAudit r c aw "missing_bearer" StatusUnauthorized
    else
      let bearer := trim_space (trim_prefix "Bearer " hdr) in
      if String.eqb bearer "" then denyAndAudit r c aw "empty_bearer" StatusUnauthorized
      else
        res ← resolver bearer;
        match res with
        | Err e =>
            let code := if errors_is e ErrBearerMalformed then "malformed_bearer"
                        else if errors_is e ErrKeyNotFound then "unknown_bearer" else "invalid_bearer" in
            denyAndAudit r c aw code StatusUnauthorized
        | Ok id => next r (mkCtx (c_TraceID c) (Some id))
        end.

Definition RequireCapability (cap : string) (aw : option Writer) (next : Handler) : Handler := λ r c,
  match Require_cap (c_Requester c) cap with
  | Err e =>
      let '(code, status) := if errors_is e ErrUnauthorized then ("unauthenticated", StatusUnauthorized)
                             else ("forbidden", StatusForbidden) in
      let id := (RequesterFrom (c_Requester c)).1 in
      write_opt aw (mkEvent None (c_TraceID c) "" StageDenied (ri_AppID id) cap 0 (r_Path r) "" "" 0 0 code ∅);;
      mret (writeError status code)
  | Ok _ => next r c
  end.

(** ** ratelimit.go *)

(** The request limiter: its buckets are in the world. *)
Definition request_limiter (policyFn : string → Policy) : RateLimiter := mkLimiter _ (λ key w,
  let '(d, b) := Allow policyFn (w_now w) key (w_requests w) in (Ok d, with_requests b w)).

Definition limit_key (r : HttpRequest) (c : Ctx) : string :=
  match c_Requester c with Some id => "app:" +:+ ri_AppID id | None => r_RemoteAddr r end.

Definition rate_limited (d : Decision) : Response :=
  mkResponse StatusTooManyRequests (BError "rate_limited")
    (if 0 <? RetryAfter d then Some (format_int (round_half_even (seconds (RetryAfter d)))) else None) None.

Definition RateLimit (rl : option RateLimiter) (next : Handler) : Handler := λ r c,
  match rl with
  | None => next r c
  | Some rl =>
      d ← rl_Allow rl (limit_key r c);
      match d return M Response with
      | Err _ => mret (rate_limited (mkDecision false 0))
      | Ok d => if negb (Allowed d) then mret (rate_limited d) else next r c
      end
  end.

(** ** request_id.go *)

Definition RequestID (next : Handler) : Handler := λ r c,
  t ← (if String.eqb (r_TraceHeader r) "" then uuid_NewString else mret (r_TraceHeader r));
  resp ← next r (mkCtx t (c_Requester c));
  mret (mkResponse (rs_Status resp) (rs_Body resp) (rs_RetryAfter resp) (Some t)).

(** ** logger.go: the access log; [size] is the length of the encoded body *)

Definition sanitizePath (p : string) : string :=
  match index_byte (chr 63) p with Some i => stake i p | None => p end.

Definition access_line (size : body → Z) (r : HttpRequest) (c : Ctx) (resp : Response) (ms : Z) : gmap string any :=
  {["trace_id" := AStr (c_TraceID c); "method" := AStr (r_Method r);
    "path" := AStr (sanitizePath (r_Path r)); "status" := AInt (rs_Status resp);
    "bytes" := AInt (size (rs_Body resp)); "duration_ms" := AInt ms]}.

(** The line is written after the handler and not by a deferred call: a panic
    passes it by. *)
Definition AccessLog (size : body → Z) (next : PanicHandler) : PanicHandler := λ r c,
  start ← st_gets w_now;
  o ← next r c;
  match o return M (option Response) with
  | None => mret None
  | Some resp =>
      now ← st_gets w_now;
      Log "info" "http_access" (access_line size r c resp (Z.quot (now - start) 1000000));;
      mret (Some resp)
  end.

(** ** recover.go *)

Definition recovered_response : Response :=
  writeJSON StatusInternalServerError (BText (error_json "internal_error")).

Definition Recover (next : PanicHandler) : Handler := λ r c,
  o ← next r c;
  match o return M Response with
  | Some resp => mret resp
  | None =>
      Log "error" "http_panic" {["trace_id" := AStr (c_TraceID c); "panic" := AStr "[recovered]"]};;
      mret recovered_response
  end.

(** chi's [middleware.Timeout]: the handler runs under a deadline. *)
Definition Timeout (d : Z) (next : Handler) : Handler := λ r c,
  old ← st_gets w_deadline;
  st_modify (λ w, with_deadline (Some (match old with Some o => Z.min o (w_now w + d) | None => w_now w + d end)) w);;
  resp ← next r c;
  st_modify (with_deadline old);;
  mret resp.

(** ** common.go: writeAuditSafe and auditFlow *)

Definition writeAuditSafe (trace : string) (aw : option Writer) (e : Event) : M (result ()) :=
  match aw with
  | None => mret (Ok ())
  | Some a =>
      res ← Write a e;
      match res return M (result ()) with
      | Ok _ => mret (Ok ())
      | Err err =>
          Log "error" "audit_write_failed" {["trace_id" := AStr trace;
            "stage" := AStr (stage_string (EvStage e)); "error" := AStr (error_text err)]};;
          mret (Err err)
      end
  end.

Record auditFlow := mkFlow { af_trace : string; af_audit : option Writer; af_base : Event }.

Definition newAuditFlow (r : HttpRequest) (c : Ctx) (aw : option Writer) (cap : string) : M auditFlow :=
  let id := (RequesterFrom (c_Requester c)).1 in
  mid ← uuid_NewString;
  mret (mkFlow (c_TraceID c) aw
    (mkEvent None (c_TraceID c) mid StageReceived (ri_AppID id) cap (ri_CapabilitySetVer id)
       (r_Path r) "" "" 0 0 "" ∅)).

(** [event]: the base event with a stage. *)
Definition ev_stage (e : Event) (s : Stage) : Event :=
  mkEvent (At e) (TraceID e) (MessageID e) s (AppID e) (Capability e) (CapabilitySetVer e) (Endpoint e)
    (RouteStrategyName e) (DeliveryChannel e) (RecipientUserID e) (RecipientChatID e) (ErrorCode e) (Details e).
Definition ev_code (e : Event) (code : string) : Event :=
  mkEvent (At e) (TraceID e) (MessageID e) (EvStage e) (AppID e) (Capability e) (CapabilitySetVer e) (Endpoint e)
    (RouteStrategyName e) (DeliveryChannel e) (RecipientUserID e) (RecipientChatID e) code (Details e).
Definition ev_details (e : Event) (d : gmap string any) : Event :=
  mkEvent (At e) (TraceID e) (MessageID e) (EvStage e) (AppID e) (Capability e) (CapabilitySetVer e) (Endpoint e)
    (RouteStrategyName e) (DeliveryChannel e) (RecipientUserID e) (RecipientChatID e) (ErrorCode e) d.
Definition ev_route (e : Event) (name : string) : Event :=
  mkEvent (At e) (TraceID e) (MessageID e) (EvStage e) (AppID e) (Capability e) (CapabilitySetVer e) (Endpoint e)
    name (DeliveryChannel e) (RecipientUserID e) (RecipientChatID e) (ErrorCode e) (Details e).

Definition flow_event (f : auditFlow) (s : Stage) : Event := ev_stage (af_base f) s.

Definition received (f : auditFlow) : M () :=
  writeAuditSafe (af_trace f) (af_audit f) (flow_event f StageReceived);; mret ().

Definition deny (f : auditFlow) (code : string) (status : Z) : M Response :=
  writeAuditSafe (af_trace f) (af_audit f) (ev_code (flow_event f StageDenied) code);;
  mret (writeError status code).

Definition succeed (f : auditFlow) (details : gmap string any) : M () :=
  writeAuditSafe (af_trace f) (af_audit f) (ev_details (flow_event f StageValidated) details);;
  writeAuditSafe (af_trace f) (af_audit f) (flow_event f StageDelivered);;
  mret ().
End middleware.

(** ** Frames *)

(** Properties of the database that recording events does not disturb. *)
Class AuditClosed (P : Database → Prop) := {
  ac_seq db : P db → P (set_seq_audit (λ n, n + 1) db);
  ac_recorded c db : P db → P (recorded c db);
}.

#[export] Instance wf_audit_closed : AuditClosed db_wf.
Proof. split; intros; auto with srv. Qed.
#[export] Instance audit_ok_closed : AuditClosed audit_ok.
Proof. split; [apply audit_ok_seq|apply audit_ok_insert]. Qed.

Section frames.
Context `{F : Float64} `{PG : Postgres} `{TG : Telegram}.

(** The server's writer, or none. *)
Definition server_writer (aw : option Writer) : Prop := aw = None ∨ aw = Some PgWriter.

Lemma inv_write_opt P `{!AuditClosed P} aw e : server_writer aw → keeps (inv_step P) (write_opt aw e).
Proof. intros [-> | ->]; simpl; [apply keeps_ret, _|apply inv_PgWrite; [apply ac_seq|apply ac_recorded]]. Qed.
Lemma quiet_write_opt aw e : server_writer aw → keeps quiet (write_opt aw e).
Proof. intros [-> | ->]; simpl; keeps_all. Qed.

Lemma inv_writeAuditSafe P `{!AuditClosed P} t aw e :
  server_writer aw → keeps (inv_step P) (writeAuditSafe t aw e).
Proof.
  intros [-> | ->]; simpl; [apply keeps_ret, _|].
  apply keeps_bind; [apply _|apply inv_PgWrite; [apply ac_seq|apply ac_recorded]|]. keeps_all.
Qed.
Lemma quiet_writeAuditSafe t aw e : server_writer aw → keeps quiet (writeAuditSafe t aw e).
Proof. intros [-> | ->]; simpl; keeps_all. Qed.
End frames.

#[export] Hint Extern 1 (AuditClosed _) => apply _ : srv.
#[export] Hint Resolve inv_write_opt quiet_write_opt inv_writeAuditSafe quiet_writeAuditSafe : srv.

Section flow_frames.
Context `{F : Float64} `{PG : Postgres} `{TG : Telegram}.

Lemma inv_deny P `{!AuditClosed P} f code st : server_writer (af_audit f) → keeps (inv_step P) (deny f code st).
Proof. intros. unfold deny. keeps_all. Qed.
Lemma quiet_deny f code st : server_writer (af_audit f) → keeps quiet (deny f code st).
Proof. intros. unfold deny. keeps_all. Qed.
Lemma inv_received P `{!AuditClosed P} f : server_writer (af_audit f) → keeps (inv_step P) (received f).
Proof. intros. unfold received. keeps_all. Qed.
Lemma quiet_received f : server_writer (af_audit f) → keeps quiet (received f).
Proof. intros. unfold received. keeps_all. Qed.
Lemma inv_succeed P `{!AuditClosed P} f d : server_writer (af_audit f) → keeps (inv_step P) (succeed f d).
Proof. intros. unfold succeed. keeps_all. Qed.
Lemma quiet_succeed f d : server_writer (af_audit f) → keeps quiet (succeed f d).
Proof. intros. unfold succeed. keeps_all. Qed.
Lemma inv_denyAndAudit P `{!AuditClosed P} r c aw code st : server_writer aw →
  keeps (inv_step P) (denyAndAudit r c aw code st).
Proof. intros. unfold denyAndAudit. keeps_all. Qed.
Lemma quiet_denyAndAudit r c aw code st : server_writer aw → keeps quiet (denyAndAudit r c aw code st).
Proof. intros. unfold denyAndAudit. keeps_all. Qed.

Lemma newAuditFlow_eq r c aw cap w :
  newAuditFlow r c aw cap w =
  (mkFlow (c_TraceID c) aw
    (mkEvent None (c_TraceID c) (w_uuid w (w_uuid_n w)) StageReceived
       (ri_AppID (RequesterFrom (c_Requester c)).1) cap
       (ri_CapabilitySetVer (RequesterFrom (c_Requester c)).1) (r_Path r) "" "" 0 0 "" ∅),
   with_uuid_n (S (w_uuid_n w)) w).
Proof. done. Qed.
End flow_frames.

#[export] Hint Resolve inv_deny quiet_deny inv_received quiet_received inv_succeed quiet_succeed
  inv_denyAndAudit quiet_denyAndAudit : srv.

(** A flow keeps the writer it was created with. *)
Lemma keeps_newAuditFlow `{Telegram} (R : relation World) `{!PreOrder R} {B} r c aw cap (k : auditFlow → M B) :
  keeps R uuid_NewString → (∀ f, af_audit f = aw → keeps R (k f)) → keeps R (newAuditFlow r c aw cap ≫= k).
Proof.
  intros Hu Hk. unfold newAuditFlow. intros w. unfold mbind, st_bind. specialize (Hu w). simpl in *.
  etrans; [exact Hu|]. by apply Hk.
Qed.

(** ** Computations that only add to the audit log *)

(** The tables without the audit log. *)
Definition sans_audit (db : Database) : Database := set_seq_audit (λ _, 0) (set_audit (λ _, []) db).

Section audits.
Context `{F : Float64} `{PG : Postgres} `{TG : Telegram}.

(** The committed tables and an open transaction are left alone. *)
Definition audits : relation World := λ w w',
  sans_audit (w_db w') = sans_audit (w_db w) ∧ w_tx w' = w_tx w.

#[export] Instance audits_preorder : PreOrder audits.
Proof. split; [done|]. intros ??? [??] [??]. split; congruence. Qed.

Lemma audits_PgWrite e : keeps audits (PgWrite e).
Proof.
  intros w. destruct (PgWrite_outcome e w) as [? ? ? ? ? Hd Ht|? ? Hd Ht|? ? ? ? ? ? Hd Ht];
    destruct Ht as (Ht&_); (split; [|done]); simpl; [by rewrite Hd|by destruct Hd as [-> | ->]|by rewrite Hd].
Qed.
Lemma audits_Log level event fields : keeps audits (Log level event fields).
Proof. done. Qed.
Lemma audits_uuid : keeps audits uuid_NewString.
Proof. done. Qed.
Hint Resolve audits_PgWrite audits_Log audits_uuid : srv.

Lemma audits_writeAuditSafe t aw e : server_writer aw → keeps audits (writeAuditSafe t aw e).
Proof. intros [-> | ->]; simpl; keeps_all. Qed.
Hint Resolve audits_writeAuditSafe : srv.

Lemma audits_deny f code st : server_writer (af_audit f) → keeps audits (deny f code st).
Proof. intros. unfold deny. keeps_all. Qed.
Lemma audits_received f : server_writer (af_audit f) → keeps audits (received f).
Proof. intros. unfold received. keeps_all. Qed.
Lemma audits_succeed f d : server_writer (af_audit f) → keeps audits (succeed f d).
Proof. intros. unfold succeed. keeps_all. Qed.
Lemma audits_newAuditFlow r c aw cap : keeps audits (newAuditFlow r c aw cap).
Proof. unfold newAuditFlow. keeps_all. Qed.

Lemma deny_status f code st w : rs_Status (deny f code st w).1 = st.
Proof. unfold deny, mbind, st_bind. by destruct (writeAuditSafe _ _ _ w). Qed.
End audits.

#[export] Hint Resolve audits_PgWrite audits_Log audits_uuid audits_writeAuditSafe audits_deny audits_received
  audits_succeed audits_newAuditFlow : srv.
