(* ===== verification/Messages.v ===== *)
(** * The message endpoints

    [runStrategyDispatch] of [internal/api/handlers/common.go] and the four
    handlers [messages_direct.go], [messages_topic.go], [messages_broadcast.go]
    and [messages_direct_dm.go] that call it. *)

From stdpp Require Import base gmap list strings.
From Stdlib Require Import ZArith Lia.
From S2P Require Import Prelude GoStrings AuditChain RateLimit World AuditLog Auth Registry Strategy.
From S2P Require Import Dispatch Http.

Local Open Scope string_scope.
Local Open Scope Z_scope.
Local Open Scope list_scope.

(** ** Request body *)

Record dispatchOpts := mkOpts {
  RequireAppID : bool; RequireRecipients : bool; AllowMinGrade : bool; DefaultChannel : string }.

Record dispatchRequest := mkDispatchRequest {
  dq_Recipients : list Z; dq_AppID : string; dq_MinGrade : string; dq_Envelope : Envelope }.

Definition zero_dispatchRequest : dispatchRequest := mkDispatchRequest [] "" "" (mkEnvelope "" 0).

Definition envelope_fields : list (field Envelope) :=
  [("text", λ j e, (λ s, mkEnvelope s (SchemaVersion e)) <$> decode_string j (Text e));
   ("schema_version", λ j e, (λ z, mkEnvelope (Text e) z) <$> decode_int64 j (SchemaVersion e))].

Definition dispatch_fields : list (field dispatchRequest) :=
  [("recipients", λ j q, (λ l, mkDispatchRequest l (dq_AppID q) (dq_MinGrade q) (dq_Envelope q)) <$>
                            decode_list 0 decode_int64 j);
   ("app_id", λ j q, (λ s, mkDispatchRequest (dq_Recipients q) s (dq_MinGrade q) (dq_Envelope q)) <$>
                        decode_string j (dq_AppID q));
   ("min_grade", λ j q, (λ s, mkDispatchRequest (dq_Recipients q) (dq_AppID q) s (dq_Envelope q)) <$>
                           decode_string j (dq_MinGrade q));
   ("envelope", λ j q, (λ e, mkDispatchRequest (dq_Recipients q) (dq_AppID q) (dq_MinGrade q) e) <$>
                          decode_struct envelope_fields j (dq_Envelope q))].

Definition classifyDispatchErr (e : error) : string :=
  if errors_is e ErrChatNotFound then "chat_not_found"
  else if errors_is e ErrBotNotAdmin then "bot_not_admin"
  else if errors_is e ErrRateLimited then "telegram_rate_limited"
  else if errors_is e ErrTelegramAuth then "telegram_auth_failed"
  else "telegram_transient".

(** [recipientEvent]. *)
Definition recipientEvent (base : Event) (s : Stage) (channel : string) (user chat : Z) (code : string) : Event :=
  mkEvent (At base) (TraceID base) (MessageID base) s (AppID base) (Capability base) (CapabilitySetVer base)
    (Endpoint base) (RouteStrategyName base) channel user chat code (Details base).

Section pipeline.
Context `{TG : Telegram}.

(** The loop body over resolved recipients. *)
Definition dispatch_one (disp : Dispatcher) (f : auditFlow) (env : Envelope)
    (resp : dispatchResponse) (rh : RecipientHandle) : M dispatchResponse :=
  let ev s code := recipientEvent (af_base f) s (rh_Channel rh) (rh_UserID rh) (rh_ChatID rh) code in
  writeAuditSafe (af_trace f) (af_audit f) (ev StageDispatched "");;
  r ← d_Send disp rh env;
  match r return M dispatchResponse with
  | Err e =>
      let code := classifyDispatchErr e in
      writeAuditSafe (af_trace f) (af_audit f) (ev StageDeferred code);;
      mret (mkDispatchResponse (dp_MessageID resp) (dp_Delivered resp) (dp_Skipped resp) (dp_Failed resp + 1)
              (dp_Recipients resp ++ [mkReport (rh_UserID rh) "failed" code 0]))
  | Ok d =>
      writeAuditSafe (af_trace f) (af_audit f) (ev StageDelivered "");;
      mret (mkDispatchResponse (dp_MessageID resp) (dp_Delivered resp + 1) (dp_Skipped resp) (dp_Failed resp)
              (dp_Recipients resp ++ [mkReport (rh_UserID rh) "delivered" "" (TelegramMessageID d)]))
  end.

(** The loop body over skipped recipients. *)
Definition skip_one (channel : string) (f : auditFlow) (resp : dispatchResponse) (sk : ResolveError)
    : M dispatchResponse :=
  writeAuditSafe (af_trace f) (af_audit f)
    (recipientEvent (af_base f) StageDenied channel (re_UserID sk) 0 (re_Code sk));;
  mret (mkDispatchResponse (dp_MessageID resp) (dp_Delivered resp) (dp_Skipped resp + 1) (dp_Failed resp)
          (dp_Recipients resp ++ [mkReport (re_UserID sk) "skipped" (re_Code sk) 0])).

Definition resolve_failure (e : error) : string * Z :=
  if errors_is e ErrAppNotFound then ("app_not_found", StatusBadRequest)
  else if errors_is e ErrEmptyRecipients then ("empty_recipients", StatusBadRequest)
  else ("resolver_error", StatusInternalServerError).

Definition validated_details (req : dispatchRequest) (res : ResolveResult) : gmap string any :=
  {["recipients_requested" := AInt (Z.of_nat (length (dq_Recipients req)));
    "recipients_resolved" := AInt (Z.of_nat (length (Recipients res)));
    "recipients_skipped" := AInt (Z.of_nat (length (Skipped res)))]}.

(** After validation: resolve, audit, send. *)
Definition dispatch_resolved (strat : RouteStrategy) (disp : Dispatcher) (opts : dispatchOpts)
    (f : auditFlow) (req : dispatchRequest) : M Response :=
  r ← st_Resolve strat (mkSRequest (dq_AppID req) (dq_Recipients req)
        (if AllowMinGrade opts then dq_MinGrade req else "") (dq_Envelope req));
  match r return M Response with
  | Err e => let '(code, status) := resolve_failure e in deny f code status
  | Ok res =>
      v ← writeAuditSafe (af_trace f) (af_audit f)
            (ev_details (flow_event f StageValidated) (validated_details req res));
      match v return M Response with
      | Err _ => mret (writeError StatusInternalServerError "audit_unavailable")
      | Ok _ =>
          resp1 ← st_fold (dispatch_one disp f (dq_Envelope req))
                    (mkDispatchResponse (MessageID (af_base f)) 0 0 0 []) (Recipients res);
          resp2 ← st_fold (skip_one (DefaultChannel opts) f) resp1 (Skipped res);
          mret (writeJSON StatusOK (BDispatch resp2))
      end
  end.

(** The checks of a decoded request, in the order of the code. *)
Definition validate (opts : dispatchOpts) (req : dispatchRequest) : option string :=
  if SchemaVersion (dq_Envelope req) =? 0 then Some "missing_envelope_version"
  else if negb (SchemaVersion (dq_Envelope req) =? 1) then Some "unsupported_envelope_version"
  else if String.eqb (Text (dq_Envelope req)) "" then Some "empty_envelope_text"
  else if RequireAppID opts && String.eqb (dq_AppID req) "" then Some "missing_app_id"
  else if RequireRecipients opts && bool_decide (dq_Recipients req = []) then Some "empty_recipients"
  else None.

Definition runStrategyDispatch (strat : RouteStrategy) (disp : Dispatcher) (aw : option Writer)
    (cap : string) (opts : dispatchOpts) : Handler := λ r c,
  f0 ← newAuditFlow r c aw cap;
  let f := mkFlow (af_trace f0) (af_audit f0) (ev_route (af_base f0) (st_Name strat)) in
  a ← writeAuditSafe (af_trace f) (af_audit f) (flow_event f StageReceived);
  match a return M Response with
  | Err _ => mret (writeError StatusInternalServerError "audit_unavailable")
  | Ok _ =>
      match decodeStrict dispatch_fields zero_dispatchRequest r with
      | None => deny f "malformed_json" StatusBadRequest
      | Some req =>
          match validate opts req with
          | Some code => deny f code StatusBadRequest
          | None => dispatch_resolved strat disp opts f req
          end
      end
  end.

(** ** The four endpoints *)

Definition direct_opts : dispatchOpts := mkOpts true true false ChannelSupergroup.
Definition topic_opts : dispatchOpts := mkOpts true false true ChannelSupergroup.
Definition broadcast_opts : dispatchOpts := mkOpts false false true ChannelGeneral.
Definition direct_dm_opts : dispatchOpts := mkOpts false true false ChannelDM.

Definition DirectHandler (strat : RouteStrategy) (disp : Dispatcher) (aw : option Writer) : Handler :=
  runStrategyDispatch strat disp aw CapMessagesDirect direct_opts.
Definition TopicHandler (strat : RouteStrategy) (disp : Dispatcher) (aw : option Writer) : Handler :=
  runStrategyDispatch strat disp aw CapMessagesTopic topic_opts.
Definition BroadcastHandler (strat : RouteStrategy) (disp : Dispatcher) (aw : option Writer) : Handler :=
  runStrategyDispatch strat disp aw CapMessagesBroadcast broadcast_opts.
Definition DirectDMHandler (strat : RouteStrategy) (disp : Dispatcher) (aw : option Writer) : Handler :=
  runStrategyDispatch strat disp aw CapMessagesDirectDM direct_dm_opts.
End pipeline.

(** ** Frames *)

(** What the pipeline relies on: sending leaves the database alone. *)
Class DbNeutral `{Telegram} (d : Dispatcher) := {
  dn_neutral h e : keeps neutral (d_Send d h e);
}.
Lemma dn_inv `{Telegram} (d : Dispatcher) `{!DbNeutral d} P h e : keeps (inv_step P) (d_Send d h e).
Proof. intros w. apply neutral_inv, dn_neutral. Qed.
#[export] Instance tg_dispatcher_neutral `{Float64} `{Telegram} :
  DbNeutral (tg_dispatcher (Some dispatch_limiter)).
Proof. split. intros. apply neutral_Send. Qed.
#[export] Hint Resolve dn_inv : srv.

Section pipeline_frames.
Context `{PG : Postgres} `{TG : Telegram} (strat : RouteStrategy) (disp : Dispatcher).
Context `{!ReadOnly strat} `{!DbNeutral disp}.

Lemma inv_dispatch_resolved P `{!AuditClosed P} opts f req : server_writer (af_audit f) →
  keeps (inv_step P) (dispatch_resolved strat disp opts f req).
Proof. intros. unfold dispatch_resolved, dispatch_one, skip_one. keeps_all. Qed.

Lemma inv_runStrategyDispatch P `{!AuditClosed P} aw cap opts r c : server_writer aw →
  keeps (inv_step P) (runStrategyDispatch strat disp aw cap opts r c).
Proof.
  intros Haw. unfold runStrategyDispatch. apply keeps_newAuditFlow; [apply _|apply inv_uuid|].
  intros f Hf. assert (server_writer (af_audit f)) by congruence.
  apply keeps_bind; [apply _|by apply inv_writeAuditSafe; [apply _|]|]. intros [u|e]; [|apply keeps_ret, _].
  destruct (decodeStrict _ _ r); [|by apply inv_deny].
  destruct (validate opts _); [by apply inv_deny|]. by apply inv_dispatch_resolved.
Qed.
End pipeline_frames.

(** ** No message without a trail *)

Section audited.
Context `{PG : Postgres} `{TG : Telegram}.

(** Some row of the log records the event. *)
Definition logged (e : Event) (db : Database) : Prop :=
  ∃ r now, r ∈ audit_log db ∧ insert_cols now e = Some (a_cols r).

#[export] Instance logged_closed e : AuditClosed (logged e).
Proof.
  split.
  - intros db Hl. exact Hl.
  - intros c db (r&now&Hin&Hc). exists r, now. split; [|done]. simpl. unfold insert_chained.
    apply elem_of_app. by left.
Qed.

#[export] Instance both_closed P Q `{!AuditClosed P, !AuditClosed Q} : AuditClosed (λ db, P db ∧ Q db).
Proof. split; intros; destruct_and!; split; by first [apply ac_seq | apply ac_recorded]. Qed.

Lemma writeAuditSafe_logs t e w :
  (writeAuditSafe t (Some PgWriter) e w).1 = Ok () →
  logged e (w_db (writeAuditSafe t (Some PgWriter) e w).2) ∧
  w_tx (writeAuditSafe t (Some PgWriter) e w).2 = w_tx w.
Proof.
  unfold writeAuditSafe, mbind, st_bind. simpl.
  destruct (PgWrite_outcome e w) as [now c w' Hc _ Hd Ht|err w' Hd Ht|now c err w' Hc _ Hd Ht]; simpl; [|done..].
  intros _. split; [|by destruct Ht as (?&_)]. rewrite Hd.
  exists (mkAuditRow (seq_audit (w_db w)) c (chain_head (audit_log (w_db w)))
    (ComputeRowHash (chain_head (audit_log (w_db w))) (audit_chain_payload c))), now. split; [|exact Hc].
  simpl. unfold insert_chained. apply elem_of_app. right. by left.
Qed.

(** The base event of a dispatch request. *)
Definition dispatch_base (r : HttpRequest) (c : Ctx) (cap name mid : string) : Event :=
  mkEvent None (c_TraceID c) mid StageReceived (ri_AppID (RequesterFrom (c_Requester c)).1) cap
    (ri_CapabilitySetVer (RequesterFrom (c_Requester c)).1) (r_Path r) name "" 0 0 "" ∅.

(** A quiet computation is no excuse. *)
Lemma quiet_run {A} (m : M A) w : keeps quiet m → w_tg (m w).2 = w_tg w.
Proof. intros Hm. apply Hm. Qed.

Lemma inv_run {A} P (m : M A) w : keeps (inv_step P) m → w_tx w = None → P (w_db w) → P (w_db (m w).2).
Proof. intros Hm Ht HP. destruct (Hm w) as [H1 _]; [|done]. split; [done|]. intros db. by rewrite Ht. Qed.

Lemma dispatch_resolved_audited strat disp `{!ReadOnly strat} `{!DbNeutral disp} opts f req w :
  af_audit f = Some PgWriter → w_tx w = None →
  w_tg (dispatch_resolved strat disp opts f req w).2 ≠ w_tg w →
  ∃ res, logged (ev_details (flow_event f StageValidated) (validated_details req res))
    (w_db (dispatch_resolved strat disp opts f req w).2).
Proof.
  intros Hf Htx. assert (server_writer (af_audit f)) as Hsw by (by right).
  destruct (dispatch_resolved _ _ _ _ _ w) as [resp w'] eqn:E. unfold dispatch_resolved in E.
  set (sreq := mkSRequest _ _ _ _) in E. rewrite bind_run in E. cbn [fst snd].
  destruct (ro_reads sreq w) as (_&(T1&_&G1&_)&_).
  destruct (st_Resolve strat sreq w) as [[res|e] w1]; cbn [fst snd] in *.
  2:{ destruct (resolve_failure e) as [code st].
      pose proof (quiet_run (deny f code st) w1 ltac:(by apply quiet_deny)) as Q. rewrite E in Q.
      simpl in Q. congruence. }
  set (e := ev_details _ _) in E. rewrite Hf, bind_run in E.
  pose proof (writeAuditSafe_logs (af_trace f) e w1) as Hl.
  pose proof (quiet_run (writeAuditSafe (af_trace f) (Some PgWriter) e) w1
    ltac:(apply quiet_writeAuditSafe; by right)) as Q.
  destruct (writeAuditSafe _ _ e w1) as [[[]|err] w2]; cbn [fst snd] in *.
  2:{ injection E as _ <-. congruence. }
  destruct (Hl eq_refl) as [HL T2]. intros _. exists res.
  match type of E with ?m w2 = _ => set (rest := m) in E end.
  replace w' with (rest w2).2 by (by rewrite E).
  apply (inv_run (logged e) rest); [|congruence|done].
  unfold rest, dispatch_one, skip_one. keeps_all.
Qed.
End audited.

(** C3: nothing is sent unaudited.  If a request to a message endpoint made the
    server talk to Telegram at all, the audit log afterwards holds the
    request's [received] row and its [validated] row (with the recipient
    counts), whatever database calls failed: when either cannot be written the
    request ends before the first message. *)
Theorem nothing_sent_unaudited `{Postgres} `{Telegram} strat disp
    `{!ReadOnly strat} `{!DbNeutral disp} cap opts r c w :
  w_tx w = None →
  let '(resp, w') := runStrategyDispatch strat disp (Some PgWriter) cap opts r c w in
  w_tg w' ≠ w_tg w →
  let base := dispatch_base r c cap (st_Name strat) (w_uuid w (w_uuid_n w)) in
  logged base (w_db w') ∧
  ∃ req res, decodeStrict dispatch_fields zero_dispatchRequest r = Some req ∧ validate opts req = None ∧
    logged (ev_details (ev_stage base StageValidated) (validated_details req res)) (w_db w').
Proof.
  intros Htx. unfold runStrategyDispatch. unfold mbind at 1, st_bind at 1. rewrite newAuditFlow_eq.
  cbv beta iota zeta. set (w0 := with_uuid_n _ w). cbn [af_trace af_audit af_base].
  set (f := mkFlow _ _ _). set (base := dispatch_base r c cap (st_Name strat) (w_uuid w (w_uuid_n w))).
  assert (server_writer (af_audit f)) as Hsw by (by right).
  unfold mbind at 1, st_bind at 1.
  pose proof (writeAuditSafe_logs (c_TraceID c) base w0) as Hl1.
  pose proof (quiet_writeAuditSafe (c_TraceID c) (Some PgWriter) base Hsw w0) as Q1. unfold quiet in Q1.
  change (flow_event f StageReceived) with base.
  destruct (writeAuditSafe _ _ base w0) as [[[]|e] w1]; cbn [fst snd] in *; [|intros Hne; by destruct Hne].
  destruct (Hl1 eq_refl) as [HL1 Htx1]. clear Hl1.
  destruct (decodeStrict _ _ r) as [req|] eqn:Edec.
  2: { pose proof (quiet_run (deny f "malformed_json" StatusBadRequest) w1 ltac:(by apply quiet_deny)) as Q2.
       destruct (deny _ _ _ w1). simpl in Q2. intros Hne. destruct Hne. by rewrite Q2. }
  destruct (validate opts req) as [code|] eqn:Eval.
  { pose proof (quiet_run (deny f code StatusBadRequest) w1 ltac:(by apply quiet_deny)) as Q2.
    destruct (deny _ _ _ w1). simpl in Q2. intros Hne. destruct Hne. by rewrite Q2. }
  assert (w_tx w1 = None) as Htx1' by (by rewrite Htx1).
  pose proof (dispatch_resolved_audited strat disp opts f req w1 eq_refl Htx1') as Hres.
  pose proof (inv_run (logged base) (dispatch_resolved strat disp opts f req) w1
    (inv_dispatch_resolved strat disp _ opts f req Hsw) Htx1' HL1) as Hbase.
  destruct (dispatch_resolved _ _ _ _ _ w1) as [resp w']. cbn [fst snd] in *. intros Hne.
  split; [done|]. destruct Hres as [res Hres]; [by rewrite Q1|]. by exists req, res.
Qed.

(** ** The exact trail of a run without failures *)

Section trail.
Context `{PG : Postgres} `{TG : Telegram}.

(** The database accepts the event. *)
Definition recordable (e : Event) : bool :=
  forallb utf8_ok (event_texts e) && channel_ok (DeliveryChannel e) && bool_decide (is_Some (jsonb_of (Details e))).

Lemma recordable_cols e now : recordable e = true → ∃ c, insert_cols now e = Some c.
Proof.
  unfold recordable, insert_cols. intros H. apply andb_true_iff in H as [-> [d Hd]%bool_decide_eq_true].
  rewrite Hd. by eexists.
Qed.

(** [appended evs w w']: the log grew by one row per event, in order. *)
Definition records (r : AuditRow) (e : Event) : Prop := ∃ now, insert_cols now e = Some (a_cols r).
Definition appended (evs : list Event) (w w' : World) : Prop :=
  serene w' ∧ ∃ rows, audit_log (w_db w') = audit_log (w_db w) ++ rows ∧ Forall2 records rows evs.

Lemma appended_nil w : serene w → appended [] w w.
Proof. intros Hs. split; [done|]. exists []. by rewrite app_nil_r. Qed.

Lemma appended_app es1 es2 w1 w2 w3 : appended es1 w1 w2 → appended es2 w2 w3 → appended (es1 ++ es2) w1 w3.
Proof.
  intros (_&r1&L1&F1) (Hs&r2&L2&F2). split; [done|]. exists (r1 ++ r2).
  rewrite L2, L1, app_assoc. split; [done|]. by apply Forall2_app.
Qed.

Lemma appended_write t e w : serene w → recordable e = true →
  (writeAuditSafe t (Some PgWriter) e w).1 = Ok () ∧
  appended [e] w (writeAuditSafe t (Some PgWriter) e w).2.
Proof.
  intros Hs He. destruct (recordable_cols e (w_now w / 1000) He) as [c Hc].
  unfold writeAuditSafe. rewrite bind_run. simpl. rewrite (PgWrite_calm e w c (serene_calm _ Hs) Hc).
  split; [done|]. split; [exact Hs|]. simpl. unfold insert_chained. eexists. split; [done|].
  constructor; [|constructor]. by exists (w_now w / 1000).
Qed.

Lemma appended_neutral w w1 w2 es : neutral w w1 → serene w → appended es w1 w2 → appended es w w2.
Proof. intros (Hd&_&_) _ (Hs&rows&L&Fo). split; [done|]. exists rows. by rewrite L, Hd. Qed.

(** What is recorded and reported of one recipient, given how the send ended. *)
Definition send_events (base : Event) (rh : RecipientHandle) (out : result DeliveryResult) : list Event :=
  let ev s code := recipientEvent base s (rh_Channel rh) (rh_UserID rh) (rh_ChatID rh) code in
  [ev StageDispatched "";
   match out with Ok _ => ev StageDelivered "" | Err e => ev StageDeferred (classifyDispatchErr e) end].

Definition send_report (rh : RecipientHandle) (out : result DeliveryResult) : dispatchReport :=
  match out with
  | Ok d => mkReport (rh_UserID rh) "delivered" "" (TelegramMessageID d)
  | Err e => mkReport (rh_UserID rh) "failed" (classifyDispatchErr e) 0
  end.

Definition delivered_count (outs : list (result DeliveryResult)) : Z :=
  foldr (λ o n, match o with Ok _ => n + 1 | Err _ => n end) 0 outs.
Definition failed_count (outs : list (result DeliveryResult)) : Z :=
  foldr (λ o n, match o with Ok _ => n | Err _ => n + 1 end) 0 outs.

Lemma delivered_cons o os : delivered_count (o :: os) = delivered_count [o] + delivered_count os.
Proof. destruct o; simpl; unfold delivered_count; lia. Qed.
Lemma failed_cons o os : failed_count (o :: os) = failed_count [o] + failed_count os.
Proof. destruct o; simpl; unfold failed_count; lia. Qed.

Definition skip_event (base : Event) (channel : string) (sk : ResolveError) : Event :=
  recipientEvent base StageDenied channel (re_UserID sk) 0 (re_Code sk).
Definition skip_report (sk : ResolveError) : dispatchReport :=
  mkReport (re_UserID sk) "skipped" (re_Code sk) 0.

(** Recipients' events are recordable as soon as the base event is. *)
Lemma recipient_recordable base s ch u c code :
  recordable base = true → channel_ok ch = true → utf8_ok code = true →
  recordable (recipientEvent base s ch u c code) = true.
Proof.
  unfold recordable. simpl. intros H Hc Hu. go_bools.
  repeat match goal with H : utf8_ok _ = true |- _ => rewrite H end.
  assert (utf8_ok ch = true) as ->.
  { unfold channel_ok in Hc. rewrite !orb_true_iff, !String.eqb_eq in Hc.
    destruct Hc as [[[->| ->]| ->]| ->]; reflexivity. }
  rewrite Hc. simpl. rewrite ?andb_true_r. by apply bool_decide_eq_true.
Qed.

Lemma classify_utf8 e : utf8_ok (classifyDispatchErr e) = true.
Proof. unfold classifyDispatchErr. repeat case_match; reflexivity. Qed.

Context (disp : Dispatcher) `{!DbNeutral disp} (t : string) (base : Event) (env : Envelope).
Hypothesis Hbase : recordable base = true.

Local Abbreviation flow := (mkFlow t (Some PgWriter) base).

Lemma dispatch_one_trail resp rh w : serene w → channel_ok (rh_Channel rh) = true →
  ∃ out, (dispatch_one disp flow env resp rh w).1 =
      mkDispatchResponse (dp_MessageID resp) (dp_Delivered resp + delivered_count [out]) (dp_Skipped resp)
        (dp_Failed resp + failed_count [out]) (dp_Recipients resp ++ [send_report rh out]) ∧
    appended (send_events base rh out) w (dispatch_one disp flow env resp rh w).2.
Proof.
  intros Hs Hch. unfold dispatch_one. cbn [af_trace af_audit af_base].
  set (e1 := recipientEvent _ StageDispatched _ _ _ _).
  destruct (appended_write t e1 w Hs) as [_ A1]; [by apply recipient_recordable|].
  rewrite bind_run. destruct (writeAuditSafe t _ e1 w) as [u w1]. cbn [fst snd] in A1.
  rewrite bind_run. pose proof (dn_neutral rh env w1) as N. pose proof A1 as [Hs1 _].
  destruct (d_Send disp rh env w1) as [out w2]. cbn [fst snd] in N.
  assert (serene w2) as Hs2 by (by apply N).
  exists out. destruct out as [d|e]; rewrite bind_run.
  - set (e2 := recipientEvent _ StageDelivered _ _ _ _).
    destruct (appended_write t e2 w2 Hs2) as [_ A2]; [by apply recipient_recordable|].
    destruct (writeAuditSafe t _ e2 w2) as [u2 w3]. cbn [fst snd] in A2. simpl.
    split; [by rewrite Z.add_0_r|]. apply (appended_app [e1] [e2] _ w1); [done|].
    by eapply appended_neutral.
  - set (e2 := recipientEvent _ StageDeferred _ _ _ _).
    destruct (appended_write t e2 w2 Hs2) as [_ A2];
      [apply recipient_recordable; auto using classify_utf8|].
    destruct (writeAuditSafe t _ e2 w2) as [u2 w3]. cbn [fst snd] in A2. simpl.
    split; [by rewrite Z.add_0_r|]. apply (appended_app [e1] [e2] _ w1); [done|].
    by eapply appended_neutral.
Qed.

Lemma dispatch_loop_trail rhs : ∀ resp w, serene w → Forall (λ rh, channel_ok (rh_Channel rh) = true) rhs →
  ∃ outs, length outs = length rhs ∧
    (st_fold (dispatch_one disp flow env) resp rhs w).1 =
      mkDispatchResponse (dp_MessageID resp) (dp_Delivered resp + delivered_count outs) (dp_Skipped resp)
        (dp_Failed resp + failed_count outs) (dp_Recipients resp ++ zip_with send_report rhs outs) ∧
    appended (mjoin (zip_with (send_events base) rhs outs)) w (st_fold (dispatch_one disp flow env) resp rhs w).2.
Proof.
  induction rhs as [|rh rhs IH]; intros resp w Hs Hch.
  - exists []. destruct resp. simpl. rewrite !Z.add_0_r, app_nil_r. split_and!; [done..|].
    by apply appended_nil.
  - inversion Hch; subst. destruct (dispatch_one_trail resp rh w Hs) as (out&Hr&A1); [done|].
    cbn [st_fold]. rewrite bind_run. destruct (dispatch_one disp flow env resp rh w) as [resp1 w1].
    cbn [fst snd] in *. pose proof A1 as [Hs1 _].
    destruct (IH resp1 w1 Hs1) as (outs&Hl&Hr2&A2); [done|].
    exists (out :: outs). split; [simpl; congruence|]. split.
    + rewrite Hr2, Hr, (delivered_cons out outs), (failed_cons out outs).
      cbn [dp_MessageID dp_Delivered dp_Skipped dp_Failed dp_Recipients zip_with].
      rewrite <- app_assoc, !Z.add_assoc. done.
    + cbn [zip_with mjoin list_join]. by eapply appended_app.
Qed.

Lemma skip_loop_trail channel sks : ∀ resp w, serene w → channel_ok channel = true →
  Forall (λ sk, utf8_ok (re_Code sk) = true) sks →
  (st_fold (skip_one channel flow) resp sks w).1 =
    mkDispatchResponse (dp_MessageID resp) (dp_Delivered resp) (dp_Skipped resp + Z.of_nat (length sks))
      (dp_Failed resp) (dp_Recipients resp ++ (skip_report <$> sks)) ∧
  appended (skip_event base channel <$> sks) w (st_fold (skip_one channel flow) resp sks w).2.
Proof.
  induction sks as [|sk sks IH]; intros resp w Hs Hch Hc.
  - destruct resp. simpl. rewrite Z.add_0_r, app_nil_r. split; [done|]. by apply appended_nil.
  - inversion Hc; subst. cbn [st_fold]. rewrite bind_run. unfold skip_one at 1 3. rewrite !bind_run.
    cbn [af_trace af_audit af_base]. set (e := recipientEvent _ _ _ _ _ _).
    destruct (appended_write t e w Hs) as [_ A1]; [by apply recipient_recordable|].
    destruct (writeAuditSafe t _ e w) as [u w1]. cbn [fst snd] in A1. cbn [mret st_ret].
    pose proof A1 as [Hs1 _].
    destruct (IH (mkDispatchResponse (dp_MessageID resp) (dp_Delivered resp) (dp_Skipped resp + 1)
      (dp_Failed resp) (dp_Recipients resp ++ [skip_report sk])) w1 Hs1) as [Hr A2]; [done..|].
    split.
    + etrans; [exact Hr|]. cbn. rewrite <- app_assoc. f_equal. lia.
    + cbn [fmap list_fmap]. by eapply (appended_app [e]).
Qed.
End trail.

(** The whole trail of a request whose recipients resolved to [res] and whose
    sends ended as [outs]. *)
Definition full_trail (base : Event) (channel : string) (req : dispatchRequest) (res : ResolveResult)
    (outs : list (result DeliveryResult)) : list Event :=
  [base; ev_details (ev_stage base StageValidated) (validated_details req res)]
    ++ mjoin (zip_with (send_events base) (Recipients res) outs)
    ++ (skip_event base channel <$> Skipped res).

Lemma validated_recordable `{Postgres} base req res :
  recordable base = true →
  recordable (ev_details (ev_stage base StageValidated) (validated_details req res)) = true.
Proof.
  unfold recordable. set (d := validated_details req res).
  change (event_texts (ev_details _ d)) with (event_texts base).
  change (DeliveryChannel (ev_details _ d)) with (DeliveryChannel base).
  change (Details (ev_details _ d)) with d.
  intros [-> _]%andb_true_iff. simpl. apply bool_decide_eq_true, jsonb_of_plain.
  unfold d, validated_details. repeat (apply map_Forall_insert_2; [done|]). apply map_Forall_empty.
Qed.

Section functional.
Context `{PG : Postgres} `{TG : Telegram} (strat : RouteStrategy) (disp : Dispatcher).
Context `{!ReadOnly strat} `{!DbNeutral disp} (cap : string) (opts : dispatchOpts).

Definition strategy_request (req : dispatchRequest) : SRequest :=
  mkSRequest (dq_AppID req) (dq_Recipients req) (if AllowMinGrade opts then dq_MinGrade req else "")
    (dq_Envelope req).

(** A denial: one row, and the error response. *)
Lemma deny_trail f code st w : af_audit f = Some PgWriter → serene w →
  recordable (ev_code (flow_event f StageDenied) code) = true →
  (deny f code st w).1 = writeError st code ∧
  appended [ev_code (flow_event f StageDenied) code] w (deny f code st w).2.
Proof.
  intros Hf Hs He. unfold deny. rewrite Hf, bind_run.
  destruct (appended_write (af_trace f) _ w Hs He) as [_ A]. by destruct (writeAuditSafe _ _ _ w).
Qed.

Lemma resolve_failure_utf8 e : utf8_ok (resolve_failure e).1 = true.
Proof. unfold resolve_failure. repeat case_match; reflexivity. Qed.

Lemma denied_recordable base code : recordable base = true → utf8_ok code = true →
  recordable (ev_code (ev_stage base StageDenied) code) = true.
Proof.
  unfold recordable. simpl. intros H Hu. go_bools.
  repeat match goal with H : utf8_ok _ = true |- _ => rewrite H end.
  repeat match goal with H : channel_ok _ = true |- _ => rewrite H end. simpl.
  rewrite ?andb_true_r. by apply bool_decide_eq_true.
Qed.

(** What follows once the request has been validated. *)
Lemma dispatch_resolved_trail t base req w :
  serene w → recordable base = true → channel_ok (DefaultChannel opts) = true →
  let f := mkFlow t (Some PgWriter) base in
  let out := dispatch_resolved strat disp opts f req w in
  match (st_Resolve strat (strategy_request req) w).1 with
  | Ok res => ∃ outs, length outs = length (Recipients res) ∧
      appended (ev_details (ev_stage base StageValidated) (validated_details req res) ::
        mjoin (zip_with (send_events base) (Recipients res) outs) ++
        (skip_event base (DefaultChannel opts) <$> Skipped res)) w out.2 ∧
      out.1 = writeJSON StatusOK (BDispatch (mkDispatchResponse (MessageID base)
        (delivered_count outs) (Z.of_nat (length (Skipped res))) (failed_count outs)
        (zip_with send_report (Recipients res) outs ++ (skip_report <$> Skipped res))))
  | Err e => out.1 = writeError (resolve_failure e).2 (resolve_failure e).1 ∧
      appended [ev_code (ev_stage base StageDenied) (resolve_failure e).1] w out.2
  end.
Proof.
  intros Hs Hb Hch f out. subst out. unfold dispatch_resolved. fold (strategy_request req).
  rewrite bind_run. pose proof (ro_ok (strategy_request req) w) as Hok.
  pose proof (reads_neutral _ _ (ro_reads (strategy_request req) w)) as N1.
  destruct (st_Resolve strat (strategy_request req) w) as [[res|e] w1]; cbn [fst snd] in *.
  2:{ destruct (resolve_failure e) as [code st] eqn:Ef. destruct (deny_trail f code st w1) as [Hd A].
      - done.
      - by apply N1.
      - apply denied_recordable; [done|]. pose proof (resolve_failure_utf8 e) as Hu. by rewrite Ef in Hu.
      - split; [done|]. by eapply appended_neutral. }
  destruct (Hok res eq_refl) as [Hr1 Hr2]. assert (serene w1) as Hs1 by (by apply N1).
  set (ev := ev_details _ _). rewrite bind_run.
  destruct (appended_write t ev w1 Hs1) as [O1 A1]; [by apply validated_recordable|].
  cbn [af_trace af_audit f]. destruct (writeAuditSafe t _ ev w1) as [a1 w2]. cbn [fst snd] in *. subst a1.
  pose proof A1 as [Hs2 _]. rewrite bind_run.
  destruct (dispatch_loop_trail disp t base (dq_Envelope req) Hb (Recipients res)
    (mkDispatchResponse (MessageID base) 0 0 0 []) w2 Hs2 Hr1) as (outs&Hl&R1&A2).
  cbn [af_base]. destruct (st_fold _ _ (Recipients res) w2) as [resp1 w3]. cbn [fst snd] in *.
  pose proof A2 as [Hs3 _]. rewrite bind_run.
  destruct (skip_loop_trail t base Hb (DefaultChannel opts) (Skipped res) resp1 w3 Hs3 Hch Hr2) as [R2 A3].
  destruct (st_fold _ _ (Skipped res) w3) as [resp2 w4]. cbn [fst snd] in *.
  exists outs. split; [done|]. split.
  - eapply appended_neutral; [exact N1|done|]. eapply (appended_app [ev]); [exact A1|].
    by eapply appended_app.
  - subst resp2 resp1. cbn. done.
Qed.
End functional.


(** ** Concrete runs *)

Definition sample_body : json :=
  JObj [("envelope", JObj [("text", JStr "hi"); ("schema_version", JInt 1)])].
Definition sample_request (path : string) (b : option json) : HttpRequest :=
  mkRequest "POST" path "" "t-1" "10.0.0.9:1" (λ _, "") (λ _, "") b.
Definition sample_ctx : Ctx := mkCtx "t-1" (Some (mkRequester "ops" {["messages.broadcast.send"]} 3 "ab")).

Definition sample_run (w : @World recorder) : Response * @World recorder :=
  runStrategyDispatch (TG := recorder) (BroadcastAllStrategy (TG := recorder))
    (tg_dispatcher (TG := recorder) (Some (dispatch_limiter (F := exact) (TG := recorder))))
    (Some (PgWriter (PG := text_order) (TG := recorder))) CapMessagesBroadcast broadcast_opts
    (sample_request "/v1/messages/broadcast" (Some sample_body)) sample_ctx w.

Lemma sample_run_sends : length (w_tg (sample_run (rec_world 0 sample_db)).2) = 2%nat.
Proof. vm_compute. reflexivity. Qed.

Lemma nothing_sent_unaudited_witness :
  let w := rec_world 0 sample_db in
  let '(resp, w') := sample_run w in
  w_tg w' ≠ w_tg w →
  let base := dispatch_base (sample_request "/v1/messages/broadcast" (Some sample_body)) sample_ctx
    CapMessagesBroadcast (st_Name (BroadcastAllStrategy (TG := recorder))) (w_uuid w (w_uuid_n w)) in
  logged (PG := text_order) base (w_db w') ∧
  ∃ req res, decodeStrict dispatch_fields zero_dispatchRequest
      (sample_request "/v1/messages/broadcast" (Some sample_body)) = Some req ∧ validate broadcast_opts req = None ∧
    logged (PG := text_order) (ev_details (ev_stage base StageValidated) (validated_details req res)) (w_db w').
Proof.
  exact (nothing_sent_unaudited (H := text_order) (H0 := recorder) (BroadcastAllStrategy (TG := recorder))
    (tg_dispatcher (TG := recorder) (Some (dispatch_limiter (F := exact) (TG := recorder))))
    CapMessagesBroadcast broadcast_opts
    (sample_request "/v1/messages/broadcast" (Some sample_body)) sample_ctx (rec_world 0 sample_db) eq_refl).
Defined.


(** A message endpoint answers 200 only to a body that decodes strictly,
    with envelope version 1, a nonempty text and the fields its options
    require, and only after both the recipients resolved; everything else is a
    client or server error. *)
Theorem ok_only_for_valid `{Telegram} strat disp aw cap opts r c w :
  rs_Status (runStrategyDispatch strat disp aw cap opts r c w).1 = StatusOK →
  ∃ req, decodeStrict dispatch_fields zero_dispatchRequest r = Some req ∧
    SchemaVersion (dq_Envelope req) = 1 ∧ Text (dq_Envelope req) ≠ "" ∧
    (RequireAppID opts = true → dq_AppID req ≠ "") ∧
    (RequireRecipients opts = true → dq_Recipients req ≠ []).
Proof.
  unfold runStrategyDispatch. rewrite bind_run, newAuditFlow_eq. cbv beta iota zeta.
  rewrite bind_run. destruct (writeAuditSafe _ _ _ _) as [[[]|e] w1]; [|done].
  assert (∀ f code w2, rs_Status (deny f code StatusBadRequest w2).1 ≠ StatusOK) as Hdeny.
  { intros f code w2. unfold deny. rewrite bind_run. by destruct (writeAuditSafe _ _ _ w2). }
  destruct (decodeStrict _ _ r) as [req|]; [|by intros ?%Hdeny].
  destruct (validate opts req) as [code|] eqn:Ev; [by intros ?%Hdeny|]. intros _.
  exists req. unfold validate in Ev.
  destruct (Z.eqb_spec (SchemaVersion (dq_Envelope req)) 0); [done|].
  destruct (Z.eqb_spec (SchemaVersion (dq_Envelope req)) 1); [|done]. simpl in Ev.
  destruct (String.eqb_spec (Text (dq_Envelope req)) ""); [done|].
  destruct (String.eqb_spec (dq_AppID req) ""); destruct (RequireAppID opts); simpl in Ev; try done;
    destruct (bool_decide (dq_Recipients req = [])) eqn:Eb; destruct (RequireRecipients opts); simpl in Ev; try done;
    go_bools; done.
Qed.

Lemma ok_only_for_valid_witness :
  ∃ req, decodeStrict dispatch_fields zero_dispatchRequest
      (sample_request "/v1/messages/broadcast" (Some sample_body)) = Some req ∧
    SchemaVersion (dq_Envelope req) = 1 ∧ Text (dq_Envelope req) ≠ "" ∧
    (RequireAppID broadcast_opts = true → dq_AppID req ≠ "") ∧
    (RequireRecipients broadcast_opts = true → dq_Recipients req ≠ []).
Proof.
  apply (ok_only_for_valid (H := recorder) (BroadcastAllStrategy (TG := recorder))
    (tg_dispatcher (TG := recorder) (Some (dispatch_limiter (F := exact) (TG := recorder))))
    (Some (PgWriter (PG := text_order) (TG := recorder))) CapMessagesBroadcast broadcast_opts
    (sample_request "/v1/messages/broadcast" (Some sample_body)) sample_ctx (rec_world 0 sample_db)).
  vm_compute. reflexivity.
Defined.
