(* ===== verification/AdminApi.v ===== *)
(** * The admin API

    [internal/api/handlers]: [admin_apps.go], [admin_users.go],
    [admin_subscriptions.go], [admin_audit.go] and [health.go]. *)

From stdpp Require Import base gmap list strings sorting.
From Stdlib Require Import ZArith Lia.
From S2P Require Import Prelude GoStrings GoTime AuditChain RateLimit World AuditLog Auth Registry.
From S2P Require Import Strategy Dispatch Http.

Local Open Scope string_scope.
Local Open Scope Z_scope.
Local Open Scope list_scope.

(** ** admin_apps.go: validation *)

Definition in_set (c : Ascii.ascii) (extra : string) : bool :=
  in_range c 97 122 || in_range c 48 57 || negb (no_byte c extra).

(** [^[a-z0-9][a-z0-9_-]{2,63}$]. *)
Definition appIDRegex (s : string) : bool :=
  match s with
  | String c rest => in_set c "" && sall (λ d, in_set d "_-") rest
                     && (2 <=? String.length rest)%nat && (String.length rest <=? 63)%nat
  | EmptyString => false
  end.

Definition allowedCapabilities : list string :=
  [CapMessagesDirect; CapMessagesDirectDM; CapMessagesTopic; CapMessagesBroadcast; CapNoopInvoke].
Definition forbiddenCapabilities : list string :=
  [CapAppsRegister; CapUsersPromote; CapUsersDeactivate; CapAuditSearch; CapAuditFreeze].
Definition validGrades : list string := grades.

Definition mem (s : string) (l : list string) : bool := bool_decide (s ∈ l).

(** [None] when every capability is grantable, else the code and the status. *)
Fixpoint validateCapabilityGrant (caps : list string) : option (string * Z) :=
  match caps with
  | [] => None
  | c :: rest =>
      if mem c forbiddenCapabilities then Some ("forbidden_capability", StatusForbidden)
      else if negb (mem c allowedCapabilities) then Some ("unknown_capability", StatusBadRequest)
      else validateCapabilityGrant rest
  end.

Record createAppRequest := mkCreate {
  ca_ID : string; ca_Name : string; ca_Description : string; ca_MinGrade : string; ca_Capabilities : list string }.
Definition zero_create : createAppRequest := mkCreate "" "" "" "" [].

Definition create_fields : list (field createAppRequest) :=
  [("id", λ j q, (λ s, mkCreate s (ca_Name q) (ca_Description q) (ca_MinGrade q) (ca_Capabilities q)) <$>
                   decode_string j (ca_ID q));
   ("name", λ j q, (λ s, mkCreate (ca_ID q) s (ca_Description q) (ca_MinGrade q) (ca_Capabilities q)) <$>
                     decode_string j (ca_Name q));
   ("description", λ j q, (λ s, mkCreate (ca_ID q) (ca_Name q) s (ca_MinGrade q) (ca_Capabilities q)) <$>
                            decode_string j (ca_Description q));
   ("min_grade", λ j q, (λ s, mkCreate (ca_ID q) (ca_Name q) (ca_Description q) s (ca_Capabilities q)) <$>
                          decode_string j (ca_MinGrade q));
   ("capabilities", λ j q, (λ l, mkCreate (ca_ID q) (ca_Name q) (ca_Description q) (ca_MinGrade q) l) <$>
                             decode_list "" decode_string j)].

Record patchAppRequest := mkPatch {
  pa_Description : option string; pa_MinGrade : option string; pa_Active : option bool;
  pa_Add : list string; pa_Remove : list string }.
Definition zero_patch : patchAppRequest := mkPatch None None None [] [].

Definition patch_fields : list (field patchAppRequest) :=
  [("description", λ j q, (λ s, mkPatch s (pa_MinGrade q) (pa_Active q) (pa_Add q) (pa_Remove q)) <$>
                            decode_ptr "" decode_string j);
   ("min_grade", λ j q, (λ s, mkPatch (pa_Description q) s (pa_Active q) (pa_Add q) (pa_Remove q)) <$>
                          decode_ptr "" decode_string j);
   ("active", λ j q, (λ b, mkPatch (pa_Description q) (pa_MinGrade q) b (pa_Add q) (pa_Remove q)) <$>
                       decode_ptr false decode_bool j);
   ("add_capabilities", λ j q, (λ l, mkPatch (pa_Description q) (pa_MinGrade q) (pa_Active q) l (pa_Remove q)) <$>
                                 decode_list "" decode_string j);
   ("remove_capabilities", λ j q, (λ l, mkPatch (pa_Description q) (pa_MinGrade q) (pa_Active q) (pa_Add q) l) <$>
                                    decode_list "" decode_string j)].

(** ** Statements *)

Definition sql_insert_app (id name desc grade by_ : string) (now : Z) (db : Database) : result () * Database :=
  let g := if String.eqb grade "" then "user" else grade in
  match apps db !! id with
  | Some _ => (Err (Msg "duplicate key value violates unique constraint"), db)
  | None => if mem g grades
            then (Ok (), set_apps (<[id := mkApp name desc g true now now 1 by_]>) db)
            else (Err (Msg "violates check constraint"), db)
  end.

Definition sql_add_capability (app c : string) (_ : Z) (db : Database) : result () * Database :=
  match apps db !! app with
  | Some _ => (Ok (), set_capabilities (λ s, {[(app, c)]} ∪ s) db)
  | None => (Err (Msg "insert violates foreign key constraint"), db)
  end.

Definition sql_remove_capability (app c : string) (_ : Z) (db : Database) : result () * Database :=
  (Ok (), set_capabilities (λ s, s ∖ {[(app, c)]}) db).

(** UPDATE apps SET ... WHERE id; the CHECK on the grade applies. *)
Definition sql_update_app (app : string) (f : AppRow → AppRow) (_ : Z) (db : Database) : result Z * Database :=
  match apps db !! app with
  | Some a => if mem (app_min_grade (f a)) grades then (Ok 1, set_apps (<[app := f a]>) db)
              else (Err (Msg "violates check constraint"), db)
  | None => (Ok 0, db)
  end.

Definition app_set_description (d : string) (a : AppRow) : AppRow :=
  mkApp (app_name a) d (app_min_grade a) (app_active a) (app_created_at a) (app_updated_at a)
    (capability_set_version a) (app_created_by a).
Definition app_set_grade (g : string) (a : AppRow) : AppRow :=
  mkApp (app_name a) (app_description a) g (app_active a) (app_created_at a) (app_updated_at a)
    (capability_set_version a) (app_created_by a).
Definition app_set_active (b : bool) (a : AppRow) : AppRow :=
  mkApp (app_name a) (app_description a) (app_min_grade a) b (app_created_at a) (app_updated_at a)
    (capability_set_version a) (app_created_by a).
Definition app_bump (a : AppRow) : AppRow :=
  mkApp (app_name a) (app_description a) (app_min_grade a) (app_active a) (app_created_at a) (app_updated_at a)
    (capability_set_version a + 1) (app_created_by a).

(** DELETE FROM apps: the foreign keys cascade. *)
Definition without_app (app : string) (db : Database) : Database :=
  set_apps (delete app)
    (set_capabilities (filter (λ p, p.1 ≠ app))
      (set_keys (filter (λ p, k_app_id p.2 ≠ app))
        (set_subscriptions (filter (λ p, p.2 ≠ app))
          (set_topics (filter (λ p, p.1.2 ≠ app)) db)))).

Definition sql_delete_app (app : string) (_ : Z) (db : Database) : result Z * Database :=
  match apps db !! app with
  | None => (Ok 0, db)
  | Some _ => (Ok 1, without_app app db)
  end.

Definition sql_set_grade (t : Z) (g : string) (now : Z) (db : Database) : result Z * Database :=
  match find_by_telegram t db with
  | Some (i, _) => if mem g grades then sql_update_user i (λ _, true) (set_grade g) now db
                   else (Err (Msg "violates check constraint"), db)
  | None => (Ok 0, db)
  end.

Definition sql_subscribe (i : Z) (app : string) (_ : Z) (db : Database) : result () * Database :=
  match users db !! i, apps db !! app with
  | Some _, Some _ => (Ok (), set_subscriptions (λ s, {[(i, app)]} ∪ s) db)
  | _, _ => (Err (Msg "insert violates foreign key constraint"), db)
  end.

Definition sql_unsubscribe_by (t : Z) (app : string) (_ : Z) (db : Database) : result Z * Database :=
  match find_by_telegram t db with
  | Some (i, _) => if bool_decide ((i, app) ∈ user_subscriptions db)
                   then (Ok 1, set_subscriptions (λ s, s ∖ {[(i, app)]}) db) else (Ok 0, db)
  | None => (Ok 0, db)
  end.

Section handlers.
Context `{TG : Telegram} (aw : option Writer).

(** Statements in order; the first error ends the list. *)
Fixpoint tx_all (ms : list (M (result ()))) : M (result ()) :=
  match ms with
  | [] => mret (Ok ())
  | m :: rest => r ← m; match r with Ok _ => tx_all rest | Err e => mret (Err e) end
  end.

(** The end of a transaction: commit, audit, answer. *)
Definition commit_tx (f : auditFlow) (details : gmap string any) (answer : Response) : M Response :=
  cm ← tx_commit;
  match cm return M Response with
  | Err _ => deny f "db_error" StatusInternalServerError
  | Ok _ => succeed f details;; mret answer
  end.

(** ** Create *)

Definition create_tx (f : auditFlow) (createdBy : string) (req : createAppRequest) : M Response :=
  i ← tx_exec [ca_ID req; ca_Name req; ca_Description req; ca_MinGrade req; createdBy]
        (sql_insert_app (ca_ID req) (ca_Name req) (ca_Description req) (ca_MinGrade req) createdBy);
  match i return M Response with
  | Err _ => deny f "app_already_exists" StatusConflict
  | Ok _ =>
      cs ← tx_all ((λ c, tx_exec [ca_ID req; c] (sql_add_capability (ca_ID req) c)) <$> ca_Capabilities req);
      match cs return M Response with
      | Err _ => deny f "db_error" StatusInternalServerError
      | Ok _ =>
          commit_tx f {["created_app_id" := AStr (ca_ID req); "created_by" := AStr createdBy]}
            (writeJSON StatusCreated (BObject {["id" := AStr (ca_ID req)]}))
      end
  end.

Definition Create : Handler := λ r c,
  f ← newAuditFlow r c aw CapAppsRegister;
  received f;;
  match decodeStrict create_fields zero_create r with
  | None => deny f "malformed_json" StatusBadRequest
  | Some req =>
      if String.eqb (ca_ID req) "" || String.eqb (ca_Name req) ""
      then deny f "missing_required_fields" StatusBadRequest
      else if negb (appIDRegex (ca_ID req)) then deny f "invalid_app_id" StatusBadRequest
      else if negb (String.eqb (ca_MinGrade req) "") && negb (mem (ca_MinGrade req) validGrades)
      then deny f "invalid_min_grade" StatusBadRequest
      else match validateCapabilityGrant (ca_Capabilities req) with
      | Some (code, status) => deny f code status
      | None =>
          b ← tx_begin;
          match b return M Response with
          | Err _ => deny f "db_error" StatusInternalServerError
          | Ok _ => rolling_back (create_tx f (ri_AppID (RequesterFrom (c_Requester c)).1) req)
          end
      end
  end.

(** ** Patch *)

Definition drop_count (m : M (result Z)) : M (result ()) :=
  r ← m; mret (match r with Ok _ => Ok () | Err e => Err e end).

Definition caps_changed (req : patchAppRequest) : bool :=
  negb (bool_decide (pa_Add req = [])) || negb (bool_decide (pa_Remove req = [])).

(** The statements of a patch, in order. *)
Definition patch_statements (app : string) (req : patchAppRequest) : list (M (result ())) :=
  tx_exec [app] (λ _ db, (Ok (), db)) ::
  (match pa_Description req with
   | Some d => [drop_count (tx_exec [d; app] (sql_update_app app (app_set_description d)))] | None => [] end) ++
  (match pa_MinGrade req with
   | Some g => [drop_count (tx_exec [g; app] (sql_update_app app (app_set_grade g)))] | None => [] end) ++
  (match pa_Active req with
   | Some b => [drop_count (tx_exec [app] (sql_update_app app (app_set_active b)))] | None => [] end) ++
  ((λ c, tx_exec [app; c] (sql_add_capability app c)) <$> pa_Add req) ++
  ((λ c, tx_exec [app; c] (sql_remove_capability app c)) <$> pa_Remove req) ++
  (if caps_changed req then [drop_count (tx_exec [app] (sql_update_app app app_bump))] else []).

Definition patch_tx (f : auditFlow) (app : string) (req : patchAppRequest) : M Response :=
  e ← tx_query [app] (λ _ db, Ok (bool_decide (is_Some (apps db !! app))));
  match e return M Response with
  | Err _ | Ok false => deny f "app_not_found" StatusNotFound
  | Ok true =>
      s ← tx_all (patch_statements app req);
      match s return M Response with
      | Err _ => deny f "db_error" StatusInternalServerError
      | Ok _ =>
          commit_tx f {["patched_app_id" := AStr app; "caps_changed" := ABool (caps_changed req)]}
            (writeJSON StatusOK (BObject {["id" := AStr app; "updated" := ABool true]}))
      end
  end.

Definition PatchApp : Handler := λ r c,
  f ← newAuditFlow r c aw CapAppsRegister;
  let app := r_Param r "id" in
  received f;;
  match decodeStrict patch_fields zero_patch r with
  | None => deny f "malformed_json" StatusBadRequest
  | Some req =>
      if match pa_MinGrade req with Some g => negb (mem g validGrades) | None => false end
      then deny f "invalid_min_grade" StatusBadRequest
      else match validateCapabilityGrant (pa_Add req) with
      | Some (code, status) => deny f code status
      | None =>
          b ← tx_begin;
          match b return M Response with
          | Err _ => deny f "db_error" StatusInternalServerError
          | Ok _ => rolling_back (patch_tx f app req)
          end
      end
  end.

(** ** Delete and Purge: lock the row, one statement, commit *)

Definition locked_tx (f : auditFlow) (app : string) (stmt : Z → Database → result Z * Database)
    (details answer : gmap string any) : M Response :=
  l ← tx_exec [app] (λ _ db, (Ok (), db));
  match l return M Response with
  | Err _ => deny f "db_error" StatusInternalServerError
  | Ok _ =>
      t ← tx_exec [app] stmt;
      match t return M Response with
      | Err _ => deny f "db_error" StatusInternalServerError
      | Ok n =>
          if n =? 0 then deny f "app_not_found" StatusNotFound
          else commit_tx f details (writeJSON StatusOK (BObject answer))
      end
  end.

Definition locked_handler (stmt : string → Z → Database → result Z * Database)
    (details answer : string → gmap string any) : Handler := λ r c,
  f ← newAuditFlow r c aw CapAppsRegister;
  let app := r_Param r "id" in
  received f;;
  b ← tx_begin;
  match b return M Response with
  | Err _ => deny f "db_error" StatusInternalServerError
  | Ok _ => rolling_back (locked_tx f app (stmt app) (details app) (answer app))
  end.

Definition DeleteApp : Handler :=
  locked_handler (λ app, sql_update_app app (λ a, app_bump (app_set_active false a)))
    (λ app, {["deleted_app_id" := AStr app]})
    (λ app, {["id" := AStr app; "active" := ABool false]}).

Definition Purge : Handler :=
  locked_handler sql_delete_app
    (λ app, {["purged_app_id" := AStr app]})
    (λ app, {["id" := AStr app; "purged" := ABool true]}).

(** ** admin_users.go *)

Definition grade_fields : list (field string) := [("grade", λ j g, decode_string j g)].

Definition PatchUser : Handler := λ r c,
  f ← newAuditFlow r c aw CapUsersPromote;
  match parse_int (r_Param r "telegram_id") with
  | None => deny f "invalid_telegram_id" StatusBadRequest
  | Some t =>
      received f;;
      match decodeStrict grade_fields "" r with
      | None => deny f "malformed_json" StatusBadRequest
      | Some g =>
          if negb (mem g validGrades) then deny f "invalid_grade" StatusBadRequest
          else
            n ← db_exec [g] (sql_set_grade t g);
            match n return M Response with
            | Err _ => deny f "db_error" StatusInternalServerError
            | Ok n =>
                if n =? 0 then deny f "user_not_found" StatusNotFound
                else
                  let fields : gmap string any := {["telegram_id" := AInt t; "grade" := AStr g]} in
                  succeed f fields;; mret (writeJSON StatusOK (BObject fields))
            end
      end
  end.

(** ** admin_subscriptions.go *)

Definition subscription_fields (t : Z) (app : string) : gmap string any :=
  {["telegram_id" := AInt t; "app_id" := AStr app]}.

Definition Subscribe : Handler := λ r c,
  f ← newAuditFlow r c aw CapAppsRegister;
  let app := r_Param r "app_id" in
  match parse_int (r_Param r "telegram_id") with
  | None => deny f "invalid_telegram_id" StatusBadRequest
  | Some t =>
      received f;;
      a ← db_query [app] (λ _ db, match apps db !! app with
                                   | Some a => Ok (app_active a) | None => Err (Sentinel ErrNoRows) end);
      match a return M Response with
      | Err e => if errors_is e ErrNoRows then deny f "app_not_found" StatusNotFound
                 else deny f "db_error" StatusInternalServerError
      | Ok false => deny f "app_inactive" StatusBadRequest
      | Ok true =>
          u ← db_query [] (λ _ db, match find_by_telegram t db with
                                    | Some (i, _) => Ok i | None => Err (Sentinel ErrNoRows) end);
          match u return M Response with
          | Err _ => deny f "user_not_found" StatusNotFound
          | Ok i =>
              s ← db_exec [app] (sql_subscribe i app);
              match s return M Response with
              | Err _ => deny f "db_error" StatusInternalServerError
              | Ok _ =>
                  Log "info" "admin_subscription_created"
                    (<["note" := AStr "topic not yet provisioned; user must run /apps"]> (subscription_fields t app));;
                  succeed f (subscription_fields t app);;
                  mret (writeJSON StatusOK (BObject (<["subscribed" := ABool true]> (subscription_fields t app))))
              end
          end
      end
  end.

Definition Unsubscribe : Handler := λ r c,
  f ← newAuditFlow r c aw CapAppsRegister;
  let app := r_Param r "app_id" in
  match parse_int (r_Param r "telegram_id") with
  | None => deny f "invalid_telegram_id" StatusBadRequest
  | Some t =>
      received f;;
      n ← db_exec [app] (sql_unsubscribe_by t app);
      match n return M Response with
      | Err _ => deny f "db_error" StatusInternalServerError
      | Ok n =>
          if n =? 0 then deny f "subscription_not_found" StatusNotFound
          else
            succeed f (subscription_fields t app);;
            mret (writeJSON StatusOK (BObject (<["subscribed" := ABool false]> (subscription_fields t app))))
      end
  end.
End handlers.

(** ** admin_audit.go *)

Definition all_stages : list Stage :=
  [StageReceived; StageValidated; StageDispatched; StageDelivered; StageDenied; StageRetried; StageDeferred;
   StageIntrusionKick; StageIntrusionUnmitigated; StageBotNotAdmin; StageTelegramAuthFailed;
   StageKeyIssued; StageKeyRevoked].
Definition validAuditStages : list string := stage_string <$> all_stages.

(** The WHERE clauses: an empty string, no bound or a zero cursor adds none. *)
Record search_filter := mkFilter {
  sf_trace : string; sf_app : string; sf_stage : string;
  sf_since : option Z; sf_until : option Z; sf_before : Z }.

Definition text_matches (want : string) (col : option string) : bool :=
  String.eqb want "" || bool_decide (col = Some want).

(** Instants are compared at the column's microsecond resolution. *)
Definition matches (f : search_filter) (r : AuditRow) : bool :=
  text_matches (sf_trace f) (trace_id (a_cols r)) &&
  text_matches (sf_app f) (app_id (a_cols r)) &&
  text_matches (sf_stage f) (Some (stage (a_cols r))) &&
  match sf_since f with Some t => t / 1000 <=? at_us (a_cols r) | None => true end &&
  match sf_until f with Some t => at_us (a_cols r) <=? t / 1000 | None => true end &&
  ((sf_before f <=? 0) || (a_id r <? sf_before f)).

Definition id_ge (p q : AuditRow) : Prop := a_id q <= a_id p.
#[export] Instance id_ge_dec : RelDecision id_ge.
Proof. intros p q. unfold id_ge. apply _. Defined.
#[export] Instance id_ge_total : Total id_ge.
Proof. intros p q. unfold id_ge. lia. Qed.
#[export] Instance id_ge_trans : Transitive id_ge.
Proof. intros p q r. unfold id_ge. lia. Qed.

(** ORDER BY id DESC LIMIT n. *)
Definition search_rows (f : search_filter) (limit : Z) (db : Database) : list AuditRow :=
  take (Z.to_nat limit) (merge_sort id_ge (List.filter (matches f) (audit_log db))).

(** An optional query parameter: absent, well formed, or malformed. *)
Definition opt_param {A} (s : string) (parse : string → option A) : option (option A) :=
  if String.eqb s "" then Some None else Some <$> parse s.

Definition parse_limit (s : string) : option Z :=
  v ← parse_int s; if (v <=? 0) || (500 <? v) then None else Some v.
Definition parse_before (s : string) : option Z :=
  v ← parse_int s; if v <=? 0 then None else Some v.

Definition search_details (f : search_filter) (limit : Z) (n : nat) : gmap string any :=
  {["result_count" := AInt (Z.of_nat n); "requested_limit" := AInt limit;
    "filter_trace_id" := ABool (negb (String.eqb (sf_trace f) ""));
    "filter_app_id" := AStr (sf_app f); "filter_stage" := AStr (sf_stage f);
    "filter_since" := ABool (bool_decide (is_Some (sf_since f)));
    "filter_until" := ABool (bool_decide (is_Some (sf_until f)));
    "filter_before_id" := AInt (sf_before f)]}.

Section search.
Context `{TG : Telegram} (aw : option Writer).

Definition run_search (f : auditFlow) (flt : search_filter) (limit : Z) : M Response :=
  rows ← db_query [sf_trace flt; sf_app flt; sf_stage flt] (λ _ db, Ok (search_rows flt limit db));
  match rows return M Response with
  | Err _ => deny f "db_error" StatusInternalServerError
  | Ok rows =>
      succeed f (search_details flt limit (length rows));;
      mret (writeJSON StatusOK (BSearch rows limit))
  end.

Definition SearchAudit : Handler := λ r c,
  f ← newAuditFlow r c aw CapAuditSearch;
  received f;;
  match opt_param (r_Query r "limit") parse_limit with
  | None => deny f "invalid_limit" StatusBadRequest
  | Some limit =>
      match opt_param (r_Query r "since") parse_rfc3339 with
      | None => deny f "invalid_since" StatusBadRequest
      | Some since =>
          match opt_param (r_Query r "until") parse_rfc3339 with
          | None => deny f "invalid_until" StatusBadRequest
          | Some until =>
              match opt_param (r_Query r "before_id") parse_before with
              | None => deny f "invalid_before_id" StatusBadRequest
              | Some before =>
                  let st := r_Query r "stage" in
                  if negb (String.eqb st "") && negb (mem st validAuditStages)
                  then deny f "invalid_stage" StatusBadRequest
                  else run_search f (mkFilter (r_Query r "trace_id") (r_Query r "app_id") st since until
                         (default 0 before)) (default 50 limit)
              end
          end
      end
  end.
End search.

(** ** health.go: a ping under a deadline of two seconds *)

Definition HealthHandler `{Telegram} : Handler :=
  Timeout (2 * Second) (λ _ _,
    p ← db_ping;
    mret (match p with
          | Err _ => writeJSON StatusServiceUnavailable (BObject {["ok" := ABool false; "error" := AStr "db_unreachable"]})
          | Ok _ => writeJSON StatusOK (BObject {["ok" := ABool true]})
          end)).

(** ** Well-formedness *)

Section wf.
Lemma wf_update_app app f now db : (∀ a, app_ok a → mem (app_min_grade (f a)) grades = true → app_ok (f a)) →
  db_wf db → db_wf (sql_update_app app f now db).2.
Proof.
  intros Hf Hwf. unfold sql_update_app. destruct (apps db !! app) as [a|] eqn:Ea; [|done].
  destruct (mem _ grades) eqn:Em; [|done]. simpl. destruct Hwf as [Wu Wt Wa Wc Wk Wp Ws Wo Wtok Wau]. constructor; simpl; try done.
  - apply map_Forall_insert_2; [|done]. apply Hf; [|done]. by apply (Wa app).
  - intros x c Hx. apply is_Some_insert. by eapply Wc.
  - intros k v Hk. destruct (Wk k v Hk). split; [by apply is_Some_insert|done].
  - intros u x Hx. destruct (Ws u x Hx). split; [done|by apply is_Some_insert].
  - intros k v Hk. destruct (Wo k v Hk). split; [done|by apply is_Some_insert].
Qed.

Lemma wf_insert_app id name desc g by_ now db : db_wf db → db_wf (sql_insert_app id name desc g by_ now db).2.
Proof.
  intros Hwf. unfold sql_insert_app. destruct (apps db !! id) eqn:Ea; [done|].
  destruct (mem _ grades) eqn:Em; [|done]. unfold mem in Em. go_bools.
  destruct Hwf as [Wu Wt Wa Wc Wk Wp Ws Wo Wtok Wau]. constructor; simpl; try done.
  - apply map_Forall_insert_2; [|done]. by split.
  - intros x c Hx. apply is_Some_insert. by eapply Wc.
  - intros k v Hk. destruct (Wk k v Hk). split; [by apply is_Some_insert|done].
  - intros u x Hx. destruct (Ws u x Hx). split; [done|by apply is_Some_insert].
  - intros k v Hk. destruct (Wo k v Hk). split; [done|by apply is_Some_insert].
Qed.

Lemma wf_add_capability app c now db : db_wf db → db_wf (sql_add_capability app c now db).2.
Proof.
  intros Hwf. unfold sql_add_capability. destruct (apps db !! app) eqn:Ea; [|done].
  destruct Hwf as [Wu Wt Wa Wc Wk Wp Ws Wo Wtok Wau]. constructor; simpl; try done. intros x d. rewrite elem_of_union, elem_of_singleton.
  intros [[= -> ->]|Hx]; [by eexists|by eapply Wc].
Qed.

Lemma wf_remove_capability app c now db : db_wf db → db_wf (sql_remove_capability app c now db).2.
Proof. intros Hwf. destruct Hwf as [Wu Wt Wa Wc Wk Wp Ws Wo Wtok Wau]. constructor; simpl; try done. set_solver. Qed.

Lemma wf_delete_app app now db : db_wf db → db_wf (sql_delete_app app now db).2.
Proof.
  intros Hwf. unfold sql_delete_app. destruct (apps db !! app) eqn:Ea; [|done].
  destruct Hwf as [Wu Wt Wa Wc Wk Wp Ws Wo Wtok Wau]. constructor; simpl; try done.
  - by apply map_Forall_delete.
  - intros x c [Hne Hx]%elem_of_filter. rewrite lookup_delete_ne by done. by eapply Wc.
  - intros k v [Hk Hne]%map_lookup_filter_Some. destruct (Wk k v Hk). split; [|done].
    by rewrite lookup_delete_ne.
  - intros i j k k' [Hi _]%map_lookup_filter_Some [Hj _]%map_lookup_filter_Some. by apply Wp.
  - intros u x [Hne Hx]%elem_of_filter. destruct (Ws u x Hx). split; [done|].
    by rewrite lookup_delete_ne.
  - intros k v [Hk Hne]%map_lookup_filter_Some. destruct (Wo k v Hk). split; [done|].
    by rewrite lookup_delete_ne.
Qed.

Lemma wf_set_grade t g now db : db_wf db → db_wf (sql_set_grade t g now db).2.
Proof.
  intros Hwf. unfold sql_set_grade. destruct (find_by_telegram t db) as [[i u]|]; [|done].
  destruct (mem g grades) eqn:Em; [|done]. unfold mem in Em. go_bools.
  apply wf_sql_update_user; auto with srv.
Qed.

Lemma wf_subscribe i app now db : db_wf db → db_wf (sql_subscribe i app now db).2.
Proof.
  intros Hwf. unfold sql_subscribe. destruct (users db !! i) eqn:Ei, (apps db !! app) eqn:Ea; try done.
  simpl. apply wf_set_subs; [done|]. intros i' a'. rewrite elem_of_union, elem_of_singleton.
  intros [[= -> ->]|Hx]; [rewrite Ei, Ea; split; by eexists|by apply Hwf].
Qed.

Lemma wf_unsubscribe_by t app now db : db_wf db → db_wf (sql_unsubscribe_by t app now db).2.
Proof.
  intros Hwf. unfold sql_unsubscribe_by. destruct (find_by_telegram t db) as [[i u]|]; [|done].
  case_bool_decide; [|done]. simpl. apply wf_set_subs; [done|].
  intros i' a' [Hx _]%elem_of_difference. by apply Hwf.
Qed.

Lemma app_ok_intro a : app_ok a → ∀ f, mem (app_min_grade (f a)) grades = true →
  capability_set_version a <= capability_set_version (f a) → app_ok (f a).
Proof. intros [_ Hv] f Hm Hle. unfold mem in Hm. go_bools. split; [done|lia]. Qed.
End wf.

#[export] Hint Resolve wf_insert_app wf_add_capability wf_remove_capability wf_delete_app wf_set_grade
  wf_subscribe wf_unsubscribe_by : srv.

(** ** Properties the admin API cannot disturb

    What a property of the database needs for every statement of the admin
    handlers to preserve it. *)

Class AdminClosed (P : Database → Prop) := {
  adc_audit :: AuditClosed P;
  adc_insert id name desc g by_ now db : P db → P (sql_insert_app id name desc g by_ now db).2;
  adc_add app c now db : c ∉ forbiddenCapabilities → P db → P (sql_add_capability app c now db).2;
  adc_remove app c now db : P db → P (sql_remove_capability app c now db).2;
  adc_description app d now db : P db → P (sql_update_app app (app_set_description d) now db).2;
  adc_grade app g now db : P db → P (sql_update_app app (app_set_grade g) now db).2;
  adc_active app b now db : P db → P (sql_update_app app (app_set_active b) now db).2;
  adc_bump app now db : P db → P (sql_update_app app app_bump now db).2;
  adc_deactivate app now db : P db → P (sql_update_app app (λ a, app_bump (app_set_active false a)) now db).2;
  adc_delete app now db : P db → P (sql_delete_app app now db).2;
  adc_user t g now db : P db → P (sql_set_grade t g now db).2;
  adc_subscribe i app now db : P db → P (sql_subscribe i app now db).2;
  adc_unsubscribe t app now db : P db → P (sql_unsubscribe_by t app now db).2;
}.

#[export] Instance wf_admin_closed : AdminClosed db_wf.
Proof.
  split; [apply _|..]; intros; auto with srv;
    (apply wf_update_app; [|done]; intros a Ha Hm; apply app_ok_intro; [done..|simpl; lia]).
Qed.

Lemma grant_valid caps : validateCapabilityGrant caps = None → Forall (λ c, c ∉ forbiddenCapabilities) caps.
Proof.
  induction caps as [|c caps IH]; simpl; [constructor|]. unfold mem.
  destruct (bool_decide (c ∈ forbiddenCapabilities)) eqn:E; [done|]. case_match; [done|].
  go_bools. constructor; auto.
Qed.

Lemma grant_status caps code st : validateCapabilityGrant caps = Some (code, st) →
  st = StatusForbidden ∨ st = StatusBadRequest.
Proof.
  induction caps as [|c caps IH]; simpl; [done|]. do 2 (case_match; [naive_solver|]). done.
Qed.

Section admin_inv.
Context `{F : Float64} `{PG : Postgres} `{TG : Telegram} (P : Database → Prop) `{!AdminClosed P}.
Local Abbreviation kept := (keeps (inv_step P)).

Local Hint Extern 2 (P (snd _)) => first
  [simple apply adc_insert | simple apply adc_add | simple apply adc_remove | simple apply adc_description
  |simple apply adc_grade | simple apply adc_active | simple apply adc_bump | simple apply adc_deactivate
  |simple apply adc_delete | simple apply adc_user | simple apply adc_subscribe
  |simple apply adc_unsubscribe] : srv.

Lemma inv_tx_all ms : Forall (λ m, kept m) ms → kept (tx_all ms).
Proof. induction 1; simpl; keeps_all. Qed.

Lemma inv_drop_count m : kept m → kept (drop_count m).
Proof. intros. unfold drop_count. keeps_all. Qed.

Lemma inv_grants app caps : Forall (λ c, c ∉ forbiddenCapabilities) caps →
  Forall (λ m, kept m) ((λ c, tx_exec [app; c] (sql_add_capability app c)) <$> caps).
Proof. intros Hc. apply Forall_fmap. eapply Forall_impl; [exact Hc|]. simpl. intros. keeps_all. Qed.

Lemma inv_patch_statements app req : validateCapabilityGrant (pa_Add req) = None →
  Forall (λ m, kept m) (patch_statements app req).
Proof using Type*.
  intros Hv%grant_valid. unfold patch_statements. repeat apply Forall_cons_2; [keeps_all; done|].
  repeat apply Forall_app_2; try (case_match; [|constructor]; constructor; [|constructor];
    apply inv_drop_count; keeps_all).
  - by apply inv_grants.
  - apply Forall_fmap, Forall_true. intros c. simpl. keeps_all.
Qed.

Local Ltac admin := keeps_all; try done.

Lemma inv_commit_tx f d a : server_writer (af_audit f) → kept (commit_tx f d a).
Proof using Type*. intros. unfold commit_tx. admin. Qed.
Local Hint Resolve inv_commit_tx : srv.

Lemma inv_create_tx f by_ req : server_writer (af_audit f) →
  validateCapabilityGrant (ca_Capabilities req) = None → kept (create_tx f by_ req).
Proof using Type*.
  intros Hf Hv%grant_valid. pose proof (inv_tx_all _ (inv_grants (ca_ID req) _ Hv)).
  unfold create_tx. admin.
Qed.
Lemma inv_patch_tx f app req : server_writer (af_audit f) →
  validateCapabilityGrant (pa_Add req) = None → kept (patch_tx f app req).
Proof using Type*.
  intros Hf Hv. pose proof (inv_tx_all _ (inv_patch_statements app req Hv)). unfold patch_tx. admin.
Qed.
Lemma inv_locked_tx f app stmt details answer : server_writer (af_audit f) →
  (∀ now db, P db → P (stmt now db).2) → kept (locked_tx f app stmt details answer).
Proof using Type*. intros Hf Hs. unfold locked_tx. admin. Qed.
Local Hint Resolve inv_create_tx inv_patch_tx inv_locked_tx : srv.

Context (aw : option Writer) (Haw : server_writer aw).

Local Ltac admin_flow :=
  match goal with Hf : af_audit ?f = aw |- _ => assert (server_writer (af_audit f)) by (by rewrite Hf); clear Hf end; admin.

Lemma inv_Create r c : kept (Create aw r c).
Proof using Type*.
  unfold Create. apply keeps_newAuditFlow; [apply _|auto with srv|]. intros f Hf. admin_flow.
Qed.
Lemma inv_PatchApp r c : kept (PatchApp aw r c).
Proof using Type*.
  unfold PatchApp. apply keeps_newAuditFlow; [apply _|auto with srv|]. intros f Hf. admin_flow.
Qed.
Lemma inv_locked_handler stmt details answer r c : (∀ app now db, P db → P (stmt app now db).2) →
  kept (locked_handler aw stmt details answer r c).
Proof using Type*.
  intros Hs. unfold locked_handler. apply keeps_newAuditFlow; [apply _|auto with srv|].
  intros f Hf. admin_flow.
Qed.

Lemma inv_DeleteApp r c : kept (DeleteApp aw r c).
Proof using Type*. apply inv_locked_handler. auto with srv. Qed.
Lemma inv_Purge r c : kept (Purge aw r c).
Proof using Type*. apply inv_locked_handler. auto with srv. Qed.

Lemma inv_PatchUser r c : kept (PatchUser aw r c).
Proof using Type*.
  unfold PatchUser. apply keeps_newAuditFlow; [apply _|auto with srv|]. intros f Hf. admin_flow.
Qed.
Lemma inv_Subscribe r c : kept (Subscribe aw r c).
Proof using Type*.
  unfold Subscribe. apply keeps_newAuditFlow; [apply _|auto with srv|]. intros f Hf. admin_flow.
Qed.
Lemma inv_Unsubscribe r c : kept (Unsubscribe aw r c).
Proof using Type*.
  unfold Unsubscribe. apply keeps_newAuditFlow; [apply _|auto with srv|]. intros f Hf. admin_flow.
Qed.
Lemma inv_SearchAudit r c : kept (SearchAudit aw r c).
Proof using Type*.
  unfold SearchAudit, run_search. apply keeps_newAuditFlow; [apply _|auto with srv|].
  intros f Hf. admin_flow.
Qed.
End admin_inv.

(** ** Transactions are all or nothing *)

Section atomic.
Context `{F : Float64} `{PG : Postgres} `{TG : Telegram}.

(** A handler started on [db] ended, audit log aside, with [db] as it was and
    another status than [ok], or with a database that satisfies [after]; then
    only the acknowledgement can have been lost. *)
Definition all_or_nothing (db : Database) (after : Database → Prop) (ok : Z) (p : Response * World) : Prop :=
  w_tx p.2 = None ∧
  (sans_audit (w_db p.2) = sans_audit db ∧ rs_Status p.1 ≠ ok ∨
   (∃ db', after db' ∧ sans_audit (w_db p.2) = sans_audit db') ∧
     (rs_Status p.1 = ok ∨ rs_Status p.1 = StatusInternalServerError)).

Lemma aon_deny db after ok f code st w : server_writer (af_audit f) → st ≠ ok → w_tx w = None →
  sans_audit (w_db w) = sans_audit db → all_or_nothing db after ok (deny f code st w).
Proof.
  intros Hf Hst Ht Hd. destruct (audits_deny f code st Hf w) as [D T]. split; [congruence|]. left.
  by rewrite deny_status, D, Hd.
Qed.

Lemma aon_deny_back db after ok f code st w : server_writer (af_audit f) → st ≠ ok →
  sans_audit (w_db w) = sans_audit db →
  all_or_nothing db after ok ((deny f code st w).1, with_tx None (deny f code st w).2).
Proof.
  intros Hf Hst Hd. destruct (audits_deny f code st Hf w) as [D _]. split; [done|]. left. simpl.
  by rewrite deny_status, D, Hd.
Qed.

Lemma aon_commit db db' db'' (after : Database → Prop) ok f details answer w : server_writer (af_audit f) →
  ok ≠ StatusInternalServerError → rs_Status answer = ok →
  w_tx w = Some db' → after db'' → sans_audit db' = sans_audit db'' → sans_audit (w_db w) = sans_audit db →
  all_or_nothing db after ok ((commit_tx f details answer w).1, with_tx None (commit_tx f details answer w).2).
Proof.
  intros Hf Hok Ha Ht Hafter Hs Hd. unfold commit_tx, mbind, st_bind.
  destruct (tx_commit_spec w db' Ht) as [_ Hc]. destruct (tx_commit w) as [[u|e] w1]; simpl in *.
  - destruct (audits_succeed f details Hf w1) as [D _]. destruct (succeed f details w1) as [v w2].
    split; [done|]. right. split; [|by left]. exists db''. split; [done|]. simpl in *. rewrite D, <- Hs.
    destruct Hc as [->|[_ [? ?]]]; done.
  - destruct (audits_deny f "db_error" StatusInternalServerError Hf w1) as [D _]. split; [done|]. simpl in *.
    rewrite deny_status, D. destruct Hc as [->|[-> _]]; [right|left]; eauto.
Qed.

Lemma aon_flow after ok r c aw cap (k : auditFlow → M Response) w : server_writer aw → w_tx w = None →
  (∀ f w', af_audit f = aw → sans_audit (w_db w') = sans_audit (w_db w) → w_tx w' = None →
     all_or_nothing (w_db w) after ok (k f w')) →
  all_or_nothing (w_db w) after ok ((f ← newAuditFlow r c aw cap; received f;; k f) w).
Proof.
  intros Haw Ht Hk. rewrite bind_run, newAuditFlow_eq. set (f := mkFlow _ _ _). set (w1 := with_uuid_n _ _).
  rewrite bind_run. destruct (audits_received f Haw w1) as [D T]. destruct (received f w1) as [u w2].
  apply Hk; [done|exact D|]. by rewrite <- Ht.
Qed.

Lemma aon_begin db after ok f (m : M Response) w : server_writer (af_audit f) →
  ok ≠ StatusInternalServerError → w_tx w = None → sans_audit (w_db w) = sans_audit db →
  (∀ w', w_db w' = w_db w → w_tx w' = Some (w_db w) →
     all_or_nothing db after ok ((m w').1, with_tx None (m w').2)) →
  all_or_nothing db after ok
    ((b ← tx_begin; match b with Err _ => deny f "db_error" StatusInternalServerError
                               | Ok _ => rolling_back m end) w).
Proof.
  intros Hf Hok Ht Hd Hm. rewrite bind_run. destruct (tx_begin_spec w) as (D1&H1&H2).
  destruct (tx_begin w) as [[u|e] w1]; simpl in *.
  - rewrite rolling_back_eq. eauto.
  - apply aon_deny; [done|done|rewrite (H2 e); congruence|congruence].
Qed.

(** A statement that, when it succeeds, maps the private copy by [g]. *)
Definition runs_as (m : M (result ())) (g : Database → Database) : Prop := ∀ w,
  w_db (m w).2 = w_db w ∧
  ∀ u, (m w).1 = Ok u → ∃ db, w_tx w = Some db ∧ w_tx (m w).2 = Some (g db).

Lemma runs_tx_exec args (f : Z → Database → result () * Database) g :
  (∀ now db u, (f now db).1 = Ok u → (f now db).2 = g db) → runs_as (tx_exec args f) g.
Proof.
  intros Hg w. destruct (tx_exec_spec args f w) as [D H]. split; [done|].
  intros u Hu. destruct (H u Hu) as (db&now&Ht&Hf&Ht'). exists db. by rewrite Ht', (Hg now db u Hf).
Qed.

Lemma runs_drop_count args (f : Z → Database → result Z * Database) g :
  (∀ now db n, (f now db).1 = Ok n → (f now db).2 = g db) → runs_as (drop_count (tx_exec args f)) g.
Proof.
  intros Hg w. destruct (tx_exec_spec args f w) as [D H]. unfold drop_count, mbind, st_bind.
  destruct (tx_exec args f w) as [[n|e] w1]; simpl in *; [|done]. split; [done|].
  intros u _. destruct (H n eq_refl) as (db&now&Ht&Hf&Ht'). exists db. by rewrite Ht', (Hg now db n Hf).
Qed.

Lemma runs_tx_all ms gs : Forall2 runs_as ms gs → ∀ w db, w_tx w = Some db →
  w_db (tx_all ms w).2 = w_db w ∧
  ∀ u, (tx_all ms w).1 = Ok u → w_tx (tx_all ms w).2 = Some (foldl (λ d g, g d) db gs).
Proof.
  induction 1 as [|m g ms gs Hm _ IH]; intros w db Ht; [done|]. simpl. unfold mbind, st_bind.
  destruct (Hm w) as [D H]. destruct (m w) as [[u|e] w1]; simpl in *; [|done].
  destruct (H u eq_refl) as (db0&Ht0&Ht1). assert (db0 = db) as -> by congruence.
  destruct (IH w1 _ Ht1) as [D' H']. split; [congruence|done].
Qed.
End atomic.

(** ** What a patch means *)

Definition patched_app (req : patchAppRequest) (a : AppRow) : AppRow :=
  mkApp (app_name a) (default (app_description a) (pa_Description req))
    (default (app_min_grade a) (pa_MinGrade req)) (default (app_active a) (pa_Active req))
    (app_created_at a) (app_updated_at a)
    (capability_set_version a + if caps_changed req then 1 else 0) (app_created_by a).

Definition granted (app : string) (caps : list string) : gset (string * string) :=
  list_to_set ((λ c, (app, c)) <$> caps).

Definition apply_patch (app : string) (req : patchAppRequest) (db : Database) : Database :=
  set_apps (alter (patched_app req) app)
    (set_capabilities (λ s, (s ∪ granted app (pa_Add req)) ∖ granted app (pa_Remove req)) db).

Section patch.
Context `{F : Float64} `{PG : Postgres} `{TG : Telegram}.

(** The effect of each statement of a patch. *)
Definition patch_effects (app : string) (req : patchAppRequest) : list (Database → Database) :=
  id ::
  (match pa_Description req with Some d => [set_apps (alter (app_set_description d) app)] | None => [] end) ++
  (match pa_MinGrade req with Some g => [set_apps (alter (app_set_grade g) app)] | None => [] end) ++
  (match pa_Active req with Some b => [set_apps (alter (app_set_active b) app)] | None => [] end) ++
  ((λ c, set_capabilities (λ s, s ∪ {[(app, c)]})) <$> pa_Add req) ++
  ((λ c, set_capabilities (λ s, s ∖ {[(app, c)]})) <$> pa_Remove req) ++
  (if caps_changed req then [set_apps (alter app_bump app)] else []).

Lemma update_app_alter app f now db n : (sql_update_app app f now db).1 = Ok n →
  (sql_update_app app f now db).2 = set_apps (alter f app) db.
Proof.
  unfold sql_update_app, set_apps. rewrite alter_alt. destruct (apps db !! app); [|by destruct db].
  by case_match.
Qed.

Lemma add_capability_union app c now db u : (sql_add_capability app c now db).1 = Ok u →
  (sql_add_capability app c now db).2 = set_capabilities (λ s, s ∪ {[(app, c)]}) db.
Proof.
  unfold sql_add_capability. case_match; [|done]. intros _. simpl. unfold set_capabilities. f_equal. set_solver.
Qed.

Lemma patch_runs app req : Forall2 runs_as (patch_statements app req) (patch_effects app req).
Proof.
  unfold patch_statements, patch_effects.
  apply Forall2_cons. split; [by apply runs_tx_exec|].
  repeat apply Forall2_app; try (case_match; [|by constructor]; apply Forall2_cons; split; [|by constructor];
    apply runs_drop_count, update_app_alter).
  - apply Forall2_fmap, Forall_Forall2_diag, Forall_true. intros c. apply runs_tx_exec, add_capability_union.
  - apply Forall2_fmap, Forall_Forall2_diag, Forall_true. intros c. by apply runs_tx_exec.
Qed.

Lemma fold_grants app caps db :
  foldl (λ d g, g d) db ((λ c, set_capabilities (λ s, s ∪ {[(app, c)]})) <$> caps) =
  set_capabilities (λ s, s ∪ granted app caps) db.
Proof.
  revert db. induction caps as [|c caps IH]; intros db; simpl.
  - destruct db. unfold set_capabilities, granted. simpl. f_equal. set_solver.
  - rewrite IH. unfold set_capabilities, granted. simpl. f_equal. set_solver.
Qed.

Lemma fold_revokes app caps db :
  foldl (λ d g, g d) db ((λ c, set_capabilities (λ s, s ∖ {[(app, c)]})) <$> caps) =
  set_capabilities (λ s, s ∖ granted app caps) db.
Proof.
  revert db. induction caps as [|c caps IH]; intros db; simpl.
  - destruct db. unfold set_capabilities, granted. simpl. f_equal. set_solver.
  - rewrite IH. unfold set_capabilities, granted. simpl. f_equal. set_solver.
Qed.

Lemma patch_effects_apply app req db : foldl (λ d g, g d) db (patch_effects app req) = apply_patch app req db.
Proof.
  unfold patch_effects. simpl. rewrite !foldl_app, fold_revokes, fold_grants.
  unfold apply_patch, patched_app. destruct (pa_Description req), (pa_MinGrade req), (pa_Active req),
    (caps_changed req); destruct db; unfold set_apps, set_capabilities; simpl; f_equal;
    apply map_eq; intros k; (destruct (decide (k = app)) as [->|];
      [rewrite ?lookup_alter_eq; destruct (_ !! app) as [[]|]; unfold app_bump, app_set_active, app_set_grade, app_set_description;
       simpl; repeat f_equal; lia
      |by rewrite ?lookup_alter_ne by done]).
Qed.

Lemma sans_apply_patch app req d1 d2 : sans_audit d1 = sans_audit d2 →
  sans_audit (apply_patch app req d1) = sans_audit (apply_patch app req d2).
Proof. intros H. change (apply_patch app req (sans_audit d1) = apply_patch app req (sans_audit d2)). by rewrite H. Qed.

Lemma sans_apps d1 d2 : sans_audit d1 = sans_audit d2 → apps d1 = apps d2.
Proof. intros H. change (apps (sans_audit d1) = apps (sans_audit d2)). by rewrite H. Qed.

Lemma patch_tx_atomic db (after : Database → Prop) f app req w : server_writer (af_audit f) →
  w_tx w = Some (w_db w) → sans_audit (w_db w) = sans_audit db →
  (is_Some (apps db !! app) → after (apply_patch app req db)) →
  all_or_nothing db after StatusOK ((patch_tx f app req w).1, with_tx None (patch_tx f app req w).2).
Proof.
  intros Hf Ht Hd Hafter. unfold patch_tx. pose proof (runs_tx_all _ _ (patch_runs app req)) as HR.
  setoid_rewrite patch_effects_apply in HR. revert HR. generalize (tx_all (patch_statements app req)). intros T HR.
  rewrite bind_run.
  destruct (tx_exec_spec [app] (λ _ d, (Ok (bool_decide (is_Some (apps d !! app))), d)) w) as [D H].
  unfold tx_query. destruct (tx_exec _ _ w) as [[ok|e] w1]; simpl in *; [|apply aon_deny_back; [done..|congruence]].
  destruct (H ok eq_refl) as (d&now&Ht1&[= <-]&Ht2). assert (d = w_db w) as -> by congruence.
  case_bool_decide as Happ; [|apply aon_deny_back; [done..|congruence]].
  rewrite bind_run. destruct (HR w1 _ Ht2) as [D2 H2].
  destruct (T w1) as [[u|e] w2]; simpl in *; [|apply aon_deny_back; [done..|congruence]].
  eapply aon_commit; [done..|by apply (H2 u)| | |congruence].
  - apply Hafter. by rewrite <- (sans_apps _ _ Hd).
  - by apply sans_apply_patch.
Qed.
End patch.

Section theorems.
Context `{F : Float64} `{PG : Postgres} `{TG : Telegram}.

(** C16: patching an app is atomic and means what it says.  Whatever calls
    fail, the request leaves every table but the audit log as it was and is
    not answered 200, or it applies the whole patch: the given columns are
    replaced, the listed capabilities are added and then removed, the version
    goes up by one exactly when a capability list was given, and only the
    acknowledgement may be lost.  It takes a body that decodes, a known app, a
    known grade, and no management capability among those added. *)
Theorem patch_atomic aw r c w :
  server_writer aw → w_tx w = None →
  let app := r_Param r "id" in
  all_or_nothing (w_db w)
    (λ db', ∃ req, decodeStrict patch_fields zero_patch r = Some req ∧ is_Some (apps (w_db w) !! app) ∧
       (∀ g, pa_MinGrade req = Some g → g ∈ grades) ∧
       (∀ cap, cap ∈ pa_Add req → cap ∉ forbiddenCapabilities) ∧
       db' = apply_patch app req (w_db w))
    StatusOK (PatchApp aw r c w).
Proof.
  intros Haw Ht app. unfold PatchApp. apply aon_flow; [done..|]. intros f w1 Hf D T. rewrite <- Hf in Haw.
  destruct (decodeStrict patch_fields zero_patch r) as [req|] eqn:Ed; [|by apply aon_deny].
  destruct (match pa_MinGrade req with Some g => _ | None => _ end) eqn:Eg; [by apply aon_deny|].
  destruct (validateCapabilityGrant (pa_Add req)) as [[code st]|] eqn:Ev.
  { apply aon_deny; [done| |done..]. by destruct (grant_status _ _ _ Ev) as [-> | ->]. }
  apply aon_begin; [done..|]. intros w2 D2 T2. apply patch_tx_atomic; [done|congruence..|].
  intros Happ. exists req. split_and!; [done|done| | |done].
  - intros g Hg. rewrite Hg in Eg. by apply negb_false_iff, bool_decide_eq_true in Eg.
  - apply grant_valid in Ev. intros cap Hc. rewrite Forall_forall in Ev. by apply Ev.
Qed.

Lemma locked_tx_atomic db (after : Database → Prop) f app stmt details answer w : server_writer (af_audit f) →
  w_tx w = Some (w_db w) → sans_audit (w_db w) = sans_audit db →
  (∀ now n, (stmt now (w_db w)).1 = Ok n → n ≠ 0 →
     ∃ db', after db' ∧ sans_audit (stmt now (w_db w)).2 = sans_audit db') →
  all_or_nothing db after StatusOK
    ((locked_tx f app stmt details answer w).1, with_tx None (locked_tx f app stmt details answer w).2).
Proof.
  intros Hf Ht Hd Hafter. unfold locked_tx. rewrite bind_run.
  destruct (tx_exec_spec [app] (λ _ d, (Ok (), d)) w) as [D H].
  destruct (tx_exec _ _ w) as [[u|e] w1]; simpl in *; [|apply aon_deny_back; [done..|congruence]].
  destruct (H u eq_refl) as (d&_&Ht1&_&Ht2). assert (d = w_db w) as -> by congruence.
  rewrite bind_run. destruct (tx_exec_spec [app] stmt w1) as [D2 H2].
  destruct (tx_exec [app] stmt w1) as [[n|e] w2]; simpl in *; [|apply aon_deny_back; [done..|congruence]].
  destruct (H2 n eq_refl) as (d&now&Ht3&Hok&Ht4). assert (d = w_db w) as -> by congruence.
  destruct (Z.eqb_spec n 0); [apply aon_deny_back; [done..|congruence]|].
  destruct (Hafter now n Hok ltac:(done)) as (db'&?&?).
  eapply aon_commit; [done..|congruence].
Qed.

(** C17: purging an app is atomic and complete.  Whatever calls fail, either
    nothing but the audit log changes, or the app is gone with every
    capability, key, subscription and topic that referred to it, and nothing
    else: other apps and their rows, users and tokens stay. *)
Theorem purge_complete aw r c w :
  server_writer aw → w_tx w = None →
  let app := r_Param r "id" in let db := w_db w in
  all_or_nothing db
    (λ db', is_Some (apps db !! app) ∧ apps db' = delete app (apps db) ∧
       (∀ a cap, (a, cap) ∈ app_capabilities db' ↔ (a, cap) ∈ app_capabilities db ∧ a ≠ app) ∧
       (∀ i k, app_keys db' !! i = Some k ↔ app_keys db !! i = Some k ∧ k_app_id k ≠ app) ∧
       (∀ i a, (i, a) ∈ user_subscriptions db' ↔ (i, a) ∈ user_subscriptions db ∧ a ≠ app) ∧
       (∀ i a t, user_topics db' !! (i, a) = Some t ↔ user_topics db !! (i, a) = Some t ∧ a ≠ app) ∧
       users db' = users db ∧ pending_tokens db' = pending_tokens db ∧ policies db' = policies db)
    StatusOK (Purge aw r c w).
Proof.
  intros Haw Ht app db. unfold Purge, locked_handler. apply aon_flow; [done..|].
  intros f w1 Hf D T. rewrite <- Hf in Haw. apply aon_begin; [done..|]. intros w2 D2 T2.
  apply locked_tx_atomic; [done|congruence..|]. intros now n Hok Hn.
  exists (sql_delete_app app now db).2. rewrite D2 in *. fold app in Hok |- *.
  assert (apps (w_db w1) = apps db) as Ha by (by apply sans_apps).
  unfold sql_delete_app in *. rewrite Ha in *. destruct (apps db !! app) as [a|] eqn:Ea; [|naive_solver].
  simpl. split.
  - split_and!; try done.
    + intros. rewrite elem_of_filter. naive_solver.
    + intros. rewrite map_lookup_filter_Some. naive_solver.
    + intros. rewrite elem_of_filter. naive_solver.
    + intros. rewrite map_lookup_filter_Some. naive_solver.
  - change (without_app app (sans_audit (w_db w1)) = without_app app (sans_audit db)).
    by rewrite D.
Qed.
End theorems.

Definition sample_request (meth path : string) (param : list (string * string)) (j : json) : HttpRequest :=
  mkRequest meth path "" "trace" "" (λ _, "") (λ k, default "" (snd <$> find_first (λ p, String.eqb p.1 k) param))
    (Some j).

Lemma patch_atomic_witness :
  let r := sample_request "PATCH" "/admin/apps/alerts" [("id", "alerts")]
    (JObj [("min_grade", JStr "admin"); ("add_capabilities", JArr [JStr CapMessagesTopic])]) in
  let run := PatchApp (TG := recorder) (Some (PgWriter (PG := text_order))) r (mkCtx "trace" None)
    (rec_world 0 sample_db) in
  all_or_nothing (TG := recorder) sample_db
      (λ db', ∃ req, decodeStrict patch_fields zero_patch r = Some req ∧ is_Some (apps sample_db !! "alerts") ∧
         (∀ g, pa_MinGrade req = Some g → g ∈ grades) ∧
         (∀ cap, cap ∈ pa_Add req → cap ∉ forbiddenCapabilities) ∧
         db' = apply_patch "alerts" req sample_db)
      StatusOK run ∧
  rs_Status run.1 = StatusOK.
Proof.
  intros r run. split.
  - apply (patch_atomic (TG := recorder) (PG := text_order)); [by right|reflexivity].
  - vm_compute. reflexivity.
Defined.

Lemma purge_complete_witness :
  let r := sample_request "DELETE" "/admin/apps/alerts/purge" [("id", "alerts")] JNull in
  let run := Purge (TG := recorder) (Some (PgWriter (PG := text_order))) r (mkCtx "trace" None)
    (rec_world 0 sample_db) in
  w_tx run.2 = None ∧ apps (w_db run.2) !! "alerts" = None.
Proof.
  intros r run.
  destruct (purge_complete (TG := recorder) (PG := text_order) (Some (PgWriter (PG := text_order))) r
    (mkCtx "trace" None) (rec_world 0 sample_db)) as [Ht _]; [by right|reflexivity|].
  split; [exact Ht|]. vm_compute. reflexivity.
Defined.

(** ** Searching the audit log *)

Definition id_gt (p q : AuditRow) : Prop := a_id q < a_id p.

(** The matching rows, the newest first. *)
Definition newest_first (f : search_filter) (log : list AuditRow) : list AuditRow :=
  rev (List.filter (matches f) log).

Definition from_cursor (f : search_filter) (id : Z) : search_filter :=
  mkFilter (sf_trace f) (sf_app f) (sf_stage f) (sf_since f) (sf_until f) id.

(** A client that asks for page after page, each time before the last row it
    has seen, until a page is empty. *)
Fixpoint walk (fuel : nat) (f : search_filter) (limit : Z) (db : Database) : list AuditRow :=
  match fuel with
  | O => []
  | S n =>
      let page := search_rows f limit db in
      page ++ match last page with Some r => walk n (from_cursor f (a_id r)) limit db | None => [] end
  end.

Lemma ids_sorted_rev log : ids_sorted log → StronglySorted id_gt (rev log).
Proof.
  induction log as [|r log IH] using rev_ind; simpl; [constructor|].
  rewrite ids_sorted_snoc, rev_unit. intros [Hs Hf]. constructor; [by apply IH|].
  apply Forall_rev. exact Hf.
Qed.

Lemma ids_sorted_filter p log : ids_sorted log → ids_sorted (List.filter p log).
Proof.
  induction log as [|r log IH] using rev_ind; simpl; [done|].
  rewrite ids_sorted_snoc, List.filter_app. intros [Hs Hf]. simpl. destruct (p r).
  - rewrite ids_sorted_snoc. split; [by apply IH|]. rewrite Forall_forall in Hf |- *.
    intros x Hx. apply Hf. apply list_elem_of_In in Hx. apply list_elem_of_In. by apply List.filter_In in Hx as [? _].
  - rewrite app_nil_r. by apply IH.
Qed.

Lemma newest_first_sorted f log : ids_sorted log → StronglySorted id_gt (newest_first f log).
Proof. intros Hs. by apply ids_sorted_rev, ids_sorted_filter. Qed.

Lemma id_gt_ge l : StronglySorted id_gt l → StronglySorted id_ge l.
Proof.
  induction 1 as [|r l _ IH Hf]; constructor; [done|]. eapply Forall_impl; [exact Hf|].
  unfold id_gt, id_ge. intros. lia.
Qed.

Lemma id_gt_inj l x y : StronglySorted id_gt l → x ∈ l → y ∈ l → a_id x = a_id y → x = y.
Proof.
  induction 1 as [|r l _ IH Hf]; [set_solver|]. rewrite Forall_forall in Hf. unfold id_gt in Hf.
  rewrite !elem_of_cons. intros [->|Hx] [->|Hy] He; [done| | |by apply IH].
  - specialize (Hf y Hy). lia.
  - specialize (Hf x Hx). lia.
Qed.

(** Sorting the rows of the table is reversing them. *)
Lemma search_rows_newest f limit db : ids_sorted (audit_log db) →
  search_rows f limit db = take (Z.to_nat limit) (newest_first f (audit_log db)).
Proof.
  intros Hs. unfold search_rows, newest_first. f_equal.
  set (l := List.filter (matches f) (audit_log db)).
  assert (StronglySorted id_gt (rev l)) as Hr by (by apply ids_sorted_rev, ids_sorted_filter).
  apply (StronglySorted_unique_strong id_ge).
  - intros x y Hx Hy H1 H2. rewrite merge_sort_Permutation in Hx.
    apply (id_gt_inj (rev l)); [done| |done|unfold id_ge in *; lia].
    apply list_elem_of_In, List.in_rev. rewrite rev_involutive. by apply list_elem_of_In.
  - apply StronglySorted_merge_sort; apply _.
  - by apply id_gt_ge.
  - rewrite merge_sort_Permutation. by rewrite <- Permutation_rev.
Qed.

Lemma matches_cursor f id r : 0 < id → sf_before f <= 0 ∨ id <= sf_before f →
  matches (from_cursor f id) r = (a_id r <? id) && matches f r.
Proof.
  intros Hid Hb. unfold matches, from_cursor. simpl. rewrite (proj2 (Z.leb_gt id 0)) by lia. simpl.
  rewrite andb_comm. destruct (Z.ltb_spec (a_id r) id); [|done]. simpl.
  assert ((sf_before f <=? 0) || (a_id r <? sf_before f) = true) as ->; [|by rewrite andb_true_r].
  apply orb_true_iff. rewrite Z.leb_le, Z.ltb_lt. lia.
Qed.

Lemma newest_first_cursor f id log : 0 < id → sf_before f <= 0 ∨ id <= sf_before f →
  newest_first (from_cursor f id) log = List.filter (λ r, a_id r <? id) (newest_first f log).
Proof.
  intros Hid Hb. unfold newest_first. rewrite List.filter_rev. f_equal.
  induction log as [|r log IH]; simpl; [done|]. rewrite matches_cursor by done.
  destruct (matches f r); simpl; [|by rewrite andb_false_r]. destruct (a_id r <? id); simpl; by rewrite IH.
Qed.

Lemma filter_all {A} (p : A → bool) l : Forall (λ x, p x = true) l → List.filter p l = l.
Proof. induction 1 as [|x l Hx _ IH]; simpl; [done|]. by rewrite Hx, IH. Qed.

Lemma filter_after l1 r l2 : StronglySorted id_gt (l1 ++ r :: l2) →
  List.filter (λ x, a_id x <? a_id r) (l1 ++ r :: l2) = l2.
Proof.
  induction l1 as [|x l1 IH]; simpl; inversion 1 as [|?? Hs Hf]; subst.
  - rewrite Z.ltb_irrefl. apply filter_all. eapply Forall_impl; [exact Hf|].
    unfold id_gt. intros y Hy. by apply Z.ltb_lt.
  - assert (id_gt x r) as Hx by (rewrite Forall_forall in Hf; apply Hf; set_solver).
    unfold id_gt in Hx. rewrite (proj2 (Z.ltb_ge _ _)) by lia. by apply IH.
Qed.

Lemma take_last {A} n (l : list A) r : last (take n l) = Some r → ∃ l1, take n l = l1 ++ [r] ∧ l = l1 ++ r :: drop n l.
Proof.
  intros [l1 Hl]%last_Some. exists l1. split; [done|].
  rewrite <- (take_drop n l) at 1. by rewrite Hl, <- app_assoc.
Qed.

Lemma newest_first_matches f log r : r ∈ newest_first f log → r ∈ log ∧ matches f r = true.
Proof.
  unfold newest_first. rewrite list_elem_of_In, <- List.in_rev, List.filter_In, list_elem_of_In. done.
Qed.

(** After a page of [n] rows the cursor leaves the rows that follow it. *)
Lemma cursor_rest f n db r :
  ids_sorted (audit_log db) → Forall (λ r, 0 < a_id r) (audit_log db) →
  last (take n (newest_first f (audit_log db))) = Some r →
  newest_first (from_cursor f (a_id r)) (audit_log db) = drop n (newest_first f (audit_log db)) ∧
  newest_first f (audit_log db) ≠ [].
Proof.
  intros Hs Hpos. set (L := newest_first f (audit_log db)). intros El.
  assert (StronglySorted id_gt L) as HL by (by apply newest_first_sorted).
  destruct (take_last _ _ _ El) as (l1&Ht&Hl).
  assert (r ∈ L) as Hr by (rewrite Hl; set_solver). split; [|by intros E; rewrite E in Hr; set_solver].
  destruct (newest_first_matches _ _ _ Hr) as [Hin Hm].
  rewrite Forall_forall in Hpos. specialize (Hpos r Hin). rewrite newest_first_cursor; [|done|].
  - fold L. rewrite Hl at 1. apply filter_after. by rewrite <- Hl.
  - unfold matches in Hm. apply andb_true_iff in Hm as [_ Hm]. apply orb_true_iff in Hm.
    rewrite Z.leb_le, Z.ltb_lt in Hm. lia.
Qed.

(** Searching the audit log by pages finds everything.  On a table whose
    ids ascend, a client that follows the cursor gets every row that matches the
    filter, exactly once, the newest first, whatever the page size. *)
Theorem walk_complete fuel f limit db :
  ids_sorted (audit_log db) → Forall (λ r, 0 < a_id r) (audit_log db) → 0 < limit →
  (length (newest_first f (audit_log db)) < fuel)%nat →
  walk fuel f limit db = newest_first f (audit_log db).
Proof.
  intros Hs Hpos Hlim. revert f. induction fuel as [|n IH]; intros f Hn; [lia|]. simpl.
  rewrite search_rows_newest by done. set (L := newest_first f (audit_log db)) in *.
  destruct (last (take (Z.to_nat limit) L)) as [r|] eqn:El.
  - destruct (cursor_rest f _ db r Hs Hpos El) as [Hc Hne]. fold L in Hc, Hne.
    rewrite IH, Hc; [by rewrite take_drop|]. rewrite Hc, length_drop. destruct L; simpl in *; [done|lia].
  - apply last_None in El. rewrite El. destruct L as [|x L]; [done|].
    destruct (Z.to_nat limit) eqn:E; [lia|done].
Qed.

(** Three events, two of which match, read one at a time. *)
Definition sample_cols (stage : string) (at_ : Z) : AuditCols :=
  event_cols at_ "{}" (zero_event (if String.eqb stage "denied" then StageDenied else StageReceived)).

Definition sample_log_db : Database :=
  recorded (sample_cols "denied" 3) (recorded (sample_cols "received" 2) (recorded (sample_cols "denied" 1) empty_db)).

Lemma walk_complete_witness :
  a_id <$> walk 4 (mkFilter "" "" "denied" None None 0) 1 sample_log_db = [3; 1].
Proof.
  rewrite (walk_complete 4 (mkFilter "" "" "denied" None None 0) 1 sample_log_db).
  - vm_compute. reflexivity.
  - unfold ids_sorted. vm_compute. repeat constructor.
  - vm_compute. repeat constructor.
  - lia.
  - vm_compute. lia.
Defined.
