(* ===== verification/Router.v ===== *)
(** * The HTTP server

    [internal/api/server.go]: the router with its middleware, the routes and the
    capability each requires; and the part of [cmd/server/main.go] that wires
    the dependencies.

    chi, the router library, is an interface: [Mux] says which of a list of
    routes a request matches and with which URL parameters.  As documented,
    the middleware of a group runs before its routes are searched, so a request
    to an unknown path of a group is authenticated first.  [middleware.Recover]
    passes on what a handler returns and is left out. *)

From stdpp Require Import base gmap list strings.
From Stdlib Require Import ZArith QArith Lia.
From S2P Require Import Prelude GoStrings AuditChain RateLimit World AuditLog Auth Registry Strategy.
From S2P Require Import Dispatch Http Messages AdminApi.

Local Open Scope string_scope.
Local Open Scope Z_scope.
Local Open Scope list_scope.

(** ** Routing *)

Inductive routed :=
| RFound (i : nat) (params : string → string)
| RNotFound
| RMethodNotAllowed.

(** [mux_find prefix routes r]: the route, as a method and a pattern, of the
    group mounted at [prefix] that the request selects. *)
Class Mux := { mux_find : string → list (string * string) → HttpRequest → routed }.

Definition with_params (r : HttpRequest) (ps : string → string) : HttpRequest :=
  mkRequest (r_Method r) (r_Path r) (r_Authorization r) (r_TraceHeader r) (r_RemoteAddr r) (r_Query r) ps (r_Body r).

Definition not_found : Response := writeJSON StatusNotFound (BText "404 page not found").
Definition method_not_allowed : Response := writeJSON StatusMethodNotAllowed (BText "").

Definition HandlerTimeout : Z := 30 * Second.

Section router.
Context `{F : Float64} `{A2 : Argon2} `{PG : Postgres} `{TG : Telegram} `{X : Mux}.

Record Deps := mkDeps {
  dep_Audit : option Writer;
  dep_Resolver : string → M (result RequesterIdentity);
  dep_ReqLimit : option RateLimiter;
  dep_Direct : RouteStrategy;
  dep_Topic : RouteStrategy;
  dep_Broadcast : RouteStrategy;
  dep_DirectDM : RouteStrategy;
  dep_Dispatcher : Dispatcher;
}.

(** A route: method, pattern, required capability, handler. *)
Record route := mkRoute { rt_Method : string; rt_Pattern : string; rt_Cap : string; rt_Handler : Handler }.

Definition search (prefix : string) (routes : list route) (r : HttpRequest) : routed :=
  mux_find prefix ((λ t, (rt_Method t, rt_Pattern t)) <$> routes) r.

(** The search, then the capability check of the route found. *)
Definition select (d : Deps) (prefix : string) (routes : list route) : Handler := λ r c,
  match search prefix routes r with
  | RFound i ps =>
      match routes !! i with
      | Some t => RequireCapability (rt_Cap t) (dep_Audit d) (rt_Handler t) (with_params r ps) c
      | None => mret not_found
      end
  | RNotFound => mret not_found
  | RMethodNotAllowed => mret method_not_allowed
  end.

(** A group: its middleware, then its routes. *)
Definition group (d : Deps) (prefix : string) (routes : list route) : Handler :=
  Timeout HandlerTimeout (Auth (dep_Resolver d) (dep_Audit d) (RateLimit (dep_ReqLimit d)
    (select d prefix routes))).

Definition admin_routes (d : Deps) : list route :=
  [mkRoute "POST" "/apps" CapAppsRegister (Create (dep_Audit d));
   mkRoute "PATCH" "/apps/{id}" CapAppsRegister (PatchApp (dep_Audit d));
   mkRoute "DELETE" "/apps/{id}" CapAppsRegister (DeleteApp (dep_Audit d));
   mkRoute "DELETE" "/apps/{id}/purge" CapAppsRegister (Purge (dep_Audit d));
   mkRoute "PATCH" "/users/{telegram_id}" CapUsersPromote (PatchUser (dep_Audit d));
   mkRoute "POST" "/users/{telegram_id}/subscriptions/{app_id}" CapAppsRegister (Subscribe (dep_Audit d));
   mkRoute "DELETE" "/users/{telegram_id}/subscriptions/{app_id}" CapAppsRegister (Unsubscribe (dep_Audit d));
   mkRoute "GET" "/audit/search" CapAuditSearch (SearchAudit (dep_Audit d))].

Definition v1_routes (d : Deps) : list route :=
  [mkRoute "POST" "/messages/direct" CapMessagesDirect
     (DirectHandler (dep_Direct d) (dep_Dispatcher d) (dep_Audit d));
   mkRoute "POST" "/messages/topic" CapMessagesTopic
     (TopicHandler (dep_Topic d) (dep_Dispatcher d) (dep_Audit d));
   mkRoute "POST" "/messages/broadcast" CapMessagesBroadcast
     (BroadcastHandler (dep_Broadcast d) (dep_Dispatcher d) (dep_Audit d));
   mkRoute "POST" "/messages/direct-dm" CapMessagesDirectDM
     (DirectDMHandler (dep_DirectDM d) (dep_Dispatcher d) (dep_Audit d))].

(** The top level: the health check and the two mounted groups. *)
Definition top_routes : list (string * string) := [("GET", "/healthz"); ("*", "/admin/*"); ("*", "/v1/*")].

Definition NewRouter (size : body → Z) (d : Deps) : Handler :=
  RequestID (Recover (AccessLog size (panic_free (λ r c,
    match mux_find "" top_routes r with
    | RFound 0 _ => HealthHandler r c
    | RFound 1 _ => group d "/admin" (admin_routes d) r c
    | RFound 2 _ => group d "/v1" (v1_routes d) r c
    | RMethodNotAllowed => mret method_not_allowed
    | _ => mret not_found
    end)))).

(** ** Wiring: cmd/server/main.go *)

Definition default_policy : Policy := mkPolicy 100 100.

(** [PolicyLoader.Load]: the policies of a scope. *)
Definition PolicyLoader_Load (scope : string) : M (result (gmap string Policy)) :=
  (let? rows := db_query [scope] (λ _ db, Ok (plan (omap
       (λ '(sc, target, rate, burst), if String.eqb sc scope then Some (target, rate, burst) else None)
       (policies db))))
     else e => mret (Err (Wrap ("ratelimit: load policies (scope=" +:+ scope +:+ "): ") e "")) ;;
   mret (Ok (Load rows)))%go.

Definition BuildRequestLimiter (scope : string) (def : Policy) : M (result RateLimiter) :=
  (let? overrides := PolicyLoader_Load scope else e => mret (Err e) ;;
   mret (Ok (request_limiter (request_policy def overrides))))%go.

(** [Reload]: callers build a new limiter from it. *)
Definition PolicyLoader_Reload (scope : string) : M (result (gmap string Policy)) := PolicyLoader_Load scope.

Definition server_deps (rl : RateLimiter) : Deps :=
  mkDeps (Some PgWriter) Resolve (Some rl) DirectStrategy TopicStrategy BroadcastAllStrategy DirectDMStrategy
    (tg_dispatcher (Some dispatch_limiter)).

(** One request, from an empty context. *)
Definition serve (size : body → Z) (d : Deps) (r : HttpRequest) : M Response :=
  NewRouter size d r (mkCtx "" None).
End router.

(** ** Invariants of the whole server *)

Section server_inv.
Context `{F : Float64} `{A2 : Argon2} `{PG : Postgres} `{TG : Telegram} `{X : Mux}.
Context (P : Database → Prop) `{!AdminClosed P}.
Local Abbreviation kept := (keeps (inv_step P)).

Lemma inv_modify (g : World → World) : (∀ w, w_db (g w) = w_db w ∧ w_tx (g w) = w_tx w) → kept (st_modify g).
Proof. intros Hg w. destruct (Hg w) as [D T]. unfold inv_step, db_inv. simpl. by rewrite D, T. Qed.

Lemma inv_Timeout d next r c : (∀ r c, kept (next r c)) → kept (Timeout d next r c).
Proof.
  intros Hn. unfold Timeout. repeat (keeps_step || apply Hn || (apply inv_modify; done)).
Qed.

Lemma inv_RequestID next r c : (∀ r c, kept (next r c)) → kept (RequestID next r c).
Proof. intros Hn. unfold RequestID. keeps_all. Qed.

Lemma inv_AccessLog size next r c : (∀ r c, kept (next r c)) → kept (AccessLog size next r c).
Proof. intros Hn. unfold AccessLog. keeps_all. Qed.

Lemma inv_Recover next r c : (∀ r c, kept (next r c)) → kept (Recover next r c).
Proof. intros Hn. unfold Recover. keeps_all. Qed.

Lemma inv_panic_free next r c : (∀ r c, kept (next r c)) → kept (panic_free next r c).
Proof. intros Hn. unfold panic_free. keeps_all. Qed.

Lemma inv_Auth aw next r c : server_writer aw → (∀ r c, kept (next r c)) → kept (Auth Resolve aw next r c).
Proof using Type*. intros Haw Hn. unfold Auth. pose proof (inv_Resolve P). keeps_all. Qed.

Lemma inv_RequireCapability cap aw next r c : server_writer aw → (∀ r c, kept (next r c)) →
  kept (RequireCapability cap aw next r c).
Proof using Type*. intros Haw Hn. unfold RequireCapability. keeps_all. Qed.

Lemma inv_request_limiter policy key : kept (rl_Allow (request_limiter policy) key).
Proof. intros w. simpl. destruct (Allow _ _ _ _). intros H. exact H. Qed.

Lemma inv_RateLimit policy next r c : (∀ r c, kept (next r c)) →
  kept (RateLimit (Some (request_limiter policy)) next r c).
Proof. intros Hn. unfold RateLimit. pose proof inv_request_limiter. keeps_all. Qed.

Lemma inv_HealthHandler r c : kept (HealthHandler r c).
Proof. apply inv_Timeout. intros. keeps_all. Qed.

Lemma inv_group policy prefix routes r c :
  Forall (λ t, ∀ r c, kept (rt_Handler t r c)) routes →
  kept (group (server_deps (request_limiter policy)) prefix routes r c).
Proof using Type*.
  intros Hr. unfold group. apply inv_Timeout. intros. apply inv_Auth; [by right|]. intros.
  apply inv_RateLimit. intros. unfold select. case_match; [|apply keeps_ret, _..].
  case_match; [|apply keeps_ret, _]. apply inv_RequireCapability; [by right|].
  rewrite Forall_lookup in Hr. by eapply Hr.
Qed.

Lemma inv_NewRouter size policy r c : kept (NewRouter size (server_deps (request_limiter policy)) r c).
Proof using Type*.
  unfold NewRouter. apply inv_RequestID. intros. apply inv_Recover. intros. apply inv_AccessLog. intros.
  apply inv_panic_free. intros.
  assert (server_writer (Some PgWriter)) by (by right).
  repeat case_match; try apply keeps_ret, _.
  - apply inv_HealthHandler.
  - apply inv_group. repeat apply Forall_cons_2; [..|constructor]; intros; simpl.
    + by apply inv_Create. + by apply inv_PatchApp. + by apply inv_DeleteApp. + by apply inv_Purge.
    + by apply inv_PatchUser. + by apply inv_Subscribe. + by apply inv_Unsubscribe. + by apply inv_SearchAudit.
  - apply inv_group. repeat apply Forall_cons_2; [..|constructor]; intros; simpl;
      apply inv_runStrategyDispatch; first [done|apply _].
Qed.
End server_inv.

(** ** What no request can do *)

(** The management capabilities and the keys are among those of [init]. *)
Definition authority_within (init db : Database) : Prop :=
  (∀ a c, c ∈ forbiddenCapabilities → (a, c) ∈ app_capabilities db → (a, c) ∈ app_capabilities init) ∧
  app_keys db ⊆ app_keys init.

Definition log_extends (log : list AuditRow) (db : Database) : Prop := log `prefix_of` audit_log db.

Ltac statement_cases :=
  unfold sql_insert_app, sql_add_capability, sql_remove_capability, sql_update_app, sql_delete_app, sql_set_grade,
    sql_update_user, sql_subscribe, sql_unsubscribe_by;
  repeat case_match; simplify_eq/=; try done.

#[export] Instance log_extends_closed log : AdminClosed (log_extends log).
Proof.
  unfold log_extends. split.
  - split; [done|]. intros c db Hp. simpl. unfold insert_chained. by apply prefix_app_r.
  - intros; statement_cases. - intros; statement_cases. - intros; statement_cases. - intros; statement_cases.
  - intros; statement_cases. - intros; statement_cases. - intros; statement_cases. - intros; statement_cases.
  - intros; statement_cases. - intros; statement_cases. - intros; statement_cases. - intros; statement_cases.
Qed.

#[export] Instance authority_closed init : AdminClosed (authority_within init).
Proof.
  unfold authority_within. split.
  - split; done.
  - intros; statement_cases.
  - intros app c now db Hc [H1 H2]. statement_cases. split; [|done]. intros a' d Hd. set_unfold. naive_solver.
  - intros app c now db [H1 H2]. split; [|done]. intros a' d Hd. simpl. set_unfold. naive_solver.
  - intros; statement_cases. - intros; statement_cases. - intros; statement_cases. - intros; statement_cases.
  - intros; statement_cases.
  - intros app now db [H1 H2]. statement_cases. split.
    + intros a' c Hc [_ Hin]%elem_of_filter. by apply H1.
    + etrans; [apply map_filter_subseteq|done].
  - intros; statement_cases. - intros; statement_cases. - intros; statement_cases.
Qed.

(** ** Nothing happens without a capability *)

Section guarded.
Context `{F : Float64} `{A2 : Argon2} `{PG : Postgres} `{TG : Telegram} `{X : Mux}.

(** No table but the audit log has changed and Telegram was not called. *)
Definition passive : relation World := λ w w',
  sans_audit (w_db w') = sans_audit (w_db w) ∧ w_tg w' = w_tg w.

#[export] Instance passive_preorder : PreOrder passive.
Proof. split; [done|]. intros ??? [??] [??]. split; congruence. Qed.

Lemma passive_keeps {A} (m : M A) : keeps audits m → keeps quiet m → keeps passive m.
Proof. intros Ha Hq w. split; [apply Ha|apply Hq]. Qed.

Lemma passive_write_opt e : keeps passive (write_opt (Some PgWriter) e).
Proof. apply passive_keeps; simpl; auto with srv. Qed.
Lemma passive_Log l e f : keeps passive (Log l e f).
Proof. done. Qed.
Local Hint Resolve passive_write_opt passive_Log : srv.

Lemma passive_denyAndAudit r c code st : keeps passive (denyAndAudit r c (Some PgWriter) code st).
Proof. unfold denyAndAudit. keeps_all. Qed.

Lemma passive_refused cap (next : Handler) path r c e : Require_cap (c_Requester c) cap = Err e →
  keeps passive (RequireCapability cap (Some PgWriter) next (with_params r path) c).
Proof. intros He. unfold RequireCapability. rewrite He. keeps_all. Qed.

Definition bearer_of (r : HttpRequest) : string := trim_space (trim_prefix "Bearer " (r_Authorization r)).

(** The request selected a route of the server, presented a live key of an
    active app that has the capability of the route, and the limiter admitted
    that app. *)
Definition authorized (d : Deps) (policy : string → Policy) (r : HttpRequest) (w : World) : Prop :=
  ∃ prefix routes i ps t id now,
    (prefix = "/admin" ∧ routes = admin_routes d ∨ prefix = "/v1" ∧ routes = v1_routes d) ∧
    search prefix routes r = RFound i ps ∧ routes !! i = Some t ∧
    live_key (w_db w) (bearer_of r) id ∧ rt_Cap t ∈ ri_Capabilities id ∧
    Allowed (Allow policy now ("app:" +:+ ri_AppID id) (w_requests w)).1 = true.

Lemma Require_cap_Ok id cap : Require_cap (Some id) cap = Ok () → cap ∈ ri_Capabilities id.
Proof. unfold Require_cap. simpl. destruct (Has _ _) eqn:E; [|done]. intros _. by apply bool_decide_eq_true in E. Qed.

Lemma Timeout_run t next r c w : ∃ dl,
  Timeout t next r c w = ((next r c (with_deadline dl w)).1, with_deadline (w_deadline w) (next r c (with_deadline dl w)).2).
Proof.
  unfold Timeout, st_gets, st_modify, mbind, st_bind, mret, st_ret.
  exists (Some (match w_deadline w with Some o => Z.min o (w_now w + t) | None => w_now w + t end)).
  by destruct (next r c _).
Qed.

(** Around a handler that does not panic, [Recover] adds nothing and the access
    log one line. *)
Lemma Recover_panic_free size next r c w :
  let ms := Z.quot (w_now (next r c w).2 - w_now w) 1000000 in
  Recover (AccessLog size (panic_free next)) r c w =
  ((next r c w).1, (Log "info" "http_access" (access_line size r c (next r c w).1 ms) (next r c w).2).2).
Proof.
  unfold Recover, AccessLog, panic_free, st_gets, mbind, st_bind, mret, st_ret. by destruct (next r c w).
Qed.

Lemma passive_HealthHandler r c : keeps passive (HealthHandler r c).
Proof.
  intros w. unfold HealthHandler. match goal with |- context [Timeout ?t ?n r c w] =>
    destruct (Timeout_run t n r c w) as [dl ->] end.
  destruct (db_ping_spec (with_deadline dl w)) as (D&_&_&G&_). unfold mbind, st_bind.
  destruct (db_ping _) as [p w1]. simpl in *. by destruct p; split; simpl; rewrite ?D.
Qed.

Lemma group_guarded policy prefix routes r c w :
  let d := server_deps (request_limiter policy) in
  (prefix = "/admin" ∧ routes = admin_routes d ∨ prefix = "/v1" ∧ routes = v1_routes d) →
  passive w (group d prefix routes r c w).2 ∨ authorized d policy r w.
Proof.
  intros d Hp. unfold group. set (next := RateLimit _ _).
  destruct (Timeout_run HandlerTimeout (Auth (dep_Resolver d) (dep_Audit d) next) r c w) as [dl ->].
  set (w0 := with_deadline dl w). cbn [snd].
  assert (passive w0 (Auth Resolve (Some PgWriter) next r c w0).2 ∨ authorized d policy r w) as [Hq|Hq];
    [|by left|by right].
  unfold Auth. destruct (has_prefix _ _); simpl; [|left; apply passive_denyAndAudit].
  destruct (String.eqb _ ""); [left; apply passive_denyAndAudit|]. rewrite bind_run.
  destruct (Resolve_frame (bearer_of r) w0) as [D (_&_&G&_&_&_&_&_&Q&_)].
  pose proof (Resolve_Ok (bearer_of r) w0) as Hlive. unfold bearer_of in *.
  destruct (Resolve _ w0) as [[id|e] w1]; simpl in *.
  2:{ left. etrans; [|apply passive_denyAndAudit]. split; [by rewrite D|done]. }
  assert (passive w0 w1) as P1 by (split; [by rewrite D|done]).
  unfold next, RateLimit, select. rewrite bind_run. cbn [rl_Allow request_limiter limit_key c_Requester].
  destruct (Allow policy (w_now w1) _ (w_requests w1)) as [dec bs] eqn:Ea. cbn [fst snd].
  destruct (Allowed dec) eqn:Eok; simpl; [|by left].
  destruct (search prefix routes r) as [i ps| |] eqn:Es; [|by left..].
  destruct (routes !! i) as [t|] eqn:Et; [|by left].
  destruct (Require_cap (Some id) (rt_Cap t)) as [[]|e] eqn:Er.
  - right. exists prefix, routes, i, ps, t, id, (w_now w1). split_and!; [done..| |by apply Require_cap_Ok|].
    + by apply Hlive.
    + rewrite <- Q. by rewrite Ea.
  - left. etrans; [exact P1|]. exact (passive_refused _ _ _ _ (mkCtx _ (Some id)) e Er (with_requests bs w1)).
Qed.
End guarded.

Section theorems.
Context `{F : Float64} `{A2 : Argon2} `{PG : Postgres} `{TG : Telegram} `{X : Mux}.

(** C2: nothing happens without a capability.  Whatever the request and
    whatever fails, either no table but the audit log changes and Telegram is
    not called, or the request selected a route of the server with a live key
    of an active app that holds the capability of that route, and the rate
    limiter admitted the app. *)
Theorem guarded_effects size policy r w :
  let d := server_deps (request_limiter policy) in
  passive w (serve size d r w).2 ∨ authorized d policy r w.
Proof.
  intros d. unfold serve, NewRouter, RequestID. rewrite bind_run.
  set (trace := if String.eqb _ _ then _ else _).
  assert (w_db (trace w).2 = w_db w ∧ w_tg (trace w).2 = w_tg w ∧ w_requests (trace w).2 = w_requests w)
    as (D&G&Q) by (unfold trace; by case_match).
  destruct (trace w) as [t w1]. rewrite bind_run. set (next := λ r c, _). set (c := mkCtx t _).
  assert (passive w1 (next r c w1).2 ∨ authorized d policy r w1) as [Hn|Hn].
  { unfold next. repeat case_match; try (by left).
    - left. apply passive_HealthHandler.
    - apply group_guarded. auto.
    - apply group_guarded. auto. }
  - left. rewrite Recover_panic_free. simpl in *. trans w1; [by split; [rewrite D|]|]. exact Hn.
  - right. unfold authorized in *. simpl in *. by rewrite D, Q in Hn.
Qed.
End theorems.

(** ** Panics *)

Section panics.
Context `{F : Float64} `{TG : Telegram}.

(** The trace id of a request and the world in which its handler starts. *)
Definition trace_of (r : HttpRequest) (w : World) : string * World :=
  if String.eqb (r_TraceHeader r) "" then uuid_NewString w else (r_TraceHeader r, w).

(** A panic is contained.  Whatever handler the routes select, the request
    is answered under the trace id of its header, or a fresh one.  If the
    handler panics, the answer is 500 with internal_error, whatever the handler
    had already committed to the tables and sent to Telegram stays, and the log
    gets one line that names the trace id, in place of the access line.  Otherwise the answer is the handler's and
    the log gets the access line. *)
Theorem panics_contained size next r w :
  let '(t, w1) := trace_of r w in
  let c := mkCtx t None in
  let rs := (RequestID (Recover (AccessLog size next)) r (mkCtx "" None) w).1 in
  let w' := (RequestID (Recover (AccessLog size next)) r (mkCtx "" None) w).2 in
  let w2 := (next r c w1).2 in
  rs_TraceID rs = Some t ∧ w_db w' = w_db w2 ∧ w_tx w' = w_tx w2 ∧ w_tg w' = w_tg w2 ∧
  match (next r c w1).1 with
  | None => rs_Status rs = 500 ∧ rs_Body rs = BText (error_json "internal_error") ∧
      w_logs w' = w_logs w2 ++ [{["ts" := AInt (w_now w2); "level" := AStr "error"; "event" := AStr "http_panic";
                                  "trace_id" := AStr t; "panic" := AStr "[recovered]"]}]
  | Some resp => rs_Status rs = rs_Status resp ∧ rs_Body rs = rs_Body resp ∧ ∃ line,
      w_logs w' = w_logs w2 ++ [line] ∧ line !! "event" = Some (AStr "http_access") ∧
      line !! "status" = Some (AInt (rs_Status resp))
  end.
Proof.
  unfold trace_of, RequestID, Recover, AccessLog, mbind, st_bind, st_gets, mret, st_ret.
  destruct (if String.eqb _ _ then _ else _) as [t w1] eqn:E.
  replace ((if String.eqb (r_TraceHeader r) "" then uuid_NewString else λ s, (r_TraceHeader r, s)) w) with (t, w1)
    by (rewrite <- E; by case_match).
  simpl. destruct (next r _ w1) as [[resp|] w2]; simpl; split_and!; try done.
  eexists. split_and!; [done|..]; by simplify_map_eq.
Qed.
End panics.

(** ** A concrete server *)

(** A matcher by segments: [{x}] binds one segment, [*] the rest. *)
Fixpoint match_segments (pat path : list string) : option (list (string * string)) :=
  match pat, path with
  | [], [] => Some []
  | p :: pat', s :: path' =>
      if String.eqb p "*" then Some []
      else if has_prefix "{" p then (λ b, (p, s) :: b) <$> match_segments pat' path'
      else if String.eqb p s then match_segments pat' path' else None
  | _, _ => None
  end.

Definition split_path (s : string) : list string := split_on (chr 47) s.

Fixpoint first_match (i : nat) (routes : list (string * string)) (meth : string) (path : list string) (seen : bool)
    : routed :=
  match routes with
  | [] => if seen then RMethodNotAllowed else RNotFound
  | (m, pat) :: rest =>
      match match_segments (split_path pat) path with
      | None => first_match (S i) rest meth path seen
      | Some b =>
          if String.eqb m meth || String.eqb m "*"
          then RFound i (λ k, default "" (snd <$> find_first (λ q, String.eqb q.1 ("{" +:+ k +:+ "}")) b))
          else first_match (S i) rest meth path true
      end
  end.

Definition path_mux : Mux :=
  {| mux_find prefix routes r := first_match 0 routes (r_Method r) (split_path (trim_prefix prefix (r_Path r))) false |}.

(** A database with one app that may register others, and its key. *)
Definition registrar_db : Database :=
  set_keys (λ _, {[0 := mkKey "root" (encodeArgon2id (A2 := toy_argon2) "tg_ab_c" "0123456789abcdef") "ab" "" 0 None]})
    (sql_add_capability "root" CapAppsRegister 0
      (sql_insert_app "root" "Root" "" "admin" "" 0 empty_db).2).2.

Lemma registrar_db_wf : db_wf registrar_db.
Proof.
  pose proof (wf_add_capability "root" CapAppsRegister 0 _ (wf_insert_app "root" "Root" "" "admin" "" 0 _ wf_empty)) as H.
  destruct H as [Wu Wt Wa Wc Wk Wp Ws Wo Wtok Wau]. constructor; try done.
  - intros i k Hk. simpl in Hk. apply lookup_singleton_Some in Hk as [<- <-]. split; [by eexists|done].
  - intros i j k k' Hi Hj _. simpl in Hi, Hj. apply lookup_singleton_Some in Hi as [<- _], Hj as [<- _]. done.
Qed.

(** Registering an app with an ordinary capability, then with a management
    capability, which is refused. *)
Definition create_request (id cap : string) : HttpRequest :=
  mkRequest "POST" "/admin/apps" "Bearer tg_ab_c" "" "10.0.0.1" (λ _, "") (λ _, "")
    (Some (JObj [("id", JStr id); ("name", JStr "News"); ("capabilities", JArr [JStr cap])])).

Definition sample_deps : @Deps recorder :=
  @server_deps exact toy_argon2 text_order recorder
    (@request_limiter exact recorder (request_policy default_policy ∅)).

Definition sample_requests : list HttpRequest :=
  [create_request "news" CapMessagesTopic; create_request "evil" CapAuditSearch].
