(* ===== verification/Typed.v ===== *)
(** * Types of the responses

    What a client of the API may rely on for every response, whatever the
    request, the state of the database and the failures met on the way: a
    typing judgement for responses and its derivation, by the structure of
    the handlers, for the router of the server. *)

From stdpp Require Import base gmap list strings sorting.
From Stdlib Require Import ZArith QArith Lia.
From S2P Require Import Prelude GoStrings AuditChain RateLimit World AuditLog Auth Registry Strategy.
From S2P Require Import Dispatch Http Messages AdminApi Router.

Local Open Scope string_scope.
Local Open Scope Z_scope.
Local Open Scope list_scope.

(** ** The judgement *)

(** The statuses that come with an error code. *)
Definition error_statuses : list Z :=
  [StatusBadRequest; StatusUnauthorized; StatusForbidden; StatusNotFound; StatusConflict;
   StatusTooManyRequests; StatusInternalServerError].

Definition with_status (s : string) (l : list dispatchReport) : Z :=
  Z.of_nat (length (List.filter (λ d, String.eqb (dr_Status d) s) l)).

(** The counters of a dispatch response count its reports, each of which has
    one of the three outcomes. *)
Definition tallied (d : dispatchResponse) : Prop :=
  dp_Delivered d = with_status "delivered" (dp_Recipients d) ∧
  dp_Skipped d = with_status "skipped" (dp_Recipients d) ∧
  dp_Failed d = with_status "failed" (dp_Recipients d) ∧
  Forall (λ p, dr_Status p ∈ ["delivered"; "skipped"; "failed"]) (dp_Recipients d).

Definition body_typed (status : Z) (b : body) : Prop :=
  match b with
  | BError _ => status ∈ error_statuses
  | BObject _ => status ∈ [StatusOK; StatusCreated; StatusServiceUnavailable]
  | BText _ => status ∈ [StatusNotFound; StatusMethodNotAllowed]
  | BDispatch d => status = StatusOK ∧ tallied d
  | BSearch rows limit =>
      status = StatusOK ∧ 1 <= limit <= 500 ∧ Z.of_nat (length rows) <= limit ∧ StronglySorted id_ge rows
  end.

Definition typed (rs : Response) : Prop :=
  body_typed (rs_Status rs) (rs_Body rs) ∧
  (is_Some (rs_RetryAfter rs) → rs_Status rs = StatusTooManyRequests).

(** ** Derivations *)

(** Every outcome of the computation satisfies [Q]. *)
Definition returns {A} `{Telegram} (Q : A → Prop) (m : M A) : Prop := ∀ w, Q (m w).1.

Section rules.
Context `{TG : Telegram}.

Lemma returns_ret {A} (Q : A → Prop) a : Q a → returns Q (mret a).
Proof. intros H w. exact H. Qed.

Lemma returns_bind {A B} (Q : A → Prop) (R : B → Prop) (m : M A) (k : A → M B) :
  returns Q m → (∀ a, Q a → returns R (k a)) → returns R (m ≫= k).
Proof. intros Hm Hk w. unfold mbind, st_bind. specialize (Hm w). destruct (m w). by apply Hk. Qed.

Lemma returns_any {A B} (R : B → Prop) (m : M A) (k : A → M B) : (∀ a, returns R (k a)) → returns R (m ≫= k).
Proof. intros Hk. by apply (returns_bind (λ _, True)). Qed.

Lemma returns_fold {A B} (Q : B → Prop) (f : B → A → M B) b xs :
  Q b → (∀ b x, Q b → returns Q (f b x)) → returns Q (st_fold f b xs).
Proof.
  intros Hb Hf. revert b Hb. induction xs as [|x xs IH]; intros b Hb; simpl; [by apply returns_ret|].
  eapply returns_bind; [by apply Hf|done].
Qed.

Lemma returns_db_query {A} args (g : Z → Database → result A) (Q : A → Prop) :
  (∀ now db a, g now db = Ok a → Q a) →
  returns (λ r, match r with Ok a => Q a | Err _ => True end) (db_query args g).
Proof.
  intros Hg w. destruct (db_query_spec args g w) as (_&_&H). simpl in *.
  destruct (db_query args g w) as [[a|e] w']; [|done]. destruct (H a eq_refl) as [now Hn]. by eapply Hg.
Qed.

Lemma returns_rolling_back {A} (Q : A → Prop) (m : M A) : returns Q m → returns Q (rolling_back m).
Proof. intros Hm w. rewrite rolling_back_eq. apply Hm. Qed.
End rules.

Lemma typed_writeError status code : status ∈ error_statuses → typed (writeError status code).
Proof. intros H. split; [exact H|]. by intros [? ?]. Qed.
Lemma typed_writeJSON status b : body_typed status b → typed (writeJSON status b).
Proof. intros H. split; [exact H|]. by intros [? ?]. Qed.

(** Decide membership of a literal. *)
Ltac listed := cbn [body_typed]; apply (bool_decide_unpack _); vm_compute; exact I.

Section handlers.
Context `{F : Float64} `{A2 : Argon2} `{PG : Postgres} `{TG : Telegram} `{X : Mux}.

Lemma typed_deny f code status : status ∈ error_statuses → returns typed (deny f code status).
Proof. intros. unfold deny. apply returns_any. intros. by apply returns_ret, typed_writeError. Qed.

Lemma typed_commit_tx f details rs : typed rs → returns typed (commit_tx f details rs).
Proof.
  intros. unfold commit_tx. apply returns_any. intros [?|?]; [|apply typed_deny; listed].
  apply returns_any. intros. by apply returns_ret.
Qed.

(** One step of a derivation: a case of the handler, the end of it, or a call
    whose result does not matter. *)
Ltac returns_step :=
  match goal with
  | |- returns _ (match ?x with _ => _ end) => destruct x eqn:?
  | |- returns _ (deny _ _ _) => apply typed_deny
  | |- returns _ (commit_tx _ _ _) => apply typed_commit_tx
  | |- returns _ (rolling_back _) => apply returns_rolling_back
  | |- returns _ (mret (writeError _ _)) => apply returns_ret, typed_writeError
  | |- returns _ (mret (writeJSON _ (BObject _))) => apply returns_ret
  | |- typed (writeJSON _ (BObject _)) => apply typed_writeJSON
  | |- returns _ (mbind _ _) => apply returns_any; intros ?
  | |- body_typed _ (BObject _) => listed
  | |- _ ∈ error_statuses => listed
  end.
Ltac returns_all := repeat (returns_step; cbv zeta).

Lemma grant_listed caps code st : validateCapabilityGrant caps = Some (code, st) → st ∈ error_statuses.
Proof. intros [-> | ->]%grant_status; listed. Qed.

Lemma typed_Create aw r c : returns typed (Create aw r c).
Proof. unfold Create, create_tx. returns_all. by eapply grant_listed. Qed.
Lemma typed_PatchApp aw r c : returns typed (PatchApp aw r c).
Proof. unfold PatchApp, patch_tx. returns_all. by eapply grant_listed. Qed.
Lemma typed_locked_handler aw stmt details answer r c : returns typed (locked_handler aw stmt details answer r c).
Proof. unfold locked_handler, locked_tx. returns_all. Qed.
Lemma typed_PatchUser aw r c : returns typed (PatchUser aw r c).
Proof. unfold PatchUser. returns_all. Qed.
Lemma typed_Subscribe aw r c : returns typed (Subscribe aw r c).
Proof. unfold Subscribe. returns_all. Qed.
Lemma typed_Unsubscribe aw r c : returns typed (Unsubscribe aw r c).
Proof. unfold Unsubscribe. returns_all. Qed.

(** ** The audit search *)

Lemma limit_range s limit : opt_param s parse_limit = Some limit → 1 <= default 50 limit <= 500.
Proof.
  unfold opt_param, parse_limit. destruct (String.eqb s ""); [intros [= <-]; simpl; lia|].
  destruct (parse_int s) as [v|]; simpl; [|done].
  destruct ((v <=? 0) || (500 <? v)) eqn:E; simpl; [done|]. intros [= <-]. apply orb_false_iff in E. simpl. lia.
Qed.

Lemma search_rows_typed flt limit db : 1 <= limit <= 500 → body_typed StatusOK (BSearch (search_rows flt limit db) limit).
Proof.
  intros Hl. simpl. split_and!; try done; try lia.
  - unfold search_rows. rewrite length_take. lia.
  - unfold search_rows. set (l := merge_sort _ _).
    assert (StronglySorted id_ge l) as Hs by (apply StronglySorted_merge_sort; apply _).
    rewrite <- (take_drop (Z.to_nat limit) l) in Hs. by apply StronglySorted_app_1_l in Hs.
Qed.

Lemma typed_SearchAudit aw r c : returns typed (SearchAudit aw r c).
Proof.
  unfold SearchAudit. do 2 (apply returns_any; intros ?).
  destruct (opt_param (r_Query r "limit") parse_limit) as [limit|] eqn:El; [|returns_all].
  apply limit_range in El. returns_all. unfold run_search.
  eapply returns_bind; [apply (returns_db_query _ _ (λ rows, body_typed StatusOK (BSearch rows (default 50 limit))))|].
  - intros now db rows [= <-]. by apply search_rows_typed.
  - intros [rows|e] Hrows; [|returns_all]. apply returns_any. intros. by apply returns_ret, typed_writeJSON.
Qed.

(** ** Dispatching *)

Lemma with_status_app s l p :
  with_status s (l ++ [p]) = with_status s l + (if String.eqb (dr_Status p) s then 1 else 0).
Proof. unfold with_status. rewrite List.filter_app, length_app. simpl. case_match; simpl; lia. Qed.

Lemma tallied_start m : tallied (mkDispatchResponse m 0 0 0 []).
Proof. split_and!; try done. Qed.

Ltac tally := intros (?&?&?&?); split_and!; simpl; rewrite ?with_status_app; simpl; try lia;
  apply Forall_app_2; [done|]; apply Forall_singleton; simpl; listed.

Lemma tallied_failed d u code : tallied d →
  tallied (mkDispatchResponse (dp_MessageID d) (dp_Delivered d) (dp_Skipped d) (dp_Failed d + 1)
    (dp_Recipients d ++ [mkReport u "failed" code 0])).
Proof. tally. Qed.
Lemma tallied_delivered d u m : tallied d →
  tallied (mkDispatchResponse (dp_MessageID d) (dp_Delivered d + 1) (dp_Skipped d) (dp_Failed d)
    (dp_Recipients d ++ [mkReport u "delivered" "" m])).
Proof. tally. Qed.
Lemma tallied_skipped d u code : tallied d →
  tallied (mkDispatchResponse (dp_MessageID d) (dp_Delivered d) (dp_Skipped d + 1) (dp_Failed d)
    (dp_Recipients d ++ [mkReport u "skipped" code 0])).
Proof. tally. Qed.

Lemma tallied_dispatch_one disp f env d rh : tallied d → returns tallied (dispatch_one disp f env d rh).
Proof.
  intros Hd. unfold dispatch_one. apply returns_any. intros _. apply returns_any.
  intros [?|e]; cbv zeta; apply returns_any; intros _; apply returns_ret;
    [by apply tallied_delivered|by apply tallied_failed].
Qed.
Lemma tallied_skip_one ch f d sk : tallied d → returns tallied (skip_one ch f d sk).
Proof. intros Hd. unfold skip_one. apply returns_any. intros _. by apply returns_ret, tallied_skipped. Qed.

Lemma resolve_failure_listed e : (resolve_failure e).2 ∈ error_statuses.
Proof. unfold resolve_failure. repeat case_match; simpl; listed. Qed.

Lemma typed_dispatch_resolved strat disp opts f req : returns typed (dispatch_resolved strat disp opts f req).
Proof.
  unfold dispatch_resolved. apply returns_any. intros [res|e].
  - apply returns_any. intros [?|?]; [|returns_all].
    apply (returns_bind tallied); [apply returns_fold; [apply tallied_start|intros; by apply tallied_dispatch_one]|].
    intros d1 H1. apply (returns_bind tallied); [apply returns_fold; [done|intros; by apply tallied_skip_one]|].
    intros d2 H2. by apply returns_ret, typed_writeJSON.
  - pose proof (resolve_failure_listed e). destruct (resolve_failure e). by apply typed_deny.
Qed.

Lemma typed_runStrategyDispatch strat disp aw cap opts r c :
  returns typed (runStrategyDispatch strat disp aw cap opts r c).
Proof. unfold runStrategyDispatch. returns_all. apply typed_dispatch_resolved. Qed.

(** ** The middleware *)

Lemma typed_Timeout t next r c : (∀ r c, returns typed (next r c)) → returns typed (Timeout t next r c).
Proof.
  intros Hn. unfold Timeout. do 2 (apply returns_any; intros ?). eapply returns_bind; [apply Hn|].
  intros rs Hrs. apply returns_any. intros. by apply returns_ret.
Qed.

Lemma typed_Recover size next r c :
  returns typed (next r c) → returns typed (Recover (AccessLog size (panic_free next)) r c).
Proof. intros Hn w. rewrite Recover_panic_free. apply Hn. Qed.

Lemma typed_denyAndAudit r c aw code status : status ∈ error_statuses → returns typed (denyAndAudit r c aw code status).
Proof. intros. unfold denyAndAudit. returns_all. done. Qed.

Lemma typed_Auth resolver aw next r c : (∀ r c, returns typed (next r c)) → returns typed (Auth resolver aw next r c).
Proof. intros Hn. unfold Auth. returns_all; first [apply Hn|apply typed_denyAndAudit; listed]. Qed.

Lemma typed_RequireCapability cap aw next r c :
  (∀ r c, returns typed (next r c)) → returns typed (RequireCapability cap aw next r c).
Proof.
  intros Hn. unfold RequireCapability. destruct (Require_cap _ _) as [?|e]; [apply Hn|].
  destruct (errors_is e ErrUnauthorized); returns_all.
Qed.

Lemma typed_rate_limited d : typed (rate_limited d).
Proof. split; [simpl; listed|done]. Qed.

Lemma typed_RateLimit rl next r c : (∀ r c, returns typed (next r c)) → returns typed (RateLimit rl next r c).
Proof.
  intros Hn. unfold RateLimit. destruct rl as [rl|]; [|apply Hn]. apply returns_any.
  intros [d|e]; [|apply returns_ret, typed_rate_limited].
  destruct (negb _); [apply returns_ret, typed_rate_limited|apply Hn].
Qed.

Lemma typed_HealthHandler r c : returns typed (HealthHandler r c).
Proof.
  apply typed_Timeout. intros. apply returns_any. intros [?|?]; apply returns_ret, typed_writeJSON; listed.
Qed.

Lemma typed_not_found : typed not_found.
Proof. apply typed_writeJSON. listed. Qed.
Lemma typed_method_not_allowed : typed method_not_allowed.
Proof. apply typed_writeJSON. listed. Qed.

Lemma typed_group d prefix routes r c :
  Forall (λ t, ∀ r c, returns typed (rt_Handler t r c)) routes → returns typed (group d prefix routes r c).
Proof.
  intros Hr. apply typed_Timeout. intros. apply typed_Auth. intros. apply typed_RateLimit. intros. unfold select.
  case_match; [|apply returns_ret, typed_not_found|apply returns_ret, typed_method_not_allowed].
  case_match eqn:Ht; [|apply returns_ret, typed_not_found]. apply typed_RequireCapability.
  rewrite Forall_lookup in Hr. by eapply Hr.
Qed.

Lemma typed_admin_routes d : Forall (λ t, ∀ r c, returns typed (rt_Handler t r c)) (admin_routes d).
Proof.
  repeat apply Forall_cons_2; [..|constructor]; intros; simpl;
    auto using typed_Create, typed_PatchApp, typed_PatchUser, typed_Subscribe, typed_Unsubscribe, typed_SearchAudit;
    apply typed_locked_handler.
Qed.
Lemma typed_v1_routes d : Forall (λ t, ∀ r c, returns typed (rt_Handler t r c)) (v1_routes d).
Proof. repeat apply Forall_cons_2; [..|constructor]; intros; apply typed_runStrategyDispatch. Qed.

Lemma RequestID_traced next r c : (∀ c, returns typed (next r c)) →
  returns (λ rs, typed rs ∧ is_Some (rs_TraceID rs) ∧
    (r_TraceHeader r ≠ "" → rs_TraceID rs = Some (r_TraceHeader r))) (RequestID next r c).
Proof.
  intros Hn. unfold RequestID.
  apply (returns_bind (λ t, r_TraceHeader r ≠ "" → t = r_TraceHeader r)).
  - destruct (String.eqb_spec (r_TraceHeader r) ""); [by intros w ?|by apply returns_ret].
  - intros t Ht. eapply returns_bind; [apply Hn|]. intros rs [Hb Hra]. apply returns_ret. simpl. split_and!; try done.
    intros Hh. f_equal. by apply Ht.
Qed.

(** C13: every response of the server is well typed.  Whatever the request, the
    dependencies, the state of the world and the failures met, the response
    carries a trace id, the one of the request's header if it has one, and
    its status fits its body: an error code comes with one of the seven error
    statuses; a page of the audit search has at most the limit of rows, in
    order of descending id, for a limit between 1 and 500; the counters of a
    dispatch response count exactly its delivered, skipped and failed
    reports; and Retry-After is sent only with 429. *)
Theorem responses_typed size d r w :
  let rs := (serve size d r w).1 in
  typed rs ∧ is_Some (rs_TraceID rs) ∧ (r_TraceHeader r ≠ "" → rs_TraceID rs = Some (r_TraceHeader r)).
Proof.
  unfold serve, NewRouter. apply RequestID_traced. intros c. apply typed_Recover.
  repeat case_match; auto using returns_ret, typed_not_found, typed_method_not_allowed, typed_HealthHandler,
    typed_group, typed_admin_routes, typed_v1_routes.
Qed.
End handlers.
