(* ===== verification/MockTelegram.v ===== *)
(** * The Telegram mock

    [internal/mocktelegram/server.go], the Bot API stub of the end-to-end
    runs: a handler over a store of recorded calls and queued updates, both
    bounded windows.  The store is an interface ([MockStore]); the code's store
    ([windows]) and an unbounded history ([history]) implement it, and the
    handler over the first is shown to be the handler over the second seen
    through the two windows. *)

From stdpp Require Import base gmap list strings.
From Stdlib Require Import ZArith Lia.
From S2P Require Import Prelude GoStrings RateLimit World Http.

Local Open Scope string_scope.
Local Open Scope Z_scope.
Local Open Scope list_scope.

(** ** Data *)

(** A request body: its bytes, and the JSON value they are, if they are one. *)
Record raw_body := mkRaw { rb_bytes : string; rb_json : option json }.
Record Call := mkCall { cl_Method : string; cl_Token : string; cl_Body : raw_body }.

Definition update : Type := gmap string json.

Definition maxRecordedCalls : nat := 2048.
Definition maxQueuedUpdates : nat := 1024.

(** The operations on the store, each under the lock. *)
Class MockStore (S : Type) := {
  record : Call → S → S;
  Calls : S → list Call;
  Dropped : S → Z;
  Reset : S → S;
  enqueue : update → S → S;
  drainQueue : S → list update * S;
}.

(** ** The code's store *)

Record windows := mkWindows { ws_calls : list Call; ws_dropped : Z; ws_queue : list update }.

(** Append to a window of at most [n]: a full one loses its oldest element. *)
Definition push {A} (n : nat) (x : A) (l : list A) : list A :=
  if (n <=? length l)%nat then drop 1 l ++ [x] else l ++ [x].

#[export] Instance windows_store : MockStore windows := {|
  record c s := mkWindows (push maxRecordedCalls c (ws_calls s))
    (if (maxRecordedCalls <=? length (ws_calls s))%nat then ws_dropped s + 1 else ws_dropped s) (ws_queue s);
  Calls := ws_calls;
  Dropped := ws_dropped;
  Reset s := mkWindows [] 0 (ws_queue s);
  enqueue u s := mkWindows (ws_calls s) (ws_dropped s) (push maxQueuedUpdates u (ws_queue s));
  drainQueue s := (ws_queue s, mkWindows (ws_calls s) (ws_dropped s) []);
|}.

(** ** The handler *)

Record Mock (S : Type) := mkMock { mk_store : S; mk_msgSeq : Z; mk_topicSeq : Z; mk_updateSeq : Z }.
Arguments mkMock {S} _ _ _ _.
Arguments mk_store {S} _.
Arguments mk_msgSeq {S} _.
Arguments mk_topicSeq {S} _.
Arguments mk_updateSeq {S} _.

Record MockRequest := mkMockRequest { mr_Method : string; mr_Path : string; mr_Body : raw_body }.

Inductive mock_reply :=
| MJson (j : json)
| MCalls (l : option (list (string * string * json))) (dropped : string)
| MUpdates (l : list update)
| MNotFound
| MPanic.

Definition ok_reply (result : json) : mock_reply := MJson (JObj [("ok", JBool true); ("result", result)]).

(** The body of a recorded call: a bodyless call is shown as null, and one that
    is not JSON makes the encoder of the whole list fail. *)
Definition call_json (c : Call) : option (string * string * json) :=
  j ← (if String.eqb (rb_bytes (cl_Body c)) "" then Some JNull else rb_json (cl_Body c));
  Some (cl_Method c, cl_Token c, j).

(** The path [/bot<token>/<method>]. *)
Definition split_path (p : string) : option (string * string) :=
  if negb (has_prefix "/bot" p) then None
  else
    let rest := trim_prefix "/bot" p in
    match index_byte (chr 47) rest with
    | None => None
    | Some slash =>
        if (slash =? 0)%nat || (slash =? String.length rest - 1)%nat then None
        else Some (stake slash rest, sdrop (S slash) rest)
    end.

(** [json.Unmarshal] into [struct { Timeout int }]: unknown members are
    ignored, a member of another type is an error. *)
Definition timeout_field (j : json) : option Z :=
  match j with
  | JNull => Some 0
  | JObj kvs =>
      foldl (λ acc '(k, v), t ← acc; if String.eqb (fold_case k) "timeout" then decode_int64 v t else Some t) (Some 0) kvs
  | _ => None
  end.

(** A product of two signed 64-bit integers. *)
Definition mul64 (a b : Z) : Z := (a * b + 2 ^ 63) mod 2 ^ 64 - 2 ^ 63.

Definition maxWait : Z := 30 * Second.
Definition longPollTimeout (b : raw_body) : Z :=
  match rb_json b ≫= timeout_field with
  | None => 0
  | Some t => if t <=? 0 then 0 else let d := mul64 t Second in if maxWait <? d then maxWait else d
  end.

(** What other requests do to the store meanwhile. *)
Inductive other :=
| OCall (c : Call)
| OInject (b : raw_body)
| OPoll
| OReset.

(** What the [select] of a waiting request receives: the client gone, the
    deadline, or a tick, before which other requests changed the store. *)
Inductive wake :=
| WDone
| WDeadline
| WTick (others : list other).

Section serve.
Context {S : Type} `{MockStore S}.
(** A JSON value decoded into [any] and encoded again; [None] is an error. *)
Context (to_any : json → option json).

Definition on_store {A} (f : S → A * S) : ST (Mock S) A := λ m,
  let '(a, s) := f (mk_store m) in (a, mkMock s (mk_msgSeq m) (mk_topicSeq m) (mk_updateSeq m)).
Definition to_store (f : S → S) : ST (Mock S) () := on_store (λ s, ((), f s)).

(** [json.Unmarshal] into a map: [Ok None] is the nil map of a JSON null. *)
Definition decode_object (b : raw_body) : option (option update) :=
  match rb_json b with
  | Some JNull => Some None
  | Some (JObj kvs) =>
      Some <$> foldl (λ acc '(k, v), m ← acc; x ← to_any v; Some (<[k := x]> m)) (Some ∅) kvs
  | _ => None
  end.

Definition next_update : ST (Mock S) Z := λ m,
  let n := mk_updateSeq m + 1 in (n, mkMock (mk_store m) (mk_msgSeq m) (mk_topicSeq m) n).
Definition next_msg : ST (Mock S) Z := λ m,
  let n := mk_msgSeq m + 1 in (n, mkMock (mk_store m) n (mk_topicSeq m) (mk_updateSeq m)).
Definition next_topic : ST (Mock S) Z := λ m,
  let n := mk_topicSeq m + 1 in (n, mkMock (mk_store m) (mk_msgSeq m) n (mk_updateSeq m)).

(** [Inject]: storing into the nil map panics; the answer says whether it returned. *)
Definition Inject (b : raw_body) : ST (Mock S) bool :=
  let obj := default (Some ∅) (decode_object b) in
  n ← next_update;
  match obj with
  | None => mret false
  | Some obj => to_store (enqueue (<["update_id" := JInt n]> obj));; mret true
  end.

Definition other_request (o : other) : ST (Mock S) () :=
  match o with
  | OCall c => to_store (record c)
  | OInject b => Inject b;; mret ()
  | OPoll => on_store drainQueue;; mret ()
  | OReset => to_store Reset
  end.

Fixpoint waitForUpdates (ws : list wake) : ST (Mock S) (list update) :=
  match ws with
  | WTick others :: ws =>
      st_fold (λ _ o, other_request o) () others;;
      u ← on_store drainQueue;
      if bool_decide (u = []) then waitForUpdates ws else mret u
  | _ => mret []
  end.

Definition getUpdates (b : raw_body) (ws : list wake) : ST (Mock S) mock_reply :=
  u ← on_store drainQueue;
  u ← (if bool_decide (u = []) && (0 <? longPollTimeout b) then waitForUpdates ws else mret u);
  mret (MUpdates u).

Definition bot_admin : json :=
  JObj [("can_manage_topics", JBool true); ("can_post_messages", JBool true); ("can_restrict_members", JBool true);
        ("status", JStr "administrator");
        ("user", JObj [("first_name", JStr "MockBot"); ("id", JInt 1); ("is_bot", JBool true)])].

Definition bot_method (method : string) (b : raw_body) (ws : list wake) : ST (Mock S) mock_reply :=
  if String.eqb method "sendMessage" then
    mid ← next_msg;
    mret (ok_reply (JObj [("chat", JObj [("id", JInt 0); ("type", JStr "supergroup")]); ("date", JInt 0);
                          ("message_id", JInt mid); ("text", JStr "")]))
  else if String.eqb method "getMe" then
    mret (ok_reply (JObj [("first_name", JStr "MockBot"); ("id", JInt 1); ("is_bot", JBool true);
                          ("username", JStr "mock_bot")]))
  else if String.eqb method "getUpdates" then getUpdates b ws
  else if String.eqb method "createForumTopic" then
    tid ← next_topic;
    mret (ok_reply (JObj [("icon_color", JInt 0); ("icon_custom_emoji_id", JStr ""); ("message_thread_id", JInt (tid + 100));
                          ("name", JStr "topic")]))
  else if String.eqb method "closeForumTopic" || String.eqb method "banChatMember" then mret (ok_reply (JBool true))
  else if String.eqb method "getChatAdministrators" then mret (ok_reply (JArr [bot_admin]))
  else mret MNotFound.

Definition mock_serve (r : MockRequest) (ws : list wake) : ST (Mock S) mock_reply :=
  if String.eqb (mr_Path r) "/test/inject-update" then
    returned ← Inject (mr_Body r);
    mret (if (returned : bool) then MJson (JObj [("ok", JBool true)]) else MPanic)
  else if String.eqb (mr_Path r) "/test/calls" && String.eqb (mr_Method r) "GET" then
    m ← st_get;
    mret (MCalls (mapM call_json (Calls (mk_store m))) (format_int (Dropped (mk_store m))))
  else if String.eqb (mr_Path r) "/test/reset" && String.eqb (mr_Method r) "POST" then
    to_store Reset;; mret (MJson (JObj [("ok", JBool true)]))
  else
    match split_path (mr_Path r) with
    | None => mret MNotFound
    | Some (token, method) =>
        to_store (record (mkCall method token (mr_Body r)));; bot_method method (mr_Body r) ws
    end.

(** A run: requests one after the other, each with what it meets while waiting. *)
Definition mock_run (rs : list (MockRequest * list wake)) : ST (Mock S) (list mock_reply) :=
  st_fold (λ out p, reply ← mock_serve p.1 p.2; mret (out ++ [reply])) [] rs.
End serve.

(** [New] and [NewHandler]. *)
Definition new_mock {S} (s : S) : Mock S := mkMock s 0 0 0.

(** ** The abstract store: everything since the last reset or drain *)

Record history := mkHistory { hs_calls : list Call; hs_queue : list update }.

(** The last [n] elements. *)
Definition last_n {A} (n : nat) (l : list A) : list A := drop (length l - n) l.

#[export] Instance history_store : MockStore history := {|
  record c h := mkHistory (hs_calls h ++ [c]) (hs_queue h);
  Calls h := last_n maxRecordedCalls (hs_calls h);
  Dropped h := Z.of_nat (length (hs_calls h) - maxRecordedCalls);
  Reset h := mkHistory [] (hs_queue h);
  enqueue u h := mkHistory (hs_calls h) (hs_queue h ++ [u]);
  drainQueue h := (last_n maxQueuedUpdates (hs_queue h), mkHistory (hs_calls h) []);
|}.

Definition windowed (h : history) : windows :=
  mkWindows (last_n maxRecordedCalls (hs_calls h)) (Z.of_nat (length (hs_calls h) - maxRecordedCalls))
    (last_n maxQueuedUpdates (hs_queue h)).

Lemma last_n_length {A} n (l : list A) : length (last_n n l) = Nat.min n (length l).
Proof. unfold last_n. rewrite length_drop. lia. Qed.

Lemma push_last_n {A} n (x : A) l : (0 < n)%nat → push n x (last_n n l) = last_n n (l ++ [x]).
Proof.
  intros Hn. unfold push. rewrite last_n_length. unfold last_n. rewrite length_app. simpl.
  destruct (Nat.leb_spec n (Nat.min n (length l))).
  - rewrite drop_drop, drop_app_le by lia. do 2 f_equal. lia.
  - replace (length l - n)%nat with 0%nat by lia. replace (length l + 1 - n)%nat with 0%nat by lia. done.
Qed.

(** ** Store morphisms *)

(** A map of stores under which the operations agree. *)
Class StoreMorphism {S T} `{MockStore S} `{MockStore T} (f : S → T) := {
  sm_record c s : record c (f s) = f (record c s);
  sm_Calls s : Calls (f s) = Calls s;
  sm_Dropped s : Dropped (f s) = Dropped s;
  sm_Reset s : Reset (f s) = f (Reset s);
  sm_enqueue u s : enqueue u (f s) = f (enqueue u s);
  sm_drain s : drainQueue (f s) = ((drainQueue s).1, f (drainQueue s).2);
}.

#[export] Instance windowed_morphism : StoreMorphism windowed.
Proof.
  split; try done.
  - intros c h. unfold windowed. cbn [record windows_store history_store ws_calls ws_dropped ws_queue hs_calls hs_queue].
    f_equal; [apply push_last_n; unfold maxRecordedCalls; lia|]. rewrite last_n_length, length_app. cbn [length].
    generalize maxRecordedCalls. intros n. destruct (Nat.leb_spec n (Nat.min n (length (hs_calls h)))); lia.
  - intros u h. unfold windowed. cbn [enqueue windows_store history_store ws_calls ws_dropped ws_queue hs_calls hs_queue].
    f_equal. apply push_last_n. unfold maxQueuedUpdates. lia.
Qed.

Section simulation.
Context {S T : Type} `{MS : MockStore S} `{MT : MockStore T} (f : S → T) `{!StoreMorphism f}.
Context (to_any : json → option json).

Definition mock_map (m : Mock S) : Mock T := mkMock (f (mk_store m)) (mk_msgSeq m) (mk_topicSeq m) (mk_updateSeq m).

(** [b] does over the images what [a] does. *)
Definition simulates {A} (a : ST (Mock S) A) (b : ST (Mock T) A) : Prop := ∀ m, b (mock_map m) = ((a m).1, mock_map (a m).2).

Lemma sim_ret {A} (x : A) : simulates (mret x) (mret x).
Proof. done. Qed.
Lemma sim_bind {A B} (a : ST (Mock S) A) b (k : A → ST (Mock S) B) k' :
  simulates a b → (∀ x, simulates (k x) (k' x)) → simulates (a ≫= k) (b ≫= k').
Proof. intros Ha Hk m. unfold mbind, st_bind. rewrite Ha. destruct (a m). apply Hk. Qed.
Lemma sim_fold {A B} (g : B → A → ST (Mock S) B) g' b xs :
  (∀ b x, simulates (g b x) (g' b x)) → simulates (st_fold g b xs) (st_fold g' b xs).
Proof.
  intros Hg. revert b. induction xs as [|x xs IH]; intros b; simpl; [apply sim_ret|]. by apply sim_bind.
Qed.
Lemma sim_to_store (g : S → S) g' : (∀ s, g' (f s) = f (g s)) → simulates (to_store g) (to_store g').
Proof. intros Hg m. unfold to_store, on_store, mock_map. simpl. by rewrite Hg. Qed.
Lemma sim_drain : simulates (on_store drainQueue) (on_store drainQueue).
Proof. intros m. unfold on_store, mock_map. simpl. rewrite sm_drain. by destruct (drainQueue (mk_store m)). Qed.
Lemma sim_next_msg : simulates next_msg next_msg.
Proof. done. Qed.
Lemma sim_next_topic : simulates next_topic next_topic.
Proof. done. Qed.
Lemma sim_next_update : simulates next_update next_update.
Proof. done. Qed.
Hint Resolve sim_ret sim_drain sim_next_msg sim_next_topic sim_next_update : core.

Ltac sim :=
  repeat match goal with
  | |- simulates (mbind _ _) (mbind _ _) => apply sim_bind; [|intros ?]
  | |- simulates (st_fold _ _ _) (st_fold _ _ _) => apply sim_fold; intros ? ?
  | |- simulates (match ?x with _ => _ end) _ => destruct x
  | |- simulates (to_store _) (to_store _) => apply sim_to_store; intros ?
  | |- _ => progress auto
  end.

Lemma sim_Inject b : simulates (Inject to_any b) (Inject to_any b).
Proof. unfold Inject. sim. apply sm_enqueue. Qed.
Lemma sim_other o : simulates (other_request to_any o) (other_request to_any o).
Proof.
  destruct o; simpl; sim; auto using sim_Inject, sm_record, sm_Reset.
Qed.
Lemma sim_wait ws : simulates (waitForUpdates to_any ws) (waitForUpdates to_any ws).
Proof.
  induction ws as [|[| |others] ws IH]; simpl; auto. sim. apply sim_other.
Qed.
Lemma sim_bot_method method b ws : simulates (bot_method to_any method b ws) (bot_method to_any method b ws).
Proof. unfold bot_method, getUpdates. sim. apply sim_wait. Qed.
Lemma sim_serve r ws : simulates (mock_serve to_any r ws) (mock_serve to_any r ws).
Proof.
  unfold mock_serve.
  destruct (String.eqb _ _); [sim; apply sim_Inject|].
  destruct (_ && _); [intros m; unfold mbind, st_bind, st_get, mret, st_ret, mock_map; simpl; by rewrite sm_Calls, sm_Dropped|].
  destruct (_ && _); [sim; apply sm_Reset|].
  destruct (split_path _) as [[token method]|]; [|done].
  sim; [apply sm_record|apply sim_bot_method].
Qed.
Lemma sim_run rs : simulates (mock_run to_any rs) (mock_run to_any rs).
Proof. unfold mock_run. sim. apply sim_serve. Qed.
End simulation.

(** C39: the mock forgets only what it says it forgets.  Over any run of
    requests, waiting polls and what happens meanwhile included, the mock with
    its bounded windows gives the replies of a mock that keeps everything and
    shows, of the calls since the last reset, the newest 2048 and how many were
    older, and of the updates since the last poll, the newest 1024; so its
    memory stays within the two windows. *)
Theorem mock_refines_history (to_any : json → option json) (rs : list (MockRequest * list wake)) :
  let '(replies, m) := mock_run to_any rs (new_mock (mkWindows [] 0 [])) in
  let '(replies', h) := mock_run to_any rs (new_mock (mkHistory [] [])) in
  replies = replies' ∧ m = mock_map windowed h ∧
  (length (ws_calls (mk_store m)) <= maxRecordedCalls)%nat ∧ (length (ws_queue (mk_store m)) <= maxQueuedUpdates)%nat.
Proof.
  change (new_mock (mkWindows [] 0 [])) with (mock_map windowed (new_mock (mkHistory [] []))).
  rewrite (sim_run windowed). destruct (mock_run to_any rs (new_mock _)) as [out h].
  cbn [mock_map mk_store windowed ws_calls ws_queue]. rewrite !last_n_length. split_and!; [done..|lia|lia].
Qed.

(** The cap of the poll timeout holds, but a value whose product with a second
    overflows makes no wait at all. *)
Lemma longPollTimeout_capped b : longPollTimeout b <= maxWait.
Proof. unfold longPollTimeout. repeat case_match; unfold maxWait, Second in *; lia. Qed.
Example poll_overflow : longPollTimeout (mkRaw "" (Some (JObj [("timeout", JInt 9300000000)]))) <= 0.
Proof. vm_compute. done. Qed.
(** Injecting null stores into a nil map. *)
Example inject_null : (mock_serve Some (mkMockRequest "POST" "/test/inject-update" (mkRaw "null" (Some JNull))) []
  (new_mock (mkWindows [] 0 []))).1 = MPanic.
Proof. done. Qed.
(** One recorded body that is not JSON empties the list of calls. *)
Example calls_unreadable :
  (mock_run Some [(mkMockRequest "POST" "/bot1/getMe" (mkRaw "a=b" None), []);
                  (mkMockRequest "GET" "/test/calls" (mkRaw "" None), [])] (new_mock (mkWindows [] 0 []))).1 !! 1%nat
  = Some (MCalls None "0").
Proof. vm_compute. done. Qed.
