(* ===== verification/Bot.v ===== *)
(** * The Telegram bot

    [internal/bot]: the poller ([poller.go]), the topic provisioner
    ([topic_provisioner.go]) and the handlers [start.go], [startgroup.go],
    [promote.go], [intrusion.go] and [apps.go]; and the order in which
    [cmd/server/main.go] registers them.

    Updates are telego's: the fields the handlers read.  Long polling itself is
    an interface of telego; a run of the bot is a list of updates. *)

From stdpp Require Import base gmap list strings sorting.
From Stdlib Require Import ZArith Lia.
From S2P Require Import Prelude GoStrings Encoding AuditChain RateLimit World AuditLog Registry Strategy.
From S2P Require Import Http AdminApi.

Local Open Scope string_scope.
Local Open Scope Z_scope.
Local Open Scope list_scope.

(** ** Updates *)

Record TgUser := mkTgUser {
  tu_ID : Z; tu_Username : string; tu_FirstName : string; tu_LastName : string; tu_LanguageCode : string }.
Record Chat := mkChat { ch_ID : Z; ch_Type : string }.
Record Message := mkMessage { m_Chat : Chat; m_From : option TgUser; m_Text : string }.

(** The variants of a chat member, each with its user; the administrator's
    rights are those the bot looks at. *)
Inductive ChatMember :=
| CMOwner (user : Z)
| CMAdministrator (user : Z) (post stories topics restrict : bool)
| CMMember (user : Z)
| CMRestricted (user : Z)
| CMLeft (user : Z)
| CMBanned (user : Z).

Definition MemberStatus (m : ChatMember) : string :=
  match m with
  | CMOwner _ => "creator"
  | CMAdministrator _ _ _ _ _ => "administrator"
  | CMMember _ => "member"
  | CMRestricted _ => "restricted"
  | CMLeft _ => "left"
  | CMBanned _ => "kicked"
  end.
Definition MemberUser (m : ChatMember) : Z :=
  match m with
  | CMOwner u | CMAdministrator u _ _ _ _ | CMMember u | CMRestricted u | CMLeft u | CMBanned u => u
  end.

Record ChatMemberUpdated := mkCMU { cu_Chat : Chat; cu_New : option ChatMember }.

Record Update := mkUpdate {
  u_Message : option Message;
  u_MyChatMember : option ChatMemberUpdated;
  u_ChatMember : option ChatMemberUpdated;
  u_CallbackQuery : bool;
}.

Definition updateSummary (u : Update) : any :=
  match u_Message u, u_MyChatMember u, u_ChatMember u with
  | Some m, _, _ =>
      AInts "message" [("chat_id", ch_ID (m_Chat m)); ("from_id", match m_From m with Some f => tu_ID f | None => 0 end)]
  | None, Some c, _ => AInts "my_chat_member" [("chat_id", ch_ID (cu_Chat c))]
  | None, None, Some c => AInts "chat_member" [("chat_id", ch_ID (cu_Chat c))]
  | None, None, None => AInts (if u_CallbackQuery u then "callback_query" else "other") []
  end.

(** [classifyMyChatMember]. *)
Definition classifyMyChatMember (m : option ChatMember) : string * bool :=
  match m with
  | None => ("", false)
  | Some m =>
      (MemberStatus m,
       match m with
       | CMAdministrator _ post stories topics restrict => (post || stories) && topics && restrict
       | _ => false
       end)
  end.

Definition displayName (u : TgUser) : string :=
  if negb (String.eqb (tu_Username u) "") then tu_Username u
  else trim_space (tu_FirstName u +:+ " " +:+ tu_LastName u).

(** DELETE FROM user_subscriptions WHERE user_id AND app_id. *)
Definition sql_unsubscribe (i : Z) (app : string) (_ : Z) (db : Database) : result () * Database :=
  (Ok (), set_subscriptions (λ s, s ∖ {[(i, app)]}) db).

Record appRow := mkAppRow { ar_ID : string; ar_Name : string; ar_MinGrade : string; ar_Subscribed : bool }.

(** SELECT ... FROM apps LEFT JOIN user_subscriptions WHERE active ORDER BY id. *)
Definition catalogue `{Postgres} (i : Z) (db : Database) : list appRow :=
  omap (λ id, a ← apps db !! id;
      if app_active a
      then Some (mkAppRow id (app_name a) (app_min_grade a) (bool_decide ((i, id) ∈ user_subscriptions db)))
      else None)
    (collate (elements (dom (apps db)))).

Definition row_le (p q : appRow) : Prop := String.leb (ar_ID p) (ar_ID q).
#[export] Instance row_le_dec : RelDecision row_le.
Proof. intros p q. unfold row_le. apply _. Defined.

Definition newline : string := bytes [10%nat].

Definition visible_line (e : appRow) : string :=
  (if ar_Subscribed e then "■" else "□") +:+ " " +:+ ar_ID e +:+ " (" +:+ ar_Name e +:+ ")" +:+ newline +:+ "   " +:+
  (if ar_Subscribed e then "/unsubscribe " else "/subscribe ") +:+ ar_ID e +:+ newline.
Definition locked_line (e : appRow) : string :=
  "  - " +:+ ar_ID e +:+ " (" +:+ ar_Name e +:+ ", requires " +:+ ar_MinGrade e +:+ ")" +:+ newline.

Definition concat_map {A} (f : A → string) (l : list A) : string := foldr (λ x acc, f x +:+ acc) "" l.

(** The text of [/apps]. *)
Definition catalogue_text (userRank : Z) (entries : list appRow) : string :=
  let visible := merge_sort row_le (List.filter (λ e, gradeRank (ar_MinGrade e) <=? userRank) entries) in
  let locked := merge_sort row_le (List.filter (λ e, negb (gradeRank (ar_MinGrade e) <=? userRank)) entries) in
  "가입 가능한 앱 목록:" +:+ newline +:+ concat_map visible_line visible +:+
  match locked with
  | [] => ""
  | _ => newline +:+ "등급이 부족하여 가입 불가:" +:+ newline +:+ concat_map locked_line locked
  end.

Section bot.
Context `{PG : Postgres} `{TG : Telegram}.
Local Open Scope go_scope.

(** [_, err := h.Bot.SendMessage]. *)
Definition reply (chat : Z) (text : string) : M (result ()) :=
  r ← SendMessage (mkSend chat text 0);
  mret (match r with Ok _ => Ok () | Err s => Err (Msg s) end).

(** ** topic_provisioner.go *)

(** The loop body: create one topic and remember it. *)
Definition ensure_one (i chat : Z) (created : list string) (app : string) : M (list string) :=
  t ← CreateForumTopic chat app;
  match t return M (list string) with
  | Err s =>
      Log "error" "create_forum_topic_failed" {["user_id" := AInt i; "chat_id" := AInt chat;
        "app_id" := AStr app; "error" := AStr s]};;
      mret created
  | Ok None => mret created
  | Ok (Some thread) =>
      a ← AddTopic i app thread;
      match a return M (list string) with
      | Err e =>
          Log "error" "user_topic_add_failed" {["user_id" := AInt i; "app_id" := AStr app;
            "error" := AStr (error_text e)]};;
          mret created
      | Ok _ => mret (created ++ [app])
      end
  end.

Definition EnsureForSubscribedApps (i chat : Z) : M (result (list string)) :=
  let? l := ListSubscribedAppsWithoutTopic i else e => mret (Err e) ;;
  created ← st_fold (ensure_one i chat) [] l;
  mret (Ok created).

Definition Close (i chat : Z) (app : string) : M (result ()) :=
  let? t := GetTopicID i app else e => mret (Err (Wrap "provisioner: lookup: " e "")) ;;
  c ← CloseForumTopic chat t;
  match c return M (result ()) with
  | Err s => mret (Err (Wrap "provisioner: close forum topic: " (Msg s) ""))
  | Ok _ => RemoveTopic i app
  end.

(** ** Handlers: what was asked for, whether it was consumed, the error *)

Record BotHandler := mkBotHandler { bh_Name : string; bh_Handle : Update → M (bool * result ()) }.

Definition unhandled : M (bool * result ()) := mret (false, Ok ()).
Definition consumed (m : M (result ())) : M (bool * result ()) := r ← m; mret (true, r).

(** ** start.go *)

Definition startgroupTokenTTL : Z := 30 * 60 * Second.

Definition newToken : M (result string) :=
  let? b := rand_Read 16 else e => mret (Err e) ;;
  mret (Ok (hex_encode b)).

Definition onboarding_text (url : string) : string :=
  "개인 알림용 슈퍼그룹을 만들어주세요." +:+ newline +:+ url +:+ newline +:+
  "버튼이 안 보이면 위 링크를 눌러 새 그룹을 만들고 봇을 admin으로 추가해주세요." +:+ newline +:+
  "권한: Post Messages / Manage Topics / Ban Users 모두 필요합니다.".

Definition issueStartgroupDeeplink (bot : string) (i chat : Z) : M (result ()) :=
  if String.eqb bot "" then reply chat "봇 username이 설정되지 않았습니다. 운영자에게 문의해주세요."
  else
    let? token := newToken else e => mret (Err (Wrap "token: " e "")) ;;
    let? _u := IssueToken token i startgroupTokenTTL else e => mret (Err e) ;;
    reply chat (onboarding_text ("https://t.me/" +:+ bot +:+ "?startgroup=" +:+ token)).

Definition handleStart (bot : string) (m : Message) (from : TgUser) : M (result ()) :=
  let? user := UpsertOnStart (tu_ID from) (displayName from) (tu_LanguageCode from)
    else e => mret (Err (Wrap "start: upsert: " e "")) ;;
  let chat := ch_ID (m_Chat m) in
  if bool_decide (is_Some (U_PersonalSupergroupID user)) && U_BotIsAdmin user
  then reply chat "이미 등록되셨습니다. 개인 그룹이 연결되어 있습니다."
  else if bool_decide (U_AgreedAt user = None)
  then reply chat ("안녕하세요. 알림 봇입니다." +:+ newline +:+
    "본 봇은 알림 전달을 위해 Telegram 사용자 ID를 보관합니다." +:+ newline +:+
    "동의하시면 /agree 를 입력해주세요.")
  else issueStartgroupDeeplink bot (U_ID user) chat.

Definition handleAgree (bot : string) (aw : option Writer) (m : Message) (from : TgUser) : M (result ()) :=
  got ← GetByTelegramID (tu_ID from);
  let? user := match got return M (result User) with
               | Err (Sentinel ErrUserNotFound) =>
                   UpsertOnStart (tu_ID from) (displayName from) (tu_LanguageCode from)
               | _ => mret got
               end
    else e => mret (Err (Wrap "agree: get/upsert: " e "")) ;;
  let? transitioned := MarkAgreed (U_ID user) else e => mret (Err e) ;;
  (if (transitioned : bool)
   then write_opt aw (ev_details (mkEvent None "" "" StageValidated "" "" 0 "/agree" "" "" 0 0 "" ∅)
          {["telegram_id" := AInt (tu_ID from); "user_id" := AInt (U_ID user)]})
   else mret (Ok ()));;
  issueStartgroupDeeplink bot (U_ID user) (ch_ID (m_Chat m)).

Definition StartHandler (bot : string) (aw : option Writer) : BotHandler := mkBotHandler "start" (λ u,
  match u_Message u with
  | None => unhandled
  | Some m =>
      match m_From m with
      | None => unhandled
      | Some from =>
          let text := trim_space (m_Text m) in
          if String.eqb text "/start" || has_prefix "/start " text then consumed (handleStart bot m from)
          else if String.eqb text "/agree" then consumed (handleAgree bot aw m from)
          else unhandled
      end
  end).

(** ** startgroup.go *)

Definition linked_text : string :=
  "개인 그룹이 연결되었습니다." +:+ newline +:+ "다음 단계:" +:+ newline +:+
  "1. 그룹 설정에서 Topics 를 켜주세요." +:+ newline +:+
  "2. 봇에게 Post Messages / Manage Topics / Ban Users 권한을 부여해주세요." +:+ newline +:+
  "권한이 적용되면 가입된 앱별 토픽이 자동 생성됩니다.".

Definition redeem (token : string) (chat : Z) : M (result ()) :=
  let? i := ConsumeToken token
    else e => (if errors_is e ErrTokenNotFound || errors_is e ErrTokenExpired
               then reply chat ("잘못되었거나 만료된 초대 토큰입니다." +:+ newline +:+
                      "개인 DM에서 /start 를 다시 입력해 새 링크를 받아주세요.")
               else mret (Err (Wrap "startgroup: consume token: " e ""))) ;;
  let? _u := LinkSupergroup i chat else e => mret (Err (Wrap "startgroup: link: " e "")) ;;
  reply chat linked_text.

Definition is_group (c : Chat) : bool := String.eqb (ch_Type c) "group" || String.eqb (ch_Type c) "supergroup".

Definition start_token (m : Message) : string := trim_space (trim_prefix "/start " (trim_space (m_Text m))).

Definition StartgroupHandler : BotHandler := mkBotHandler "startgroup" (λ u,
  match u_Message u with
  | None => unhandled
  | Some m =>
      if negb (is_group (m_Chat m)) then unhandled
      else if negb (has_prefix "/start " (trim_space (m_Text m))) then unhandled
      else if String.eqb (start_token m) "" then unhandled
      else consumed (redeem (start_token m) (ch_ID (m_Chat m)))
  end).

(** ** promote.go *)

Definition bot_event (s : Stage) (endpoint : string) (user chat : Z) (code : string) (d : gmap string any) : Event :=
  mkEvent None "" "" s "" "" 0 endpoint "bot" ChannelSupergroup user chat code d.

Definition markNotAdmin (aw : option Writer) (i chat : Z) (code : string) : M (result ()) :=
  let? _u := SetBotIsAdmin i false else e => mret (Err e) ;;
  write_opt aw (bot_event StageBotNotAdmin "my_chat_member" i chat code ∅);;
  mret (Ok ()).

Definition warnMissingRights (chat : Z) : M () :=
  reply chat ("봇 권한 중 일부가 부족합니다." +:+ newline +:+
    "Post Messages / Manage Topics / Ban Users 모두 켜져야 토픽을 생성하고 침입을 막을 수 있습니다.");;
  mret ().

(** [%v] of a slice. *)
Definition join_words (l : list string) : string :=
  match l with [] => "" | x :: r => x +:+ concat_map (λ s, " " +:+ s) r end.

Definition sendReady (chat : Z) (created : list string) : M () :=
  reply chat (match created with
              | [] => "준비 완료. 알림이 활성화되었습니다."
              | _ => "준비 완료. 생성된 토픽 " +:+ format_int (Z.of_nat (length created)) +:+ "개: [" +:+
                     join_words created +:+ "]"
              end);;
  mret ().

Definition promoted (prov : bool) (i chat : Z) : M (result ()) :=
  let? _u := SetBotIsAdmin i true else e => mret (Err e) ;;
  (if prov
   then
     p ← EnsureForSubscribedApps i chat;
     (match p return M () with
      | Err e => Log "error" "provisioner_ensure_failed"
                   {["user_id" := AInt i; "chat_id" := AInt chat; "error" := AStr (error_text e)]}
      | Ok _ => mret ()
      end);;
     sendReady chat (match p with Ok created => created | Err _ => [] end)
   else mret ());;
  mret (Ok ()).

(** The switch on the bot's new status. *)
Definition promote_member (prov : bool) (aw : option Writer) (i chat : Z) (m : option ChatMember) : M (result ()) :=
  let '(status, rights) := classifyMyChatMember m in
  if String.eqb status "administrator"
  then
    if negb rights
    then warnMissingRights chat;; markNotAdmin aw i chat "intrusion_unmitigated"
    else promoted prov i chat
  else if String.eqb status "member" || String.eqb status "restricted" ||
          String.eqb status "left" || String.eqb status "kicked"
  then markNotAdmin aw i chat "bot_not_admin"
  else mret (Ok ()).

Definition PromoteHandler (prov : bool) (aw : option Writer) : BotHandler := mkBotHandler "promote" (λ u,
  match u_MyChatMember u with
  | None => unhandled
  | Some cu =>
      let chat := ch_ID (cu_Chat cu) in
      if negb (is_group (cu_Chat cu)) then consumed (mret (Ok ()))
      else
        consumed
          (let? i := FindUserByChatID chat else _e => mret (Ok ()) ;;
           promote_member prov aw i chat (cu_New cu))
  end).

(** ** intrusion.go *)

(** Ban, and record whether it worked. *)
Definition expel (aw : option Writer) (i chat intruder : Z) : M (result ()) :=
  b ← BanChatMember chat intruder;
  match b return M (result ()) with
  | Err s =>
      write_opt aw (bot_event StageIntrusionUnmitigated "chat_member" i chat "ban_failed"
        {["intruder_id" := AInt intruder; "error" := AStr s]});;
      mret (Err (Msg s))
  | Ok _ =>
      write_opt aw (bot_event StageIntrusionKick "chat_member" i chat "" {["intruder_id" := AInt intruder]});;
      mret (Ok ())
  end.

Definition IntrusionHandler (botID : Z) (aw : option Writer) : BotHandler := mkBotHandler "intrusion" (λ u,
  match u_ChatMember u with
  | None => unhandled
  | Some cu =>
      let chat := ch_ID (cu_Chat cu) in
      if negb (is_group (cu_Chat cu)) then consumed (mret (Ok ()))
      else
        consumed
          (let? i := FindUserByChatID chat else _e => mret (Ok ()) ;;
           match cu_New cu with
           | None => mret (Ok ())
           | Some m =>
               if negb (botID =? 0) && (MemberUser m =? botID) then mret (Ok ())
               else if negb (String.eqb (MemberStatus m) "member") && negb (String.eqb (MemberStatus m) "restricted")
               then mret (Ok ())
               else expel aw i chat (MemberUser m)
           end)
  end).

(** ** apps.go *)

Definition list_apps (m : Message) (from : TgUser) : M (result ()) :=
  let? user := GetByTelegramID (tu_ID from)
    else _e => reply (ch_ID (m_Chat m)) "먼저 DM에서 /start 와 /agree 를 진행해주세요." ;;
  let? entries := db_query [] (λ _ db, Ok (catalogue (U_ID user) db))
    else e => mret (Err (Wrap "apps list: " e "")) ;;
  reply (ch_ID (m_Chat m)) (catalogue_text (gradeRank (U_Grade user)) entries).

(** The subscription itself, once the app has been checked. *)
Definition subscribe_app (prov : bool) (chat : Z) (user : User) (app : string) : M (result ()) :=
  let? _u := db_exec [app] (sql_subscribe (U_ID user) app) else e => mret (Err (Wrap "subscribe: " e "")) ;;
  (match U_PersonalSupergroupID user return M () with
   | Some sg => if U_BotIsAdmin user && prov then EnsureForSubscribedApps (U_ID user) sg;; mret () else mret ()
   | None => mret ()
   end);;
  reply chat ("앱 " +:+ go_quote app +:+ " 구독을 추가했습니다. 개인 그룹에 토픽이 생성되었습니다.").

Definition unsubscribe_app (prov : bool) (chat : Z) (user : User) (app : string) : M (result ()) :=
  (match U_PersonalSupergroupID user return M () with
   | Some sg => if U_BotIsAdmin user && prov then Close (U_ID user) sg app;; mret () else mret ()
   | None => mret ()
   end);;
  let? _u := db_exec [app] (sql_unsubscribe (U_ID user) app) else e => mret (Err (Wrap "unsubscribe: " e "")) ;;
  reply chat ("앱 " +:+ go_quote app +:+ " 구독을 해지했습니다. 토픽은 보관(archived) 처리되었습니다.").

Definition app_row_query (app : string) (_ : Z) (db : Database) : result (string * bool) :=
  match apps db !! app with
  | Some a => Ok (app_min_grade a, app_active a)
  | None => Err (Sentinel ErrNoRows)
  end.

Definition toggle (prov : bool) (m : Message) (from : TgUser) (app : string) (subscribe : bool) : M (result ()) :=
  let chat := ch_ID (m_Chat m) in
  if String.eqb app "" then reply chat "사용: /subscribe <app_id> 또는 /unsubscribe <app_id>"
  else
    let? user := GetByTelegramID (tu_ID from) else _e => reply chat "먼저 /start 후 /agree 를 진행해주세요." ;;
    let? row := db_query [app] (app_row_query app)
      else _e => reply chat ("앱 " +:+ go_quote app +:+ " 을 찾을 수 없습니다.") ;;
    if negb (snd row) then reply chat ("앱 " +:+ go_quote app +:+ " 은 비활성 상태입니다.")
    else if gradeRank (U_Grade user) <? gradeRank (fst row)
    then reply chat "이 앱을 구독할 수 있는 등급이 아닙니다."
    else if (subscribe : bool) then subscribe_app prov chat user app else unsubscribe_app prov chat user app.

Definition AppsHandler (prov : bool) : BotHandler := mkBotHandler "apps" (λ u,
  match u_Message u with
  | None => unhandled
  | Some m =>
      match m_From m with
      | None => unhandled
      | Some from =>
          if negb (String.eqb (ch_Type (m_Chat m)) "private") then unhandled
          else
            let text := trim_space (m_Text m) in
            if String.eqb text "/apps" then consumed (list_apps m from)
            else if has_prefix "/subscribe " text
            then consumed (toggle prov m from (trim_space (trim_prefix "/subscribe " text)) true)
            else if has_prefix "/unsubscribe " text
            then consumed (toggle prov m from (trim_space (trim_prefix "/unsubscribe " text)) false)
            else unhandled
      end
  end).

(** ** poller.go *)

(** [dispatch]: the first handler that consumes the update or fails ends the
    search. *)
Fixpoint dispatch (hs : list BotHandler) (u : Update) : M () :=
  match hs with
  | [] => mret ()
  | h :: rest =>
      r ← bh_Handle h u;
      match r return M () with
      | (_, Err e) =>
          Log "error" "bot_handler_error" {["handler" := AStr (bh_Name h); "error" := AStr (error_text e);
            "update" := updateSummary u]}
      | (true, Ok _) => mret ()
      | (false, Ok _) => dispatch rest u
      end
  end.

(** The updates of one run of the poller. *)
Definition Run (hs : list BotHandler) (us : list Update) : M () :=
  Log "info" "bot_poller_started" {["handlers" := AInt (Z.of_nat (length hs))]};;
  st_fold (λ _ u, dispatch hs u) () us;;
  Log "info" "bot_poller_stopped" ∅.

(** The handlers in the order of [cmd/server/main.go]. *)
Definition bot_handlers (botID : Z) (bot : string) (aw : option Writer) : list BotHandler :=
  [StartgroupHandler; PromoteHandler true aw; IntrusionHandler botID aw; AppsHandler true; StartHandler bot aw].
End bot.

(** ** Invariants *)

(** What a property needs for the bot to preserve it. *)
Class BotClosed (P : Database → Prop) := {
  bc_audit :: AuditClosed P;
  bc_upsert t name lang now db : P db → P (sql_upsert_user t name lang now db).2;
  bc_agree i now db : P db → P (sql_update_user i (λ u, bool_decide (agreed_at u = None)) set_agreed now db).2;
  bc_issue token i secs now db : P db → P (sql_issue_token token i secs now db).2;
  bc_redeem token now db : P db → P (sql_delete_token token now db).2;
  bc_link i chat now db :
    P db → P (sql_update_user i not_anonymized (λ now, set_link (Some chat) (Some now) now) now db).2;
  bc_admin i b now db : P db → P (sql_update_user i (λ _, true) (set_bot_admin b) now db).2;
  bc_topic i app t now db : P db → P (sql_add_topic i app t now db).2;
  bc_untopic i app db : P db → P (set_topics (delete (i, app)) db);
  bc_subscribe i app now db : P db → P (sql_subscribe i app now db).2;
  bc_unsubscribe i app now db : P db → P (sql_unsubscribe i app now db).2;
}.

Lemma wf_unsubscribe i app now db : db_wf db → db_wf (sql_unsubscribe i app now db).2.
Proof.
  intros Hwf. simpl. apply wf_set_subs; [done|]. intros j a [Hx _]%elem_of_difference. by apply Hwf.
Qed.

#[export] Instance wf_bot_closed : BotClosed db_wf.
Proof. split; [apply _|..]; intros; auto using wf_unsubscribe with srv. Qed.

Section bot_inv.
Context `{PG : Postgres} `{TG : Telegram} (P : Database → Prop) `{!BotClosed P}.
Local Abbreviation kept := (keeps (inv_step P)).

Local Hint Extern 2 (P (snd _)) => first
  [simple apply bc_upsert | simple apply bc_agree | simple apply bc_issue | simple apply bc_redeem
  |simple apply bc_link | simple apply bc_admin | simple apply bc_topic | cbn [snd]; simple apply bc_untopic
  |simple apply bc_subscribe | simple apply bc_unsubscribe] : srv.

Local Ltac walk_through := keeps_all; try done.

Lemma inv_reply chat text : kept (reply chat text).
Proof. unfold reply, SendMessage. walk_through. Qed.
Lemma inv_UpsertOnStart t n l : kept (UpsertOnStart t n l).
Proof using Type*. unfold UpsertOnStart. walk_through. Qed.
Lemma inv_GetByTelegramID t : kept (GetByTelegramID t).
Proof. unfold GetByTelegramID. walk_through. Qed.
Lemma inv_MarkAgreed i : kept (MarkAgreed i).
Proof using Type*. unfold MarkAgreed. walk_through. Qed.
Lemma inv_IssueToken token i ttl : kept (IssueToken token i ttl).
Proof using Type*. unfold IssueToken. walk_through. Qed.
Lemma inv_ConsumeToken token : kept (ConsumeToken token).
Proof using Type*. unfold ConsumeToken. walk_through. Qed.
Lemma inv_LinkSupergroup i chat : kept (LinkSupergroup i chat).
Proof using Type*. unfold LinkSupergroup. walk_through. Qed.
Lemma inv_SetBotIsAdmin i b : kept (SetBotIsAdmin i b).
Proof using Type*. unfold SetBotIsAdmin. walk_through. Qed.
Lemma inv_FindUserByChatID chat : kept (FindUserByChatID chat).
Proof. unfold FindUserByChatID. walk_through. Qed.
Lemma inv_AddTopic i app t : kept (AddTopic i app t).
Proof using Type*. unfold AddTopic. walk_through. Qed.
Lemma inv_RemoveTopic i app : kept (RemoveTopic i app).
Proof using Type*. unfold RemoveTopic. walk_through. Qed.
Lemma inv_GetTopicID i app : kept (GetTopicID i app).
Proof. unfold GetTopicID. walk_through. Qed.
Lemma inv_ListMissing i : kept (ListSubscribedAppsWithoutTopic i).
Proof. unfold ListSubscribedAppsWithoutTopic. walk_through. Qed.
Local Hint Resolve inv_reply inv_UpsertOnStart inv_GetByTelegramID inv_MarkAgreed inv_IssueToken
  inv_ConsumeToken inv_LinkSupergroup inv_SetBotIsAdmin inv_FindUserByChatID inv_AddTopic inv_RemoveTopic
  inv_GetTopicID inv_ListMissing : srv.

Lemma inv_Ensure i chat : kept (EnsureForSubscribedApps i chat).
Proof using Type*. unfold EnsureForSubscribedApps, ensure_one, CreateForumTopic. walk_through. Qed.
Lemma inv_Close i chat app : kept (Close i chat app).
Proof using Type*. unfold Close, CloseForumTopic. walk_through. Qed.
Local Hint Resolve inv_Ensure inv_Close : srv.

Lemma inv_deeplink bot i chat : kept (issueStartgroupDeeplink bot i chat).
Proof using Type*. unfold issueStartgroupDeeplink, newToken. walk_through. Qed.
Local Hint Resolve inv_deeplink : srv.

Context (aw : option Writer) (Haw : server_writer aw).

Lemma inv_markNotAdmin i chat code : kept (markNotAdmin aw i chat code).
Proof using Type*. unfold markNotAdmin. walk_through. Qed.
Local Hint Resolve inv_markNotAdmin : srv.

Lemma inv_bot_handler botID bot u h : h ∈ bot_handlers botID bot aw → kept (bh_Handle h u).
Proof using Type*.
  unfold bot_handlers. rewrite !elem_of_cons. intros Hh. destruct_or!; subst; [..|set_solver];
    simpl; unfold unhandled, consumed.
  - unfold redeem. walk_through.
  - unfold promote_member, promoted, sendReady, warnMissingRights. walk_through.
  - unfold expel, BanChatMember. walk_through.
  - unfold list_apps, toggle, subscribe_app, unsubscribe_app. walk_through.
  - unfold handleStart, handleAgree. walk_through.
Qed.

Lemma inv_dispatch botID bot u hs : hs ⊆ bot_handlers botID bot aw → kept (dispatch hs u).
Proof using Type*.
  induction hs as [|h hs IH]; intros Hs; simpl; [apply keeps_ret, _|].
  apply keeps_bind; [apply _|apply (inv_bot_handler botID bot); set_solver|]. intros [handled [?|e]]; [|keeps_all].
  destruct handled; [apply keeps_ret, _|]. apply IH. set_solver.
Qed.

Lemma inv_Run botID bot us : kept (Run (bot_handlers botID bot aw) us).
Proof using Type*.
  unfold Run. apply keeps_bind; [apply _|keeps_all|]. intros. apply keeps_bind; [apply _| |keeps_all].
  apply keeps_fold; [apply _|]. intros _ u. by apply (inv_dispatch botID bot).
Qed.
End bot_inv.

(** ** Frames *)

Section frames.
Context `{PG : Postgres} `{TG : Telegram} {X : Type} (f : Database → X).

Lemma same_reply chat text : keeps (same f) (reply chat text).
Proof. unfold reply, SendMessage. keeps_all. Qed.
Lemma reply_same chat text w : f (w_db (reply chat text w).2) = f (w_db w).
Proof. exact (same_reply chat text w). Qed.
Lemma same_FindUserByChatID chat : keeps (same f) (FindUserByChatID chat).
Proof. unfold FindUserByChatID. keeps_all. Qed.
Lemma same_GetByTelegramID t : keeps (same f) (GetByTelegramID t).
Proof. unfold GetByTelegramID. keeps_all. Qed.
Lemma same_list_apps m from : keeps (same f) (list_apps m from).
Proof. unfold list_apps. keeps_all; [apply same_GetByTelegramID|apply same_reply..]. Qed.
Lemma same_write_opt e : (∀ c db, f (recorded c db) = f db) → (∀ db, f (set_seq_audit (λ n, n + 1) db) = f db) →
  keeps (same f) (write_opt (Some PgWriter) e).
Proof.
  intros H1 H2 w. unfold same. simpl.
  destruct (PgWrite_outcome e w) as [? ? ? ? ? Hd _|? ? Hd _|? ? ? ? ? ? Hd _]; simpl;
    [by rewrite Hd|by destruct Hd as [-> | ->]|by rewrite Hd].
Qed.

Context (Hadd : ∀ i app t now db, f (sql_add_topic i app t now db).2 = f db).
Lemma same_ensure_one i chat created app : keeps (same f) (ensure_one i chat created app).
Proof using Type*. unfold ensure_one, CreateForumTopic, AddTopic. keeps_all. Qed.
Lemma same_Ensure i chat : keeps (same f) (EnsureForSubscribedApps i chat).
Proof using Type*.
  unfold EnsureForSubscribedApps, ListSubscribedAppsWithoutTopic. keeps_all. apply same_ensure_one.
Qed.

Context (Hdel : ∀ i app db, f (set_topics (delete (i, app)) db) = f db).
Lemma same_Close i chat app : keeps (same f) (Close i chat app).
Proof using Type*. unfold Close, GetTopicID, CloseForumTopic, RemoveTopic. keeps_all. Qed.
End frames.

#[export] Hint Resolve same_reply same_FindUserByChatID same_GetByTelegramID : srv.

Lemma add_topic_users i app t now db : users (sql_add_topic i app t now db).2 = users db.
Proof. unfold sql_add_topic. by repeat case_match. Qed.
Lemma add_topic_subs i app t now db : user_subscriptions (sql_add_topic i app t now db).2 = user_subscriptions db.
Proof. unfold sql_add_topic. by repeat case_match. Qed.
#[export] Hint Resolve add_topic_users add_topic_subs : srv.

(** ** Linking a group *)

Section linking.
Context `{PG : Postgres} `{TG : Telegram}.

Lemma LinkSupergroup_users i chat w :
  users (w_db (LinkSupergroup i chat w).2) = users (w_db w) ∨
  ∃ now v, users (w_db w) !! i = Some v ∧ not_anonymized v = true ∧
    users (w_db (LinkSupergroup i chat w).2) = <[i := set_link (Some chat) (Some now) now v]> (users (w_db w)).
Proof.
  unfold LinkSupergroup, mbind, st_bind.
  set (g := sql_update_user i not_anonymized (λ now, set_link (Some chat) (Some now) now)).
  destruct (db_exec_spec [] g w) as (_&_&Hd).
  assert (∀ now, users (g now (w_db w)).2 = users (w_db w) ∨ ∃ v, users (w_db w) !! i = Some v ∧
    not_anonymized v = true ∧ users (g now (w_db w)).2 = <[i := set_link (Some chat) (Some now) now v]> (users (w_db w))) as Hg.
  { intros now. unfold g, sql_update_user. destruct (users (w_db w) !! i) as [v|] eqn:E; [|by left].
    destruct (not_anonymized v) eqn:En; [|by left]. right. eauto. }
  destruct (db_exec [] g w) as [[n|e] w1]; simpl in *; (destruct Hd as [->|[now ->]]; [by left|]);
    (destruct (Hg now) as [->|(v&?&?&->)]; [by left|right; eauto]).
Qed.

Lemma same_LinkSupergroup_tokens i chat : keeps (same pending_tokens) (LinkSupergroup i chat).
Proof.
  unfold LinkSupergroup. keeps_all. apply same_db_exec. intros. unfold sql_update_user. by repeat case_match.
Qed.

Lemma consumed_run (m : M (result ())) w : consumed m w = ((true, (m w).1), (m w).2).
Proof. unfold consumed, mbind, st_bind. by destruct (m w). Qed.

(** Redeeming a token leaves the users alone or links the token's user. *)
Lemma redeem_spec token chat w :
  users (w_db (redeem token chat w).2) = users (w_db w) ∨
  ∃ t now v, pending_tokens (w_db w) !! token = Some t ∧
    w_now (ConsumeToken token w).2 <= expires_at t * 1000 ∧
    users (w_db w) !! tok_user_id t = Some v ∧ not_anonymized v = true ∧
    users (w_db (redeem token chat w).2) =
      <[tok_user_id t := set_link (Some chat) (Some now) now v]> (users (w_db w)) ∧
    pending_tokens (w_db (redeem token chat w).2) !! token = None.
Proof.
  unfold redeem. rewrite bind_run. destruct (ConsumeToken_spec token w) as [Hu Hok].
  destruct (ConsumeToken token w) as [[i|e] w1]; cbn [fst snd] in *.
  2:{ left. case_match; [|done]. by rewrite (reply_same users). }
  destruct (Hok i eq_refl) as [(t&Ht&<-&Hnow) Hp]. rewrite bind_run.
  destruct (LinkSupergroup_users (tok_user_id t) chat w1) as [Hl|(now&v&Hv&Hn&Hl)].
  - left. destruct (LinkSupergroup _ _ w1) as [[[]|e] w2]; cbn [fst snd] in *;
      rewrite ?(reply_same users); simpl; congruence.
  - right. exists t, now, v. rewrite <- Hu.
    pose proof (same_LinkSupergroup_tokens (tok_user_id t) chat w1) as Htok. unfold same in Htok.
    destruct (LinkSupergroup _ _ w1) as [[[]|e] w2]; cbn [fst snd] in *;
      rewrite ?(reply_same users), ?(reply_same pending_tokens); simpl; rewrite ?Htok; done.
Qed.

(** C21: a group is linked to a user only by that user's own invitation.
    Whatever fails, when the start-group handler makes a chat the personal
    group of a user, the message came from that chat, it carried a token issued
    for that very user that had not expired, the token is spent, and the user is
    not anonymised. *)
Theorem link_needs_token u w i v c :
  let w' := (bh_Handle StartgroupHandler u w).2 in
  users (w_db w') !! i = Some v → personal_supergroup_chat_id v = Some c →
  users (w_db w) !! i ≠ Some v →
  ∃ m t, u_Message u = Some m ∧ is_group (m_Chat m) = true ∧ c = ch_ID (m_Chat m) ∧
    pending_tokens (w_db w) !! start_token m = Some t ∧ tok_user_id t = i ∧
    w_now (ConsumeToken (start_token m) w).2 <= expires_at t * 1000 ∧
    pending_tokens (w_db w') !! start_token m = None ∧ status v ≠ "anonymized".
Proof.
  intros w' Hv Hc Hold. subst w'. unfold StartgroupHandler in *. cbn [bh_Handle] in *. destruct (u_Message u) as [m|]; [|done].
  destruct (is_group (m_Chat m)) eqn:Eg; [|done]. destruct (has_prefix _ _); [|done].
  destruct (String.eqb _ ""); [done|]. cbn [negb] in *. exists m.
  rewrite consumed_run in Hv |- *. cbn [snd] in *.
  destruct (redeem_spec (start_token m) (ch_ID (m_Chat m)) w) as [Hu|(t&now&v0&Ht&Hnow&Hv0&Hn&Hu&Hp)];
    [rewrite Hu in Hv; done|].
  exists t. rewrite Hu, lookup_insert in Hv. case_decide; [|done]. simplify_eq/=.
  split_and!; try done. intros Hs. unfold not_anonymized in Hn. by rewrite Hs in Hn.
Qed.
End linking.

(** A token issued to user 1, redeemed in group -1001. *)
Definition invited_db : Database := (sql_issue_token "t0k" 1 60 0 one_user_db).2.
Definition start_update (chat : Z) (text : string) : Update :=
  mkUpdate (Some (mkMessage (mkChat chat "supergroup") (Some (mkTgUser 500 "ann" "" "" "ko")) text)) None None false.

Lemma link_needs_token_witness :
  ∃ m t, u_Message (start_update (-1001) "/start t0k") = Some m ∧ is_group (m_Chat m) = true ∧
    -1001 = ch_ID (m_Chat m) ∧ pending_tokens invited_db !! start_token m = Some t ∧ tok_user_id t = 1 ∧
    w_now (ConsumeToken (TG := recorder) (start_token m) (rec_world 5000 invited_db)).2 <= expires_at t * 1000 ∧
    pending_tokens (w_db (bh_Handle (StartgroupHandler (TG := recorder)) (start_update (-1001) "/start t0k")
      (rec_world 5000 invited_db)).2) !! start_token m = None ∧
    status (set_link (Some (-1001)) (Some 5) 5 (new_user 500 "ann" "ko" 10)) ≠ "anonymized".
Proof.
  apply (link_needs_token (PG := text_order) (TG := recorder) (start_update (-1001) "/start t0k")
    (rec_world 5000 invited_db) 1 (set_link (Some (-1001)) (Some 5) 5 (new_user 500 "ann" "ko" 10))).
  - vm_compute. reflexivity.
  - reflexivity.
  - vm_compute. discriminate.
Defined.

(** ** Provisioning topics *)

Lemma elem_of_missing `{Postgres} i db app :
  app ∈ missing_topics i db ↔ (i, app) ∈ user_subscriptions db ∧ user_topics db !! (i, app) = None.
Proof.
  unfold missing_topics. rewrite collate_perm, list_elem_of_omap. split.
  - intros ([j a]&Hin&Hs). apply elem_of_elements in Hin.
    destruct (Z.eqb_spec j i); simpl in Hs; [|done]. case_bool_decide; simplify_eq. done.
  - intros [Hin Hn]. exists (i, app). rewrite elem_of_elements. split; [done|].
    by rewrite Z.eqb_refl, bool_decide_eq_true_2.
Qed.

Section provisioning.
Context `{PG : Postgres} `{TG : Telegram}.

(** Topics are only added. *)
Definition topics_grow : relation World := λ w w',
  ∀ k t, user_topics (w_db w) !! k = Some t → user_topics (w_db w') !! k = Some t.

#[export] Instance topics_grow_preorder : PreOrder topics_grow.
Proof. split; [by intros ????|]. intros ??? H1 H2 k t Hk. auto. Qed.

Lemma grow_same {A} (m : M A) : keeps (same user_topics) m → keeps topics_grow m.
Proof. intros Hm w k t. unfold keeps, same in Hm. by rewrite Hm. Qed.

Lemma add_topic_grows i app t now db k t' :
  user_topics db !! k = Some t' → user_topics (sql_add_topic i app t now db).2 !! k = Some t'.
Proof.
  intros Hk. unfold sql_add_topic. destruct (user_topics db !! (i, app)) eqn:E; [done|].
  repeat case_match; try done. simpl. rewrite lookup_insert. case_decide; [congruence|done].
Qed.

Lemma AddTopic_spec i app t w :
  topics_grow w (AddTopic i app t w).2 ∧
  (∀ u, (AddTopic i app t w).1 = Ok u → is_Some (user_topics (w_db (AddTopic i app t w).2) !! (i, app))).
Proof.
  unfold AddTopic, mbind, st_bind. destruct (db_exec_spec [app] (sql_add_topic i app t) w) as (_&Hok&Hd).
  destruct (db_exec _ _ w) as [[u|e] w1]; simpl in *.
  - destruct (Hok u eq_refl) as (now&Hf&D). rewrite D. split; [intros k t'; rewrite D; apply add_topic_grows|].
    intros _ _. unfold sql_add_topic in *. destruct (user_topics (w_db w) !! (i, app)) eqn:E; simpl; [by rewrite E|].
    destruct (users (w_db w) !! i), (apps (w_db w) !! app); simplify_eq/=. rewrite lookup_insert_eq. eauto.
  - split; [|done]. intros k t' Hk. simpl. destruct Hd as [->|[now ->]]; [done|by apply add_topic_grows].
Qed.

Lemma ensure_one_spec i chat created app w :
  topics_grow w (ensure_one i chat created app w).2 ∧
  ((ensure_one i chat created app w).1 = created ∨
   (ensure_one i chat created app w).1 = created ++ [app] ∧
     is_Some (user_topics (w_db (ensure_one i chat created app w).2) !! (i, app))).
Proof.
  unfold ensure_one. rewrite bind_run.
  pose proof (grow_same (CreateForumTopic chat app) (same_tg_call _ _) w) as G1.
  destruct (CreateForumTopic chat app w) as [[[t|]|s] w1]; cbn [fst snd] in *; [|by split; [|left]..].
  rewrite bind_run. destruct (AddTopic_spec i app t w1) as [G2 Hs].
  destruct (AddTopic i app t w1) as [[u|e] w2]; cbn [fst snd] in *.
  - split; [by etrans|]. right. split; [done|]. by apply (Hs u).
  - split; [by etrans|by left].
Qed.

Lemma ensure_all_spec i chat l created w :
  let '(out, w') := st_fold (ensure_one i chat) created l w in
  topics_grow w w' ∧
  ∀ app, app ∈ out → app ∈ created ∨ app ∈ l ∧ is_Some (user_topics (w_db w') !! (i, app)).
Proof.
  revert created w. induction l as [|a l IH]; intros created w; simpl; [by split; [|auto]|].
  unfold mbind, st_bind. destruct (ensure_one_spec i chat created a w) as [G1 Hc].
  destruct (ensure_one i chat created a w) as [c1 w1]. specialize (IH c1 w1).
  destruct (st_fold _ c1 l w1) as [out w2]. destruct IH as [G2 Ho]. cbn [fst snd] in *.
  split; [by etrans|]. intros app Happ. destruct (Ho app Happ) as [Hin|[Hin Hs]]; [|right; split; [by right|done]].
  destruct Hc as [->|[-> [t Ht]]]; [by left|]. apply elem_of_app in Hin as [Hin|Hin%list_elem_of_singleton]; [by left|].
  subst. right. split; [by left|]. exists t. by apply G2.
Qed.

(** *** When nothing fails *)

Definition creates_topics (chat : Z) : Prop :=
  ∀ name t, ∃ id, (tg_createForumTopic chat name t).1 = Ok (Some id).

Lemma calm_with_tg t w : calm w → calm (with_tg t w).
Proof. done. Qed.
Lemma calm_with_db db w : calm w → calm (with_db db w).
Proof. done. Qed.

(** What the provisioner needs of an app. *)
Definition can_add (i : Z) (db : Database) (app : string) : Prop :=
  utf8_ok app = true ∧ is_Some (users db !! i) ∧ is_Some (apps db !! app).

Lemma ensure_one_calm i chat created app w : calm w → creates_topics chat → can_add i (w_db w) app →
  let w' := (ensure_one i chat created app w).2 in
  calm w' ∧ users (w_db w') = users (w_db w) ∧ apps (w_db w') = apps (w_db w) ∧
  user_subscriptions (w_db w') = user_subscriptions (w_db w) ∧
  is_Some (user_topics (w_db w') !! (i, app)).
Proof.
  intros Hw Hc (Hu&[v Hv]&[a Ha]) w'. subst w'. unfold ensure_one, CreateForumTopic. rewrite bind_run.
  rewrite (tg_call_calm _ w Hw). destruct (Hc app (w_tg w)) as [id ->]. cbn iota.
  rewrite bind_run. unfold AddTopic. rewrite bind_run, db_exec_calm; [|by apply calm_with_tg|by simpl; rewrite Hu].
  unfold sql_add_topic. simpl. destruct (user_topics (w_db w) !! (i, app)) as [t|] eqn:E.
  - simpl. rewrite E. by split_and!.
  - rewrite Hv, Ha. simpl. rewrite lookup_insert_eq. by split_and!.
Qed.

Lemma ensure_all_calm i chat l : ∀ created w, calm w → creates_topics chat → Forall (can_add i (w_db w)) l →
  let w' := (st_fold (ensure_one i chat) created l w).2 in
  user_subscriptions (w_db w') = user_subscriptions (w_db w) ∧
  ∀ app, app ∈ l → is_Some (user_topics (w_db w') !! (i, app)).
Proof.
  induction l as [|a l IH]; intros created w Hw Hc Hl; simpl; [split; [done|set_solver]|].
  apply Forall_cons in Hl as [Ha Hl]. unfold mbind, st_bind.
  destruct (ensure_one_calm i chat created a w Hw Hc Ha) as (C1&U1&A1&S1&T1).
  destruct (ensure_one i chat created a w) as [c1 w1]. simpl in *.
  destruct (IH c1 w1 C1 Hc) as [S2 T2].
  { eapply Forall_impl; [exact Hl|]. unfold can_add. by rewrite U1, A1. }
  pose proof (ensure_all_spec i chat l c1 w1) as G. destruct (st_fold _ c1 l w1) as [out w2]. destruct G as [G _].
  simpl in *. split; [congruence|]. intros app [->|Hin]%elem_of_cons; [|by apply T2].
  destruct T1 as [t Ht]. exists t. by apply G.
Qed.

(** C23: provisioning is safe to repeat and reaches its goal.  Whatever fails,
    no topic that was recorded is lost or replaced, every app reported as created
    was subscribed without a topic before and has one now, and when no topic is
    missing Telegram is not called; and when nothing fails and Telegram creates
    the topics, none is missing afterwards. *)
Theorem provisioning i chat w :
  let run := EnsureForSubscribedApps i chat w in
  topics_grow w run.2 ∧
  (∀ created app, run.1 = Ok created → app ∈ created →
     (i, app) ∈ user_subscriptions (w_db w) ∧ user_topics (w_db w) !! (i, app) = None ∧
     is_Some (user_topics (w_db run.2) !! (i, app))) ∧
  (missing_topics i (w_db w) = [] → w_tg run.2 = w_tg w) ∧
  (calm w → creates_topics chat → Forall (can_add i (w_db w)) (missing_topics i (w_db w)) →
     missing_topics i (w_db run.2) = []).
Proof.
  intros run. subst run. unfold EnsureForSubscribedApps, ListSubscribedAppsWithoutTopic.
  set (q := λ (_ : Z) db, Ok (missing_topics i db) : result (list string)).
  rewrite !bind_run. pose proof (db_query_spec [] q w) as (D&(_&_&G&_)&Hq).
  pose proof (db_query_calm [] q w) as Hcalm.
  destruct (db_query [] q w) as [[l|e] w1]; cbn [fst snd] in *.
  2:{ split_and!; [intros k t; simpl; by rewrite D|done|by intros|].
      intros Hw. by specialize (Hcalm Hw eq_refl). }
  destruct (Hq l eq_refl) as [_ [= <-]]. unfold mret, st_ret. cbn beta iota. rewrite !bind_run.
  pose proof (ensure_all_spec i chat (missing_topics i (w_db w)) [] w1) as Hs.
  pose proof (ensure_all_calm i chat (missing_topics i (w_db w)) [] w1) as Hc.
  assert (missing_topics i (w_db w) = [] →
    (st_fold (ensure_one i chat) [] (missing_topics i (w_db w)) w1).2 = w1) as Hnil by (by intros ->).
  destruct (st_fold _ [] _ w1) as [out w2]. destruct Hs as [Hg Ho]. cbn [fst snd] in *.
  split_and!.
  - intros k t Hk. apply Hg. by rewrite D.
  - intros created app [= <-] Happ. destruct (Ho app Happ) as [?|[Hin Hsome]]; [set_solver|].
    apply elem_of_missing in Hin as [??]. done.
  - intros Hn. by rewrite (Hnil Hn).
  - intros Hw Hcr Hall. specialize (Hcalm Hw eq_refl). simplify_eq.
    destruct (Hc Hw Hcr Hall) as [Hsub Hex]. apply elem_of_nil_inv. intros app Hin.
    apply elem_of_missing in Hin as [Hin Hn]. rewrite Hsub in Hin.
    destruct (user_topics (w_db w) !! (i, app)) as [t|] eqn:E; [apply Hg in E; congruence|].
    destruct (Hex app) as [t Ht]; [by apply elem_of_missing|congruence].
Qed.
End provisioning.

(** ** Subscribing *)

Section subscribing.
Context `{PG : Postgres} `{TG : Telegram}.
Local Abbreviation subs := (λ w, user_subscriptions (w_db w)).

Lemma subs_Ensure i chat w : subs (EnsureForSubscribedApps i chat w).2 = subs w.
Proof. apply (same_Ensure user_subscriptions). apply add_topic_subs. Qed.
Lemma subs_Close i chat app w : subs (Close i chat app w).2 = subs w.
Proof. apply (same_Close user_subscriptions); [apply add_topic_subs|done]. Qed.

Lemma subs_subscribe_app prov chat user app w :
  subs (subscribe_app prov chat user app w).2 = subs w ∨
  subs (subscribe_app prov chat user app w).2 = {[(U_ID user, app)]} ∪ subs w.
Proof.
  unfold subscribe_app. rewrite bind_run.
  destruct (db_exec_spec [app] (sql_subscribe (U_ID user) app) w) as (_&_&Hd).
  assert (subs (db_exec [app] (sql_subscribe (U_ID user) app) w).2 = subs w ∨
    subs (db_exec [app] (sql_subscribe (U_ID user) app) w).2 = {[(U_ID user, app)]} ∪ subs w) as Hs.
  { destruct Hd as [->|[now ->]]; [by left|]. unfold sql_subscribe. repeat case_match; simpl; auto. }
  destruct (db_exec _ _ w) as [[u|e] w1]; [|exact Hs]. rewrite bind_run.
  match goal with |- context [(match U_PersonalSupergroupID user with _ => _ end) w1] =>
    set (prov_step := match U_PersonalSupergroupID user return M () with _ => _ end) end.
  assert (subs (prov_step w1).2 = subs w1) as Hp.
  { unfold prov_step. repeat case_match; try done. rewrite bind_run.
    pose proof (subs_Ensure (U_ID user) z w1). by destruct (EnsureForSubscribedApps _ _ w1). }
  destruct (prov_step w1) as [v w2]. rewrite (reply_same user_subscriptions). simpl in *. by rewrite Hp.
Qed.

Lemma subs_unsubscribe_app prov chat user app w :
  subs (unsubscribe_app prov chat user app w).2 = subs w ∨
  subs (unsubscribe_app prov chat user app w).2 = subs w ∖ {[(U_ID user, app)]}.
Proof.
  unfold unsubscribe_app. rewrite bind_run.
  match goal with |- context [(match U_PersonalSupergroupID user with _ => _ end) w] =>
    set (prov_step := match U_PersonalSupergroupID user return M () with _ => _ end) end.
  assert (subs (prov_step w).2 = subs w) as Hp.
  { unfold prov_step. repeat case_match; try done. rewrite bind_run.
    pose proof (subs_Close (U_ID user) z app w). by destruct (Close _ _ _ w). }
  destruct (prov_step w) as [v w1]. cbn [fst snd] in *. rewrite bind_run, <- Hp.
  destruct (db_exec_spec [app] (sql_unsubscribe (U_ID user) app) w1) as (_&_&Hd).
  assert (subs (db_exec [app] (sql_unsubscribe (U_ID user) app) w1).2 = subs w1 ∨
    subs (db_exec [app] (sql_unsubscribe (U_ID user) app) w1).2 = subs w1 ∖ {[(U_ID user, app)]}) as Hs.
  { destruct Hd as [->|[now ->]]; [by left|by right]. }
  destruct (db_exec _ _ w1) as [[u|e] w2]; [|exact Hs]. by rewrite (reply_same user_subscriptions).
Qed.

Lemma GetByTelegramID_Ok t w user : (GetByTelegramID t w).1 = Ok user →
  ∃ v, users (w_db w) !! U_ID user = Some v ∧ telegram_id v = t ∧ U_Grade user = grade v.
Proof.
  unfold GetByTelegramID. rewrite bind_run.
  match goal with |- context [db_query [] ?q w] => destruct (db_query_spec [] q w) as (_&_&Hq); set (g := q) in * end.
  destruct (db_query [] g w) as [[x|e] w1]; simpl in *; [|destruct (errors_is e ErrNoRows); simpl; discriminate].
  intros [= <-]. destruct (Hq x eq_refl) as [_ Hf]. unfold g in Hf.
  destruct (find_by_telegram t (w_db w)) as [[i v]|] eqn:E; [|done]. simplify_eq/=.
  apply find_by_telegram_Some in E as [??]. eauto.
Qed.

(** The sender may change the subscription to [app]. *)
Definition may_toggle (sender : Z) (app : string) (i : Z) (db : Database) : Prop :=
  ∃ v a, users db !! i = Some v ∧ telegram_id v = sender ∧ apps db !! app = Some a ∧ app_active a = true ∧
    gradeRank (app_min_grade a) <= gradeRank (grade v).

Lemma subs_toggle prov m from app b w :
  subs (toggle prov m from app b w).2 = subs w ∨
  ∃ i, may_toggle (tu_ID from) app i (w_db w) ∧
    (subs (toggle prov m from app b w).2 = {[(i, app)]} ∪ subs w ∨
     subs (toggle prov m from app b w).2 = subs w ∖ {[(i, app)]}).
Proof.
  unfold toggle. destruct (String.eqb app ""); [left; apply (reply_same user_subscriptions)|].
  rewrite bind_run. pose proof (GetByTelegramID_Ok (tu_ID from) w) as Hu.
  pose proof (same_GetByTelegramID id (tu_ID from) w) as Hd. unfold same, id in Hd.
  destruct (GetByTelegramID (tu_ID from) w) as [[user|e] w1]; cbn [fst snd] in *.
  2:{ left. by rewrite (reply_same user_subscriptions), Hd. }
  destruct (Hu user eq_refl) as (v&Hv&Ht&Hg). rewrite bind_run.
  destruct (db_query_spec [app] (app_row_query app) w1) as (D&_&Hq). rewrite Hd in *.
  destruct (db_query [app] _ w1) as [[row|e] w2]; cbn [fst snd] in *.
  2:{ left. by rewrite (reply_same user_subscriptions), D. }
  destruct (Hq row eq_refl) as [now Hr]. unfold app_row_query in Hr.
  destruct (apps (w_db w) !! app) as [a|] eqn:Ea; [|done]. simplify_eq/=.
  destruct (app_active a) eqn:Eact; simpl; [|left; by rewrite (reply_same user_subscriptions), D].
  destruct (Z.ltb_spec (gradeRank (U_Grade user)) (gradeRank (app_min_grade a))).
  { left. by rewrite (reply_same user_subscriptions), D. }
  assert (may_toggle (tu_ID from) app (U_ID user) (w_db w)) as Hm.
  { exists v, a. split_and!; try done. by rewrite <- Hg. }
  destruct b.
  - destruct (subs_subscribe_app prov (ch_ID (m_Chat m)) user app w2) as [->| ->]; rewrite D; eauto.
  - destruct (subs_unsubscribe_app prov (ch_ID (m_Chat m)) user app w2) as [->| ->]; rewrite D; eauto.
Qed.

(** C22: subscribing by chat is guarded.  Whatever fails, the catalogue handler
    either leaves all subscriptions alone, or the update is a private message
    and exactly one subscription of its sender changed, to an active app whose
    grade the sender reaches. *)
Theorem subscriptions_guarded prov u w :
  let w' := (bh_Handle (AppsHandler prov) u w).2 in
  user_subscriptions (w_db w') = user_subscriptions (w_db w) ∨
  ∃ m from i app, u_Message u = Some m ∧ m_From m = Some from ∧ ch_Type (m_Chat m) = "private" ∧
    may_toggle (tu_ID from) app i (w_db w) ∧
    (user_subscriptions (w_db w') = {[(i, app)]} ∪ user_subscriptions (w_db w) ∨
     user_subscriptions (w_db w') = user_subscriptions (w_db w) ∖ {[(i, app)]}).
Proof.
  unfold AppsHandler. cbn [bh_Handle]. destruct (u_Message u) as [m|]; [|by left].
  destruct (m_From m) as [from|] eqn:Ef; [|by left].
  destruct (String.eqb_spec (ch_Type (m_Chat m)) "private") as [Ec|]; [|by left].
  cbn [negb]. set (text := trim_space (m_Text m)).
  destruct (String.eqb text "/apps").
  { left. rewrite consumed_run. cbn [snd]. apply (same_list_apps user_subscriptions). }
  assert (∀ app b, subs (consumed (toggle prov m from app b) w).2 = subs w ∨
    ∃ i, may_toggle (tu_ID from) app i (w_db w) ∧
      (subs (consumed (toggle prov m from app b) w).2 = {[(i, app)]} ∪ subs w ∨
       subs (consumed (toggle prov m from app b) w).2 = subs w ∖ {[(i, app)]})) as Hall.
  { intros app b. rewrite consumed_run. cbn [snd]. apply subs_toggle. }
  destruct (has_prefix "/subscribe " text).
  { destruct (Hall (trim_space (trim_prefix "/subscribe " text)) true) as [?|(i&?&?)]; [by left|right].
    exists m, from, i. eexists. by split_and!. }
  destruct (has_prefix "/unsubscribe " text); [|by left].
  destruct (Hall (trim_space (trim_prefix "/unsubscribe " text)) false) as [?|(i&?&?)]; [by left|right].
  exists m, from, i. eexists. by split_and!.
Qed.
End subscribing.

(** ** Intruders *)

Section intrusion.
Context `{PG : Postgres} `{TG : Telegram}.

Lemma FindUserByChatID_calm chat w : calm w →
  FindUserByChatID chat w =
  (match users_of_chat chat (w_db w) with i :: _ => Ok i | [] => Err (Sentinel ErrUserNotFound) end, w).
Proof.
  intros Hw. unfold FindUserByChatID. rewrite bind_run, db_query_calm by done.
  by destruct (users_of_chat chat (w_db w)).
Qed.

Lemma FindUserByChatID_Ok chat w i : (FindUserByChatID chat w).1 = Ok i →
  ∃ rest, users_of_chat chat (w_db w) = i :: rest.
Proof.
  unfold FindUserByChatID. rewrite bind_run.
  match goal with |- context [db_query [] ?q w] => destruct (db_query_spec [] q w) as (_&_&Hq); set (g := q) in * end.
  destruct (db_query [] g w) as [[x|e] w1]; simpl in *; [|destruct (errors_is e ErrNoRows); simpl; discriminate].
  intros [= <-]. destruct (Hq x eq_refl) as [now Hf]. unfold g in Hf.
  destruct (users_of_chat chat (w_db w)) as [|j rest]; simplify_eq. eauto.
Qed.

Lemma FindUserByChatID_reads chat : keeps reads (FindUserByChatID chat).
Proof. unfold FindUserByChatID. keeps_all. Qed.

Lemma users_of_chat_elem chat db i : i ∈ users_of_chat chat db →
  ∃ v, users db !! i = Some v ∧ personal_supergroup_chat_id v = Some chat.
Proof.
  unfold users_of_chat. rewrite plan_perm, list_elem_of_omap. intros ([j v]&Hin&Hs).
  apply elem_of_map_to_list in Hin. case_bool_decide; simplify_eq. eauto.
Qed.

(** A member who has just joined and is not the bot. *)
Definition joiner (botID : Z) (m : ChatMember) : bool :=
  negb (negb (botID =? 0) && (MemberUser m =? botID)) &&
  (String.eqb (MemberStatus m) "member" || String.eqb (MemberStatus m) "restricted").

(** What an update asks the intrusion handler to look at. *)
Definition arrival (u : Update) : option (Z * ChatMember) :=
  cu ← u_ChatMember u; m ← cu_New cu; if is_group (cu_Chat cu) then Some (ch_ID (cu_Chat cu), m) else None.

Lemma intrusion_quiet botID aw u w :
  match arrival u with
  | Some (chat, m) => joiner botID m = false ∨ users_of_chat chat (w_db w) = []
  | None => True
  end → w_tg (bh_Handle (IntrusionHandler botID aw) u w).2 = w_tg w.
Proof.
  unfold IntrusionHandler, arrival, joiner. cbn [bh_Handle]. intros Ha.
  destruct (u_ChatMember u) as [cu|]; [|done]. simpl in Ha.
  destruct (is_group (cu_Chat cu)); [|done]. cbn [negb]. rewrite consumed_run. cbn [snd]. rewrite bind_run.
  destruct (FindUserByChatID_reads (ch_ID (cu_Chat cu)) w) as (_&(_&_&G&_)&_).
  pose proof (FindUserByChatID_Ok (ch_ID (cu_Chat cu)) w) as Hf.
  destruct (FindUserByChatID _ w) as [[i|e] w1]; [|done]. cbn [fst snd] in *.
  destruct (cu_New cu) as [m|]; [|done]. simpl in Ha. destruct (Hf i eq_refl) as [rest Hr].
  destruct Ha as [Ha|Ha]; [|congruence].
  destruct (negb (botID =? 0) && (MemberUser m =? botID)); [done|]. simpl in Ha.
  apply orb_false_iff in Ha as [-> ->]. done.
Qed.

Lemma kick_cols now i chat x : ∃ c,
  insert_cols now (bot_event StageIntrusionKick "chat_member" i chat "" {["intruder_id" := AInt x]}) = Some c ∧
  stage c = "intrusion_kick" ∧ recipient_user_id c = nullif_z i ∧ recipient_chat_id c = nullif_z chat.
Proof.
  unfold insert_cols. destruct (jsonb_of_plain {["intruder_id" := AInt x]}) as [d Hd].
  { intros k v [_ <-]%lookup_singleton_Some. done. }
  simpl. rewrite Hd. simpl. eexists. by split_and!.
Qed.

Lemma expel_calm i chat x w : calm w →
  let run := expel (Some PgWriter) i chat x w in
  w_tg run.2 = (tg_banChatMember chat x (w_tg w)).2 ∧
  match (tg_banChatMember chat x (w_tg w)).1 with
  | Ok _ => (true, run.1) = (true, Ok ()) ∧ ∃ row, audit_log (w_db run.2) = audit_log (w_db w) ++ [row] ∧
      stage (a_cols row) = "intrusion_kick" ∧ recipient_user_id (a_cols row) = nullif_z i ∧
      recipient_chat_id (a_cols row) = nullif_z chat
  | Err s => (true, run.1) = (true, Err (Msg s))
  end.
Proof.
  intros Hw run. subst run. unfold expel, BanChatMember. rewrite bind_run, (tg_call_calm _ w Hw).
  destruct (tg_banChatMember chat x (w_tg w)) as [[[]|s] t]; cbn [fst snd].
  - set (w1 := with_tg t w). rewrite bind_run. unfold write_opt. cbn [Write PgWriter].
    destruct (kick_cols (w_now w1 / 1000) i chat x) as (c&Hc&H1&H2&H3).
    rewrite (PgWrite_calm _ w1 c) by done. split; [done|]. split; [done|].
    eexists. by split_and!.
  - set (w1 := with_tg t w). rewrite bind_run. 
    pose proof (quiet_write_opt (Some PgWriter) (bot_event StageIntrusionUnmitigated "chat_member" i chat "ban_failed"
        {["intruder_id" := AInt x; "error" := AStr s]}) (or_intror eq_refl) w1) as Hq.
    by destruct (write_opt _ _ w1).
Qed.

(** Whoever joins a personal group is expelled and the expulsion recorded.
    Telegram is never called unless a member other than the bot joined a group
    that is linked to a user, whatever fails.  When one does and no call fails,
    the handler bans that member; if Telegram accepts, one [intrusion_kick] row
    naming the group's user and chat is appended to the log, and if Telegram
    refuses, its error is returned.  (The group's own user is not exempt.) *)
Theorem intruders_expelled botID u w :
  let run := bh_Handle (IntrusionHandler botID (Some PgWriter)) u w in
  (w_tg run.2 ≠ w_tg w → ∃ chat m i, arrival u = Some (chat, m) ∧ joiner botID m = true ∧
     i ∈ users_of_chat chat (w_db w)) ∧
  (∀ chat m i rest, calm w → arrival u = Some (chat, m) → joiner botID m = true →
     users_of_chat chat (w_db w) = i :: rest →
     w_tg run.2 = (tg_banChatMember chat (MemberUser m) (w_tg w)).2 ∧
     match (tg_banChatMember chat (MemberUser m) (w_tg w)).1 with
     | Ok _ => run.1 = (true, Ok ()) ∧ ∃ row, audit_log (w_db run.2) = audit_log (w_db w) ++ [row] ∧
         stage (a_cols row) = "intrusion_kick" ∧ recipient_user_id (a_cols row) = nullif_z i ∧
         recipient_chat_id (a_cols row) = nullif_z chat
     | Err s => run.1 = (true, Err (Msg s))
     end).
Proof.
  intros run. subst run. split.
  - intros Hne. pose proof (intrusion_quiet botID (Some PgWriter) u w) as Hq.
    destruct (arrival u) as [[chat m]|]; [|exfalso; by apply Hne, Hq].
    destruct (joiner botID m) eqn:Ej; [|exfalso; apply Hne, Hq; by left].
    destruct (users_of_chat chat (w_db w)) as [|i rest] eqn:Eu; [exfalso; apply Hne, Hq; by right|].
    exists chat, m, i. rewrite Eu. split_and!; [done..|by left].
  - intros chat m i rest Hw Ha Hj Hu. unfold IntrusionHandler, arrival, joiner in *. cbn [bh_Handle].
    destruct (u_ChatMember u) as [cu|]; [|done]. simpl in Ha.
    destruct (cu_New cu) as [m'|] eqn:Em; [|done]. simpl in Ha. destruct (is_group (cu_Chat cu)); simplify_eq/=.
    rewrite consumed_run. cbn [fst snd]. rewrite bind_run, FindUserByChatID_calm, Hu by done.
    apply andb_true_iff in Hj as [Hj1 Hj2]. apply negb_true_iff in Hj1. rewrite Hj1.
    assert (negb (MemberStatus m =? "member")%string && negb (MemberStatus m =? "restricted")%string = false) as ->.
    { by rewrite <- negb_orb, Hj2. }
    by apply expel_calm.
Qed.
End intrusion.

(** The owner of a group (telegram id 500), reported as a plain member, is
    banned from it. *)
Definition owned_db : Database :=
  (sql_update_user 1 not_anonymized (λ now, set_link (Some (-1001)) (Some now) now) 20 one_user_db).2.
Definition member_update (chat user : Z) : Update :=
  mkUpdate None None (Some (mkCMU (mkChat chat "supergroup") (Some (CMMember user)))) false.

Example owner_banned :
  find_by_telegram 500 owned_db = Some (1, set_link (Some (-1001)) (Some 20) 20 (new_user 500 "ann" "ko" 10)) ∧
  w_tg (bh_Handle (IntrusionHandler (PG := text_order) (TG := recorder) 999 None) (member_update (-1001) 500)
    (rec_world 0 owned_db)).2 = [EvBanned (-1001) 500].
Proof. vm_compute. done. Qed.

(** ** Administrator rights *)

Section rights.
Context `{PG : Postgres} `{TG : Telegram}.

Definition admin_flag (i : Z) (db : Database) : option bool := bot_is_admin_in_supergroup <$> users db !! i.

Lemma flag_recorded i c db : admin_flag i (recorded c db) = admin_flag i db.
Proof. done. Qed.

Lemma flag_update i j b now db :
  admin_flag j (sql_update_user i (λ _, true) (set_bot_admin b) now db).2 =
  if decide (j = i) then (λ _, b) <$> admin_flag i db else admin_flag j db.
Proof.
  unfold sql_update_user, admin_flag. destruct (users db !! i) as [v|] eqn:E; simpl.
  - rewrite lookup_insert. repeat case_decide; subst; simpl; try done.
  - case_decide; [by subst; rewrite E|done].
Qed.

(** Setting the flag: it ends as it was or as asked, and as asked when the
    call succeeds. *)
Lemma SetBotIsAdmin_flag i b j w :
  let run := SetBotIsAdmin i b w in
  (admin_flag j (w_db run.2) = admin_flag j (w_db w) ∨
     j = i ∧ admin_flag j (w_db run.2) = (λ _, b) <$> admin_flag i (w_db w)) ∧
  (∀ u, run.1 = Ok u → j = i → admin_flag j (w_db run.2) = (λ _, b) <$> admin_flag i (w_db w)).
Proof.
  intros run. subst run. unfold SetBotIsAdmin. rewrite bind_run.
  destruct (db_exec_spec [] (sql_update_user i (λ _, true) (set_bot_admin b)) w) as (_&Hok&Hd).
  assert (admin_flag j (w_db (db_exec [] (sql_update_user i (λ _, true) (set_bot_admin b)) w).2) = admin_flag j (w_db w) ∨
    j = i ∧ admin_flag j (w_db (db_exec [] (sql_update_user i (λ _, true) (set_bot_admin b)) w).2) =
      (λ _, b) <$> admin_flag i (w_db w)) as Hf.
  { destruct Hd as [->|[now ->]]; [by left|]. rewrite flag_update. case_decide; auto. }
  destruct (db_exec _ _ w) as [[n|e] w1]; simpl in *; (split; [done|]); [|done].
  intros _ _ ->. destruct (Hok n eq_refl) as (now&_&->). rewrite flag_update. by rewrite decide_True.
Qed.

Lemma flag_markNotAdmin i chat code j w :
  let run := markNotAdmin (Some PgWriter) i chat code w in
  (admin_flag j (w_db run.2) = admin_flag j (w_db w) ∨
     j = i ∧ admin_flag j (w_db run.2) = (λ _, false) <$> admin_flag i (w_db w)) ∧
  (∀ u, run.1 = Ok u → j = i → admin_flag j (w_db run.2) = (λ _, false) <$> admin_flag i (w_db w)).
Proof.
  intros run. subst run. unfold markNotAdmin. rewrite bind_run.
  pose proof (SetBotIsAdmin_flag i false j w) as Hs.
  destruct (SetBotIsAdmin i false w) as [[u|e] w1]; cbn [fst snd] in *; [|exact Hs].
  rewrite bind_run. set (ev := bot_event _ _ _ _ _ _).
  pose proof (same_write_opt (admin_flag j) ev ltac:(done) ltac:(done) w1) as Hw. unfold same in Hw.
  destruct (write_opt _ ev w1) as [r w2]. simpl in *. rewrite Hw. destruct Hs as [H1 H2]. split; [done|]. intros _ _. by apply (H2 u).
Qed.

Lemma flag_promoted i chat j w :
  let run := promoted true i chat w in
  (admin_flag j (w_db run.2) = admin_flag j (w_db w) ∨
     j = i ∧ admin_flag j (w_db run.2) = (λ _, true) <$> admin_flag i (w_db w)) ∧
  (∀ u, run.1 = Ok u → j = i → admin_flag j (w_db run.2) = (λ _, true) <$> admin_flag i (w_db w)).
Proof.
  intros run. subst run. unfold promoted. rewrite bind_run.
  pose proof (SetBotIsAdmin_flag i true j w) as Hs.
  destruct (SetBotIsAdmin i true w) as [[u|e] w1]; cbn [fst snd] in *; [|exact Hs].
  match goal with |- context [(?m ≫= (λ _, mret (Ok ()))) w1] => set (steps := m) end.
  assert (admin_flag j (w_db (steps w1).2) = admin_flag j (w_db w1)) as Hp.
  { assert (keeps (same (admin_flag j)) steps) as Hk; [|exact (Hk w1)].
    unfold steps, sendReady. keeps_all.
    apply (same_Ensure (admin_flag j)). intros. unfold admin_flag. by rewrite add_topic_users. }
  rewrite bind_run. destruct (steps w1) as [[] w2]. simpl in *. rewrite Hp. destruct Hs as [H1 H2].
  split; [done|]. intros _ _. by apply (H2 u).
Qed.

(** The outcome an update about the bot itself asks for: [Some true] with all
    rights, [Some false] without, [None] for anything else. *)
Definition asked_flag (m : option ChatMember) : option bool :=
  let '(status, rights) := classifyMyChatMember m in
  if String.eqb status "administrator" then Some rights
  else if String.eqb status "member" || String.eqb status "restricted" ||
          String.eqb status "left" || String.eqb status "kicked" then Some false
  else None.

Lemma flag_promote_member i chat m j w :
  let run := promote_member true (Some PgWriter) i chat m w in
  (admin_flag j (w_db run.2) = admin_flag j (w_db w) ∨
     ∃ b, asked_flag m = Some b ∧ j = i ∧ admin_flag j (w_db run.2) = (λ _, b) <$> admin_flag i (w_db w)) ∧
  (∀ b u, asked_flag m = Some b → run.1 = Ok u → j = i →
     admin_flag j (w_db run.2) = (λ _, b) <$> admin_flag i (w_db w)).
Proof.
  intros run. subst run. unfold promote_member, asked_flag. destruct (classifyMyChatMember m) as [status rights].
  destruct (String.eqb status "administrator").
  - destruct rights; cbn [negb].
    + destruct (flag_promoted i chat j w) as [H1 H2]. split; [naive_solver|]. intros b u [= <-]. apply H2.
    + unfold warnMissingRights. rewrite !bind_run.
      pose proof (reply_same (admin_flag j) chat) as Hr. pose proof (reply_same (admin_flag i) chat) as Hi.
      match goal with |- context [reply chat ?t w] => specialize (Hr t w); specialize (Hi t w);
        destruct (reply chat t w) as [r w1] end. simpl in *.
      destruct (flag_markNotAdmin i chat "intrusion_unmitigated" j w1) as [H1 H2].
      rewrite Hr, Hi in *. split; [naive_solver|]. intros b u [= <-]. apply H2.
  - destruct (_ || _).
    + destruct (flag_markNotAdmin i chat "bot_not_admin" j w) as [H1 H2].
      split; [naive_solver|]. intros b u [= <-]. apply H2.
    + split; [by left|done].
Qed.

Lemma flag_of_chat chat db i rest : users_of_chat chat db = i :: rest → is_Some (admin_flag i db).
Proof.
  intros Hu. destruct (users_of_chat_elem chat db i) as (v&Hv&_); [rewrite Hu; by left|].
  unfold admin_flag. rewrite Hv. eauto.
Qed.

(** The administrator flag follows the bot's rights.  Whatever fails, an
    update of the bot's membership changes the flag of no user but the one the
    chat is linked to, and only to what the membership grants: true for an
    administrator who may post, manage topics and restrict members, false for
    one who may not and for a mere, restricted, departed or banned member.  When
    the handler reports success for a group that was found, the flag has that
    value. *)
Theorem flag_follows_rights u w cu j :
  u_MyChatMember u = Some cu →
  let chat := ch_ID (cu_Chat cu) in
  let run := bh_Handle (PromoteHandler true (Some PgWriter)) u w in
  (admin_flag j (w_db run.2) = admin_flag j (w_db w) ∨
     ∃ b rest, users_of_chat chat (w_db w) = j :: rest ∧ asked_flag (cu_New cu) = Some b ∧
       admin_flag j (w_db run.2) = Some b) ∧
  (∀ rest b, calm w → is_group (cu_Chat cu) = true → users_of_chat chat (w_db w) = j :: rest →
     asked_flag (cu_New cu) = Some b → run.1.2 = Ok () → admin_flag j (w_db run.2) = Some b).
Proof.
  intros Hu chat run. subst run. unfold PromoteHandler. cbn [bh_Handle]. rewrite Hu. fold chat.
  destruct (is_group (cu_Chat cu)) eqn:Eg; cbn [negb]; rewrite consumed_run; cbn [fst snd]; [|by split; [left|]].
  rewrite !bind_run. destruct (FindUserByChatID_reads chat w) as (D&_&_).
  pose proof (FindUserByChatID_Ok chat w) as Hf. pose proof (FindUserByChatID_calm chat w) as Hc.
  destruct (FindUserByChatID chat w) as [[i|e] w1]; cbn [fst snd] in *.
  2:{ split; [left; simpl; by rewrite D|]. intros rest b Hw _ Hl. specialize (Hc Hw). by rewrite Hl in Hc. }
  destruct (Hf i eq_refl) as [rest Hr]. destruct (flag_of_chat _ _ _ _ Hr) as [b0 Hb0].
  destruct (flag_promote_member i chat (cu_New cu) j w1) as [H1 H2]. rewrite D in *. split.
  - destruct H1 as [H1|(b&Hb&->&H1)]; [by left|right]. exists b, rest. by rewrite H1, Hb0.
  - intros rest' b _ _ Hr' Hb Hok. rewrite Hr in Hr'. simplify_eq. by rewrite (H2 b () Hb Hok eq_refl), Hb0.
Qed.
End rights.

Definition promote_update (chat : Z) : Update :=
  mkUpdate None (Some (mkCMU (mkChat chat "supergroup") (Some (CMAdministrator 999 true false true true)))) None false.

Lemma flag_follows_rights_witness :
  admin_flag 1 (w_db (bh_Handle (PromoteHandler (PG := text_order) (TG := recorder) true (Some (PgWriter (PG := text_order))))
    (promote_update (-1001)) (rec_world 0 owned_db)).2) = Some true.
Proof.
  destruct (flag_follows_rights (PG := text_order) (TG := recorder) (promote_update (-1001)) (rec_world 0 owned_db)
    (mkCMU (mkChat (-1001) "supergroup") (Some (CMAdministrator 999 true false true true))) 1 eq_refl) as [_ H].
  apply (H [] true).
  - apply rec_world_calm.
  - reflexivity.
  - vm_compute. reflexivity.
  - reflexivity.
  - vm_compute. reflexivity.
Defined.
