(* ===== verification/System.v ===== *)
(** * The whole server

    [cmd/server/main.go] runs the HTTP server and the bot's poller over the same
    database.  Here their work is a sequence of events, requests and updates in
    any order, and the theorems hold for every sequence, with calls failing,
    timing out or losing their acknowledgement anywhere.  (Events are handled one
    at a time; that audit rows chain correctly when writers do interleave is
    [concurrent_writers_chain] of [AuditLog].) *)

From stdpp Require Import base gmap list strings.
From Stdlib Require Import ZArith Lia.
From S2P Require Import Prelude GoStrings AuditChain RateLimit World AuditLog Auth Registry Strategy.
From S2P Require Import Dispatch Http Messages AdminApi Router Bot.

Local Open Scope string_scope.
Local Open Scope Z_scope.
Local Open Scope list_scope.

Inductive event :=
| EvRequest (r : HttpRequest)
| EvUpdate (u : Update).

Section system.
Context `{F : Float64} `{A2 : Argon2} `{PG : Postgres} `{TG : Telegram} `{X : Mux}.
Context (size : body → Z) (policy : string → Policy) (botID : Z) (botName : string).

Definition handle_event (e : event) : M () :=
  match e with
  | EvRequest r => serve size (server_deps (request_limiter policy)) r;; mret ()
  | EvUpdate u => Bot.dispatch (bot_handlers botID botName (Some PgWriter)) u
  end.

Definition run_events (es : list event) : M () := st_fold (λ _ e, handle_event e) () es.

Lemma inv_run_events P `{!AdminClosed P} `{!BotClosed P} es w :
  w_tx w = None → P (w_db w) → P (w_db (run_events es w).2).
Proof using Type*.
  intros Ht HP. apply inv_run; [|done|done]. unfold run_events. apply keeps_fold; [apply _|]. intros _ [r|u]; unfold handle_event.
  - apply keeps_bind; [apply _|apply inv_NewRouter, _|]. intros. apply keeps_ret, _.
  - apply (inv_dispatch P (Some PgWriter) (or_intror eq_refl) botID botName). done.
Qed.
End system.

Ltac bot_statement_cases :=
  unfold sql_upsert_user, sql_update_user, sql_issue_token, sql_delete_token, sql_add_topic, sql_subscribe,
    sql_unsubscribe; repeat case_match; simplify_eq/=; try done.

#[export] Instance log_extends_bot_closed log : BotClosed (log_extends log).
Proof.
  unfold log_extends. split; [apply _|..]; intros; try done; bot_statement_cases.
Qed.

#[export] Instance authority_bot_closed init : BotClosed (authority_within init).
Proof.
  unfold authority_within. split; [apply _|..]; intros; try done; bot_statement_cases.
Qed.

Section theorems.
Context `{F : Float64} `{A2 : Argon2} `{PG : Postgres} `{TG : Telegram} `{X : Mux}.

(** The server keeps the database well formed and its audit log tamper
    evident.  Whatever requests and updates arrive, in whatever order, and
    whichever database or Telegram calls fail or lose their acknowledgement: the
    constraints of the schema hold afterwards, every audit row that was there is
    still there unchanged, and the hash chain of the whole log verifies. *)
Theorem system_keeps_wf size policy botID botName es w :
  db_wf (w_db w) → w_tx w = None →
  let w' := (run_events size policy botID botName es w).2 in
  db_wf (w_db w') ∧ audit_log (w_db w) `prefix_of` audit_log (w_db w') ∧
  (verify_table (audit_log (w_db w'))).1.(OK) = true.
Proof.
  intros Hwf Ht w'.
  assert (db_wf (w_db w')) as Hwf' by (by apply inv_run_events; [apply _|apply _|..]).
  split_and!; [done| |].
  { apply (inv_run_events size policy botID botName (log_extends (audit_log (w_db w)))); [done|].
    unfold log_extends. reflexivity. }
  destruct (wf_audit _ Hwf') as [[_ Hl] _]. by rewrite linked_verify_table.
Qed.

(** Nobody escalates.  However the API and the bot are used, management
    capabilities are only ever held by apps that held them before, and no API
    key appears or changes. *)
Theorem no_escalation size policy botID botName es w :
  w_tx w = None →
  let w' := (run_events size policy botID botName es w).2 in
  (∀ a c, c ∈ forbiddenCapabilities → (a, c) ∈ app_capabilities (w_db w') → (a, c) ∈ app_capabilities (w_db w)) ∧
  app_keys (w_db w') ⊆ app_keys (w_db w).
Proof. intros Ht w'. by apply (inv_run_events size policy botID botName (authority_within (w_db w))). Qed.
End theorems.

(** ** A concrete run *)

Definition sample_events : list event :=
  [EvRequest (create_request "news" CapMessagesTopic); EvUpdate (start_update (-1001) "/agree");
   EvRequest (create_request "evil" CapAuditSearch)].

Definition sample_run : @World recorder :=
  (run_events (F := exact) (A2 := toy_argon2) (PG := text_order) (TG := recorder) (X := path_mux)
    (λ _, 0) (request_policy default_policy ∅) 999 "a_bot" sample_events (rec_world 0 registrar_db)).2.

(** The first app is created, the user registers and agrees, and the grant of a
    management capability is refused. *)
Example sample_run_effect :
  elements (dom (apps (w_db sample_run))) = ["news"; "root"] ∧
  elements (dom (users (w_db sample_run))) = [1] ∧
  (λ r, stage (a_cols r)) <$> audit_log (w_db sample_run) =
    ["received"; "validated"; "delivered"; "validated"; "received"; "denied"].
Proof. vm_compute. done. Qed.

Lemma system_keeps_wf_witness :
  db_wf (w_db sample_run) ∧ (verify_table (audit_log (w_db sample_run))).1.(OK) = true.
Proof.
  pose proof (system_keeps_wf (F := exact) (A2 := toy_argon2) (PG := text_order) (TG := recorder) (X := path_mux)
    (λ _, 0) (request_policy default_policy ∅) 999 "a_bot" sample_events (rec_world 0 registrar_db) registrar_db_wf eq_refl)
    as (H1&_&H3).
  split; [exact H1|exact H3].
Defined.

Lemma no_escalation_witness :
  (∀ a c, c ∈ forbiddenCapabilities → (a, c) ∈ app_capabilities (w_db sample_run) → (a, c) ∈ app_capabilities registrar_db) ∧
  app_keys (w_db sample_run) ⊆ app_keys registrar_db.
Proof.
  apply (no_escalation (F := exact) (A2 := toy_argon2) (PG := text_order) (TG := recorder) (X := path_mux)
    (λ _, 0) (request_policy default_policy ∅) 999 "a_bot" sample_events (rec_world 0 registrar_db)). reflexivity.
Defined.
