(* ===== verification/Hook.v ===== *)
(** * The hook chain

    [internal/hook/chain.go] and [internal/hook/builtin/audit_hook.go].  A hook
    gets a pointer to the request and may change it, so the request is part of
    the state the chain runs in, beside the world. *)

From stdpp Require Import base gmap list strings.
From Stdlib Require Import ZArith Lia.
From S2P Require Import Prelude GoStrings AuditChain World AuditLog Http.

Local Open Scope string_scope.
Local Open Scope Z_scope.
Local Open Scope list_scope.

Inductive HookStage := StagePre | StageCore | StagePost | StageOther (s : string).

Definition hook_stage_string (s : HookStage) : string :=
  match s with StagePre => "pre" | StageCore => "core" | StagePost => "post" | StageOther s => s end.

(** A nil payload reads as an empty map and is replaced when it is written. *)
Record HookRequest := mkHookRequest {
  hr_TraceID : string; hr_MessageID : string; hr_Endpoint : string; hr_AppID : string;
  hr_Capability : string; hr_RouteStrategy : string; hr_Payload : gmap string any }.

Record HookResult := mkHookResult {
  hk_Continue : bool; hk_ResultStage : HookStage; hk_Reason : string; hk_Updated : gmap string any }.

Section hooks.
Context `{PG : Postgres} `{TG : Telegram}.

Definition HState : Type := HookRequest * World.

(** [Run] returns a result and possibly an error. *)
Record Hook := mkHook {
  hk_Name : string; hk_Stage : HookStage; hk_Run : ST HState (HookResult * option error) }.

Definition Core : Type := ST HState (option error).

Record Chain := mkChain { c_pre : list Hook; c_post : list Hook }.

Definition is_post (h : Hook) : bool := match hk_Stage h with StagePost => true | _ => false end.

Definition NewChain (hooks : list Hook) : Chain :=
  foldl (λ c h, if is_post h then mkChain (c_pre c) (c_post c ++ [h]) else mkChain (c_pre c ++ [h]) (c_post c))
    (mkChain [] []) hooks.

(** New values win. *)
Definition mergePayload (updated : gmap string any) : ST HState () :=
  st_modify (λ '(r, w), (mkHookRequest (hr_TraceID r) (hr_MessageID r) (hr_Endpoint r) (hr_AppID r)
    (hr_Capability r) (hr_RouteStrategy r) (updated ∪ hr_Payload r), w)).

(** The loop over the hooks before the core. *)
Fixpoint run_pre (hs : list Hook) : ST HState (option error) :=
  match hs with
  | [] => mret None
  | h :: rest =>
      '(r, e) ← hk_Run h;
      match e with
      | Some err => mret (Some (Wrap ("hook " +:+ hk_Name h +:+ " (pre): ") err ""))
      | None =>
          if negb (hk_Continue r)
          then mret (Some (Wrap "" (Sentinel ErrShortCircuit) (": " +:+ hk_Name h +:+ " @ " +:+
                 hook_stage_string (hk_ResultStage r) +:+ ": " +:+ hk_Reason r)))
          else mergePayload (hk_Updated r);; run_pre rest
      end
  end.

(** The loop over the hooks after it: they cannot stop the chain but by an
    error. *)
Fixpoint run_post (hs : list Hook) : ST HState (option error) :=
  match hs with
  | [] => mret None
  | h :: rest =>
      '(r, e) ← hk_Run h;
      match e with
      | Some err => mret (Some (Wrap ("hook " +:+ hk_Name h +:+ " (post): ") err ""))
      | None => mergePayload (hk_Updated r);; run_post rest
      end
  end.

Definition run_core (core : option Core) : ST HState (option error) :=
  match core with
  | None => mret None
  | Some f => e ← f; mret (match e with Some err => Some (Wrap "core: " err "") | None => None end)
  end.

Definition Execute (c : Chain) (core : option Core) : ST HState (option error) :=
  e1 ← run_pre (c_pre c);
  match e1 with
  | Some e => mret (Some e)
  | None =>
      e2 ← run_core core;
      match e2 with
      | Some e => mret (Some e)
      | None => run_post (c_post c)
      end
  end.

(** ** audit_hook.go *)

(** [v, _ := payload[k].(string)] and [.(int64)]. *)
Definition payload_string (k : string) (p : gmap string any) : string :=
  match p !! k with Some (AStr s) => s | _ => "" end.
Definition payload_int64 (k : string) (p : gmap string any) : Z :=
  match p !! k with Some (AInt z) => z | _ => 0 end.

Definition hook_event (s : Stage) (r : HookRequest) : Event :=
  mkEvent None (hr_TraceID r) (hr_MessageID r) s (hr_AppID r) (hr_Capability r) 0 (hr_Endpoint r)
    (hr_RouteStrategy r) (payload_string "delivery_channel" (hr_Payload r))
    (payload_int64 "recipient_user_id" (hr_Payload r)) (payload_int64 "recipient_chat_id" (hr_Payload r)) "" ∅.

Definition continue_result : HookResult := mkHookResult true (StageOther "") "" ∅.

(** A computation of the server inside a hook. *)
Definition on_world {A} (m : M A) : ST HState A := λ '(r, w), let '(a, w') := m w in (a, (r, w')).

Definition NewPostDispatchAuditHook (aw : option Writer) : Hook :=
  mkHook ("audit_" +:+ stage_string StageDispatched) StagePost (λ s,
    match aw with
    | None => ((continue_result, None), s)
    | Some a =>
        let '(r, s') := on_world (Write a (hook_event StageDispatched s.1)) s in
        ((continue_result, match r with Err e => Some (Wrap "audit hook write: " e "") | Ok _ => None end), s')
    end).
End hooks.

(** ** What an execution can do *)

Section outcome.
Context `{PG : Postgres} `{TG : Telegram}.

Definition merged (u : gmap string any) (s : HState) : HState := (mergePayload u s).2.

(** [passes stop hs s s']: the hooks ran in order, none failed or, when [stop]
    is set, asked to stop, and each result was merged. *)
Inductive passes (stop : bool) : list Hook → HState → HState → Prop :=
| pass_nil s : passes stop [] s s
| pass_cons h hs s r s1 s2 : hk_Run h s = ((r, None), s1) → (stop = true → hk_Continue r = true) →
    passes stop hs (merged (hk_Updated r) s1) s2 → passes stop (h :: hs) s s2.

(** How [Execute] ends: a pre hook fails or stops it, and then neither the
    rest nor the core runs; the core fails, and then no post hook runs; a post
    hook fails; or everything ran. *)
Inductive execution (c : Chain) (core : option Core) (s : HState) : option error * HState → Prop :=
| ex_pre_failed l h l' s1 r e s2 : c_pre c = l ++ h :: l' → passes true l s s1 →
    hk_Run h s1 = ((r, Some e), s2) →
    execution c core s (Some (Wrap ("hook " +:+ hk_Name h +:+ " (pre): ") e ""), s2)
| ex_stopped l h l' s1 r s2 err : c_pre c = l ++ h :: l' → passes true l s s1 →
    hk_Run h s1 = ((r, None), s2) → hk_Continue r = false → errors_is err ErrShortCircuit = true →
    execution c core s (Some err, s2)
| ex_core_failed f s1 e s2 : passes true (c_pre c) s s1 → core = Some f → f s1 = (Some e, s2) →
    execution c core s (Some (Wrap "core: " e ""), s2)
| ex_post_failed l h l' s1 s2 s3 r e s4 : passes true (c_pre c) s s1 → run_core core s1 = (None, s2) →
    c_post c = l ++ h :: l' → passes false l s2 s3 → hk_Run h s3 = ((r, Some e), s4) →
    execution c core s (Some (Wrap ("hook " +:+ hk_Name h +:+ " (post): ") e ""), s4)
| ex_completed s1 s2 s3 : passes true (c_pre c) s s1 → run_core core s1 = (None, s2) →
    passes false (c_post c) s2 s3 → execution c core s (None, s3).

Lemma merge_run {A} u (k : () → ST HState A) s : (mergePayload u ≫= k) s = k () (merged u s).
Proof. done. Qed.

Lemma run_pre_cases hs s :
  (∃ s', run_pre hs s = (None, s') ∧ passes true hs s s') ∨
  (∃ l h l' s1 r s2, hs = l ++ h :: l' ∧ passes true l s s1 ∧
    ((∃ e, hk_Run h s1 = ((r, Some e), s2) ∧
        run_pre hs s = (Some (Wrap ("hook " +:+ hk_Name h +:+ " (pre): ") e ""), s2)) ∨
     (hk_Run h s1 = ((r, None), s2) ∧ hk_Continue r = false ∧
        ∃ err, errors_is err ErrShortCircuit = true ∧ run_pre hs s = (Some err, s2)))).
Proof.
  revert s. induction hs as [|h hs IH]; intros s; [left; eexists; split; [done|constructor]|].
  cbn [run_pre]. rewrite bind_run. destruct (hk_Run h s) as [[r [e|]] s1] eqn:Eh.
  { right. exists [], h, hs, s, r, s1. split_and!; [done|constructor|]. left. by exists e. }
  destruct (hk_Continue r) eqn:Ec; cbn [negb].
  2:{ right. exists [], h, hs, s, r, s1. split_and!; [done|constructor|]. right.
      split_and!; [done|done|]. eexists. by split; [|done]. }
  rewrite merge_run. destruct (IH (merged (hk_Updated r) s1)) as [(s'&Hr&Hp)|(l&h'&l'&s2&r'&s3&->&Hp&Hc)].
  - left. exists s'. split; [done|]. by econstructor.
  - right. exists (h :: l), h', l', s2, r', s3. split_and!; [done|by econstructor|exact Hc].
Qed.

Lemma run_post_cases hs s :
  (∃ s', run_post hs s = (None, s') ∧ passes false hs s s') ∨
  (∃ l h l' s1 r e s2, hs = l ++ h :: l' ∧ passes false l s s1 ∧ hk_Run h s1 = ((r, Some e), s2) ∧
     run_post hs s = (Some (Wrap ("hook " +:+ hk_Name h +:+ " (post): ") e ""), s2)).
Proof.
  revert s. induction hs as [|h hs IH]; intros s; [left; eexists; split; [done|constructor]|].
  cbn [run_post]. rewrite bind_run. destruct (hk_Run h s) as [[r [e|]] s1] eqn:Eh.
  { right. exists [], h, hs, s, r, e, s1. split_and!; [done|constructor|done|done]. }
  rewrite merge_run. destruct (IH (merged (hk_Updated r) s1)) as [(s'&Hr&Hp)|(l&h'&l'&s2&r'&e&s3&->&Hp&Hc)].
  - left. exists s'. split; [done|]. by econstructor.
  - right. exists (h :: l), h', l', s2, r', e, s3. split_and!; [done|by econstructor|apply Hc..].
Qed.

Lemma NewChain_split hooks c : foldl (λ c h, if is_post h then mkChain (c_pre c) (c_post c ++ [h])
    else mkChain (c_pre c ++ [h]) (c_post c)) c hooks =
  mkChain (c_pre c ++ List.filter (λ h, negb (is_post h)) hooks) (c_post c ++ List.filter is_post hooks).
Proof.
  revert c. induction hooks as [|h hooks IH]; intros c; simpl; [by destruct c; rewrite !app_nil_r|].
  rewrite IH. destruct (is_post h); simpl; by rewrite <- app_assoc.
Qed.

(** The chain runs in order and stops where it should.  The hooks
    registered for the post stage, in order of registration, are the post hooks
    and all others the pre hooks; and an execution ends in exactly one of the
    five ways of [execution]: the core runs only when every pre hook let the
    request pass, the post hooks only when the core succeeded, every hook sees
    the payload updates of those before it, and nothing runs after a failure or a
    stop. *)
Theorem chain_execution hooks core s :
  let c := NewChain hooks in
  c_pre c = List.filter (λ h, negb (is_post h)) hooks ∧ c_post c = List.filter is_post hooks ∧
  execution c core s (Execute c core s).
Proof.
  intros c. subst c. unfold NewChain. rewrite NewChain_split. simpl. split_and!; [done..|].
  set (c := mkChain _ _). unfold Execute. rewrite bind_run.
  destruct (run_pre_cases (c_pre c) s) as [(s1&->&Hp)|(l&h&l'&s1&r&s2&Hl&Hp&[(e&Hr&->)|(Hr&Hc&err&He&->)])].
  2:{ by eapply ex_pre_failed. }
  2:{ by eapply ex_stopped. }
  rewrite bind_run. destruct (run_core core s1) as [[e|] s2] eqn:Ecore.
  { unfold run_core in Ecore. destruct core as [f|]; [|done]. rewrite bind_run in Ecore.
    destruct (f s1) as [[e'|] s2'] eqn:Ef; [|done]. injection Ecore as <- <-. by eapply ex_core_failed. }
  destruct (run_post_cases (c_post c) s2) as [(s3&->&Hq)|(l&h&l'&s3&r&e&s4&Hl&Hq&Hr&->)].
  - by eapply ex_completed.
  - by eapply ex_post_failed.
Qed.
End outcome.

(** ** A concrete chain *)

Definition add_channel : @Hook recorder :=
  mkHook "channel" StagePre (λ s, ((mkHookResult true StagePre "" {["delivery_channel" := AStr ChannelDM]}, None), s)).
Definition sample_chain : @Chain recorder :=
  NewChain [NewPostDispatchAuditHook (Some (PgWriter (PG := text_order))); add_channel].

(** The audit hook records the channel a pre hook has put into the payload. *)
Example sample_chain_runs :
  let run := Execute sample_chain None (mkHookRequest "t" "m" "/x" "app" "" "dm" ∅, rec_world 0 empty_db) in
  run.1 = None ∧
  (λ r, (stage (a_cols r), delivery_channel (a_cols r))) <$> audit_log (w_db run.2.2) =
    [("dispatched", Some ChannelDM)].
Proof. vm_compute. done. Qed.
