(* ===== verification/Config.v ===== *)
(** * Configuration and startup

    [internal/config/config.go] and [internal/adminui/config.go]: the settings
    both processes read from their environment; [net.SplitHostPort] and
    [net.ParseIP] as they use them; and the loop of [cmd/server/main.go] that
    waits for the database. *)

From stdpp Require Import base gmap list strings.
From Stdlib Require Import Ascii ZArith NArith Lia.
From S2P Require Import Prelude GoStrings RateLimit AuditChain World.

Local Open Scope string_scope.
Local Open Scope Z_scope.
Local Open Scope list_scope.

(** ** internal/config/config.go *)

(** [os.Getenv]. *)
Definition Env : Type := string → string.

Module Server.

Record Config := mkConfig {
  TelegramBotToken : string;
  TelegramBotUsername : string;
  TelegramAPIURL : string;
  DatabaseURL : string;
  HTTPListenAddr : string;
  LogLevel : string;
}.

Definition missing (name : string) : error := Wrap "" (Sentinel ErrMissingRequired) (": " +:+ name).

Definition validate (c : Config) : result () :=
  if String.eqb (TelegramBotToken c) "" then Err (missing "TELEGRAM_BOT_TOKEN")
  else if String.eqb (TelegramBotUsername c) "" then Err (missing "TELEGRAM_BOT_USERNAME")
  else if String.eqb (DatabaseURL c) "" then Err (missing "DATABASE_URL")
  else Ok ().

Definition or_default (s d : string) : string := if String.eqb s "" then d else s.

Definition Load (env : Env) : result Config :=
  let get k := trim_space (env k) in
  let cfg := mkConfig (get "TELEGRAM_BOT_TOKEN") (get "TELEGRAM_BOT_USERNAME") (get "TELEGRAM_API_URL")
    (get "DATABASE_URL") (or_default (get "HTTP_LISTEN_ADDR") "127.0.0.1:8080") (or_default (get "LOG_LEVEL") "info") in
  match validate cfg with Ok _ => Ok cfg | Err e => Err e end.
End Server.

(** ** net *)

(** [strings.LastIndexByte]. *)
Fixpoint last_index_byte (c : ascii) (s : string) : option nat :=
  match s with
  | "" => None
  | String x s' => match last_index_byte c s' with
                   | Some i => Some (S i)
                   | None => if Ascii.eqb x c then Some 0%nat else None
                   end
  end.

Definition lbracket : ascii := "["%char.
Definition rbracket : ascii := "]"%char.
Definition colon : ascii := ":"%char.

(** [net.SplitHostPort]: host and port; [None] is an error. *)
Definition SplitHostPort (hostport : string) : option (string * string) :=
  match last_index_byte colon hostport with
  | None => None
  | Some i =>
      let brackets j k host :=
        if negb (no_byte lbracket (sdrop j hostport)) then None
        else if negb (no_byte rbracket (sdrop k hostport)) then None
        else Some (host, sdrop (i + 1) hostport) in
      if has_prefix "[" hostport then
        match index_byte rbracket hostport with
        | None => None
        | Some e => if (e + 1 =? i)%nat then brackets 1%nat (e + 1)%nat (sdrop 1 (stake e hostport)) else None
        end
      else
        let host := stake i hostport in
        if negb (no_byte colon host) then None else brackets 0%nat 0%nat host
  end.

(** [net.ParseIP], as sixteen bytes. *)
Definition v4_field (s : string) : option N :=
  match s with
  | "" => None
  | String c rest =>
      if Ascii.eqb c "0" && negb (String.eqb rest "") then None
      else n ← parse_uint s; if (n <=? 255)%N then Some n else None
  end.
Definition parse_v4 (s : string) : option (list N) :=
  match split_on "." s with
  | [_; _; _; _] as fs => mapM v4_field fs
  | _ => None
  end.

Definition hex_val (c : ascii) : option N :=
  let n := N_of_ascii c in
  if in_range c 48 57 then Some (n - 48)%N
  else if in_range c 97 102 then Some (n - 87)%N
  else if in_range c 65 70 then Some (n - 55)%N else None.

(** The hex digits at the front: how many, their value and the rest. *)
Fixpoint take_hex (s : string) (off : nat) (acc : N) : nat * N * string :=
  match s with
  | String c s' => match hex_val c with Some d => take_hex s' (S off) (acc * 16 + d)%N | None => (off, acc, s) end
  | "" => (off, acc, s)
  end.

Record v6_state := mkV6 { v6_bytes : list N; v6_ellipsis : option nat; v6_rest : string }.

(** The loop: one group of digits per round, at most eight. *)
Fixpoint v6_loop (fuel : nat) (st : v6_state) : option v6_state :=
  match fuel with
  | 0%nat => Some st
  | S fuel' =>
      let '(off, acc, rest) := take_hex (v6_rest st) 0 0%N in
      if (off =? 0)%nat || (4 <? off)%nat then None
      else if has_prefix "." rest then
        if bool_decide (v6_ellipsis st = None) && negb (length (v6_bytes st) =? 12)%nat then None
        else if (16 <? length (v6_bytes st) + 4)%nat then None
        else b ← parse_v4 (v6_rest st); Some (mkV6 (v6_bytes st ++ b) (v6_ellipsis st) "")
      else
        let bs := v6_bytes st ++ [(acc / 256)%N; (acc mod 256)%N] in
        match rest with
        | "" => Some (mkV6 bs (v6_ellipsis st) "")
        | String c rest1 =>
            if negb (Ascii.eqb c colon) || String.eqb rest1 "" then None
            else if has_prefix ":" rest1 then
              match v6_ellipsis st with
              | Some _ => None
              | None => if String.eqb (sdrop 1 rest1) "" then Some (mkV6 bs (Some (length bs)) "")
                        else v6_loop fuel' (mkV6 bs (Some (length bs)) (sdrop 1 rest1))
              end
            else v6_loop fuel' (mkV6 bs (v6_ellipsis st) rest1)
        end
  end.

Definition v6_fill (st : v6_state) : option (list N) :=
  let n := length (v6_bytes st) in
  if negb (String.eqb (v6_rest st) "") then None
  else match v6_ellipsis st with
  | None => if (n =? 16)%nat then Some (v6_bytes st) else None
  | Some e => if (n <? 16)%nat then Some (take e (v6_bytes st) ++ replicate (16 - n) 0%N ++ drop e (v6_bytes st)) else None
  end.

Definition parse_v6 (s : string) : option (list N) :=
  if has_prefix "::" s then
    if String.eqb (sdrop 2 s) "" then Some (replicate 16 0%N)
    else st ← v6_loop 8 (mkV6 [] (Some 0%nat) (sdrop 2 s)); v6_fill st
  else st ← v6_loop 8 (mkV6 [] None s); v6_fill st.

Definition v4_in_v6 : list N := replicate 10 0%N ++ [255%N; 255%N].

(** The first separator decides. *)
Fixpoint ParseIP_from (whole s : string) : option (list N) :=
  match s with
  | "" => None
  | String c s' =>
      if Ascii.eqb c "." then b ← parse_v4 whole; Some (v4_in_v6 ++ b)
      else if Ascii.eqb c ":" then if no_byte "%" whole then parse_v6 whole else None
      else if Ascii.eqb c "%" then None
      else ParseIP_from whole s'
  end.
Definition ParseIP (s : string) : option (list N) := ParseIP_from s s.

Definition IsLoopback (ip : list N) : bool :=
  if bool_decide (take 12 ip = v4_in_v6) then bool_decide (ip !! 12%nat = Some 127%N)
  else bool_decide (ip = replicate 15 0%N ++ [1%N]).

(** ** internal/adminui/config.go *)

Module Ui.

Record Config := mkConfig {
  ListenAddr : string;
  Password : string;
  APIKey : string;
  TelegramServerURL : string;
  DatabaseURL : string;
  CookieSecure : bool;
}.

Definition missing (name : string) : error := Wrap "" (Sentinel UiErrMissingRequired) (": " +:+ name).

Definition validate (c : Config) : result () :=
  if String.eqb (Password c) "" then Err (missing "ADMINUI_PASSWORD")
  else if String.eqb (APIKey c) "" then Err (missing "ADMINUI_API_KEY")
  else Ok ().

Definition Load (env : Env) : result Config :=
  let get k := trim_space (env k) in
  let cfg := mkConfig (Server.or_default (get "ADMINUI_LISTEN_ADDR") "127.0.0.1:8081") (get "ADMINUI_PASSWORD")
    (get "ADMINUI_API_KEY") (Server.or_default (get "TELEGRAM_SERVER_URL") "http://127.0.0.1:8080") (get "DATABASE_URL")
    (existsb (String.eqb (to_lower (get "ADMINUI_COOKIE_SECURE"))) ["1"; "true"; "yes"]) in
  match validate cfg with Ok _ => Ok cfg | Err e => Err e end.

Definition ListensLoopbackOnly (c : Config) : bool :=
  match SplitHostPort (ListenAddr c) with
  | None => false
  | Some (host, _) =>
      if String.eqb host "localhost" then true
      else match ParseIP host with Some ip => IsLoopback ip | None => false end
  end.
End Ui.

(** The addresses of [config_test.go]. *)
Example loopback_cases :
  (λ a, Ui.ListensLoopbackOnly (Ui.mkConfig a "" "" "" "" false)) <$>
    ["127.0.0.1:8081"; "localhost:8081"; "[::1]:8081"; "0.0.0.0:8081"; ":8081"; "192.168.1.10:8081"; "bad"; "127.0.0.01:1"; "[::ffff:127.9.9.9]:80"] =
  [true; true; true; false; false; false; false; false; true].
Proof. vm_compute. reflexivity. Qed.

(** ** cmd/server/main.go: waitForDB *)

Section startup.
Context `{TG : Telegram}.

Definition Millisecond : Z := 1000 * 1000.

(** [time.After] in a select whose context nobody cancels. *)
Definition sleep (d : Z) : M () := st_modify (λ w, with_clock (w_now w + d) (w_oracle w) w).

(** The loop; [None]: out of fuel. *)
Fixpoint wait_loop (fuel : nat) (deadline : Z) : M (option (result ())) :=
  match fuel with
  | 0%nat => mret None
  | S fuel' =>
      r ← within (2 * Second) db_ping;
      match r return M (option (result ())) with
      | Ok _ => mret (Some (Ok ()))
      | Err e =>
          now ← st_gets w_now;
          if deadline <? now then mret (Some (Err e))
          else sleep (500 * Millisecond);; wait_loop fuel' deadline
      end
  end.

Definition waitForDB (fuel : nat) (timeout : Z) : M (option (result ())) :=
  now ← st_gets w_now; wait_loop fuel (now + timeout).

(** The calls to come answer within two seconds. *)
Definition prompt (w : World) : Prop := Forall (λ p, p.1 <= 2 * Second) (w_oracle w).

Lemma call_prompt w : prompt w → prompt (call w).2 ∧ w_now (call w).2 <= w_now w + 2 * Second.
Proof.
  unfold prompt, call. destruct (w_oracle w) as [|[lat out] rest]; intros Hf; case_match; simpl;
    (split; [|unfold Second]); try (by constructor); try lia; inversion Hf; simplify_eq/=; try done; unfold Second in *; lia.
Qed.

Lemma ping_time w :
  let w' := (within (2 * Second) db_ping w).2 in
  w_now w <= w_now w' ∧ w_db w' = w_db w ∧ (prompt w → prompt w' ∧ w_now w' <= w_now w + 2 * Second).
Proof.
  unfold within, db_ping, mbind, st_bind, st_gets, st_modify, mret, st_ret.
  match goal with |- context [call ?x] => destruct (call_spec x) as (D&_&H); pose proof (call_prompt x) as Hp;
    destruct (call x) as [[out e] w1] end.
  simpl in *. destruct out; simpl; auto.
Qed.

(** How a run from [w] ends: with an answer, an error only when the deadline has
    passed, and soon after it. *)
Definition waited (deadline : Z) (w : World) (p : option (result ()) * World) : Prop :=
  match p.1 with
  | None => False
  | Some (Ok _) => True
  | Some (Err _) => deadline < w_now p.2
  end ∧ w_db p.2 = w_db w ∧ (prompt w → w_now p.2 <= deadline + 500 * Millisecond + 2 * Second).

Lemma wait_loop_ends fuel deadline w :
  deadline < w_now w + 500 * Millisecond * Z.of_nat fuel → w_now w <= deadline + 500 * Millisecond →
  waited deadline w (wait_loop (S fuel) deadline w).
Proof.
  revert w. induction fuel as [|fuel IH]; intros w Hf Hd; cbn [wait_loop]; unfold mbind, st_bind, mret, st_ret;
    destruct (ping_time w) as (Ht&D&Hp); destruct (within (2 * Second) db_ping w) as [[u|e] w1]; cbn [snd] in *.
  1, 3: (split; [done|split; [done|]]; intros [_ ?]%Hp; cbn [snd]; lia).
  - unfold st_gets. destruct (Z.ltb_spec deadline (w_now w1)); [|lia].
    (split; [done|split; [done|]]; intros [_ ?]%Hp; cbn [snd]; lia).
  - unfold st_gets. destruct (Z.ltb_spec deadline (w_now w1)).
    { (split; [done|split; [done|]]; intros [_ ?]%Hp; cbn [snd]; lia). }
    unfold sleep, st_modify. set (w2 := with_clock _ _ _).
    destruct (IH w2) as (H1&H2&H3); [unfold w2; simpl; lia..|]. split; [exact H1|split].
    + unfold mbind, st_bind. etrans; [exact H2|exact D].
    + intros Hw. apply H3. by apply Hp in Hw as [? _].
Qed.

(** C37: waiting for the database ends: sixty-two rounds are always enough, the
    wait reports an error only after its thirty seconds have passed, changes
    nothing in the database, and, when each ping respects its two-second
    timeout, is over two and a half seconds after the deadline at the latest. *)
Theorem waitForDB_terminates fuel w :
  let p := waitForDB (62 + fuel) (30 * Second) w in
  match p.1 with
  | None => False
  | Some (Ok _) => True
  | Some (Err _) => w_now w + 30 * Second < w_now p.2
  end ∧ w_db p.2 = w_db w ∧ (prompt w → w_now p.2 <= w_now w + 32500 * Millisecond).
Proof.
  cbn zeta. unfold waitForDB, mbind, st_bind, st_gets.
  destruct (wait_loop_ends (61 + fuel) (w_now w + 30 * Second) w) as (H1&H2&H3).
  - unfold Millisecond, Second. lia.
  - unfold Millisecond, Second. lia.
  - split; [exact H1|split; [exact H2|]]. intros Hp%H3. unfold Millisecond, Second in *. etrans; [exact Hp|lia].
Qed.
End startup.

(** ** What a loaded configuration guarantees *)

(** A process starts only with what it needs: the server's configuration loads
    exactly when its bot token, bot name and database URL are more than white
    space, the admin UI's exactly when its password and API key are; every loaded
    value is the environment's without surrounding white space, and the address
    defaults to a loopback one. *)
Theorem config_complete env :
  match Server.Load env with
  | Ok c => Server.TelegramBotToken c ≠ "" ∧ Server.TelegramBotUsername c ≠ "" ∧ Server.DatabaseURL c ≠ "" ∧
      Server.HTTPListenAddr c ≠ "" ∧ Server.TelegramBotToken c = trim_space (env "TELEGRAM_BOT_TOKEN")
  | Err e => errors_is e ErrMissingRequired = true ∧
      (trim_space (env "TELEGRAM_BOT_TOKEN") = "" ∨ trim_space (env "TELEGRAM_BOT_USERNAME") = "" ∨
       trim_space (env "DATABASE_URL") = "")
  end ∧
  match Ui.Load env with
  | Ok c => Ui.Password c ≠ "" ∧ Ui.APIKey c ≠ "" ∧ Ui.Password c = trim_space (env "ADMINUI_PASSWORD") ∧
      (trim_space (env "ADMINUI_LISTEN_ADDR") = "" → Ui.ListensLoopbackOnly c = true)
  | Err e => errors_is e UiErrMissingRequired = true ∧
      (trim_space (env "ADMINUI_PASSWORD") = "" ∨ trim_space (env "ADMINUI_API_KEY") = "")
  end.
Proof.
  split.
  - unfold Server.Load, Server.validate. cbn [Server.TelegramBotToken Server.TelegramBotUsername Server.DatabaseURL].
    repeat match goal with |- context [if String.eqb ?x "" then _ else _] => destruct (String.eqb_spec x "") end;
      simpl; split_and!; try done; try tauto.
    unfold Server.or_default. by destruct (String.eqb_spec (trim_space (env "HTTP_LISTEN_ADDR")) "").
  - unfold Ui.Load, Ui.validate. cbn [Ui.Password Ui.APIKey].
    repeat match goal with |- context [if String.eqb ?x "" then _ else _] => destruct (String.eqb_spec x "") end;
      simpl; split_and!; try done; try tauto.
    intros E. unfold Ui.ListensLoopbackOnly. simpl. unfold Server.or_default. rewrite E. reflexivity.
Qed.
