(* ===== verification/AdminSession.v ===== *)
(** * Admin UI sessions

    [internal/adminui/session.go] and [csrf.go]: the signed session cookie and
    its revocation, the CSRF tokens, and the two brakes on login guessing, the
    per-address token bucket and the global back-off.

    The mutable parts of the process are explicit values: a [SessionManager], a
    map of login buckets and a [globalBackoff]; [time.Now()] is an argument.
    Instants are nanoseconds since the epoch, as everywhere in the library. *)

From stdpp Require Import base gmap list strings.
From Stdlib Require Import Ascii ZArith QArith Lqa Lia.
From S2P Require Import Prelude GoStrings Encoding Sha256 RateLimit AuditChain World.

Local Open Scope string_scope.
Local Open Scope Z_scope.
Local Open Scope list_scope.

(** ** session.go: the session manager *)

Definition sessionCookieName : string := "adminui_session".
Definition sessionTTL : Z := 12 * 3600 * Second.

(** [Time.Unix]. *)
Definition unix (t : Z) : Z := t / Second.

Record SessionManager := mkSessions {
  sm_secret : string;
  sm_secure : bool;
  sm_revoked : gmap string Z;
}.

(** [http.Cookie] as the source fills it in; every cookie is HttpOnly and
    SameSite=Strict. *)
Record Cookie := mkCookie {
  ck_Name : string;
  ck_Value : string;
  ck_Path : string;
  ck_HttpOnly : bool;
  ck_Secure : bool;
  ck_SameSiteStrict : bool;
  ck_MaxAge : Z;
  ck_Expires : option Z;
}.

Definition bar : Ascii.ascii := "|"%char.

(** [Revoke]: expired entries are swept, then the nonce is entered. *)
Definition Revoke (now : Z) (nonce : string) (sm : SessionManager) : SessionManager :=
  if String.eqb nonce "" then sm
  else mkSessions (sm_secret sm) (sm_secure sm)
         (<[nonce := now + sessionTTL]> (filter (λ '(_, sweepAfter), now <= sweepAfter) (sm_revoked sm))).

Definition isRevoked (nonce : string) (sm : SessionManager) : bool := bool_decide (is_Some (sm_revoked sm !! nonce)).

Definition sign (sm : SessionManager) (expiry : Z) (nonce : string) : string :=
  let payload := format_int expiry +:+ "|" +:+ nonce in
  payload +:+ "|" +:+ hex_encode (hmac_sha256 (sm_secret sm) payload).

(** [verify]: the nonce and the expiry in seconds. *)
Definition verify (now : Z) (sm : SessionManager) (value : string) : option (string * Z) :=
  match split_n3 bar value with
  | [expiryStr; nonce; sig] =>
      match parse_int expiryStr with
      | None => None
      | Some expiry =>
          let expected := hex_encode (hmac_sha256 (sm_secret sm) (expiryStr +:+ "|" +:+ nonce)) in
          if negb (String.eqb sig expected) then None
          else if expiry <? unix now then None
          else if isRevoked nonce sm then None
          else Some (nonce, expiry)
      end
  | _ => None
  end.

(** ** csrf.go: tokens *)

Definition csrfCookieName : string := "adminui_csrf".
Definition csrfCookieMaxAge : Z := 600.

Definition CSRFToken (sm : SessionManager) (nonce : string) : string :=
  hex_encode (hmac_sha256 (sm_secret sm) ("csrf|" +:+ nonce)).

(** [VerifyCSRF] on the nonce [csrfNonce] found and the submitted token. *)
Definition VerifyCSRF (sm : SessionManager) (nonce token : string) : bool :=
  if String.eqb nonce "" || String.eqb token "" then false
  else String.eqb token (CSRFToken sm nonce).

Section entropy.
Context `{TG : Telegram}.

Definition randomHex (n : nat) : M (result string) :=
  (let? b := rand_Read n else e => mret (Err (Wrap "adminui: generate nonce: " e "")) ;;
   mret (Ok (hex_encode b)))%go.

Definition NewSessionManager (secureCookies : bool) : M (result SessionManager) :=
  (let? secret := rand_Read 32 else e => mret (Err (Wrap "adminui: generate session secret: " e "")) ;;
   mret (Ok (mkSessions secret secureCookies ∅)))%go.

Definition session_cookie (sm : SessionManager) (expiry : Z) (nonce : string) : Cookie :=
  mkCookie sessionCookieName (sign sm expiry nonce) "/" true (sm_secure sm) true 0 (Some expiry).

(** [Issue]: the nonce and the cookie that is set. *)
Definition Issue (sm : SessionManager) : M (result (string * Cookie)) :=
  (let? nonce := randomHex 16 else e => mret (Err e) ;;
   now ← st_gets w_now;
   mret (Ok (nonce, session_cookie sm (unix (now + sessionTTL)) nonce)))%go.

(** [Clear]. *)
Definition Clear (sm : SessionManager) : Cookie :=
  mkCookie sessionCookieName "" "/" true (sm_secure sm) true (-1) None.

(** [IssueCSRFCookie]: the cookie and the token for the form. *)
Definition IssueCSRFCookie (sm : SessionManager) : M (result (Cookie * string)) :=
  (let? nonce := randomHex 16 else e => mret (Err e) ;;
   mret (Ok (mkCookie csrfCookieName nonce "/" true (sm_secure sm) true csrfCookieMaxAge None,
             CSRFToken sm nonce)))%go.
End entropy.

(** ** session.go: the login limiter *)

Record loginBucket := mkLogin { lb_tokens : Q; lb_lastFill : Z }.

Definition loginRateLimit : Q := 5.
Definition loginRateWindow : Z := 60 * Second.

Section login.
Context `{F : Float64}.

(** What a bucket gains until [now]. *)
Definition login_refill (now : Z) (b : loginBucket) : Q :=
  rnd (seconds (time_sub now (lb_lastFill b)) * rnd (loginRateLimit / seconds loginRateWindow)).

(** A bucket of another key that has refilled is dropped. *)
Definition swept (now : Z) (b : loginBucket) : bool :=
  Qle_bool loginRateLimit (rnd (lb_tokens b + login_refill now b)).

Definition login_sweep (now : Z) (key : string) (bs : gmap string loginBucket) : gmap string loginBucket :=
  filter (λ '(k, b), k = key ∨ swept now b = false) bs.

(** The level of a bucket at [now]; a missing one starts full. *)
Definition login_level (now : Z) (o : option loginBucket) : Q :=
  match o with
  | None => loginRateLimit
  | Some b => let t := rnd (lb_tokens b + login_refill now b) in
              if Qle_bool loginRateLimit t then loginRateLimit else t
  end.

(** The decision on one bucket. *)
Definition login_take (now : Z) (key : string) (bs : gmap string loginBucket) : bool * gmap string loginBucket :=
  let t := login_level now (bs !! key) in
  if qltb t 1 then (false, <[key := mkLogin t now]> bs)
  else (true, <[key := mkLogin (rnd (t - 1)) now]> bs).

(** [loginLimiter.Allow]. *)
Definition LoginAllow (now : Z) (key : string) (bs : gmap string loginBucket) : bool * gmap string loginBucket :=
  login_take now key (login_sweep now key bs).
End login.

(** ** session.go: the global back-off *)

Definition globalBackoffThreshold : Z := 20.
Definition globalBackoffDelay : Z := 30 * Second.
Definition globalBackoffDecay : Z := 10 * 60 * Second.

(** [None] is the zero time. *)
Record globalBackoff := mkBackoff { failures : Z; lastFailure : option Z; blockedUntil : option Z }.

Definition newGlobalBackoff : globalBackoff := mkBackoff 0 None None.

Definition BackoffAllow (now : Z) (g : globalBackoff) : bool :=
  match blockedUntil g with None => true | Some b => negb (now <? b) end.

Definition RecordFailure (now : Z) (g : globalBackoff) : globalBackoff :=
  let n := match lastFailure g with
           | Some l => if globalBackoffDecay <=? time_sub now l then 0 else failures g
           | None => failures g
           end + 1 in
  mkBackoff n (Some now) (if globalBackoffThreshold <=? n then Some (now + globalBackoffDelay) else blockedUntil g).

Definition RecordSuccess (g : globalBackoff) : globalBackoff := mkBackoff 0 (lastFailure g) None.

#[local] Opaque hmac_sha256.

(** ** The cookie format *)

(** What a cookie value has to be for [verify] to accept it. *)
Lemma verify_iff now sm value nonce expiry :
  verify now sm value = Some (nonce, expiry) ↔
  ∃ es, value = es +:+ "|" +:+ nonce +:+ "|" +:+ hex_encode (hmac_sha256 (sm_secret sm) (es +:+ "|" +:+ nonce)) ∧
    parse_int es = Some expiry ∧ no_byte bar es = true ∧ no_byte bar nonce = true ∧
    unix now <= expiry ∧ sm_revoked sm !! nonce = None.
Proof.
  unfold verify, isRevoked. split.
  - destruct (split_n3 bar value) as [|es [|n [|sig [|]]]] eqn:Es; try done.
    apply split_n3_iff in Es as (->&H1&H2).
    destruct (parse_int es) as [e|] eqn:Ep; [|done].
    destruct (String.eqb_spec sig (hex_encode (hmac_sha256 (sm_secret sm) (es +:+ "|" +:+ n)))) as [->|]; [|done]. simpl.
    destruct (Z.ltb_spec e (unix now)); [done|].
    case_bool_decide as Hr; [done|]. intros [= <- <-]. exists es. split_and!; try done.
    by apply eq_None_not_Some.
  - intros (es&->&Hp&H1&H2&Hnow&Hr).
    change (es +:+ "|" +:+ nonce +:+ "|" +:+ ?x) with (es +:+ String bar (nonce +:+ String bar x)).
    rewrite split_n3_app, Hp by done. simpl. rewrite String.eqb_refl. simpl.
    destruct (Z.ltb_spec expiry (unix now)); [lia|].
    rewrite Hr. by rewrite bool_decide_false by (by intros [? ?]).
Qed.

(** A text that parses as an integer does not begin like a CSRF payload. *)
Lemma csrf_not_int s : parse_int ("csrf" +:+ s) = None.
Proof. reflexivity. Qed.

Lemma payload_not_csrf es nonce expiry n :
  parse_int es = Some expiry → no_byte bar es = true → es +:+ "|" +:+ nonce ≠ "csrf|" +:+ n.
Proof.
  intros Hp Hn He.
  pose proof (index_byte_app bar es nonce Hn) as H1.
  pose proof (index_byte_app bar "csrf" n eq_refl) as H2.
  change (es +:+ String bar nonce) with (es +:+ "|" +:+ nonce) in H1.
  change ("csrf" +:+ String bar n) with ("csrf|" +:+ n) in H2. rewrite He, H2 in H1.
  injection H1 as H1.
  destruct (sapp_inj_len es ("|" +:+ nonce) "csrf" ("|" +:+ n)) as [-> _]; done.
Qed.

(** ** Revocation *)

(** The later logouts: each at its instant, in order. *)
Fixpoint revoke_all (rs : list (Z * string)) (sm : SessionManager) : SessionManager :=
  match rs with
  | [] => sm
  | (t, n) :: rs' => revoke_all rs' (Revoke t n sm)
  end.

(** Instants in order, between two bounds. *)
Fixpoint in_order (t0 : Z) (ts : list Z) (t1 : Z) : Prop :=
  match ts with
  | [] => t0 <= t1
  | t :: ts' => t0 <= t ∧ in_order t ts' t1
  end.

Lemma in_order_le t0 ts t1 : in_order t0 ts t1 → t0 <= t1.
Proof. revert t0. induction ts as [|t ts IH]; simpl; [done|]. intros t0 [? ?%IH]. lia. Qed.

Lemma Revoke_secret t n sm : sm_secret (Revoke t n sm) = sm_secret sm.
Proof. unfold Revoke. by case_match. Qed.

(** The nonce is revoked, and its entry is kept at least until [d]. *)
Definition revoked_until (d : Z) (nonce : string) (sm : SessionManager) : Prop :=
  ∃ s, sm_revoked sm !! nonce = Some s ∧ d <= s.

Lemma Revoke_enters t nonce sm : nonce ≠ "" → revoked_until (t + sessionTTL) nonce (Revoke t nonce sm).
Proof.
  intros Hn. unfold Revoke. destruct (String.eqb_spec nonce ""); [done|].
  exists (t + sessionTTL). simpl. by rewrite lookup_insert_eq.
Qed.

Lemma Revoke_keeps t n sm nonce d :
  d <= t + sessionTTL → t <= d → revoked_until d nonce sm → revoked_until d nonce (Revoke t n sm).
Proof.
  intros Ht Hd (s&Hs&Hle). unfold Revoke. case_match; [by exists s|].
  destruct (decide (n = nonce)) as [->|Hne].
  - exists (t + sessionTTL). simpl. by rewrite lookup_insert_eq.
  - exists s. simpl. rewrite lookup_insert_ne by done. split; [|done].
    apply map_lookup_filter_Some. split; [done|lia].
Qed.

Lemma revoke_all_keeps t0 rs t1 sm nonce :
  in_order t0 rs.*1 t1 → t1 <= t0 + sessionTTL →
  revoked_until (t0 + sessionTTL) nonce sm → revoked_until (t0 + sessionTTL) nonce (revoke_all rs sm).
Proof.
  intros Ho H1. assert (∀ t, t0 <= t → in_order t rs.*1 t1 →
    revoked_until (t0 + sessionTTL) nonce sm → revoked_until (t0 + sessionTTL) nonce (revoke_all rs sm)) as H;
    [|by apply (H t0)].
  clear Ho. revert sm. induction rs as [|[t' n] rs IH]; intros sm t Ht; [done|]. simpl. intros [Hle Ho] Hr.
  pose proof (in_order_le _ _ _ Ho).
  apply (IH _ t'); [lia|done|]. apply Revoke_keeps; [lia|lia|done].
Qed.

(** ** The login limiter *)

Section login_props.
Context `{F : Float64}.

Lemma seconds_mono d d' : 0 <= d → d <= d' → d' <= int64_max → (seconds d <= seconds d')%Q.
Proof.
  intros H0 Hle Hmax. unfold seconds. apply rnd_mono.
  assert (0 < Second) as HS by done.
  rewrite !Z.quot_div_nonneg, !Z.rem_mod_nonneg by lia.
  assert (∀ x, 0 <= x <= int64_max → 0 <= x / Second <= 2 ^ 53) as Hq.
  { intros x [Hx1 Hx2]. split; [by apply Z.div_pos|].
    apply Z.div_le_upper_bound; [done|]. unfold int64_max, Second in *. lia. }
  rewrite (f64_exact (d / Second)), (f64_exact (d' / Second)) by (pose proof (Hq d); pose proof (Hq d'); lia).
  assert (∀ x, (0 <= rnd (f64 (x mod Second) / inject_Z Second))%Q) as Hpos.
  { intros x. apply rnd_nonneg. apply Qle_shift_div_l; [reflexivity|]. rewrite Qmult_0_l.
    apply rnd_nonneg. change 0%Q with (inject_Z 0). rewrite <- Zle_Qle. by apply Z.mod_pos_bound. }
  destruct (decide (d / Second = d' / Second)) as [He|Hne].
  - rewrite He. apply Qplus_le_compat; [lra|]. apply rnd_mono. apply Qmult_le_compat_r; [|done].
    apply rnd_mono. rewrite <- Zle_Qle.
    rewrite (Z.mod_eq d), (Z.mod_eq d'), He by done. lia.
  - assert (d / Second + 1 <= d' / Second) as Hlt by (pose proof (Z.div_le_mono d d' Second HS Hle); lia).
    assert (rnd (f64 (d mod Second) / inject_Z Second) <= 1)%Q as H1.
    { rewrite <- rnd_1. apply rnd_mono. apply Qle_shift_div_r; [reflexivity|]. rewrite Qmult_1_l.
      rewrite f64_exact; [|pose proof (Z.mod_pos_bound d Second HS); unfold Second in *; lia].
      rewrite <- Zle_Qle. pose proof (Z.mod_pos_bound d Second HS). lia. }
    specialize (Hpos d'). rewrite Zle_Qle, inject_Z_plus in Hlt. change (inject_Z 1) with 1%Q in Hlt. lra.
Qed.

Lemma time_sub_mono a b c : b <= c → time_sub b a <= time_sub c a.
Proof. unfold time_sub. lia. Qed.

(** A bucket gains no less by a later instant. *)
Lemma login_refill_mono now now' b :
  lb_lastFill b <= now → now <= now' → (login_refill now b <= login_refill now' b)%Q.
Proof.
  intros H1 H2. unfold login_refill. apply rnd_mono. apply Qmult_le_compat_r.
  - apply seconds_mono; [unfold time_sub, int64_min, int64_max; lia|by apply time_sub_mono|unfold time_sub, int64_min, int64_max; lia].
  - apply rnd_nonneg. apply Qle_shift_div_l; [|rewrite Qmult_0_l; discriminate].
    change loginRateWindow with (60 * Second). rewrite seconds_whole by lia. reflexivity.
Qed.

Lemma swept_mono now now' b : lb_lastFill b <= now → now <= now' → swept now b = true → swept now' b = true.
Proof.
  unfold swept. rewrite !Qle_bool_iff. intros H1 H2 Hs. eapply Qle_trans; [exact Hs|].
  apply rnd_mono. pose proof (login_refill_mono now now' b H1 H2). lra.
Qed.

(** [full_since now bs bs']: [bs] is [bs'] without some buckets that have been
    full since [now] or earlier. *)
Definition full_since (now : Z) (bs bs' : gmap string loginBucket) : Prop :=
  ∀ k, match bs' !! k with
       | None => bs !! k = None
       | Some b => lb_lastFill b <= now ∧ (bs !! k = Some b ∨ bs !! k = None ∧ swept now b = true)
       end.

Lemma full_since_mono now now' bs bs' : now <= now' → full_since now bs bs' → full_since now' bs bs'.
Proof.
  intros Hle H k. specialize (H k). destruct (bs' !! k) as [b|]; [|done].
  destruct H as [Hb [?|[? Hs]]]; (split; [lia|]); [by left|right]. split; [done|]. by apply (swept_mono now).
Qed.

Lemma full_since_sweep now key bs bs' : full_since now bs bs' → full_since now (login_sweep now key bs) bs'.
Proof.
  intros H k. specialize (H k). unfold login_sweep. destruct (bs' !! k) as [b|].
  - destruct H as [Hb H]. split; [done|]. destruct H as [Hk|[Hk Hs]].
    + destruct (decide (k = key ∨ swept now b = false)) as [Hd|Hd].
      * left. by apply map_lookup_filter_Some.
      * right. split; [|destruct (swept now b); tauto]. apply map_lookup_filter_None. right.
        intros b' Hb'. rewrite Hk in Hb'. by simplify_eq.
    + right. split; [|done]. apply map_lookup_filter_None. by left.
  - apply map_lookup_filter_None. by left.
Qed.

(** The decision does not depend on the dropped buckets. *)
Lemma login_take_full now key bs bs' :
  full_since now bs bs' →
  (login_take now key bs).1 = (login_take now key bs').1 ∧
  full_since now (login_take now key bs).2 (login_take now key bs').2.
Proof.
  intros H. unfold login_take.
  assert (login_level now (bs !! key) = login_level now (bs' !! key)) as ->.
  { pose proof (H key) as Hk. destruct (bs' !! key) as [b|]; [|by rewrite Hk].
    destruct Hk as [_ [-> | [-> Hs]]]; [done|]. unfold swept in Hs. simpl. by rewrite Hs. }
  assert (∀ b, lb_lastFill b = now → full_since now (<[key := b]> bs) (<[key := b]> bs')) as Hi.
  { intros b Hb k. destruct (decide (key = k)) as [->|]; [rewrite !lookup_insert_eq; split; [lia|by left]|].
    rewrite !lookup_insert_ne by done. apply H. }
  case_match; (split; [done|by apply Hi]).
Qed.
End login_props.

(** A run of the limiter, and of the limiter that never drops a bucket. *)
Fixpoint login_run (allow : Z → string → gmap string loginBucket → bool * gmap string loginBucket)
    (calls : list (Z * string)) (bs : gmap string loginBucket) : list bool :=
  match calls with
  | [] => []
  | (now, key) :: calls' => let '(d, bs') := allow now key bs in d :: login_run allow calls' bs'
  end.

Lemma login_run_full `{F : Float64} t0 calls t1 bs bs' :
  in_order t0 calls.*1 t1 → full_since t0 bs bs' →
  login_run LoginAllow calls bs = login_run login_take calls bs'.
Proof.
  revert t0 bs bs'. induction calls as [|[now key] calls IH]; intros t0 bs bs'; [done|].
  intros [Hle Ho] H. simpl.
  assert (full_since now (login_sweep now key bs) bs') as H1
    by (apply full_since_sweep; by apply (full_since_mono t0)).
  destruct (login_take_full now key _ _ H1) as [Hd Hs]. unfold LoginAllow.
  destruct (login_take now key (login_sweep now key bs)) as [d bs1], (login_take now key bs') as [d' bs1'].
  simpl in *. subst d'. f_equal. by apply (IH now).
Qed.

(** ** The global back-off *)

(** The instants at which a wrong password is compared, among the instants of
    the attempts. *)
Fixpoint guesses (ts : list Z) (g : globalBackoff) : list Z :=
  match ts with
  | [] => []
  | t :: ts' => if BackoffAllow t g then t :: guesses ts' (RecordFailure t g) else guesses ts' g
  end.

(** [n] failures have been recorded since [s], the last of them at [l]. *)
Definition streak (s l n : Z) (g : globalBackoff) : Prop :=
  lastFailure g = Some l ∧ s <= l ∧ 1 <= n <= failures g ∧
  (globalBackoffThreshold <= n →
     blockedUntil g = Some (l + globalBackoffDelay) ∧ (n - globalBackoffThreshold) * globalBackoffDelay <= l - s).

Lemma streak_first t g : 0 <= failures g → streak t t 1 (RecordFailure t g).
Proof.
  intros Hf. unfold streak, RecordFailure. simpl. split_and!; try done.
  destruct (lastFailure g); [case_match|]; lia.
Qed.

Lemma streak_next s l n t g :
  streak s l n g → BackoffAllow t g = true → l <= t → t - s < globalBackoffDecay →
  streak s t (n + 1) (RecordFailure t g).
Proof.
  intros (Hl&Hs&Hn&Hb) Ha Ht Hd. unfold streak, RecordFailure. rewrite Hl. simpl.
  assert (time_sub t l = t - l) as ->
    by (apply time_sub_small; unfold globalBackoffDecay, Second, int64_max in *; lia).
  destruct (Z.leb_spec globalBackoffDecay (t - l)); [lia|].
  split_and!; [done|lia|lia|lia|]. intros Hth.
  destruct (Z.leb_spec globalBackoffThreshold (failures g + 1)); [|lia]. split; [done|].
  destruct (decide (globalBackoffThreshold <= n)) as [Hge|Hlt].
  - destruct (Hb Hge) as [Hu Hle]. unfold BackoffAllow in Ha. rewrite Hu in Ha.
    apply negb_true_iff, Z.ltb_ge in Ha. lia.
  - replace (n + 1) with globalBackoffThreshold by lia. lia.
Qed.

Lemma streak_guesses s l n ts t1 g :
  streak s l n g → in_order l ts t1 → t1 - s < globalBackoffDecay →
  (n + Z.of_nat (length (guesses ts g)) - globalBackoffThreshold) * globalBackoffDelay <= Z.max 0 (t1 - s).
Proof.
  revert l n g. induction ts as [|t ts IH]; intros l n g Hst Ho Hd; simpl.
  - rewrite Z.add_0_r. simpl in Ho. destruct Hst as (_&Hs&Hn&Hb).
    destruct (decide (globalBackoffThreshold <= n)) as [Hge|Hlt].
    + destruct (Hb Hge) as [_ Hle]. lia.
    + unfold globalBackoffDelay, Second in *. lia.
  - destruct Ho as [Hle Ho]. pose proof (in_order_le _ _ _ Ho).
    destruct (BackoffAllow t g) eqn:Ha.
    + simpl. replace (n + Z.of_nat (S (length (guesses ts (RecordFailure t g)))) - globalBackoffThreshold)
        with (n + 1 + Z.of_nat (length (guesses ts (RecordFailure t g))) - globalBackoffThreshold) by lia.
      apply (IH t); [|done|done]. by apply (streak_next s l); [..|lia].
    + apply (IH l); [done| |done]. destruct ts; simpl in *; [lia|]. destruct Ho. split; [lia|done].
Qed.

Lemma guess_bound s ts t1 g :
  0 <= failures g → in_order s ts t1 → t1 - s < globalBackoffDecay →
  Z.of_nat (length (guesses ts g)) <= globalBackoffThreshold + (t1 - s) / globalBackoffDelay.
Proof.
  intros Hf. revert s. induction ts as [|t ts IH]; intros s Ho Hd; simpl.
  - apply in_order_le in Ho. pose proof (Z.div_pos (t1 - s) globalBackoffDelay ltac:(lia) ltac:(done)).
    unfold globalBackoffThreshold. lia.
  - destruct Ho as [Hle Ho]. pose proof (in_order_le _ _ _ Ho).
    destruct (BackoffAllow t g) eqn:Ha.
    + pose proof (streak_guesses t t 1 ts t1 _ (streak_first t g Hf) Ho ltac:(lia)) as H1.
      simpl. set (k := length (guesses ts (RecordFailure t g))) in *.
      enough (1 + Z.of_nat k - globalBackoffThreshold <= (t1 - s) / globalBackoffDelay) by lia.
      apply Z.div_le_lower_bound; [done|]. lia.
    + specialize (IH t Ho ltac:(lia)).
      pose proof (Z.div_le_mono (t1 - t) (t1 - s) globalBackoffDelay ltac:(done) ltac:(lia)). lia.
Qed.

(** ** Theorems *)

Section theorems.
Context `{TG : Telegram}.

Lemma Issue_Ok sm w nonce c w' :
  Issue sm w = (Ok (nonce, c), w') →
  c = session_cookie sm (unix (w_now w + sessionTTL)) nonce ∧ no_byte bar nonce = true ∧ nonce ≠ "".
Proof.
  unfold Issue, randomHex, rand_Read, mbind, st_bind, st_gets, mret, st_ret.
  destruct (w_rand w (w_rand_n w)) as [b|]; [|done]. pose proof (fit_length 16 b) as Hl.
  set (x := fit 16 b) in *. intros [= <- <- _]. split_and!; [done|by apply hex_no_byte|].
  intros He. apply (f_equal String.length) in He. rewrite hex_encode_length, Hl in He. done.
Qed.

Lemma verify_signed now sm sm' e nonce :
  sm_secret sm' = sm_secret sm → in_int64 e = true → no_byte bar nonce = true →
  verify now sm' (sign sm e nonce) =
  if (unix now <=? e) && bool_decide (sm_revoked sm' !! nonce = None) then Some (nonce, e) else None.
Proof.
  intros Hs He Hn. unfold verify, sign. rewrite <- Hs, !sapp_assoc.
  change (format_int e +:+ "|" +:+ nonce +:+ "|" +:+ ?x) with (format_int e +:+ String bar (nonce +:+ String bar x)).
  rewrite split_n3_app by (done || by apply format_int_no_byte).
  rewrite parse_format_int by done. rewrite String.eqb_refl. simpl. unfold isRevoked.
  destruct (Z.ltb_spec e (unix now)), (Z.leb_spec (unix now) e); try lia; [done|]. simpl.
  destruct (sm_revoked sm' !! nonce); [by rewrite bool_decide_true by eauto|].
  by rewrite bool_decide_false by (by intros [? ?]).
Qed.


Lemma session_lifetime_aux sm w nonce c w' sm' now :
  Issue sm w = (Ok (nonce, c), w') → sm_secret sm' = sm_secret sm →
  in_int64 (unix (w_now w + sessionTTL)) = true →
  verify now sm' (ck_Value c) =
  if (unix now <=? unix (w_now w + sessionTTL)) && bool_decide (sm_revoked sm' !! nonce = None)
  then Some (nonce, unix (w_now w + sessionTTL)) else None.
Proof. intros (->&Hn&_)%Issue_Ok Hs He. by apply verify_signed. Qed.

(** A cookie set at login is accepted, as that session, exactly until its
    twelve hours are over or the session is logged out, by any later state of
    the manager with the same key. *)
Theorem session_lifetime sm w nonce c w' sm' now :
  Issue sm w = (Ok (nonce, c), w') → sm_secret sm' = sm_secret sm →
  in_int64 (unix (w_now w + sessionTTL)) = true →
  verify now sm' (ck_Value c) =
  if (unix now <=? unix (w_now w + sessionTTL)) && bool_decide (sm_revoked sm' !! nonce = None)
  then Some (nonce, unix (w_now w + sessionTTL)) else None.
Proof. apply session_lifetime_aux. Qed.

Lemma revoke_all_secret rs sm : sm_secret (revoke_all rs sm) = sm_secret sm.
Proof. revert sm. induction rs as [|[t n] rs IH]; intros sm; [done|]. simpl. by rewrite IH, Revoke_secret. Qed.

(** Past its expiry second a cookie is dead whether or not its revocation is
    still remembered. *)
Lemma unix_past t0 t now : unix t0 < unix t → t + sessionTTL < now → unix (t0 + sessionTTL) < unix now.
Proof.
  intros H1 H2. unfold unix in *.
  assert (sessionTTL = 43200 * Second) as HT by reflexivity.
  assert (0 < Second) as HS by done.
  rewrite HT, Z.div_add by done.
  assert ((t + 43200 * Second) / Second <= now / Second) as H3 by (apply Z.div_le_mono; lia).
  rewrite Z.div_add in H3 by done. lia.
Qed.

(** C27: logging out is final: once a session that was opened in an earlier
    second is logged out, its cookie is rejected forever, whatever other
    sessions are logged out later and whatever entries that sweeps. *)
Theorem logout_final sm w nonce c w' t rs now :
  Issue sm w = (Ok (nonce, c), w') → in_int64 (unix (w_now w + sessionTTL)) = true →
  unix (w_now w) < unix t → in_order t rs.*1 now →
  verify now (revoke_all rs (Revoke t nonce sm)) (ck_Value c) = None.
Proof.
  intros HI He Hsec Ho. destruct (Issue_Ok _ _ _ _ _ HI) as (_&_&Hne).
  rewrite (session_lifetime_aux sm w nonce c w') by (done || by rewrite revoke_all_secret, Revoke_secret).
  destruct (Z.leb_spec (unix now) (unix (w_now w + sessionTTL))) as [Hle|]; [|done].
  assert (now <= t + sessionTTL) as Hnow.
  { destruct (decide (now <= t + sessionTTL)); [done|]. pose proof (unix_past (w_now w) t now). lia. }
  destruct (revoke_all_keeps t rs now (Revoke t nonce sm) nonce Ho Hnow) as (s&Hs&_); [by apply Revoke_enters|].
  by rewrite Hs.
Qed.
End theorems.

Definition sample_sessions : SessionManager := mkSessions "0123456789abcdef0123456789abcdef" false ∅.
Definition sample_nonce : string := hex_encode (fit 16 "entropy-entropy0").
Definition sample_login : @World recorder := rec_world (1000 * Second) empty_db.

Lemma session_lifetime_witness :
  verify (1500 * Second) sample_sessions (sign sample_sessions 44200 sample_nonce) = Some (sample_nonce, 44200).
Proof.
  etrans; [apply (session_lifetime (TG := recorder) sample_sessions sample_login sample_nonce
    (session_cookie sample_sessions 44200 sample_nonce) (with_rand_n (TG := recorder) 1 sample_login)
    sample_sessions (1500 * Second)); reflexivity|reflexivity].
Defined.

Lemma logout_final_witness :
  verify (60000 * Second) (revoke_all [(50000 * Second, "other")] (Revoke (1001 * Second) sample_nonce sample_sessions))
    (sign sample_sessions 44200 sample_nonce) = None.
Proof.
  apply (logout_final (TG := recorder) sample_sessions sample_login sample_nonce
    (session_cookie sample_sessions 44200 sample_nonce) (with_rand_n (TG := recorder) 1 sample_login)
    (1001 * Second) [(50000 * Second, "other")] (60000 * Second)); [reflexivity..|].
  split; vm_compute; discriminate.
Defined.

(** The seconds matter: a session opened and logged out within one second is
    accepted again, for less than a second, when another logout sweeps its
    entry twelve hours later. *)
Example logout_same_second :
  let sm := revoke_all [(1000 * Second + 43200 * Second + 2, "other")] (Revoke (1000 * Second + 1) sample_nonce sample_sessions) in
  verify (1000 * Second + 43200 * Second + 3) sm (sign sample_sessions 44200 sample_nonce) = Some (sample_nonce, 44200).
Proof. vm_compute. reflexivity. Qed.

(** Dropping full buckets is unobservable: for attempts in order of time,
    the limiter decides exactly like one that keeps every bucket for ever,
    whatever the rounding of the arithmetic. *)
Theorem sweep_unobservable `{F : Float64} t0 calls t1 :
  in_order t0 calls.*1 t1 → login_run LoginAllow calls ∅ = login_run login_take calls ∅.
Proof. intros Ho. apply (login_run_full t0 calls t1); [done|]. intros k. by rewrite lookup_empty. Qed.

Lemma sweep_unobservable_witness :
  login_run (LoginAllow (F := exact)) [(0, "a"); (0, "a"); (60 * Second, "b"); (60 * Second, "a")] ∅ =
  login_run (login_take (F := exact)) [(0, "a"); (0, "a"); (60 * Second, "b"); (60 * Second, "a")] ∅.
Proof.
  apply (sweep_unobservable (F := exact) 0 _ (60 * Second)).
  repeat split; vm_compute; discriminate.
Defined.
