(* ===== verification/AdminKeys.v ===== *)
(** * Admin UI: the key store

    [internal/adminui/keystore.go]: listing, issuing, revoking and renaming API
    keys, the only writes the admin UI makes to the database itself. *)

From stdpp Require Import base gmap list strings sorting.
From Stdlib Require Import Ascii ZArith Lia.
From S2P Require Import Prelude GoStrings Encoding AuditChain RateLimit World AuditLog Auth Registry.

Local Open Scope string_scope.
Local Open Scope Z_scope.
Local Open Scope list_scope.

Definition storeQueryTimeout : Z := 5 * Second.

(** [adminui.KeyRow]: no hash. *)
Record uiKeyRow := mkUiKey {
  ki_AppID : string; ki_Prefix : string; ki_Label : string; ki_CreatedAt : Z; ki_RevokedAt : option Z }.

(** ** Statements *)

(** ORDER BY created_at DESC, id DESC. *)
Definition newer_key (p q : Z * KeyRow) : Prop :=
  k_created_at q.2 < k_created_at p.2 ∨ k_created_at q.2 = k_created_at p.2 ∧ q.1 <= p.1.

#[export] Instance newer_key_dec p q : base.Decision (newer_key p q).
Proof. unfold newer_key. apply _. Defined.
#[export] Instance newer_key_total : Total newer_key.
Proof. intros p q. unfold newer_key. lia. Qed.
#[export] Instance newer_key_trans : Transitive newer_key.
Proof. intros p q r. unfold newer_key. lia. Qed.

Definition key_view (k : KeyRow) : uiKeyRow :=
  mkUiKey (k_app_id k) (key_prefix k) (k_label k) (k_created_at k) (revoked_at k).

Definition list_keys_rows (appID : string) (db : Database) : list uiKeyRow :=
  (λ p, key_view p.2) <$> merge_sort newer_key
    (filter (λ p, appID = "" ∨ k_app_id p.2 = appID) (map_to_list (app_keys db))).

(** INSERT INTO app_keys: the identity, the unique index on the prefix and the
    foreign key. *)
Definition prefix_taken (prefix : string) (db : Database) : bool :=
  existsb (λ p, String.eqb (key_prefix p.2) prefix) (map_to_list (app_keys db)).

Definition sql_insert_key (app hash prefix label : string) (now : Z) (db : Database) : result () * Database :=
  let id := seq_keys db in
  let db1 := set_seq_keys (λ n, n + 1) db in
  if prefix_taken prefix db || bool_decide (is_Some (app_keys db !! id))
  then (Err (PgError "23505" "duplicate key value violates unique constraint"), db1)
  else match apps db !! app with
  | None => (Err (PgError "23503" "insert violates foreign key constraint"), db1)
  | Some _ => (Ok (), set_keys (<[id := mkKey app hash prefix label now None]>) db1)
  end.

(** UPDATE app_keys ... WHERE key_prefix AND app_id AND revoked_at IS NULL. *)
Definition live_match (app prefix : string) (k : KeyRow) : bool :=
  String.eqb (key_prefix k) prefix && String.eqb (k_app_id k) app && bool_decide (revoked_at k = None).

Definition sql_update_keys (app prefix : string) (f : Z → KeyRow → KeyRow) (now : Z) (db : Database)
    : result Z * Database :=
  (Ok (Z.of_nat (size (filter (λ p, live_match app prefix p.2 = true) (app_keys db)))),
   set_keys (fmap (λ k, if live_match app prefix k then f now k else k)) db).

Definition set_revoked (now : Z) (k : KeyRow) : KeyRow :=
  mkKey (k_app_id k) (key_hash k) (key_prefix k) (k_label k) (k_created_at k) (Some now).
Definition set_label (label : string) (_ : Z) (k : KeyRow) : KeyRow :=
  mkKey (k_app_id k) (key_hash k) (key_prefix k) label (k_created_at k) (revoked_at k).

(** ** Methods *)

Section keystore.
Context `{TG : Telegram}.
Local Open Scope go_scope.

Definition ListKeys (appID : string) : M (result (list uiKeyRow)) :=
  within storeQueryTimeout (
    let? rows := db_query [appID] (λ _ db, Ok (list_keys_rows appID db))
      else e => mret (Err (Wrap "adminui: list keys: " e "")) ;;
    mret (Ok rows)).

(** The body of the transaction. *)
Definition issue_key_tx (appID prefix hash label : string) : M (result ()) :=
  let? active := tx_query [appID] (λ _ db, match apps db !! appID with
                                            | Some a => Ok (app_active a) | None => Err (Sentinel ErrNoRows) end)
    else e => mret (Err (if errors_is e ErrNoRows then Sentinel UiErrAppNotFound
                         else Wrap "adminui: issue key: check app: " e "")) ;;
  guard? active else mret (Err (Sentinel ErrAppInactive)) ;;
  let? taken := tx_query [prefix] (λ _ db, Ok (prefix_taken prefix db))
    else e => mret (Err (Wrap "adminui: issue key: check prefix: " e "")) ;;
  guard? negb taken else mret (Err (Sentinel ErrPrefixTaken)) ;;
  let? _ := tx_exec [appID; hash; prefix; label] (sql_insert_key appID hash prefix label)
    else e => mret (Err (if bool_decide (pg_code e = Some "23505") then Sentinel ErrPrefixTaken
                         else Wrap "adminui: issue key: insert: " e "")) ;;
  let? _ := tx_commit else e => mret (Err (Wrap "adminui: issue key: commit: " e "")) ;;
  mret (Ok ()).

Definition IssueKey (appID prefix hash label : string) : M (result ()) :=
  within storeQueryTimeout (
    let? _ := tx_begin else e => mret (Err (Wrap "adminui: issue key: begin: " e "")) ;;
    rolling_back (issue_key_tx appID prefix hash label)).

(** The two updates: no row means no such live key. *)
Definition update_keys (what appID prefix : string) (args : list string) (f : Z → KeyRow → KeyRow) : M (result ()) :=
  within storeQueryTimeout (
    let? n := db_exec args (sql_update_keys appID prefix f) else e => mret (Err (Wrap what e "")) ;;
    if n =? 0 then mret (Err (Sentinel UiErrKeyNotFound)) else mret (Ok ())).

Definition RevokeKey (appID prefix : string) : M (result ()) :=
  update_keys "adminui: revoke key: " appID prefix [prefix; appID] set_revoked.
Definition UpdateKeyLabel (appID prefix label : string) : M (result ()) :=
  update_keys "adminui: update key label: " appID prefix [label; prefix; appID] (set_label label).
End keystore.

(** ** Properties the key store cannot disturb *)

Class KeyClosed (P : Database → Prop) := {
  kc_insert app hash prefix label now db : P db → P (sql_insert_key app hash prefix label now db).2;
  kc_revoke app prefix now db : P db → P (sql_update_keys app prefix set_revoked now db).2;
  kc_label app prefix label now db : P db → P (sql_update_keys app prefix (set_label label) now db).2;
}.

Lemma prefix_taken_false prefix db :
  prefix_taken prefix db = false ↔ ∀ i k, app_keys db !! i = Some k → key_prefix k ≠ prefix.
Proof.
  unfold prefix_taken. rewrite <- not_true_iff_false, existsb_exists. split.
  - intros Hn i k Hk He. apply Hn. exists (i, k). rewrite <- list_elem_of_In, elem_of_map_to_list.
    split; [done|by apply String.eqb_eq].
  - intros H ([i k]&Hin&He%String.eqb_eq). rewrite <- list_elem_of_In, elem_of_map_to_list in Hin. by eapply H.
Qed.

(** An update of keys that keeps their app and prefix keeps the table well
    formed. *)
Lemma wf_update_keys app prefix f now db :
  (∀ k, k_app_id (f now k) = k_app_id k ∧ key_prefix (f now k) = key_prefix k) →
  db_wf db → db_wf (sql_update_keys app prefix f now db).2.
Proof.
  intros Hf [H1 H2 H3 H4 H5 H6 H7 H8 H9 H10].
  assert (∀ k k', (if live_match app prefix k then f now k else k) = k' →
    k_app_id k' = k_app_id k ∧ key_prefix k' = key_prefix k) as He by (intros k k' <-; case_match; auto).
  split; try done; simpl.
  - intros i k' (k&Hk&Hik)%lookup_fmap_Some. destruct (He _ _ Hk) as [-> _]. by apply (H5 i k).
  - intros i j k k' (k0&Hk&Hi)%lookup_fmap_Some (k0'&Hk'&Hj)%lookup_fmap_Some.
    destruct (He _ _ Hk) as [_ ->], (He _ _ Hk') as [_ ->]. by apply H6.
Qed.

#[export] Instance wf_key_closed : KeyClosed db_wf.
Proof.
  split; [|intros; by apply wf_update_keys..].
  intros app hash prefix label now db [H1 H2 H3 H4 H5 H6 H7 H8 H9 H10].
  assert (map_Forall (λ i k, is_Some (apps db !! k_app_id k) ∧ i < seq_keys db + 1) (app_keys db)) as H5'
    by (intros i k Hk; destruct (H5 i k Hk); split; [done|lia]).
  unfold sql_insert_key. destruct (prefix_taken prefix db) eqn:Ep; simpl; [by split|].
  case_bool_decide as Hid; [by split|]. destruct (apps db !! app) as [a|] eqn:Ea; [|by split].
  rewrite prefix_taken_false in Ep. split; try done; simpl.
  - apply map_Forall_insert_2; [simpl; rewrite Ea; split; [by eauto|lia]|done].
  - intros i j k k' Hi Hj He. rewrite lookup_insert_Some in Hi. rewrite lookup_insert_Some in Hj.
    destruct Hi as [[<- <-]|[_ Hi]], Hj as [[<- <-]|[_ Hj]]; simpl in *; [done|..|by eapply H6].
    + by destruct (Ep j k').
    + by destruct (Ep i k).
Qed.

Section frames.
Context `{TG : Telegram} (P : Database → Prop) `{!KeyClosed P}.

Lemma inv_IssueKey app prefix hash label : keeps (inv_step P) (IssueKey app prefix hash label).
Proof using Type*.
  unfold IssueKey, issue_key_tx. apply inv_within. keeps_all. apply inv_rolling_back. keeps_all.
  apply inv_tx_exec. intros; by apply kc_insert.
Qed.
Lemma inv_RevokeKey app prefix : keeps (inv_step P) (RevokeKey app prefix).
Proof using Type*.
  unfold RevokeKey, update_keys. apply inv_within. keeps_all. apply inv_db_exec. intros; by apply kc_revoke.
Qed.
Lemma inv_UpdateKeyLabel app prefix label : keeps (inv_step P) (UpdateKeyLabel app prefix label).
Proof using Type*.
  unfold UpdateKeyLabel, update_keys. apply inv_within. keeps_all. apply inv_db_exec. intros; by apply kc_label.
Qed.
End frames.

Section quiet.
Context `{TG : Telegram}.

Lemma quiet_IssueKey app prefix hash label : keeps quiet (IssueKey app prefix hash label).
Proof. unfold IssueKey, issue_key_tx. apply quiet_within. keeps_all. apply quiet_rolling_back. keeps_all. Qed.
Lemma quiet_RevokeKey app prefix : keeps quiet (RevokeKey app prefix).
Proof. apply quiet_within. keeps_all. Qed.
Lemma quiet_UpdateKeyLabel app prefix label : keeps quiet (UpdateKeyLabel app prefix label).
Proof. apply quiet_within. keeps_all. Qed.
Lemma reads_ListKeys app : keeps reads (ListKeys app).
Proof. apply reads_within. keeps_all. Qed.
End quiet.

#[export] Hint Resolve inv_IssueKey inv_RevokeKey inv_UpdateKeyLabel quiet_IssueKey quiet_RevokeKey
  quiet_UpdateKeyLabel reads_ListKeys : srv.

(** ** Outcomes *)

Section outcomes.
Context `{TG : Telegram}.

(** A computation under a timeout is the computation under some deadline. *)
Lemma within_run {A} d (m : M A) w :
  ∃ dl, (within d m w).1 = (m (with_deadline dl w)).1 ∧
        w_db (within d m w).2 = w_db (m (with_deadline dl w)).2 ∧ w_tx (within d m w).2 = w_tx (m (with_deadline dl w)).2.
Proof.
  exists (Some (match w_deadline w with Some o => Z.min o (w_now w + d) | None => w_now w + d end)).
  unfold within, mbind, st_bind, st_gets, st_modify, mret, st_ret. by destruct (m _).
Qed.

(** What a key that is issued finds. *)
Definition issuable (app prefix : string) (db : Database) : Prop :=
  prefix_taken prefix db = false ∧ ∃ a, apps db !! app = Some a ∧ app_active a = true.

(** Issuing a key inserts it or changes nothing, and when it is reported as
    issued it has been inserted. *)
Lemma IssueKey_outcome app prefix hash label w :
  let p := IssueKey app prefix hash label w in
  (w_db p.2 = w_db w ∧ p.1 ≠ Ok ()) ∨
  ∃ now, issuable app prefix (w_db w) ∧ (sql_insert_key app hash prefix label now (w_db w)).1 = Ok () ∧
    w_db p.2 = (sql_insert_key app hash prefix label now (w_db w)).2.
Proof.
  simpl. unfold IssueKey.
  match goal with |- context [within ?d ?m w] => destruct (within_run d m w) as (dl&E1&E2&_) end; unfold result in *; rewrite E1, E2; clear E1 E2.
  set (w0 := with_deadline dl w). change (w_db w) with (w_db w0). clearbody w0. clear w. rename w0 into w.
  unfold mbind, st_bind.
  destruct (tx_begin_spec w) as (D0&T0&_). destruct (tx_begin w) as [[[]|e] w1]; simpl in *; [|left; auto].
  specialize (T0 () eq_refl). rewrite !rolling_back_eq. simpl. rewrite <- D0 in T0 |- *. clear D0 w.
  unfold issue_key_tx, mbind, st_bind.
  match goal with |- context [tx_query ?a ?f w1] => destruct (tx_query_spec a f w1) as (D1&R1);
    destruct (tx_query a f w1) as [[active|e] w2] end; simpl in *; [|left; split; [done|by case_match]].
  destruct (R1 active eq_refl) as (db&_&Hdb&Ha&T1). rewrite T0 in Hdb. injection Hdb as <-.
  destruct (apps (w_db w1) !! app) as [a|] eqn:Ea; simplify_eq/=.
  destruct (app_active a) eqn:Eact; simpl; [|left; done].
  match goal with |- context [tx_query ?a ?f w2] => destruct (tx_query_spec a f w2) as (D2&R2);
    destruct (tx_query a f w2) as [[taken|e] w3] end; simpl in *; [|left; split; [congruence|done]].
  destruct (R2 taken eq_refl) as (db&_&Hdb&[= <-]&T2). rewrite T1 in Hdb. injection Hdb as <-.
  destruct (prefix_taken prefix (w_db w1)) eqn:Ept; simpl; [left; split; [congruence|done]|].
  match goal with |- context [tx_exec ?a ?f w3] => destruct (tx_exec_spec a f w3) as (D3&R3);
    destruct (tx_exec a f w3) as [[[]|e] w4] end; simpl in *; [|left; split; [congruence|by case_match]].
  destruct (R3 () eq_refl) as (db&now&Hdb&Hins&T3). rewrite T2 in Hdb. injection Hdb as <-.
  destruct (tx_commit_spec w4 _ T3) as (_&Hc). destruct (tx_commit w4) as [[[]|e] w5]; simpl in *.
  - right. exists now. unfold issuable. destruct Hc as [Hc|[_ [? Hc]]]; [|done]. eauto 10.
  - destruct Hc as [Hc|[Hc _]]; [right; exists now; unfold issuable; eauto 10|left; split; [congruence|done]].
Qed.

(** A reported update happened, to at least one live key of that app with that
    prefix. *)
Lemma update_keys_outcome what app prefix args f w :
  let p := update_keys what app prefix args f w in
  (w_db p.2 = w_db w ∨ ∃ now, w_db p.2 = (sql_update_keys app prefix f now (w_db w)).2) ∧
  (p.1 = Ok () → ∃ now, w_db p.2 = (sql_update_keys app prefix f now (w_db w)).2 ∧
     ∃ i k, app_keys (w_db w) !! i = Some k ∧ live_match app prefix k = true).
Proof.
  simpl. unfold update_keys.
  match goal with |- context [within ?d ?m w] => destruct (within_run d m w) as (dl&E1&E2&_) end; unfold result in *; rewrite E1, E2; clear E1 E2.
  set (w0 := with_deadline dl w). change (w_db w) with (w_db w0). clearbody w0. clear w. rename w0 into w.
  unfold mbind, st_bind.
  match goal with |- context [db_exec ?a ?g w] => destruct (db_exec_spec a g w) as (_&R&D);
    destruct (db_exec a g w) as [[n|e] w1] end; simpl in *; [|done].
  destruct (R n eq_refl) as (now&[= <-]&Hd).
  destruct (Z.eqb_spec (Z.of_nat (size (filter (λ p, live_match app prefix p.2 = true) (app_keys (w_db w))))) 0);
    simpl; (split; [done|]); [done|]. intros _. exists now. split; [done|].
  destruct (map_choose (filter (λ p, live_match app prefix p.2 = true) (app_keys (w_db w)))) as (i&k&Hk).
  { intros He. rewrite He, map_size_empty in n. done. }
  apply map_lookup_filter_Some in Hk. eauto.
Qed.
End outcomes.

(** ** Dead keys *)

(** A key that has been issued and is revoked, or removed with its app. *)
Definition dead_key (i : Z) (db : Database) : Prop :=
  i < seq_keys db ∧ ∀ k, app_keys db !! i = Some k → is_Some (revoked_at k).

#[export] Instance dead_key_closed i : KeyClosed (dead_key i).
Proof.
  unfold dead_key. split.
  - intros app hash prefix label now db [Hi Hk]. unfold sql_insert_key.
    repeat case_match; simpl; (split; [lia|]); try exact Hk.
    intros k. rewrite lookup_insert_ne by lia. apply Hk.
  - intros app prefix now db [Hi Hk]. split; [done|]. simpl.
    intros k' (k&<-&Hik)%lookup_fmap_Some. case_match; [by eexists|by apply Hk].
  - intros app prefix label now db [Hi Hk]. split; [done|]. simpl.
    intros k' (k&<-&Hik)%lookup_fmap_Some. case_match; [|by apply Hk]. simpl. by apply Hk.
Qed.

(** Revoking kills the keys it matches. *)
Lemma revoke_kills app prefix now db i k :
  db_wf db → app_keys db !! i = Some k → k_app_id k = app → key_prefix k = prefix →
  dead_key i (sql_update_keys app prefix set_revoked now db).2.
Proof.
  intros Hwf Hk Ha Hp. split; [by apply (wf_keys _ Hwf i k)|]. simpl. rewrite lookup_fmap, Hk. simpl.
  intros k' [= <-]. unfold live_match. rewrite Hp, Ha, !String.eqb_refl. simpl.
  case_bool_decide; [by eexists|]. by destruct (revoked_at k) eqn:E.
Qed.
