(* ===== verification/ApiClient.v ===== *)
(** * The admin UI's client of the server

    [internal/adminui/apiclient]: the requests the admin UI sends to the
    server's own API and how it reads the answers.  [net/http] is a parameter,
    [Do], that takes a request to some answer or fails; a request body is the
    JSON value that is sent. *)

From stdpp Require Import base gmap list strings sorting.
From Stdlib Require Import Ascii ZArith Lia.
From S2P Require Import Prelude GoStrings Encoding GoTime AuditChain RateLimit World AuditLog Auth.
From S2P Require Import Registry Strategy Dispatch Http AdminApi.

Local Open Scope string_scope.
Local Open Scope Z_scope.
Local Open Scope list_scope.

(** ** net/url *)

Definition unreserved (c : ascii) : bool :=
  in_range c 48 57 || in_range c 65 90 || in_range c 97 122 || in_set c "-_.~".

Definition upper_hex (n : nat) : ascii := if (n <? 10)%nat then chr (48 + n) else chr (55 + n).
Definition percent (c : ascii) (rest : string) : string :=
  let n := nat_of_ascii c in String "%" (String (upper_hex (n / 16)) (String (upper_hex (n mod 16)) rest)).

(** [url.PathEscape] and [url.QueryEscape]. *)
Fixpoint path_escape (s : string) : string :=
  match s with
  | "" => ""
  | String c s' => if unreserved c || in_set c "$&+=:@" then String c (path_escape s') else percent c (path_escape s')
  end.

Fixpoint query_escape (s : string) : string :=
  match s with
  | "" => ""
  | String c s' =>
      if Ascii.eqb c " " then String "+" (query_escape s')
      else if unreserved c then String c (query_escape s') else percent c (query_escape s')
  end.

(** [url.Values.Encode] on values set once each: by key. *)
Definition key_le (p q : string * string) : Prop := String.leb p.1 q.1 = true.
#[export] Instance key_le_dec : RelDecision key_le.
Proof. intros p q. unfold key_le. apply _. Defined.

Fixpoint join_with (sep : string) (l : list string) : string :=
  match l with [] => "" | [x] => x | x :: l' => x +:+ sep +:+ join_with sep l' end.

Definition values_encode (vs : list (string * string)) : string :=
  join_with "&" ((λ p, query_escape p.1 +:+ "=" +:+ query_escape p.2) <$> merge_sort key_le vs).

(** The pairs with a value. *)
Definition set_values (vs : list (string * string)) : list (string * string) :=
  List.filter (λ p, negb (String.eqb p.2 "")) vs.

(** [strings.TrimRight(s, "/")]. *)
Fixpoint trim_slashes (s : string) : string :=
  match s with
  | "" => ""
  | String c s' => let t := trim_slashes s' in
                   if String.eqb t "" && Ascii.eqb c "/" then "" else String c t
  end.

(** ** Requests *)

Record ClientRequest := mkClientRequest {
  cr_Method : string; cr_URL : string; cr_Authorization : string; cr_TraceID : string; cr_Body : option json }.

Record Client := mkClient { cl_baseURL : string; cl_apiKey : string }.

Definition ApiClientNew (baseURL apiKey : string) : Client := mkClient (trim_slashes baseURL) apiKey.

(** [CreateAppRequest] and [PatchAppRequest] mirror the server's requests; their
    encodings leave empty optional members out. *)
Definition jstr (s : string) : json := JStr (to_valid_utf8 s).
Definition omit_string (k s : string) : list (string * json) := if String.eqb s "" then [] else [(k, jstr s)].
Definition omit_list (k : string) (l : list string) : list (string * json) :=
  match l with [] => [] | _ => [(k, JArr (jstr <$> l))] end.
Definition omit_ptr {A} (k : string) (f : A → json) (o : option A) : list (string * json) :=
  match o with Some x => [(k, f x)] | None => [] end.

Definition encode_create (q : createAppRequest) : json :=
  JObj ([("id", jstr (ca_ID q)); ("name", jstr (ca_Name q))] ++ omit_string "description" (ca_Description q) ++
        omit_string "min_grade" (ca_MinGrade q) ++ omit_list "capabilities" (ca_Capabilities q)).

Definition encode_patch (q : patchAppRequest) : json :=
  JObj (omit_ptr "description" jstr (pa_Description q) ++ omit_ptr "min_grade" jstr (pa_MinGrade q) ++
        omit_ptr "active" JBool (pa_Active q) ++ omit_list "add_capabilities" (pa_Add q) ++
        omit_list "remove_capabilities" (pa_Remove q)).

Definition encode_grade (grade : string) : json := JObj [("grade", jstr grade)].

(** ** Errors *)

(** [*APIError], or any other failure. *)
Inductive client_error :=
| APIError (code : string) (status : Z)
| OtherError (e : error).

(** The [error] member of an answer; what is not such an object decodes to "". *)
Definition error_member (b : body) : string :=
  match b with
  | BError code => code
  | BObject m => match m !! "error" with Some (AStr s) => s | _ => "" end
  | _ => ""
  end.

Definition api_error (resp : Response) : client_error :=
  let code := error_member (rs_Body resp) in
  APIError (if String.eqb code "" then "unknown_error" else code) (rs_Status resp).

(** The columns of a search answer: [apiclient.AuditRow]. *)
Record clientAuditRow := mkClientRow {
  cw_ID : Z; cw_At : string; cw_TraceID : option string; cw_Stage : string; cw_AppID : option string;
  cw_Endpoint : option string; cw_DeliveryChannel : option string; cw_RecipientUserID : option Z;
  cw_RecipientChatID : option Z; cw_ErrorCode : option string }.

(** A row as the server renders it: the instant in whole seconds. *)
Definition client_row (r : AuditRow) : clientAuditRow :=
  let c := a_cols r in
  mkClientRow (a_id r) (format_rfc3339 (at_us c * 1000)) (trace_id c) (stage c) (app_id c) (endpoint c)
    (delivery_channel c) (recipient_user_id c) (recipient_chat_id c) (error_code c).

Record AuditSearchParams := mkSearch {
  sp_Limit : string; sp_Since : string; sp_Until : string; sp_TraceID : string; sp_AppID : string;
  sp_Stage : string; sp_BeforeID : string }.

Section client.
Context `{TG : Telegram} (Do : ClientRequest → M (result Response)).

Definition Health (c : Client) (trace : string) : M (result bool) :=
  r ← Do (mkClientRequest "GET" (cl_baseURL c +:+ "/healthz") "" trace None);
  match r with
  | Err e => mret (Err e)
  | Ok resp => mret (Ok (rs_Status resp =? StatusOK))
  end.

(** [doAdmin]. *)
Definition doAdmin (c : Client) (trace meth path : string) (b : option json) : M (res client_error ()) :=
  r ← Do (mkClientRequest meth (cl_baseURL c +:+ path) ("Bearer " +:+ cl_apiKey c) trace b);
  match r with
  | Err e => mret (Err (OtherError (Wrap "apiclient: request: " e "")))
  | Ok resp =>
      if (StatusOK <=? rs_Status resp) && (rs_Status resp <? 300) then mret (Ok ())
      else mret (Err (api_error resp))
  end.

Definition client_CreateApp (c : Client) (trace : string) (q : createAppRequest) : M (res client_error ()) :=
  doAdmin c trace "POST" "/admin/apps" (Some (encode_create q)).
Definition client_PatchApp (c : Client) (trace id : string) (q : patchAppRequest) : M (res client_error ()) :=
  doAdmin c trace "PATCH" ("/admin/apps/" +:+ path_escape id) (Some (encode_patch q)).
Definition client_DeleteApp (c : Client) (trace id : string) : M (res client_error ()) :=
  doAdmin c trace "DELETE" ("/admin/apps/" +:+ path_escape id) None.
Definition client_PurgeApp (c : Client) (trace id : string) : M (res client_error ()) :=
  doAdmin c trace "DELETE" ("/admin/apps/" +:+ path_escape id +:+ "/purge") None.
Definition PatchUserGrade (c : Client) (trace : string) (telegramID : Z) (grade : string) : M (res client_error ()) :=
  doAdmin c trace "PATCH" ("/admin/users/" +:+ format_int telegramID) (Some (encode_grade grade)).

Definition subscription_path (telegramID : Z) (appID : string) : string :=
  "/admin/users/" +:+ format_int telegramID +:+ "/subscriptions/" +:+ path_escape appID.
Definition client_Subscribe (c : Client) (trace : string) (telegramID : Z) (appID : string) : M (res client_error ()) :=
  doAdmin c trace "POST" (subscription_path telegramID appID) None.
Definition client_Unsubscribe (c : Client) (trace : string) (telegramID : Z) (appID : string) : M (res client_error ()) :=
  doAdmin c trace "DELETE" (subscription_path telegramID appID) None.

(** [SearchAudit]: only the parameters that are filled in. *)
Definition search_path (p : AuditSearchParams) : string :=
  let vs := set_values [("limit", sp_Limit p); ("since", sp_Since p); ("until", sp_Until p);
                        ("trace_id", sp_TraceID p); ("app_id", sp_AppID p); ("stage", sp_Stage p);
                        ("before_id", sp_BeforeID p)] in
  "/admin/audit/search" +:+ match vs with [] => "" | _ => "?" +:+ values_encode vs end.

Definition client_SearchAudit (c : Client) (trace : string) (p : AuditSearchParams)
    : M (res client_error (list clientAuditRow)) :=
  r ← Do (mkClientRequest "GET" (cl_baseURL c +:+ search_path p) ("Bearer " +:+ cl_apiKey c) trace None);
  match r with
  | Err e => mret (Err (OtherError (Wrap "apiclient: request: " e "")))
  | Ok resp =>
      if negb (rs_Status resp =? StatusOK) then mret (Err (api_error resp))
      else match rs_Body resp with
      | BSearch rows _ => mret (Ok (client_row <$> rows))
      | BText _ => mret (Err (OtherError (Wrap "apiclient: decode response: " (Msg "invalid character") "")))
      | _ => mret (Ok [])
      end
  end.
End client.

(** ** What the server reads *)

(** A request with every text made valid UTF-8, as [json.Marshal] does. *)
Definition clean_create (q : createAppRequest) : createAppRequest :=
  mkCreate (to_valid_utf8 (ca_ID q)) (to_valid_utf8 (ca_Name q)) (to_valid_utf8 (ca_Description q))
    (to_valid_utf8 (ca_MinGrade q)) (to_valid_utf8 <$> ca_Capabilities q).
Definition clean_patch (q : patchAppRequest) : patchAppRequest :=
  mkPatch (to_valid_utf8 <$> pa_Description q) (to_valid_utf8 <$> pa_MinGrade q) (pa_Active q)
    (to_valid_utf8 <$> pa_Add q) (to_valid_utf8 <$> pa_Remove q).

Lemma decode_jstrs l : mapM (λ x, decode_string x "") (jstr <$> l) = Some (to_valid_utf8 <$> l).
Proof. induction l as [|s l IH]; [done|]. cbn -[mapM]. cbn [mapM]. by rewrite IH. Qed.

Lemma clean_valid l : Forall (λ s, utf8_ok s = true) l → to_valid_utf8 <$> l = l.
Proof. induction 1; simpl; [done|]. f_equal; [by apply to_valid_id|done]. Qed.

Lemma clean_empty : to_valid_utf8 "" = "".
Proof. reflexivity. Qed.

#[local] Opaque to_valid_utf8.

Lemma decode_encode_patch q : decode_struct patch_fields (encode_patch q) zero_patch = Some (clean_patch q).
Proof.
  destruct q as [d g a add rem]. unfold encode_patch, clean_patch, omit_list.
  destruct d, g, a, add as [|c add], rem as [|c' rem]; cbn -[mapM fmap list_fmap];
    rewrite ?decode_jstrs; reflexivity.
Qed.

Lemma decode_encode_create q : decode_struct create_fields (encode_create q) zero_create = Some (clean_create q).
Proof.
  destruct q as [i n d g caps]. unfold encode_create, clean_create, omit_list, omit_string.
  cbn [ca_ID ca_Name ca_Description ca_MinGrade ca_Capabilities].
  destruct (String.eqb_spec d "") as [->|], (String.eqb_spec g "") as [->|], caps as [|c caps];
    rewrite ?clean_empty; cbn -[mapM fmap list_fmap]; rewrite ?decode_jstrs; reflexivity.
Qed.

(** C38: the client and the server agree on the wire: whatever app is created or
    patched and whatever grade is set, the body the client sends decodes, under
    the server's strict decoder, to exactly the request the client meant (with
    bytes that are not UTF-8 replaced); omitted members come back empty. *)
Theorem wire_roundtrip q p g :
  decode_struct create_fields (encode_create q) zero_create = Some (clean_create q) ∧
  decode_struct patch_fields (encode_patch p) zero_patch = Some (clean_patch p) ∧
  decode_struct grade_fields (encode_grade g) "" = Some (to_valid_utf8 g).
Proof. split_and!; [apply decode_encode_create|apply decode_encode_patch|done]. Qed.
