(* ===== verification/AdminStore.v ===== *)
(** * Admin UI: the read-only store

    [internal/adminui/store.go]: the queries behind the pages, over the apps,
    the users and the audit log.  Instants of the log are in microseconds, as
    the column holds them; the database session is in UTC.

    ORDER BY on a text column follows the collation of the interface
    [Postgres]; rows without an order come in the order of its [plan]. *)

From stdpp Require Import base gmap list strings sorting.
From Stdlib Require Import Ascii ZArith QArith Lia.
From S2P Require Import Prelude GoStrings GoTime AuditChain RateLimit World AuditLog Registry AdminKeys.

Local Open Scope string_scope.
Local Open Scope Z_scope.
Local Open Scope list_scope.

(** ** Rows *)

Record uiApp := mkUiApp {
  ua_ID : string; ua_Name : string; ua_Description : string; ua_MinGrade : string; ua_Active : bool;
  ua_Capabilities : list string; ua_CreatedAt : Z; ua_CreatedBy : string }.

Record uiUserRow := mkUiUser {
  ur_TelegramID : Z; ur_Username : string; ur_Grade : string; ur_Subscriptions : list string }.

Record DashboardStats := mkStats { ds_TotalApps : Z; ds_ActiveApps : Z; ds_ActiveKeys : Z; ds_Users : Z }.
Record AppDayCount := mkAppDay { dc_AppID : string; dc_Day : Z; dc_Count : Z }.
Record SeriesSpec := mkSpec { ss_Unit : string; ss_Buckets : Z }.
Record FailureFilter := mkFailures { ff_Days : Z; ff_Limit : Z; ff_AppID : string; ff_Stage : string; ff_ErrorCode : string }.
Record TrendFilter := mkTrend { tf_Days : Z; tf_AppID : string; tf_Stage : string; tf_ErrorCode : string }.
Record StageDayCount := mkStageDay { sd_Day : Z; sd_Stage : string; sd_Count : Z }.
Record KPICounts := mkKPI { kc_Received : Z; kc_Delivered : Z; kc_Failed : Z }.
Record AppStageCount := mkAppStage { ac_AppID : string; ac_Stage : string; ac_Count : Z }.
Record StageCount := mkStageCount { sc_Stage : string; sc_Count : Z }.
Record ErrorCodeCount := mkCodeCount { ec_Code : string; ec_Count : Z }.
Record LatencyStats := mkLatency { ls_Count : Z; ls_P50 : Q; ls_P95 : Q; ls_Max : Q }.
Record LatencySample := mkSample { la_AppID : string; la_Micros : Z }.
Record FailureRow := mkFailure {
  fr_At : Z; fr_Stage : string; fr_AppID : string; fr_RecipientUserID : option Z; fr_RecipientChatID : option Z;
  fr_ErrorCode : string; fr_TraceID : string }.

Definition HasCapability (a : uiApp) (c : string) : bool := existsb (String.eqb c) (ua_Capabilities a).

(** ** Helpers *)

Definition Day_us : Z := 86400 * 1000000.
Definition Hour_us : Z := 3600 * 1000000.

(** SELECT key, count( * ) GROUP BY key: one row per key, in no order. *)
Definition group_size {A K} `{EqDecision K} (key : A → K) (l : list A) (k : K) : Z :=
  Z.of_nat (length (filter (λ x, key x = k) l)).
Definition count_by {A K} `{EqDecision K} (key : A → K) (l : list A) : list (K * Z) :=
  (λ k, (k, group_size key l k)) <$> remove_dups (key <$> l).

Definition rows_since (t : Z) (log : list AuditRow) : list AuditRow :=
  List.filter (λ r, t <=? at_us (a_cols r)) log.
Definition in_stages (ss : list string) (r : AuditRow) : bool := bool_decide (stage (a_cols r) ∈ ss).
(** The filters with an empty-string short cut. *)
Definition opt_app (app : string) (r : AuditRow) : bool :=
  String.eqb app "" || bool_decide (app_id (a_cols r) = Some app).
Definition opt_stage (st : string) (r : AuditRow) : bool :=
  String.eqb st "" || String.eqb (stage (a_cols r)) st.
(** COALESCE(NULLIF(error_code, ''), 'unknown'). *)
Definition code_of (r : AuditRow) : string :=
  match error_code (a_cols r) with Some c => if String.eqb c "" then "unknown" else c | None => "unknown" end.
Definition opt_code (code : string) (r : AuditRow) : bool := String.eqb code "" || String.eqb (code_of r) code.

Definition deliveryFunnelStages : list string :=
  ["received"; "validated"; "dispatched"; "delivered"; "denied"; "retried"; "deferred"].
Definition deliveryFailureStages : list string :=
  ["denied"; "telegram_auth_failed"; "bot_not_admin"; "intrusion_kick"; "intrusion_unmitigated"].
Definition funnelStageOrder : list string := ["received"; "validated"; "dispatched"; "delivered"].

(** ** date_trunc and the window of a series *)

(** The number of a bucket, and its start. *)
Definition bucket_index (unit : string) (t : Z) : Z :=
  if String.eqb unit "hour" then t / Hour_us
  else if String.eqb unit "month" then month_index (t / Day_us)
  else t / Day_us.
Definition bucket_start (unit : string) (i : Z) : Z :=
  if String.eqb unit "hour" then i * Hour_us
  else if String.eqb unit "month" then month_start i * Day_us
  else i * Day_us.

Definition date_trunc (unit : string) (t : Z) : Z := bucket_start unit (bucket_index unit t).
(** date_trunc(unit, now) - n * interval '1 unit'. *)
Definition trunc_minus (unit : string) (now n : Z) : Z := bucket_start unit (bucket_index unit now - n).

Definition series_units : list string := ["hour"; "day"; "month"].

Section store.
Context `{PG : Postgres} `{TG : Telegram}.
Local Open Scope go_scope.

(** A query with its timeout and the text its error is wrapped with. *)
Definition store_query {A} (what : string) (args : list string) (f : Z → Database → result A) : M (result A) :=
  within storeQueryTimeout (
    let? rows := db_query args f else e => mret (Err (Wrap what e "")) ;; mret (Ok rows)).

(** *** Apps and users *)

Definition app_caps (app : string) (db : Database) : list string :=
  plan (omap (λ '(a, c), if String.eqb a app then Some c else None) (elements (app_capabilities db))).

Definition app_view (id : string) (a : AppRow) (db : Database) : uiApp :=
  mkUiApp id (app_name a) (app_description a) (app_min_grade a) (app_active a) (app_caps id db)
    (app_created_at a) (app_created_by a).

Definition list_apps_rows (db : Database) : list uiApp :=
  omap (λ id, a ← apps db !! id; Some (app_view id a db)) (collate (elements (dom (apps db)))).

Definition ListApps : M (result (list uiApp)) :=
  store_query "adminui: list apps: " [] (λ _ db, Ok (list_apps_rows db)).

Definition GetApp (id : string) : M (result uiApp) :=
  within storeQueryTimeout (
    let? app := db_query [id] (λ _ db, match apps db !! id with
                                        | Some a => Ok (app_view id a db) | None => Err (Sentinel ErrNoRows) end)
      else e => mret (Err (if errors_is e ErrNoRows then Sentinel UiErrAppNotFound else Wrap "adminui: get app: " e "")) ;;
    mret (Ok app)).

Definition by_telegram_id (p q : Z * UserRow) : Prop := telegram_id p.2 <= telegram_id q.2.
#[export] Instance by_telegram_id_dec : RelDecision by_telegram_id.
Proof using Type. intros p q. unfold by_telegram_id. apply _. Defined.

Definition user_subs (i : Z) (db : Database) : list string :=
  collate (omap (λ '(u, a), if u =? i then Some a else None) (elements (user_subscriptions db))).

Definition list_users_rows (db : Database) : list uiUserRow :=
  (λ p, mkUiUser (telegram_id p.2) (coalesce (username p.2)) (grade p.2) (user_subs p.1 db)) <$>
    merge_sort by_telegram_id (map_to_list (users db)).

Definition ListUsers : M (result (list uiUserRow)) :=
  store_query "adminui: list users: " [] (λ _ db, Ok (list_users_rows db)).

Definition dashboard_stats (db : Database) : DashboardStats :=
  mkStats (Z.of_nat (size (apps db))) (Z.of_nat (size (filter (λ p, app_active p.2 = true) (apps db))))
    (Z.of_nat (size (filter (λ p, revoked_at p.2 = None) (app_keys db)))) (Z.of_nat (size (users db))).

Definition DashboardStats_query : M (result DashboardStats) :=
  store_query "adminui: dashboard stats: " [] (λ _ db, Ok (dashboard_stats db)).

(** *** The audit log *)

(** The requests of the window: app and bucket of each. *)
Definition received_points (spec : SeriesSpec) (now : Z) (db : Database) : list (string * Z) :=
  omap (λ r, app ← app_id (a_cols r);
         if String.eqb (stage (a_cols r)) "received"
         then Some (app, date_trunc (ss_Unit spec) (at_us (a_cols r))) else None)
    (rows_since (trunc_minus (ss_Unit spec) now (ss_Buckets spec - 1)) (audit_log db)).

(** Groups by app and bucket, ordered by app then bucket. *)
Definition request_buckets (spec : SeriesSpec) (now : Z) (db : Database) : list AppDayCount :=
  let rows := received_points spec now db in
  app ← collate (remove_dups rows.*1);
  day ← merge_sort Z.le (remove_dups (filter (λ p, p.1 = app) rows).*2);
  [mkAppDay app day (Z.of_nat (length (filter (λ p, p = (app, day)) rows)))].

Definition RequestBuckets (spec : SeriesSpec) : M (result (list AppDayCount)) :=
  if bool_decide (ss_Unit spec ∈ series_units)
  then store_query "adminui: request buckets: " [] (λ now db, Ok (request_buckets spec now db))
  else mret (Err (Msg ("adminui: request buckets: unknown unit " +:+ go_quote (ss_Unit spec)))).

Definition stage_counts (days : Z) (app : string) (now : Z) (db : Database) : list AppStageCount :=
  let rows := omap (λ r, a ← app_id (a_cols r);
                     if in_stages deliveryFunnelStages r && opt_app app r then Some (a, stage (a_cols r)) else None)
                (rows_since (now - days * Day_us) (audit_log db)) in
  a ← collate (remove_dups rows.*1);
  st ← collate (remove_dups (filter (λ p, p.1 = a) rows).*2);
  [mkAppStage a st (Z.of_nat (length (filter (λ p, p = (a, st)) rows)))].

Definition StageCounts (days : Z) (app : string) : M (result (list AppStageCount)) :=
  store_query "adminui: stage counts: " [app] (λ now db, Ok (stage_counts days app now db)).

Definition by_id_desc (p q : AuditRow) : Prop := a_id q <= a_id p.
#[export] Instance by_id_desc_dec : RelDecision by_id_desc.
Proof using Type. intros p q. unfold by_id_desc. apply _. Defined.

Definition failure_row (r : AuditRow) : FailureRow :=
  let c := a_cols r in
  mkFailure (at_us c) (stage c) (coalesce (app_id c)) (recipient_user_id c) (recipient_chat_id c)
    (coalesce (error_code c)) (coalesce (trace_id c)).

Definition recent_failures (f : FailureFilter) (now : Z) (db : Database) : list FailureRow :=
  failure_row <$> take (Z.to_nat (ff_Limit f)) (merge_sort by_id_desc (List.filter
    (λ r, in_stages deliveryFailureStages r && opt_app (ff_AppID f) r && opt_stage (ff_Stage f) r && opt_code (ff_ErrorCode f) r)
    (rows_since (now - ff_Days f * Day_us) (audit_log db)))).

Definition RecentFailures (f : FailureFilter) : M (result (list FailureRow)) :=
  store_query "adminui: recent failures: " [ff_AppID f; ff_Stage f; ff_ErrorCode f]
    (λ now db, Ok (recent_failures f now db)).

Definition count_if (p : AuditRow → bool) (l : list AuditRow) : Z := Z.of_nat (length (List.filter p l)).

Definition kpi_counts (now : Z) (db : Database) : KPICounts :=
  let rows := rows_since (now - Day_us) (audit_log db) in
  mkKPI (count_if (in_stages ["received"]) rows) (count_if (in_stages ["delivered"]) rows)
    (count_if (in_stages deliveryFailureStages) rows).

Definition DeliveryKPICounts : M (result KPICounts) :=
  store_query "adminui: delivery kpi: " [] (λ now db, Ok (kpi_counts now db)).

Definition pipeline_counts (now : Z) (db : Database) : list StageCount :=
  (λ p, mkStageCount p.1 p.2) <$> plan (count_by (λ r, stage (a_cols r))
    (List.filter (in_stages funnelStageOrder) (rows_since (now - Day_us) (audit_log db)))).

Definition PipelineStageCounts : M (result (list StageCount)) :=
  store_query "adminui: pipeline stage counts: " [] (λ now db, Ok (pipeline_counts now db)).

(** ORDER BY count( * ) DESC, code. *)
Definition failure_causes (now : Z) (db : Database) : list ErrorCodeCount :=
  let groups := count_by code_of
    (List.filter (in_stages deliveryFailureStages) (rows_since (now - Day_us) (audit_log db))) in
  n ← reverse (merge_sort Z.le (remove_dups groups.*2));
  code ← collate (filter (λ p, p.2 = n) groups).*1;
  [mkCodeCount code n].

Definition FailureCauseCounts : M (result (list ErrorCodeCount)) :=
  store_query "adminui: failure cause counts: " [] (λ now db, Ok (failure_causes now db)).

Definition daily_counts (f : TrendFilter) (now : Z) (db : Database) : list StageDayCount :=
  let from := trunc_minus "day" now (tf_Days f - 1) in
  let rows := (λ r, (date_trunc "day" (at_us (a_cols r)), stage (a_cols r))) <$> List.filter
    (λ r, (in_stages deliveryFunnelStages r || in_stages deliveryFailureStages r) &&
          opt_app (tf_AppID f) r && opt_stage (tf_Stage f) r && opt_code (tf_ErrorCode f) r)
    (rows_since from (audit_log db)) in
  day ← merge_sort Z.le (remove_dups rows.*1);
  st ← collate (remove_dups (filter (λ p, p.1 = day) rows).*2);
  [mkStageDay day st (Z.of_nat (length (filter (λ p, p = (day, st)) rows)))].

Definition DeliveryDailyCounts (f : TrendFilter) : M (result (list StageDayCount)) :=
  store_query "adminui: delivery daily counts: " [tf_AppID f; tf_Stage f; tf_ErrorCode f]
    (λ now db, Ok (daily_counts f now db)).

Definition failure_codes (days now : Z) (db : Database) : list string :=
  collate (remove_dups (code_of <$> List.filter (in_stages deliveryFailureStages)
    (rows_since (now - days * Day_us) (audit_log db)))).

Definition FailureErrorCodes (days : Z) : M (result (list string)) :=
  store_query "adminui: failure error codes: " [] (λ now db, Ok (failure_codes days now db)).
End store.

(** *** Latencies *)

Definition traces (l : list AuditRow) : list string := remove_dups (omap (λ r, trace_id (a_cols r)) l).
Definition of_trace (t : string) (l : list AuditRow) : list AuditRow :=
  List.filter (λ r, bool_decide (trace_id (a_cols r) = Some t)) l.

Definition fold_at (f : Z → Z → Z) (l : list AuditRow) : option Z :=
  foldr (λ r acc, Some (match acc with Some a => f (at_us (a_cols r)) a | None => at_us (a_cols r) end)) None l.

Section latency.
Context `{PG : Postgres} `{TG : Telegram}.
Local Open Scope go_scope.

Definition delivered_rows (now : Z) (db : Database) : list AuditRow :=
  List.filter (in_stages ["delivered"]) (rows_since (now - Day_us) (audit_log db)).
Definition received_rows (now : Z) (db : Database) : list AuditRow :=
  List.filter (in_stages ["received"]) (rows_since (now - 25 * Hour_us) (audit_log db)).

(** The join of the last delivery and the first reception of a trace: the
    delivery and the time between. *)
Definition latency_of (now : Z) (db : Database) (t : string) : option (Z * Z) :=
  d ← fold_at Z.max (of_trace t (delivered_rows now db));
  r ← fold_at Z.min (of_trace t (received_rows now db));
  if r <=? d then Some (d, d - r) else None.

(** The [app_id] that DISTINCT ON keeps: one of the newest delivered rows. *)
Definition delivering_app (now : Z) (db : Database) (t : string) : string :=
  let rows := of_trace t (delivered_rows now db) in
  match plan (List.filter (λ r, bool_decide (fold_at Z.max rows = Some (at_us (a_cols r)))) rows) with
  | r :: _ => coalesce (app_id (a_cols r))
  | [] => ""
  end.

Definition latency_rows (now : Z) (db : Database) : list (Z * LatencySample) :=
  omap (λ t, '(d, us) ← latency_of now db t; Some (d, mkSample (delivering_app now db t) us))
    (traces (delivered_rows now db)).

Definition by_delivery_desc (p q : Z * LatencySample) : Prop := q.1 <= p.1.
#[export] Instance by_delivery_desc_dec : RelDecision by_delivery_desc.
Proof using Type. intros p q. unfold by_delivery_desc. apply _. Defined.

Definition latency_samples (limit now : Z) (db : Database) : list LatencySample :=
  snd <$> take (Z.to_nat limit) (merge_sort by_delivery_desc (plan (latency_rows now db))).

Definition LatencySamples (limit : Z) : M (result (list LatencySample)) :=
  store_query "adminui: latency samples: " [] (λ now db, Ok (latency_samples limit now db)).

(** [percentile f l]: PostgreSQL's [percentile_cont], in seconds, of latencies
    in microseconds. *)
Context (percentile : Q → list Z → Q).

Definition max_list (l : list Z) : Z := foldr Z.max 0 l.

Definition latency_stats (now : Z) (db : Database) : LatencyStats :=
  let l := (λ t, t.2) <$> omap (latency_of now db) (traces (delivered_rows now db)) in
  mkLatency (Z.of_nat (length l))
    (match l with [] => 0%Q | _ => percentile (1 # 2) l end) (match l with [] => 0%Q | _ => percentile (19 # 20) l end)
    (inject_Z (max_list l) / 1000000).

Definition DeliveryLatency : M (result LatencyStats) :=
  store_query "adminui: delivery latency: " [] (λ now db, Ok (latency_stats now db)).

(** *** The hash chain: rows are read one by one, and each read can fail *)

Fixpoint stream {A} (rows : list A) : M (list (result A)) :=
  match rows with
  | [] => mret []
  | r :: rest =>
      '(out, e) ← call;
      match out return M (list (result A)) with
      | Done => l ← stream rest; mret (Ok r :: l)
      | _ => mret [Err e]
      end
  end.

Definition by_id (p q : AuditRow) : Prop := a_id p <= a_id q.
#[export] Instance by_id_dec : RelDecision by_id.
Proof using Type. intros p q. unfold by_id. apply _. Defined.

Definition VerifyAuditChain : M (VerifyResult * option error) :=
  r ← db_query [] (λ _ db, Ok (merge_sort by_id (audit_log db)));
  match r with
  | Err e => mret (mkVerify false 0 None, Some (Wrap "adminui: verify chain: " e ""))
  | Ok rows => next ← stream (chain_row <$> rows); mret (VerifyChain next)
  end.
End latency.

(** ** The cards describe one slice of time *)

Definition total (l : list Z) : Z := foldr Z.add 0 l.

Lemma total_perm l l' : l ≡ₚ l' → total l = total l'.
Proof. induction 1; simpl; lia. Qed.
Lemma total_app l l' : total (l ++ l') = total l + total l'.
Proof. induction l; simpl; lia. Qed.

(** The groups of a count add up to the rows. *)
Section groups.
Context {A K : Type} `{EqDecision K} (key : A → K).

Lemma group_size_cons x l k : group_size key (x :: l) k = group_size key l k + (if decide (key x = k) then 1 else 0).
Proof. unfold group_size. rewrite filter_cons. case_decide; simpl; lia. Qed.

Lemma group_size_other x l (ks : list K) : key x ∉ ks → group_size key (x :: l) <$> ks = group_size key l <$> ks.
Proof.
  intros Hx. apply list_fmap_ext. intros i k Hk. rewrite group_size_cons, decide_False, Z.add_0_r; [done|].
  intros <-. apply Hx. by eapply list_elem_of_lookup_2.
Qed.

Lemma total_groups (l : list A) (ks : list K) : NoDup ks → (∀ x, x ∈ l → key x ∈ ks) →
  total (group_size key l <$> ks) = Z.of_nat (length l).
Proof.
  intros Hks. induction l as [|x l IH]; intros Hin.
  - clear Hks Hin. induction ks as [|k ks IH]; [done|]. rewrite fmap_cons. cbn [total foldr].
    fold (total (group_size key [] <$> ks)). by rewrite IH.
  - rewrite length_cons, Nat2Z.inj_succ, <- IH by (intros; apply Hin; by right).
    assert (key x ∈ ks) as (ks1&ks2&->)%list_elem_of_split by (apply Hin; left). clear IH Hin.
    apply NoDup_app in Hks as (_&Hd&[Hk2 _]%NoDup_cons).
    rewrite !fmap_app, !fmap_cons, !total_app. cbn [total foldr]. fold (total (group_size key l <$> ks2)).
    fold (total (group_size key (x :: l) <$> ks2)).
    rewrite !group_size_other, group_size_cons, decide_True by (done || (intros Hx; eapply Hd; [exact Hx|left])). lia.
Qed.

Lemma count_by_total (l : list A) : total (count_by key l).*2 = Z.of_nat (length l).
Proof.
  unfold count_by. rewrite <- list_fmap_compose. apply total_groups; [apply NoDup_remove_dups|].
  intros x Hx. apply elem_of_remove_dups, list_elem_of_fmap. eauto.
Qed.

Lemma count_by_elem (l : list A) k n : (k, n) ∈ count_by key l ↔ n = group_size key l k ∧ 0 < n.
Proof.
  unfold count_by. rewrite list_elem_of_fmap. split.
  - intros (k'&[= -> ->]&Hk). split; [done|]. rewrite elem_of_remove_dups in Hk.
    apply list_elem_of_fmap in Hk as (x&->&Hx). unfold group_size.
    assert (x ∈ filter (λ y, key y = key x) l) as Hf by (by apply list_elem_of_filter).
    destruct (filter _ l); [set_solver|]. simpl. lia.
  - intros [-> Hpos]. exists k. split; [done|]. apply elem_of_remove_dups, list_elem_of_fmap.
    unfold group_size in Hpos. destruct (filter (λ x, key x = k) l) as [|x l'] eqn:E; [simpl in Hpos; lia|].
    assert (x ∈ filter (λ y, key y = k) l) as Hf by (rewrite E; left). apply list_elem_of_filter in Hf as [<- Hx]. eauto.
Qed.
End groups.
