(* ===== verification/Dashboard.v ===== *)
(** * Admin UI: dashboard and delivery views

    [internal/adminui/dashboard.go] and [delivery.go] up to the drawing: what
    the cards, the charts and the funnels show of the counts the store returns.
    A chart is its lines, its legend and its axis; the SVG drawn from them is in
    [Svg]. *)

From stdpp Require Import base gmap list strings sorting.
From Stdlib Require Import Ascii ZArith QArith Qround Lqa Lia.
From S2P Require Import Prelude GoStrings GoTime AuditChain RateLimit World AuditLog Auth Registry.
From S2P Require Import Strategy Dispatch Http AdminKeys AdminStore.

Local Open Scope string_scope.
Local Open Scope Z_scope.
Local Open Scope list_scope.

(** ** Formatting *)

(** ["%.0f%%"] and ["%.1f"] of a nonnegative number. *)
Definition percent_text (q : Q) : string := format_int (round_half_even q) +:+ "%".
Definition fixed1 (q : Q) : string :=
  let t := round_half_even (q * 10) in format_int (t / 10) +:+ "." +:+ format_int (t mod 10).

Definition em_dash : string := "—".

(** ** dashboard.go: KPI, pipeline, failure causes *)

Record KPIView := mkKPIView { kv_Received : Z; kv_Delivered : Z; kv_Failed : Z; kv_SuccessRate : string }.
Record PipelineStage := mkPipe { ps_Name : string; ps_Count : Z; ps_Drop : string; ps_DropAlert : bool }.
Record PieLegendItem := mkSlice { pi_Code : string; pi_Count : Z; pi_Pct : string; pi_Color : string }.
Record FailurePieView := mkPie { pv_Legend : list PieLegendItem; pv_Total : Z }.
Record LegendItem := mkLegend { li_Label : string; li_Color : string }.
Record lineSeries := mkLine { ln_label : string; ln_counts : list Z; ln_rest : bool }.
(** The chart: legend, and per line its counts over the axis. *)
Record LineChart := mkChart { lc_Legend : list LegendItem; lc_Lines : list lineSeries; lc_Axis : list Z }.

Definition topLineChartApps : nat := 4.
Definition latencySampleLimit : Z := 400.
Definition pieFoldAfter : nat := 5.
Definition chartPalette : list string := ["#16a34a"; "#2563eb"; "#d97706"; "#dc2626"; "#7c3aed"; "#0891b2"].
Definition restLineColor : string := "#9ca3af".
Definition piePalette : list string := ["#dc2626"; "#f97316"; "#eab308"; "#8b5cf6"; "#0891b2"; "#6b7280"].
Definition cyclic (palette : list string) (i : nat) : string := default "" (palette !! (i mod length palette)%nat).

Section rates.
Context `{F : Float64}.

(** [100 * float64(part) / float64(whole)], at most 100. *)
Definition rate_of (part whole : Z) : Q :=
  let rate := rnd (rnd (100 * f64 part) / f64 whole) in if qltb 100 rate then 100%Q else rate.
Definition success_rate (delivered received : Z) : string :=
  if 0 <? received then percent_text (rate_of delivered received) else em_dash.

Definition buildKPIView (c : KPICounts) : KPIView :=
  mkKPIView (kc_Received c) (kc_Delivered c) (kc_Failed c) (success_rate (kc_Delivered c) (kc_Received c)).

(** A slice: its share of the total. *)
Definition pie_item (tot : Z) (i : nat) (c : ErrorCodeCount) : PieLegendItem :=
  mkSlice (ec_Code c) (ec_Count c) (percent_text (rnd (rnd (f64 (ec_Count c) / f64 tot) * 100))) (cyclic piePalette i).

(** More than six causes: five, and the others in one slice. *)
Definition pie_slices (counts : list ErrorCodeCount) : list ErrorCodeCount :=
  if (pieFoldAfter + 1 <? length counts)%nat
  then take pieFoldAfter counts ++
       [mkCodeCount ("기타 " +:+ format_int (Z.of_nat (length counts - pieFoldAfter)) +:+ "종")
          (total (ec_Count <$> drop pieFoldAfter counts))]
  else counts.

Definition buildFailurePie (counts : list ErrorCodeCount) : option FailurePieView :=
  match counts with
  | [] => None
  | _ => let tot := total (ec_Count <$> counts) in
         if tot =? 0 then None else Some (mkPie (imap (pie_item tot) (pie_slices counts)) tot)
  end.
End rates.

(** The map keeps the last count of a stage. *)
Definition by_stage (counts : list StageCount) : gmap string Z :=
  foldl (λ m c, <[sc_Stage c := sc_Count c]> m) ∅ counts.

(** The arrow to the next stage. *)
Definition drop_text (d : Z) : string := if 0 <=? d then "-" +:+ format_int d else "+" +:+ format_int (- d).

Fixpoint pipeline_boxes (m : gmap string Z) (stages : list string) : list PipelineStage :=
  match stages with
  | [] => []
  | s :: rest =>
      let n := default 0 (m !! s) in
      match rest with
      | [] => [mkPipe s n "" false]
      | s' :: _ => let d := n - default 0 (m !! s') in
                   mkPipe s n (drop_text d) (0 <? d) :: pipeline_boxes m rest
      end
  end.

Definition buildPipelineFlow (counts : list StageCount) : option (list PipelineStage) :=
  match counts with [] => None | _ => Some (pipeline_boxes (by_stage counts) funnelStageOrder) end.

(** ** dashboard.go: the requests chart *)

Record chartRange := mkRange { rg_Key : string; rg_Label : string; rg_Title : string; rg_Spec : SeriesSpec }.
Definition chartRanges : list chartRange :=
  [mkRange "day" "일" "최근 24시간 · 시간별" (mkSpec "hour" 24);
   mkRange "week" "주" "최근 7일 · 일별" (mkSpec "day" 7);
   mkRange "month" "월" "최근 30일 · 일별" (mkSpec "day" 30);
   mkRange "year" "연" "최근 12개월 · 월별" (mkSpec "month" 12)].
Definition resolveChartRange (key : string) : chartRange :=
  default (mkRange "day" "일" "최근 24시간 · 시간별" (mkSpec "hour" 24))
    (find_first (λ r, String.eqb (rg_Key r) key) chartRanges).

(** [t.Format(bucketKeyFormat(unit))], [t] in microseconds. *)
Definition bucket_key (unit : string) (t : Z) : string :=
  let d := date_text (t / Day_us) in
  if String.eqb unit "hour" then d +:+ "T" +:+ append_int 2 (t / Hour_us mod 24)
  else if String.eqb unit "month"
  then let '(y, m, _) := civil_from_days (t / Day_us) in append_int 4 y +:+ "-" +:+ append_int 2 m
  else d.

(** [bucketAxis]: consecutive buckets ending at that of [now]. *)
Definition bucketAxis (spec : SeriesSpec) (now : Z) : list Z :=
  (λ i, bucket_start (ss_Unit spec) (bucket_index (ss_Unit spec) now + Z.of_nat i + 1 - ss_Buckets spec))
    <$> seq 0 (Z.to_nat (ss_Buckets spec)).

Definition bucket_indexes (spec : SeriesSpec) (now : Z) : gmap string nat :=
  foldl (λ m p, <[bucket_key (ss_Unit spec) p.2 := p.1]> m) ∅ (imap pair (bucketAxis spec now)).

(** The counts per app: a point sets its bucket; points outside are dropped. *)
Definition add_point (spec : SeriesSpec) (idx : gmap string nat) (m : gmap string (list Z)) (p : AppDayCount)
    : gmap string (list Z) :=
  match idx !! bucket_key (ss_Unit spec) (dc_Day p) with
  | None => m
  | Some i => <[dc_AppID p := <[i := dc_Count p]> (default (replicate (Z.to_nat (ss_Buckets spec)) 0) (m !! dc_AppID p))]> m
  end.
Definition per_app (spec : SeriesSpec) (now : Z) (series : list AppDayCount) : gmap string (list Z) :=
  foldl (add_point spec (bucket_indexes spec now)) ∅ series.

(** [selectLineSeries]: busiest first, the id breaks ties; beyond five apps all
    but four are summed. *)
Definition busier (p q : string * list Z) : Prop :=
  total q.2 < total p.2 ∨ total q.2 = total p.2 ∧ String.leb p.1 q.1 = true.
#[export] Instance busier_dec : RelDecision busier.
Proof. intros p q. unfold busier. apply _. Defined.

Definition add_counts (l l' : list Z) : list Z := zip_with Z.add l l'.

Definition selectLineSeries (perApp : gmap string (list Z)) (buckets : nat) : list lineSeries :=
  let totals := merge_sort busier (map_to_list perApp) in
  let line p := mkLine p.1 p.2 false in
  if (length totals <=? topLineChartApps + 1)%nat then line <$> totals
  else (line <$> take topLineChartApps totals) ++
       [mkLine ("기타 " +:+ format_int (Z.of_nat (length totals - topLineChartApps)) +:+ "개")
          (foldl add_counts (replicate buckets 0) (drop topLineChartApps totals).*2) true].

Definition buildLineChart (series : list AppDayCount) (cr : chartRange) (now : Z) : option LineChart :=
  match series with
  | [] => None
  | _ =>
      let m := per_app (rg_Spec cr) now series in
      if bool_decide (m = ∅) then None
      else let lines := selectLineSeries m (Z.to_nat (ss_Buckets (rg_Spec cr))) in
           Some (mkChart (imap (λ n ln, mkLegend (ln_label ln) (if ln_rest ln then restLineColor else cyclic chartPalette n)) lines)
                   lines (bucketAxis (rg_Spec cr) now))
  end.

(** ** delivery.go: funnels *)

Record FunnelBar := mkBar { fb_Stage : string; fb_Count : Z; fb_WidthPct : string }.
Record AppFunnel := mkFunnel {
  fn_AppID : string; fn_Received : Z; fn_Delivered : Z; fn_Denied : Z; fn_Retried : Z; fn_Deferred : Z;
  fn_SuccessRate : string; fn_Bars : list FunnelBar }.

Definition by_app_stage (counts : list AppStageCount) : gmap string (gmap string Z) :=
  foldl (λ m c, <[ac_AppID c := <[ac_Stage c := ac_Count c]> (default ∅ (m !! ac_AppID c))]> m) ∅ counts.

Section funnels.
Context `{F : Float64}.

Definition bar_width (n maxCount : Z) : string :=
  if 0 <? n then
    let pct := rnd (rnd (100 * f64 n) / f64 maxCount) in
    fixed1 (if qltb pct 2 then 2%Q else pct)
  else "0".

Definition funnel_of (p : string * gmap string Z) : AppFunnel :=
  let n s := default 0 (p.2 !! s) in
  let maxCount := foldr Z.max 1 (n <$> funnelStageOrder) in
  mkFunnel p.1 (n "received") (n "delivered") (n "denied") (n "retried") (n "deferred")
    (success_rate (n "delivered") (n "received"))
    ((λ s, mkBar s (n s) (bar_width (n s) maxCount)) <$> funnelStageOrder).

Definition busier_funnel (f g : AppFunnel) : Prop :=
  fn_Received g < fn_Received f ∨ fn_Received g = fn_Received f ∧ String.leb (fn_AppID f) (fn_AppID g) = true.
#[export] Instance busier_funnel_dec : RelDecision busier_funnel.
Proof using Type. intros f g. unfold busier_funnel. apply _. Defined.

Definition buildFunnels (counts : list AppStageCount) : list AppFunnel :=
  merge_sort busier_funnel (funnel_of <$> map_to_list (by_app_stage counts)).
End funnels.

(** ** delivery.go: trend *)

Record trendSeriesDef := mkSeries { ts_label : string; ts_color : string; ts_stages : list string }.

Definition trend_defs (stageFilter : string) : list trendSeriesDef :=
  if String.eqb stageFilter "" then
    [mkSeries "received" "#2563eb" ["received"]; mkSeries "delivered" "#16a34a" ["delivered"];
     mkSeries "실패" "#dc2626" deliveryFailureStages]
  else [mkSeries stageFilter "#2563eb" [stageFilter]].

(** One line: the counts of its stages added per day. *)
Definition trend_line (idx : gmap string nat) (days : nat) (counts : list StageDayCount) (def : trendSeriesDef) : list Z :=
  foldl (λ l c, match idx !! bucket_key "day" (sd_Day c) with
                | Some i => if bool_decide (sd_Stage c ∈ ts_stages def) then alter (Z.add (sd_Count c)) i l else l
                | None => l
                end) (replicate days 0) counts.

Definition trend_matched (idx : gmap string nat) (counts : list StageDayCount) (defs : list trendSeriesDef) : bool :=
  existsb (λ c, bool_decide (is_Some (idx !! bucket_key "day" (sd_Day c))) &&
                existsb (λ d, bool_decide (sd_Stage c ∈ ts_stages d)) defs) counts.

Definition buildTrendChart (counts : list StageDayCount) (days : Z) (stageFilter : string) (now : Z) : option LineChart :=
  match counts with
  | [] => None
  | _ =>
      let spec := mkSpec "day" days in
      let idx := bucket_indexes spec now in
      let defs := trend_defs stageFilter in
      if trend_matched idx counts defs
      then Some (mkChart ((λ d, mkLegend (ts_label d) (ts_color d)) <$> defs)
                   ((λ d, mkLine (ts_label d) (trend_line idx (Z.to_nat days) counts d) false) <$> defs)
                   (bucketAxis spec now))
      else None
  end.

(** ** Buckets *)

Lemma bucket_start_le unit i j : i <= j → bucket_start unit i <= bucket_start unit j.
Proof.
  intros H. unfold bucket_start. pose proof (month_start_le i j H).
  repeat case_match; unfold Hour_us, Day_us; lia.
Qed.

(** An instant is not before its bucket. *)
Lemma date_trunc_le unit t : date_trunc unit t <= t.
Proof.
  unfold date_trunc, bucket_start, bucket_index.
  assert (∀ d, 0 < d → t / d * d <= t) as Hd by (intros d Hd; pose proof (Z.mul_div_le t d Hd); lia).
  assert (0 < Day_us) as HD by done. assert (0 < Hour_us) as HH by done.
  repeat case_match; auto. pose proof (month_index_spec (t / Day_us)) as [Hm _]. specialize (Hd Day_us HD). nia.
Qed.

(** The year of an instant in microseconds has four digits. *)
Definition year_ok (t : Z) : bool := four_digit_year (t / Day_us).

Lemma month_key_inj i j : four_digit_year (month_start i) = true → four_digit_year (month_start j) = true →
  (let '(y, m, _) := civil_from_days (month_start i) in append_int 4 y +:+ "-" +:+ append_int 2 m) =
  (let '(y, m, _) := civil_from_days (month_start j) in append_int 4 y +:+ "-" +:+ append_int 2 m) → i = j.
Proof.
  pose proof (month_index_start i) as Hi. pose proof (month_index_start j) as Hj.
  unfold four_digit_year, month_index in *.
  pose proof (civil_ok (month_start i)) as Ci. pose proof (civil_ok (month_start j)) as Cj.
  destruct (civil_from_days (month_start i)) as [[y m] d], (civil_from_days (month_start j)) as [[y' m'] d'].
  rewrite !andb_true_iff, !Z.leb_le. intros Hy Hy' He. destruct Ci as (Hm&_), Cj as (Hm'&_).
  apply sapp_inj_len in He as [H1 H2]; [|by rewrite !append_int_length by lia].
  apply append_int_inj in H1; [|lia..]. apply sapp_inj_l, append_int_inj in H2; [|lia..]. subst. lia.
Qed.

Lemma bucket_key_inj unit i j :
  year_ok (bucket_start unit i) = true → year_ok (bucket_start unit j) = true →
  bucket_key unit (bucket_start unit i) = bucket_key unit (bucket_start unit j) → i = j.
Proof.
  unfold year_ok, bucket_key, bucket_start.
  destruct (String.eqb unit "hour"); [|destruct (String.eqb unit "month")].
  - intros Hi Hj He.
    assert (∀ k, k * Hour_us / Hour_us mod 24 = k mod 24) as Hh by (intros k; by rewrite Z.div_mul).
    assert (∀ k, k * Hour_us / Day_us = k / 24) as Hd
      by (intros k; change Day_us with (24 * Hour_us); by rewrite Z.div_mul_cancel_r).
    rewrite !Hh in He. rewrite Hd in Hi. rewrite !Hd in Hj. rewrite !Hd in He.
    apply sapp_inj_len in He as [H1 H2]; [|by rewrite !date_text_length].
    apply date_text_inj in H1; [|done..]. apply sapp_inj_l, append_int_inj in H2;
      [|pose proof (Z.mod_pos_bound i 24); pose proof (Z.mod_pos_bound j 24); lia..].
    rewrite (Z.div_mod i 24), (Z.div_mod j 24) by done. lia.
  - rewrite !Z.div_mul by done. apply month_key_inj.
  - rewrite !Z.div_mul by done. apply date_text_inj.
Qed.

(** ** The axis *)

Section axis.
Context (spec : SeriesSpec) (now : Z).
Local Abbreviation n := (Z.to_nat (ss_Buckets spec)).
Local Abbreviation axis := (bucketAxis spec now).

Lemma axis_lookup i d : axis !! i = Some d ↔
  (i < n)%nat ∧ d = bucket_start (ss_Unit spec) (bucket_index (ss_Unit spec) now + Z.of_nat i + 1 - ss_Buckets spec).
Proof.
  unfold bucketAxis. rewrite list_lookup_fmap, fmap_Some. split.
  - intros (k&[-> Hk]%lookup_seq&->). done.
  - intros [Hi ->]. exists i. split; [|done]. by apply lookup_seq.
Qed.

Context (Hyears : Forall (λ d, year_ok d = true) axis).

Lemma axis_key_inj i j d d' : axis !! i = Some d → axis !! j = Some d' →
  bucket_key (ss_Unit spec) d = bucket_key (ss_Unit spec) d' → i = j.
Proof using Hyears.
  intros Hi Hj He. rewrite Forall_lookup in Hyears. pose proof (Hyears i d Hi). pose proof (Hyears j d' Hj).
  apply axis_lookup in Hi as [_ ->], Hj as [_ ->]. apply bucket_key_inj in He; [lia|done..].
Qed.

(** A map filled from left to right with distinct keys. *)
Lemma foldl_insert_lookup {A} (f : A → string) (l : list (nat * A)) (m : gmap string nat) k i :
  (∀ p q, p ∈ l → q ∈ l → f p.2 = f q.2 → p.1 = q.1) →
  foldl (λ m p, <[f p.2 := p.1]> m) m l !! k = Some i ↔
  (∃ a, (i, a) ∈ l ∧ f a = k) ∨ (∀ p, p ∈ l → f p.2 ≠ k) ∧ m !! k = Some i.
Proof.
  revert m. induction l as [|[j a] l IH]; intros m Hinj; simpl; [set_solver|].
  rewrite IH by (intros; apply Hinj; [by right..|done]). split.
  - intros [(b&Hb&<-)|[Hn Hm]]; [left; exists b; split; [by right|done]|].
    destruct (decide (f a = k)) as [<-|Hne].
    + rewrite lookup_insert_eq in Hm. simplify_eq. left. exists a. split; [left|done].
    + rewrite lookup_insert_ne in Hm by done. right. split; [|done].
      intros p [->|Hp]%elem_of_cons; [done|by apply Hn].
  - intros [(b&[[= -> ->]|Hb]%elem_of_cons&<-)|[Hn Hm]].
    + destruct (decide (Exists (λ p, f p.2 = f a) l)) as [(p&Hp&He)%Exists_exists|Hno].
      * left. destruct p as [j' b]. exists b. simpl in He. split; [|done].
        assert (j' = j) as ->; [|done]. apply (Hinj (j', b) (j, a)); [by right|left|done].
      * right. split; [|by rewrite lookup_insert_eq]. intros p Hp He. apply Hno, Exists_exists. eauto.
    + left. eauto.
    + right. split; [intros p Hp; apply Hn; by right|]. rewrite lookup_insert_ne; [done|].
      intros He. apply (Hn (j, a)); [left|done].
Qed.

Lemma bucket_indexes_lookup k i : bucket_indexes spec now !! k = Some i ↔
  ∃ d, axis !! i = Some d ∧ bucket_key (ss_Unit spec) d = k.
Proof using Hyears.
  unfold bucket_indexes. rewrite (foldl_insert_lookup (bucket_key (ss_Unit spec))).
  - rewrite lookup_empty. split.
    + intros [(d&Hd&<-)|[_ ?]]; [|done]. apply elem_of_lookup_imap in Hd as (j&x&[= <- <-]&Hj). eauto.
    + intros (d&Hd&<-). left. exists d. split; [|done]. apply elem_of_lookup_imap. eauto.
  - intros [i1 d1] [i2 d2] H1 H2 He.
    apply elem_of_lookup_imap in H1 as (j1&x1&[= -> ->]&Hj1), H2 as (j2&x2&[= -> ->]&Hj2). by eapply axis_key_inj.
Qed.
End axis.

(** ** The lines of the requests chart *)

(** The count of an app in bucket [i]. *)
Definition at_bucket (i : nat) (l : list Z) : Z := default 0 (l !! i).
Definition value (m : gmap string (list Z)) (app : string) (i : nat) : Z := at_bucket i (default [] (m !! app)).

Section points.
Context (spec : SeriesSpec) (now : Z).
Local Abbreviation n := (Z.to_nat (ss_Buckets spec)).
Local Abbreviation axis := (bucketAxis spec now).
Context (Hyears : Forall (λ d, year_ok d = true) axis).

(** The points: each is the start of a bucket, and its count is [C] of it. *)
Context (C : string → Z → Z).
Definition point_ok (p : AppDayCount) : Prop :=
  dc_Count p = C (dc_AppID p) (dc_Day p) ∧ year_ok (dc_Day p) = true ∧ ∃ j, dc_Day p = bucket_start (ss_Unit spec) j.

Definition lines_ok (m : gmap string (list Z)) : Prop := map_Forall (λ _ l, length l = n) m.

Lemma same_bucket p i d : point_ok p → axis !! i = Some d →
  bucket_key (ss_Unit spec) d = bucket_key (ss_Unit spec) (dc_Day p) → d = dc_Day p.
Proof using Hyears.
  intros (_&Hy&j&Hj) Hi He. rewrite Forall_lookup in Hyears. pose proof (Hyears i d Hi) as Hd.
  apply axis_lookup in Hi as [_ ->]. rewrite Hj in He, Hy |- *. by apply bucket_key_inj in He as ->.
Qed.

Lemma add_point_ok m p : lines_ok m → lines_ok (add_point spec (bucket_indexes spec now) m p).
Proof using Type.
  intros Hm. unfold add_point. case_match; [|done]. apply map_Forall_insert_2; [|done].
  rewrite length_insert. destruct (m !! dc_AppID p) eqn:E; simpl; [by apply (Hm _ _ E)|apply length_replicate].
Qed.

Lemma add_point_value m p app i d : lines_ok m → point_ok p → axis !! i = Some d →
  value (add_point spec (bucket_indexes spec now) m p) app i =
  if bool_decide (dc_AppID p = app ∧ dc_Day p = d) then dc_Count p else value m app i.
Proof using Hyears.
  intros Hm Hp Hi. pose proof Hi as [Hn _]%axis_lookup. unfold add_point.
  destruct (bucket_indexes spec now !! _) as [j|] eqn:Ej.
  - apply bucket_indexes_lookup in Ej as (d'&Hj&He); [|done]. pose proof (same_bucket p j d' Hp Hj He) as ->.
    pose proof Hj as [Hnj _]%axis_lookup.
    unfold value. destruct (decide (dc_AppID p = app)) as [<-|Hne].
    + rewrite lookup_insert_eq. simpl. unfold at_bucket.
      assert (length (default (replicate n 0) (m !! dc_AppID p)) = n) as Hl.
      { destruct (m !! dc_AppID p) eqn:E; simpl; [by apply (Hm _ _ E)|apply length_replicate]. }
      destruct (decide (j = i)) as [->|Hji].
      * rewrite list_lookup_insert_eq by lia. rewrite bool_decide_true; [done|]. split; [done|congruence].
      * rewrite list_lookup_insert_ne by done. rewrite bool_decide_false.
        2:{ intros [_ <-]. apply Hji. by eapply (axis_key_inj spec now Hyears). }
        destruct (m !! dc_AppID p) eqn:E; simpl; [done|]. by rewrite lookup_replicate_2.
    + rewrite lookup_insert_ne by done. by rewrite bool_decide_false by naive_solver.
  - rewrite bool_decide_false; [done|]. intros [_ <-].
    assert (bucket_indexes spec now !! bucket_key (ss_Unit spec) (dc_Day p) = Some i); [|congruence].
    apply bucket_indexes_lookup; eauto.
Qed.

Lemma per_app_from pts m app i d : lines_ok m → Forall point_ok pts → axis !! i = Some d →
  lines_ok (foldl (add_point spec (bucket_indexes spec now)) m pts) ∧
  value (foldl (add_point spec (bucket_indexes spec now)) m pts) app i =
  if existsb (λ p, bool_decide (dc_AppID p = app ∧ dc_Day p = d)) pts then C app d else value m app i.
Proof using Hyears.
  intros Hm Hp Hi. revert m Hm. induction Hp as [|p pts Hp Hpts IH]; intros m Hm; simpl; [done|].
  destruct (IH _ (add_point_ok m p Hm)) as [H1 ->]. split; [done|]. rewrite (add_point_value m p app i d) by done.
  destruct (existsb _ pts); [by rewrite orb_true_r|]. rewrite orb_false_r.
  case_bool_decide as H; [|done]. destruct H as [<- <-]. by destruct Hp.
Qed.

Lemma per_app_dom pts m p i d : Forall point_ok pts → p ∈ pts → axis !! i = Some d → dc_Day p = d →
  is_Some (foldl (add_point spec (bucket_indexes spec now)) m pts !! dc_AppID p).
Proof using Hyears.
  intros Hp Hin Hi Hd.
  assert (∀ pts m a, is_Some (m !! a) → is_Some (foldl (add_point spec (bucket_indexes spec now)) m pts !! a)) as Hmono.
  { clear. induction pts as [|p pts IH]; intros m a Ha; [done|]. apply IH. unfold add_point.
    case_match; [|done]. apply lookup_insert_is_Some'. auto. }
  revert m. induction Hp as [|q pts Hq Hpts IH]; intros m; [set_solver|].
  apply elem_of_cons in Hin as [<-|Hin]; [|by apply IH]. simpl. apply Hmono. unfold add_point.
  assert (bucket_indexes spec now !! bucket_key (ss_Unit spec) (dc_Day p) = Some i) as ->
    by (apply bucket_indexes_lookup; [done|]; exists d; by subst).
  by rewrite lookup_insert_eq.
Qed.
End points.

(** *** The fold of the small apps keeps every column *)

Definition column (i : nat) (ls : list (list Z)) : Z := total (at_bucket i <$> ls).

Lemma column_perm i ls ls' : ls ≡ₚ ls' → column i ls = column i ls'.
Proof. intros H. apply total_perm. by rewrite H. Qed.
Lemma column_app i ls ls' : column i (ls ++ ls') = column i ls + column i ls'.
Proof. unfold column. by rewrite fmap_app, total_app. Qed.

Lemma add_counts_column n i ls acc : (i < n)%nat → length acc = n → Forall (λ l, length l = n) ls →
  at_bucket i (foldl add_counts acc ls) = at_bucket i acc + column i ls.
Proof.
  intros Hi Ha Hls. revert acc Ha. induction Hls as [|l ls Hl Hls IH]; intros acc Ha; [unfold column; simpl; lia|].
  simpl. rewrite IH by (unfold add_counts; rewrite length_zip_with; lia).
  unfold column. rewrite fmap_cons. cbn [total foldr]. fold (total (at_bucket i <$> ls)).
  enough (at_bucket i (add_counts acc l) = at_bucket i acc + at_bucket i l) by lia.
  unfold at_bucket, add_counts. rewrite lookup_zip_with.
  destruct (lookup_lt_is_Some_2 acc i ltac:(lia)) as [x Hx], (lookup_lt_is_Some_2 l i ltac:(lia)) as [y Hy].
  rewrite Hx, Hy. done.
Qed.

Lemma select_column perApp n i : (i < n)%nat → map_Forall (λ _ l, length l = n) perApp →
  column i (ln_counts <$> selectLineSeries perApp n) = column i (map_to_list perApp).*2.
Proof.
  intros Hi Hp. unfold selectLineSeries. set (ts := merge_sort busier (map_to_list perApp)).
  assert (ts ≡ₚ map_to_list perApp) as Hts by apply merge_sort_Permutation.
  assert (column i ts.*2 = column i (map_to_list perApp).*2) as <- by (apply column_perm; by rewrite Hts).
  assert (Forall (λ l, length l = n) ts.*2) as Hl.
  { rewrite Hts. apply Forall_fmap, Forall_forall. intros [k l] Hk. by apply (Hp k), elem_of_map_to_list. }
  case_match.
  - by rewrite <- list_fmap_compose.
  - assert (column i ts.*2 = column i (take topLineChartApps ts).*2 + column i (drop topLineChartApps ts).*2) as ->
      by (by rewrite <- column_app, <- fmap_app, take_drop).
    rewrite fmap_app, <- list_fmap_compose, column_app. unfold compose. simpl (fmap ln_counts [_]). f_equal.
    unfold column at 1. simpl. rewrite Z.add_0_r. rewrite (add_counts_column n) by
      (done || apply length_replicate || (rewrite fmap_drop; by apply Forall_drop)).
    unfold at_bucket at 1. by rewrite lookup_replicate_2.
Qed.

(** ** The requests chart shows every request *)

Section conserves.
Context `{PG : Postgres}.

Lemma request_buckets_elem spec now db p : p ∈ request_buckets spec now db ↔
  (dc_AppID p, dc_Day p) ∈ received_points spec now db ∧
  dc_Count p = group_size id (received_points spec now db) (dc_AppID p, dc_Day p).
Proof.
  unfold request_buckets, group_size. set (rows := received_points spec now db). rewrite list_elem_of_bind. split.
  - intros (a&Hp&_). apply list_elem_of_bind in Hp as (d&->%list_elem_of_singleton&Hd).
    rewrite merge_sort_Permutation, elem_of_remove_dups, list_elem_of_fmap in Hd.
    destruct Hd as ([a' d']&->&[Ha Hd]%list_elem_of_filter). simpl in *. by subst.
  - destruct p as [a d n]; simpl. intros [Hin ->]. exists a. split.
    + apply list_elem_of_bind. exists d. split; [by left|].
      rewrite merge_sort_Permutation, elem_of_remove_dups, list_elem_of_fmap.
      exists (a, d). split; [done|]. by apply list_elem_of_filter.
    + rewrite collate_perm, elem_of_remove_dups, list_elem_of_fmap. by exists (a, d).
Qed.

Section chart.
Context (spec : SeriesSpec) (now : Z) (db : Database).
Local Abbreviation axis := (bucketAxis spec now).
Local Abbreviation points := (received_points spec now db).
Context (Hyears : Forall (λ d, year_ok d = true) axis).
Context (Hlog : ∀ r, r ∈ audit_log db → year_ok (date_trunc (ss_Unit spec) (at_us (a_cols r))) = true).

Definition requests_of (a : string) (d : Z) : Z := group_size id points (a, d).

Lemma request_points_ok : Forall (point_ok spec requests_of) (request_buckets spec now db).
Proof using Hlog.
  apply Forall_forall. intros p [Hin Hc]%request_buckets_elem. apply list_elem_of_omap in Hin as (r&Hr&He).
  apply list_elem_of_In, filter_In in Hr as [Hr _]. destruct (app_id (a_cols r)) as [a|]; simpl in He; [|done].
  case_match; [|done]. injection He as Ha Hd. split; [done|]. rewrite <- Hd.
  split; [by apply Hlog, list_elem_of_In|]. by eexists.
Qed.

Lemma lines_ok_empty : lines_ok spec ∅.
Proof using Type. by intros ???%lookup_empty_Some. Qed.

Lemma per_app_value a i d : axis !! i = Some d →
  value (per_app spec now (request_buckets spec now db)) a i = requests_of a d.
Proof using Hyears Hlog.
  intros Hi. unfold per_app. destruct (per_app_from spec now Hyears requests_of _ ∅ a i d lines_ok_empty request_points_ok Hi) as [_ ->].
  destruct (existsb _ _) eqn:E; [done|]. unfold value, at_bucket. rewrite lookup_empty. simpl. symmetry.
  unfold requests_of, group_size. destruct (filter _ points) as [|p l] eqn:F; [done|]. exfalso.
  assert ((a, d) ∈ points) as Hin.
  { assert (p ∈ filter (λ x, id x = (a, d)) points) as Hp by (rewrite F; left). by apply list_elem_of_filter in Hp as [<- ?]. }
  apply not_true_iff_false in E. apply E, existsb_exists. exists (mkAppDay a d (group_size id points (a, d))).
  split; [|by apply bool_decide_eq_true]. by apply list_elem_of_In, request_buckets_elem.
Qed.

Lemma column_values (m : gmap string (list Z)) i : column i (map_to_list m).*2 = total ((λ a, value m a i) <$> (map_to_list m).*1).
Proof using Type.
  unfold column. f_equal. rewrite <- !list_fmap_compose. apply list_fmap_ext. intros j [a l] Hj. simpl.
  apply list_elem_of_lookup_2, elem_of_map_to_list in Hj. unfold value. by rewrite Hj.
Qed.

Lemma requests_column i d : axis !! i = Some d →
  column i (map_to_list (per_app spec now (request_buckets spec now db))).*2 =
  Z.of_nat (length (filter (λ p, p.2 = d) points)).
Proof using Hyears Hlog.
  intros Hi. set (m := per_app _ _ _). rewrite column_values.
  rewrite <- (total_groups fst (filter (λ p, p.2 = d) points) (map_to_list m).*1).
  - f_equal. apply list_fmap_ext. intros j a _. unfold m. rewrite (per_app_value a i d Hi). unfold requests_of, group_size.
    do 2 f_equal. rewrite list_filter_filter. apply list_filter_iff. intros [x y]; simpl. naive_solver.
  - apply NoDup_fst_map_to_list.
  - intros [a d'] [Hd Hin]%list_elem_of_filter. simpl in *. subst d'.
    destruct (per_app_dom spec now Hyears requests_of _ ∅ (mkAppDay a d (requests_of a d)) i d request_points_ok) as [l Hl];
      [by apply request_buckets_elem|done|done|].
    simpl in Hl. apply list_elem_of_fmap. exists (a, l). split; [done|]. by apply elem_of_map_to_list.
Qed.

(** The requests of an app received in the bucket starting at [d]. *)
Definition in_bucket (d : Z) (r : AuditRow) : bool :=
  String.eqb (stage (a_cols r)) "received" && bool_decide (is_Some (app_id (a_cols r))) &&
  (date_trunc (ss_Unit spec) (at_us (a_cols r)) =? d).

Lemma points_in_bucket i d : axis !! i = Some d →
  Z.of_nat (length (filter (λ p, p.2 = d) points)) = count_if (in_bucket d) (audit_log db).
Proof using Type.
  intros [Hn Hi]%axis_lookup. unfold received_points, rows_since, count_if. clear Hlog. f_equal.
  assert (trunc_minus (ss_Unit spec) now (ss_Buckets spec - 1) <= d) as Hfrom.
  { rewrite Hi. apply bucket_start_le. lia. }
  induction (audit_log db) as [|r log IH]; [done|]. simpl. unfold in_bucket at 1.
  pose proof (date_trunc_le (ss_Unit spec) (at_us (a_cols r))) as Ht.
  destruct (Z.leb_spec (trunc_minus (ss_Unit spec) now (ss_Buckets spec - 1)) (at_us (a_cols r))) as [Hle|Hgt]; simpl.
  - destruct (app_id (a_cols r)) as [a|]; simpl; [|by rewrite andb_false_r; simpl].
    destruct (String.eqb _ "received"); simpl; [|done]. rewrite filter_cons.
    destruct (Z.eqb_spec (date_trunc (ss_Unit spec) (at_us (a_cols r))) d) as [He|He].
    + rewrite decide_True by done. simpl. f_equal. exact IH.
    + by rewrite decide_False by done.
  - destruct (Z.eqb_spec (date_trunc (ss_Unit spec) (at_us (a_cols r))) d) as [He|He]; [lia|].
    by rewrite !andb_false_r.
Qed.
End chart.

(** C31: The requests chart of the dashboard loses and invents nothing: in every
    bucket of its axis, the values of its lines (with the apps beyond the fourth
    folded into one line when there are more than five) add up to the number
    of requests of registered apps the audit log has in that bucket. *)
Theorem chart_conserves cr now db ch :
  Forall (λ d, year_ok d = true) (bucketAxis (rg_Spec cr) now) →
  (∀ r, r ∈ audit_log db → year_ok (date_trunc (ss_Unit (rg_Spec cr)) (at_us (a_cols r))) = true) →
  buildLineChart (request_buckets (rg_Spec cr) now db) cr now = Some ch →
  ∀ i d, lc_Axis ch !! i = Some d →
    total ((λ ln, at_bucket i (ln_counts ln)) <$> lc_Lines ch) = count_if (in_bucket (rg_Spec cr) d) (audit_log db).
Proof using Type.
  intros Hy Hl Hch i d Hi. unfold buildLineChart in Hch. destruct (request_buckets _ _ _) as [|p pts] eqn:E; [done|].
  rewrite <- E in *. clear p pts E. case_bool_decide; [done|]. injection Hch as <-. simpl in *.
  pose proof Hi as [Hn _]%axis_lookup.
  change (total _) with (total ((at_bucket i ∘ ln_counts) <$> selectLineSeries
    (per_app (rg_Spec cr) now (request_buckets (rg_Spec cr) now db)) (Z.to_nat (ss_Buckets (rg_Spec cr))))).
  rewrite list_fmap_compose. fold (column i (ln_counts <$> selectLineSeries
    (per_app (rg_Spec cr) now (request_buckets (rg_Spec cr) now db)) (Z.to_nat (ss_Buckets (rg_Spec cr))))).
  rewrite select_column by (try apply (per_app_from _ _ Hy _ _ _ "" i d (lines_ok_empty _) (request_points_ok _ _ _ Hl) Hi); lia).
  by rewrite (requests_column _ _ _ Hy Hl i d Hi), (points_in_bucket _ _ _ i d Hi).
Qed.
End conserves.

(** Six apps in the current hour, one of them twice, and an older request. *)
Definition sample_row (i : Z) (st : Stage) (app code : string) (at_ : Z) : AuditRow :=
  mkAuditRow i (event_cols at_ "{}" (mkEvent None "" "" st app "" 0 "" "" "" 0 0 code ∅)) "" "".
Definition chart_db : Database :=
  set_audit (λ _, imap (λ i p, sample_row (Z.of_nat i + 1) StageReceived p.1 "" p.2)
    [("a", 24 * Hour_us + 5); ("b", 24 * Hour_us + 6); ("c", 24 * Hour_us + 7); ("d", 24 * Hour_us + 8);
     ("e", 24 * Hour_us + 9); ("f", 24 * Hour_us + 10); ("a", 24 * Hour_us + 11); ("b", 20 * Hour_us)]) empty_db.

Lemma chart_conserves_witness :
  total ((λ ln, at_bucket 23 (ln_counts ln)) <$>
    default [] (lc_Lines <$> buildLineChart (request_buckets (PG := text_order) (mkSpec "hour" 24) (24 * Hour_us + 20) chart_db)
                               (resolveChartRange "day") (24 * Hour_us + 20))) = 7.
Proof.
  destruct (buildLineChart _ _ _) as [ch|] eqn:E; [|vm_compute in E; discriminate]. cbn [default fmap option_fmap option_map].
  rewrite (chart_conserves (PG := text_order) (resolveChartRange "day") (24 * Hour_us + 20) chart_db ch) with (d := 24 * Hour_us).
  - vm_compute. reflexivity.
  - refine (bool_decide_eq_true_1 _ _). vm_compute. reflexivity.
  - apply Forall_forall. refine (bool_decide_eq_true_1 _ _). vm_compute. reflexivity.
  - exact E.
  - unfold buildLineChart in E. destruct (request_buckets _ _ _); [discriminate|]. case_bool_decide; [discriminate|].
    injection E as <-. vm_compute. reflexivity.
Defined.

(** ** Rates *)

Section shares.
Context `{F : Float64}.

Lemma round_half_even_bounds q : (0 <= q)%Q → (q <= 100)%Q → 0 <= round_half_even q <= 100.
Proof.
  intros H0 H1. unfold round_half_even. set (f := Qfloor q).
  pose proof (Qfloor_le q) as Hl. pose proof (Qlt_floor q) as Hu. fold f in Hl, Hu.
  assert (0 <= f) as Hf0 by (change 0 with (Qfloor 0); by apply Qfloor_resp_le).
  assert (f <= 100) as Hf1 by (change 100 with (Qfloor 100); by apply Qfloor_resp_le).
  destruct (Z.eq_dec f 100) as [E|Hne].
  - assert (qltb (q - inject_Z f) (1 # 2) = true) as ->; [|lia]. apply qltb_lt. rewrite E. change (inject_Z 100) with 100%Q. lra.
  - repeat case_match; lia.
Qed.

Lemma rate_of_bounds part whole : 0 <= part → 0 < whole → (0 <= rate_of part whole)%Q ∧ (rate_of part whole <= 100)%Q.
Proof.
  intros Hp Hw. unfold rate_of. destruct (qltb 100 _) eqn:E; [split; lra|]. apply qltb_ge in E. split; [|done].
  assert (∀ z, 0 <= z → (0 <= f64 z)%Q) as Hf.
  { intros z Hz. apply rnd_nonneg. change 0%Q with (inject_Z 0). by rewrite <- Zle_Qle. }
  apply rnd_nonneg. unfold Qdiv. apply Qmult_le_0_compat.
  - apply rnd_nonneg. apply Qmult_le_0_compat; [lra|auto].
  - apply Qinv_le_0_compat. apply Hf. lia.
Qed.

(** A success rate is a whole percentage, or absent when nothing was received. *)
Lemma success_rate_text delivered received : 0 <= delivered →
  match success_rate delivered received with
  | s => if 0 <? received then ∃ k, 0 <= k <= 100 ∧ s = format_int k +:+ "%" else s = em_dash
  end.
Proof.
  intros Hd. unfold success_rate. destruct (Z.ltb_spec 0 received) as [Hr|]; [|done].
  destruct (rate_of_bounds delivered received Hd Hr). eexists. split; [by apply round_half_even_bounds|done].
Qed.
End shares.

(** ** The cards describe the same events *)

Section cards.
Context `{F : Float64} `{PG : Postgres}.

Lemma foldl_stage_lookup (l : list StageCount) (m : gmap string Z) k :
  NoDup (sc_Stage <$> l) →
  foldl (λ m c, <[sc_Stage c := sc_Count c]> m) m l !! k =
  match find_first (λ c, String.eqb (sc_Stage c) k) l with Some c => Some (sc_Count c) | None => m !! k end.
Proof using Type.
  revert m. induction l as [|c l IH]; intros m; [done|]. rewrite fmap_cons, NoDup_cons. intros [Hc Hl]. simpl.
  rewrite IH by done. unfold find_first; fold (@find_first StageCount).
  destruct (String.eqb_spec (sc_Stage c) k) as [<-|Hne].
  - destruct (find_first _ l) as [d|] eqn:E; [|by rewrite lookup_insert_eq].
    apply find_first_Some in E as [Hd He]. apply String.eqb_eq in He. exfalso. apply Hc. rewrite <- He.
    apply list_elem_of_fmap. eauto.
  - by rewrite lookup_insert_ne.
Qed.

Definition last_day (now : Z) (db : Database) : list AuditRow := rows_since (now - Day_us) (audit_log db).

Lemma stage_size s l : s ∈ funnelStageOrder →
  group_size (λ r, stage (a_cols r)) (List.filter (in_stages funnelStageOrder) l) s = count_if (in_stages [s]) l.
Proof using Type.
  intros Hs. unfold group_size, count_if. f_equal. induction l as [|r l IH]; [done|]. cbn [List.filter].
  assert (∀ ss, in_stages ss r = bool_decide (stage (a_cols r) ∈ ss)) as Hr by done. rewrite !Hr.
  destruct (decide (stage (a_cols r) = s)) as [E|E].
  - rewrite !bool_decide_true by set_solver. rewrite filter_cons, decide_True by done. simpl. f_equal. exact IH.
  - rewrite (bool_decide_false (_ ∈ [s])) by set_solver. case_bool_decide; [|exact IH].
    rewrite filter_cons, decide_False by done. exact IH.
Qed.

(** The box of a stage shows its rows of the last 24 hours. *)
Lemma pipeline_value now db s : s ∈ funnelStageOrder →
  default 0 (by_stage (pipeline_counts now db) !! s) = count_if (in_stages [s]) (last_day now db).
Proof using Type.
  intros Hs. unfold by_stage. set (rows := List.filter (in_stages funnelStageOrder) (last_day now db)).
  assert (pipeline_counts now db ≡ₚ (λ p, mkStageCount p.1 p.2) <$> count_by (λ r, stage (a_cols r)) rows) as Hp
    by (unfold pipeline_counts; by rewrite plan_perm).
  assert (NoDup (sc_Stage <$> pipeline_counts now db)) as Hnd.
  { rewrite Hp. unfold count_by. rewrite <- !list_fmap_compose. unfold compose. simpl. rewrite list_fmap_id.
    apply NoDup_remove_dups. }
  rewrite foldl_stage_lookup by done. rewrite lookup_empty.
  rewrite <- (stage_size s (last_day now db) Hs). fold rows.
  destruct (find_first _ _) as [c|] eqn:E; simpl.
  - apply find_first_Some in E as [Hc <-%String.eqb_eq]. rewrite Hp in Hc.
    apply list_elem_of_fmap in Hc as ([k n]&->&[-> _]%count_by_elem). done.
  - destruct (Z_lt_le_dec 0 (group_size (λ r, stage (a_cols r)) rows s)) as [Hpos|]; [exfalso|unfold group_size in *; lia].
    rewrite find_first_None in E. specialize (E (mkStageCount s (group_size (λ r, stage (a_cols r)) rows s))).
    simpl in E. rewrite String.eqb_refl in E. enough (false = true) by done. rewrite E; [done|]. rewrite Hp.
    apply list_elem_of_fmap. eexists (_, _). split; [|by apply count_by_elem]. done.
Qed.

(** Listing the groups one after the other lists everything. *)
Lemma groups_perm {A} (key : A → Z) (ks : list Z) (l : list A) : NoDup ks → (∀ x, x ∈ l → key x ∈ ks) →
  ks ≫= (λ k, filter (λ x, key x = k) l) ≡ₚ l.
Proof using Type.
  intros Hks. revert l. induction Hks as [|k ks Hk Hks IH]; intros l Hl.
  - destruct l as [|x l]; [done|]. specialize (Hl x). set_solver.
  - csimpl. etrans; [|apply (filter_app_complement (λ x, key x = k))]. apply Permutation_app_head.
    rewrite <- (IH (filter (λ x, ¬ key x = k) l)).
    + apply Permutation_refl', Forall_bind_ext, Forall_forall. intros k' Hk'. rewrite list_filter_filter.
      apply list_filter_iff. intros x. split; [|naive_solver]. intros E. split; [done|]. intros E'. apply Hk. congruence.
    + intros x [Hne Hx]%list_elem_of_filter. specialize (Hl x Hx). set_solver.
Qed.

Lemma bind_perm {A B} (f g : A → list B) (l : list A) : (∀ x, f x ≡ₚ g x) → l ≫= f ≡ₚ l ≫= g.
Proof using Type. intros H. induction l as [|x l IH]; [done|]. csimpl. by rewrite H, IH. Qed.
Lemma bind_fmap_out {A B C} (f : B → C) (g : A → list B) (l : list A) : l ≫= (λ x, f <$> g x) = f <$> (l ≫= g).
Proof using Type. induction l as [|x l IH]; [done|]. csimpl. by rewrite fmap_app, IH. Qed.
Lemma bind_singleton {A B} (f : A → B) (l : list A) : l ≫= (λ x, [f x]) = f <$> l.
Proof using Type. induction l as [|x l IH]; [done|]. csimpl. by rewrite IH. Qed.

(** The causes are the groups of the failures by code. *)
Lemma failure_causes_perm now db :
  failure_causes now db ≡ₚ (λ p, mkCodeCount p.1 p.2) <$>
    count_by code_of (List.filter (in_stages deliveryFailureStages) (last_day now db)).
Proof using Type.
  unfold failure_causes. fold (last_day now db). set (g := count_by code_of _).
  set (ns := reverse (merge_sort Z.le (remove_dups g.*2))).
  assert (ns ≡ₚ remove_dups g.*2) as Hns by (unfold ns; by rewrite reverse_Permutation, merge_sort_Permutation).
  etrans; [|apply fmap_Permutation, (groups_perm snd ns g)].
  - rewrite <- bind_fmap_out. apply bind_perm. intros n. rewrite bind_singleton, collate_perm, <- list_fmap_compose.
    apply Permutation_refl', list_fmap_ext. intros i [c n'] Hi. apply list_elem_of_lookup_2, list_elem_of_filter in Hi as [<- _]. done.
  - rewrite Hns. apply NoDup_remove_dups.
  - intros [c n] Hx. rewrite Hns, elem_of_remove_dups. apply list_elem_of_fmap. by exists (c, n).
Qed.

Lemma failure_causes_total now db :
  total (ec_Count <$> failure_causes now db) = kc_Failed (kpi_counts now db).
Proof using Type.
  rewrite (total_perm _ _ (fmap_Permutation ec_Count _ _ (failure_causes_perm now db))), <- list_fmap_compose.
  exact (count_by_total code_of _).
Qed.

Lemma pie_slices_total counts : total (ec_Count <$> pie_slices counts) = total (ec_Count <$> counts).
Proof using Type.
  unfold pie_slices. case_match; [|done]. rewrite fmap_app, total_app. csimpl.
  assert (total (ec_Count <$> counts) = total (ec_Count <$> take pieFoldAfter counts) + total (ec_Count <$> drop pieFoldAfter counts))
    as -> by (by rewrite <- total_app, <- fmap_app, take_drop). cbn [total foldr]. lia.
Qed.
Lemma pie_slices_length counts : (length (pie_slices counts) <= pieFoldAfter + 1)%nat.
Proof using Type.
  unfold pie_slices. destruct (Nat.ltb_spec (pieFoldAfter + 1) (length counts)); [|done]. rewrite length_app, length_take. cbn [length]. lia.
Qed.

(** The cards of the dashboard agree on one another: at one instant, the first and
    the last box of the pipeline show the received and delivered counts of the KPI
    card; the slices of the failure pie, at most six however many causes there are,
    add up to its failed count, and the pie is missing only when nothing failed; the
    success rate is a whole percentage between 0 and 100, and a dash when nothing
    was received. *)
Theorem cards_agree now db :
  let kpi := buildKPIView (kpi_counts now db) in
  match buildPipelineFlow (pipeline_counts now db) with
  | Some boxes => (ps_Count <$> head boxes) = Some (kv_Received kpi) ∧ (ps_Count <$> last boxes) = Some (kv_Delivered kpi)
  | None => kv_Received kpi = 0 ∧ kv_Delivered kpi = 0
  end ∧
  match buildFailurePie (failure_causes now db) with
  | Some pie => pv_Total pie = kv_Failed kpi ∧ total (pi_Count <$> pv_Legend pie) = kv_Failed kpi ∧ (length (pv_Legend pie) <= 6)%nat
  | None => kv_Failed kpi = 0
  end ∧
  (if 0 <? kv_Received kpi then ∃ k, 0 <= k <= 100 ∧ kv_SuccessRate kpi = format_int k +:+ "%" else kv_SuccessRate kpi = em_dash).
Proof using Type.
  intros kpi. split; [|split].
  - pose proof (pipeline_value now db "received") as H1. pose proof (pipeline_value now db "delivered") as H2.
    unfold buildPipelineFlow. destruct (pipeline_counts now db) as [|c cs] eqn:E.
    + split; symmetry; [apply H1|apply H2]; set_solver.
    + rewrite <- E in *. split; (etrans; [|apply (f_equal Some); (apply H1 || apply H2); set_solver]); done.
  - pose proof (failure_causes_total now db) as Ht. unfold buildFailurePie.
    destruct (failure_causes now db) as [|c cs] eqn:E; [done|]. rewrite <- E in *.
    destruct (Z.eqb_spec (total (ec_Count <$> failure_causes now db)) 0) as [E0|_]; [etrans; [symmetry; exact Ht|exact E0]|].
    simpl. split_and!; [done| |].
    + etrans; [|exact Ht]. rewrite fmap_imap, <- pie_slices_total. f_equal. apply list_eq. intros i.
      rewrite list_lookup_imap, list_lookup_fmap. by destruct (pie_slices _ !! i).
    + rewrite length_imap. apply pie_slices_length.
  - apply (success_rate_text (kc_Delivered (kpi_counts now db)) (kc_Received (kpi_counts now db))). simpl. unfold count_if. lia.
Qed.
End cards.
