(* ===== verification/AdminUi.v ===== *)
(** * Admin UI: requests, pages and the login

    The common part of [internal/adminui]: what a handler sees of a request,
    the page data of [handlers.go], the session middleware of [session.go], the
    CSRF middleware of [csrf.go], the headers of [server.go] and the login and
    logout handlers.

    A page is the template's name with the data it is executed on; the HTML is
    not modelled.  [templates.ParsePage] is a parameter that says which templates
    parse.  A redirect is the URL given to [http.Redirect]. *)

From stdpp Require Import base gmap list strings.
From Stdlib Require Import Ascii ZArith QArith Lia.
From S2P Require Import Prelude GoStrings Encoding RateLimit AuditChain World AuditLog Auth Registry.
From S2P Require Import Strategy Dispatch Http AdminApi Config AdminSession AdminKeys ApiClient AdminStore.
From S2P Require Import Dashboard.

Local Open Scope string_scope.
Local Open Scope Z_scope.
Local Open Scope list_scope.

(** ** Requests *)

(** [u_Query] is [r.URL.Query()], [u_PostForm] the values of the body,
    [u_FormErr] whether [r.ParseForm] fails. *)
Record UiRequest := mkUiRequest {
  u_Method : string;
  u_Path : string;
  u_TraceHeader : string;
  u_RemoteAddr : string;
  u_RawQuery : string;
  u_Query : string → list string;
  u_PostForm : string → list string;
  u_FormErr : bool;
  u_Cookies : list (string * string);
  u_Param : string → string;
}.

(** [r.Form]: the values of the body come first. *)
Definition first_of (l : list string) : string := default "" (head l).
Definition query_get (r : UiRequest) (k : string) : string := first_of (u_Query r k).
Definition Form (r : UiRequest) (k : string) : list string := u_PostForm r k ++ u_Query r k.
Definition FormValue (r : UiRequest) (k : string) : string := first_of (Form r k).
Definition PostFormValue (r : UiRequest) (k : string) : string := first_of (u_PostForm r k).
Definition form_has (r : UiRequest) (k : string) : bool := negb (bool_decide (Form r k = [])).
Definition cookie_value (r : UiRequest) (name : string) : option string :=
  snd <$> find_first (λ p, String.eqb p.1 name) (u_Cookies r).

(** The request context: the zero values before the session middleware ran. *)
Record UiCtx := mkUiCtx { uc_TraceID : string; uc_Nonce : string; uc_Expiry : option Z }.

(** ** Page data: handlers.go *)

Record KeyGroup := mkKeyGroup { kg_AppID : string; kg_Keys : list uiKeyRow }.
Record KeysView := mkKeysView {
  kw_Group : string; kw_Status : string; kw_App : string; kw_ShowNew : bool;
  kw_FormAppID : string; kw_FormPrefix : string; kw_FormLabel : string }.
Record UserDisplay := mkDisplay {
  ud_TelegramID : Z; ud_Username : string; ud_Grade : string; ud_GradeLabel : string; ud_GradeBadge : string;
  ud_Subscriptions : list string }.
Record UsersView := mkUsersView {
  uv_Grade : string; uv_App : string; uv_Query : string; uv_Users : list UserDisplay; uv_Count : Z;
  uv_Selected : option UserDisplay }.
Record TestSendResult := mkTestResult {
  tr_Status : string; tr_OK : bool; tr_Body : string; tr_Truncated : bool; tr_TraceID : string }.
Record TestSendView := mkTestSend {
  tv_FormAppID : string; tv_FormRecipient : string; tv_FormText : string; tv_Result : option TestSendResult }.
Record AuditFilters := mkAuditFilters {
  af_Limit : string; af_Since : string; af_Until : string; af_TraceID : string; af_AppID : string;
  af_Stage : string; af_BeforeID : string }.
Record AuditDisplayRow := mkAuditDisplay {
  ad_ID : Z; ad_At : string; ad_Stage : string; ad_StageBadge : string; ad_AppID : string; ad_Endpoint : string;
  ad_DeliveryChannel : string; ad_Recipient : string; ad_ErrorCode : string; ad_TraceID : string }.
Record AuditVerifyBreak := mkVerifyBreak {
  av_ID : Z; av_At : string; av_Stage : string; av_Column : string; av_Expected : string; av_Stored : string }.
Record AuditVerifyView := mkVerifyView {
  vv_OK : bool; vv_Partial : bool; vv_Rows : Z; vv_Elapsed : Z; vv_Break : option AuditVerifyBreak }.
Record AuditView := mkAuditView {
  aw_Filters : AuditFilters; aw_Stages : list string; aw_Limits : list string; aw_AppOptions : list string;
  aw_Rows : list AuditDisplayRow; aw_NextURL : string; aw_FirstURL : string; aw_Verify : option AuditVerifyView }.
Record LatencyStripView := mkStrip { sv_Count : Z; sv_Shown : Z; sv_P50 : string; sv_P95 : string; sv_Max : string }.
(** A section of the dashboard: failed, or its data if there is any. *)
Definition section (A : Type) : Type := option (option A).
Record DashboardView := mkDash {
  db_KPI : section KPIView; db_Pipeline : section (list PipelineStage); db_Pie : section FailurePieView;
  db_Strip : section LatencyStripView }.
Record DashboardPage := mkDashPage {
  dg_HealthOK : bool; dg_HealthDB : string; dg_AdminUptime : string; dg_Dash : option DashboardView;
  dg_ChartTitle : string; dg_ChartRanges : list (string * string * bool); dg_LineChart : section LineChart;
  dg_Stats : option DashboardStats }.
Record DeliveryView := mkDelivery {
  dl_Window : string; dl_WindowLabel : string; dl_Windows : list (string * string * bool); dl_View : string;
  dl_Views : list (string * string * string * bool); dl_AppFilter : string; dl_StageFilter : string;
  dl_ErrorFilter : string; dl_AppOptions : list string; dl_StageOptions : list string; dl_ErrorOptions : list string;
  dl_Filtered : bool; dl_Trend : section LineChart; dl_Funnels : option (list AppFunnel);
  dl_Failures : option (list AuditDisplayRow) }.

(** The fields of [pageData] only one page uses; they are zero on the others. *)
Inductive view :=
| VNone
| VApps (statusFilter : string)
| VNewApp (grantable : list string)
| VApp (id : string) (app : option uiApp) (grantable : list string)
| VKeys (keys : list uiKeyRow) (groups : list KeyGroup) (v : KeysView)
| VIssued (appID prefix label plaintext : string)
| VUsers (telegramID unsubApp : string) (v : UsersView)
| VTestSend (v : TestSendView)
| VAudit (v : AuditView)
| VDashboard (d : DashboardPage)
| VDelivery (d : DeliveryView).

Record pageData := mkPage {
  pd_Title : string; pd_Subtitle : string; pd_Active : string; pd_Authenticated : bool; pd_CSRFToken : string;
  pd_Error : string; pd_Success : string; pd_ServerURL : string; pd_SessionRemaining : string;
  pd_DBUnavailable : bool; pd_Apps : list uiApp; pd_View : view }.

Definition set_subtitle (s : string) (d : pageData) : pageData :=
  mkPage (pd_Title d) s (pd_Active d) (pd_Authenticated d) (pd_CSRFToken d) (pd_Error d) (pd_Success d) (pd_ServerURL d)
    (pd_SessionRemaining d) (pd_DBUnavailable d) (pd_Apps d) (pd_View d).
Definition set_error (s : string) (d : pageData) : pageData :=
  mkPage (pd_Title d) (pd_Subtitle d) (pd_Active d) (pd_Authenticated d) (pd_CSRFToken d) s (pd_Success d) (pd_ServerURL d)
    (pd_SessionRemaining d) (pd_DBUnavailable d) (pd_Apps d) (pd_View d).
Definition set_success (s : string) (d : pageData) : pageData :=
  mkPage (pd_Title d) (pd_Subtitle d) (pd_Active d) (pd_Authenticated d) (pd_CSRFToken d) (pd_Error d) s (pd_ServerURL d)
    (pd_SessionRemaining d) (pd_DBUnavailable d) (pd_Apps d) (pd_View d).
Definition set_server_url (s : string) (d : pageData) : pageData :=
  mkPage (pd_Title d) (pd_Subtitle d) (pd_Active d) (pd_Authenticated d) (pd_CSRFToken d) (pd_Error d) (pd_Success d) s
    (pd_SessionRemaining d) (pd_DBUnavailable d) (pd_Apps d) (pd_View d).
Definition set_db_unavailable (d : pageData) : pageData :=
  mkPage (pd_Title d) (pd_Subtitle d) (pd_Active d) (pd_Authenticated d) (pd_CSRFToken d) (pd_Error d) (pd_Success d)
    (pd_ServerURL d) (pd_SessionRemaining d) true (pd_Apps d) (pd_View d).
Definition set_page_apps (l : list uiApp) (d : pageData) : pageData :=
  mkPage (pd_Title d) (pd_Subtitle d) (pd_Active d) (pd_Authenticated d) (pd_CSRFToken d) (pd_Error d) (pd_Success d)
    (pd_ServerURL d) (pd_SessionRemaining d) (pd_DBUnavailable d) l (pd_View d).
Definition set_view (v : view) (d : pageData) : pageData :=
  mkPage (pd_Title d) (pd_Subtitle d) (pd_Active d) (pd_Authenticated d) (pd_CSRFToken d) (pd_Error d) (pd_Success d)
    (pd_ServerURL d) (pd_SessionRemaining d) (pd_DBUnavailable d) (pd_Apps d) v.

(** ** Responses *)

Inductive ui_body :=
| UiPage (name : string) (d : pageData)
| UiText (s : string)
| UiRedirect (url : string).

Record UiResponse := mkUiResponse {
  ux_Status : Z; ux_Body : ui_body; ux_Cookies : list Cookie; ux_Headers : list (string * string) }.

Definition StatusSeeOther : Z := 303.
Definition http_Error (text : string) (status : Z) : UiResponse := mkUiResponse status (UiText text) [] [].
Definition http_Redirect (url : string) : UiResponse := mkUiResponse StatusSeeOther (UiRedirect url) [] [].
Definition http_NotFound : UiResponse := http_Error "404 page not found" StatusNotFound.

Definition internal_error : UiResponse := http_Error (error_json "internal_error") StatusInternalServerError.

(** ** The server: server.go *)

(** The parts of [Server] that do not change; [sv_db]: the store and the key
    store are not nil. *)
Record Server `{Telegram} := mkServer {
  sv_cfg : Ui.Config;
  sv_client : Client;
  sv_db : bool;
  sv_audit : option Writer;
  sv_start : Z;
}.

(** The parts that do. *)
Record UiState := mkUiState {
  ui_sessions : SessionManager;
  ui_limiter : gmap string loginBucket;
  ui_backoff : globalBackoff;
}.

(** Computations of the admin UI: over its own state and the world. *)
Abbreviation U := (ST (UiState * World)).

Section ui.
Context `{F : Float64} `{TG : Telegram}.
(** [templates.ParsePage] succeeds. *)
Context (ParsePage : string → bool).

Definition PageHandler : Type := SessionManager → UiRequest → UiCtx → M UiResponse.
Definition UiHandler : Type := UiRequest → UiCtx → U UiResponse.

(** A handler that only reads the session manager. *)
Definition lift_page (h : PageHandler) : UiHandler := λ r c '(st, w),
  let '(resp, w') := h (ui_sessions st) r c w in (resp, (st, w')).

(** [render]. *)
Definition render (page : string) (d : pageData) : UiResponse :=
  if ParsePage page then mkUiResponse StatusOK (UiPage page d) [] [] else internal_error.

(** [sessionRemaining]; an expiry in seconds.  A duration is rounded to whole
    seconds, half up, and its hours and minutes are truncated. *)
Definition sessionRemaining (now : Z) (expiry : option Z) : string :=
  match expiry with
  | None => ""
  | Some e =>
      let d := time_sub (e * Second) now in
      if d <=? 0 then "0s"
      else let s := (d + Second / 2) / Second in
           if 0 <? s / 3600 then format_int (s / 3600) +:+ "h " +:+ format_int (s / 60 mod 60) +:+ "m"
           else format_int (s / 60 mod 60) +:+ "m " +:+ format_int (s mod 60) +:+ "s"
  end.

(** [basePageData]. *)
Definition basePageData (sm : SessionManager) (c : UiCtx) (title active : string) : M pageData :=
  now ← st_gets w_now;
  mret (mkPage title "" active true (CSRFToken sm (uc_Nonce c)) "" "" "" (sessionRemaining now (uc_Expiry c))
          false [] VNone).

Definition clientIP (r : UiRequest) : string :=
  match SplitHostPort (u_RemoteAddr r) with Some (host, _) => host | None => u_RemoteAddr r end.

(** *** handlers.go: login and logout *)

Definition handleLoginPage : PageHandler := λ sm r c,
  if negb (ParsePage "login.html") then mret internal_error
  else (let? ct := IssueCSRFCookie sm else e => mret internal_error ;;
        mret (mkUiResponse StatusOK
          (UiPage "login.html" (mkPage "운영자 로그인" "" "" false ct.2
             (if String.eqb (query_get r "error") "" then "" else "비밀번호가 올바르지 않습니다") "" "" "" false [] VNone))
          [ct.1] []))%go.

Definition rate_limited_text : UiResponse := http_Error (error_json "rate_limited") StatusTooManyRequests.

Definition handleLoginSubmit (password : string) : UiHandler := λ r c '(st, w),
  let ip := clientIP r in
  let '(ok, bs) := LoginAllow (w_now w) ip (ui_limiter st) in
  let st1 := mkUiState (ui_sessions st) bs (ui_backoff st) in
  if negb ok then (rate_limited_text, (st1, w))
  else if negb (BackoffAllow (w_now w) (ui_backoff st)) then (rate_limited_text, (st1, w))
  else if negb (String.eqb (FormValue r "password") password) then
    let st2 := mkUiState (ui_sessions st) bs (RecordFailure (w_now w) (ui_backoff st)) in
    let '(_, w') := Log "info" "adminui_login_failed" {["trace_id" := AStr (uc_TraceID c); "ip" := AStr ip]} w in
    (http_Redirect "/login?error=1", (st2, w'))
  else
    let st2 := mkUiState (ui_sessions st) bs (RecordSuccess (ui_backoff st)) in
    match Issue (ui_sessions st) w with
    | (Err _, w') => (internal_error, (st2, w'))
    | (Ok (_, ck), w') => (mkUiResponse StatusSeeOther (UiRedirect "/") [ck] [], (st2, w'))
    end.

Definition handleLogout : UiHandler := λ r c '(st, w),
  let sm := Revoke (w_now w) (uc_Nonce c) (ui_sessions st) in
  (mkUiResponse StatusSeeOther (UiRedirect "/login") [Clear sm] [], (mkUiState sm (ui_limiter st) (ui_backoff st), w)).

(** *** session.go: Middleware *)

Definition Middleware (next : UiHandler) : UiHandler := λ r c '(st, w),
  match cookie_value r sessionCookieName with
  | None => (http_Redirect "/login", (st, w))
  | Some v =>
      match verify (w_now w) (ui_sessions st) v with
      | None => (http_Redirect "/login", (st, w))
      | Some (nonce, expiry) => next r (mkUiCtx (uc_TraceID c) nonce (Some expiry)) (st, w)
      end
  end.

(** *** csrf.go *)

Definition csrfNonce (r : UiRequest) (c : UiCtx) : string :=
  if negb (String.eqb (uc_Nonce c) "") then uc_Nonce c else default "" (cookie_value r csrfCookieName).

Definition csrf_ok (sm : SessionManager) (r : UiRequest) (c : UiCtx) : bool :=
  VerifyCSRF sm (csrfNonce r c) (FormValue r "csrf_token").

Definition RequireCSRF (next : UiHandler) : UiHandler := λ r c '(st, w),
  if u_FormErr r then (http_Error (error_json "bad_form") StatusBadRequest, (st, w))
  else if negb (csrf_ok (ui_sessions st) r c) then (http_Error (error_json "csrf_invalid") StatusForbidden, (st, w))
  else next r c (st, w).

(** *** server.go: securityHeaders, and the shared middleware *)

Definition security_headers : list (string * string) :=
  [("X-Frame-Options", "DENY"); ("X-Content-Type-Options", "nosniff"); ("Referrer-Policy", "no-referrer");
   ("Content-Security-Policy",
    "default-src 'none'; style-src 'unsafe-inline'; img-src 'self'; form-action 'self'; base-uri 'none'; frame-ancestors 'none'");
   ("Cache-Control", "no-store")].

Definition add_headers (hs : list (string * string)) (resp : UiResponse) : UiResponse :=
  mkUiResponse (ux_Status resp) (ux_Body resp) (ux_Cookies resp) (hs ++ ux_Headers resp).

(** A handler that may panic: [inr] holds the headers set before the panic,
    which stay on the response. *)
Definition PanicUiHandler : Type := UiRequest → UiCtx → U (UiResponse + list (string * string)).
Definition ui_total (next : UiHandler) : PanicUiHandler := λ r c s,
  let '(resp, s') := next r c s in (inl resp, s').

Definition securityHeaders (next : PanicUiHandler) : PanicUiHandler := λ r c s,
  let '(o, s') := next r c s in
  (match o with inl resp => inl (add_headers security_headers resp) | inr hs => inr (security_headers ++ hs) end, s').

(** [middleware.RequestID], [middleware.Recover] and [middleware.AccessLog]
    around the admin UI; [size] is the length of the body. *)
Definition ui_RequestID (next : UiHandler) : UiHandler := λ r c '(st, w),
  let '(t, w1) := (if String.eqb (u_TraceHeader r) "" then uuid_NewString else mret (u_TraceHeader r)) w in
  let '(resp, s') := next r (mkUiCtx t (uc_Nonce c) (uc_Expiry c)) (st, w1) in
  (add_headers [("X-Trace-Id", t)] resp, s').

Definition ui_Recover (next : PanicUiHandler) : UiHandler := λ r c s,
  let '(o, (st', w')) := next r c s in
  match o with
  | inl resp => (resp, (st', w'))
  | inr hs =>
      let '(_, w2) := Log "error" "http_panic" {["trace_id" := AStr (uc_TraceID c); "panic" := AStr "[recovered]"]} w' in
      (add_headers hs internal_error, (st', w2))
  end.

Definition ui_AccessLog (size : ui_body → Z) (next : PanicUiHandler) : PanicUiHandler := λ r c '(st, w),
  let '(o, (st', w')) := next r c (st, w) in
  match o with
  | inr hs => (inr hs, (st', w'))
  | inl resp =>
  let '(_, w2) := Log "info" "http_access" {[
    "trace_id" := AStr (uc_TraceID c); "method" := AStr (u_Method r);
    "path" := AStr (sanitizePath (u_Path r)); "status" := AInt (ux_Status resp);
    "bytes" := AInt (size (ux_Body resp)); "duration_ms" := AInt (Z.quot (w_now w' - w_now w) 1000000)]} w' in
  (inl resp, (st', w2))
  end.
End ui.

(** ** Guessing the password *)

Section guessing.
Context `{F : Float64} `{TG : Telegram} (pw : string).

(** Login attempts, each in the world as it is then: their answers. *)
Fixpoint attempts (xs : list (UiRequest * UiCtx * World)) (st : UiState) : list UiResponse :=
  match xs with
  | [] => []
  | (r, c, w) :: xs' => let '(resp, (st', _)) := handleLoginSubmit pw r c (st, w) in resp :: attempts xs' st'
  end.

(** The answer to a wrong password that was compared. *)
Definition wrong_password (resp : UiResponse) : bool :=
  match ux_Body resp with UiRedirect url => String.eqb url "/login?error=1" | _ => false end.

Definition attempt_times (xs : list (UiRequest * UiCtx * World)) : list Z := (λ x, w_now x.2) <$> xs.

Lemma in_order_weaken t0 t0' ts t1 : t0' <= t0 → in_order t0 ts t1 → in_order t0' ts t1.
Proof. intros H. destruct ts; simpl; [lia|]. intros [? ?]. split; [lia|done]. Qed.

(** The attempts that pass the limiter of their address are the ones the
    back-off sees. *)
Lemma attempts_guesses xs st s t1 :
  Forall (λ x, FormValue x.1.1 "password" ≠ pw) xs → in_order s (attempt_times xs) t1 →
  ∃ ts, in_order s ts t1 ∧ length (List.filter wrong_password (attempts xs st)) = length (guesses ts (ui_backoff st)).
Proof.
  intros Hw. revert s st. induction Hw as [|[[r c] w] xs Hr Hw IH]; intros s st; simpl; [by exists []|].
  intros [Hle Ho]. unfold handleLoginSubmit.
  destruct (LoginAllow (w_now w) (clientIP r) (ui_limiter st)) as [ok bs]. destruct ok; simpl.
  - destruct (BackoffAllow (w_now w) (ui_backoff st)) eqn:Ea; simpl.
    + destruct (String.eqb_spec (FormValue r "password") pw); [done|]. simpl.
      destruct (IH (w_now w) (mkUiState (ui_sessions st) bs (RecordFailure (w_now w) (ui_backoff st))) Ho) as (ts&Hts&Hc).
      exists (w_now w :: ts). simpl. rewrite Ea. simpl. split; [done|]. f_equal. exact Hc.
    + destruct (IH (w_now w) (mkUiState (ui_sessions st) bs (ui_backoff st)) Ho) as (ts&Hts&Hc).
      exists (w_now w :: ts). simpl. rewrite Ea. done.
  - destruct (IH (w_now w) (mkUiState (ui_sessions st) bs (ui_backoff st)) Ho) as (ts&Hts&Hc).
    exists ts. split; [by apply (in_order_weaken (w_now w))|done].
Qed.

End guessing.

(** Sixty attempts, from sixty addresses, one a second: twenty-one are
    compared. *)
Definition guess_at (n : nat) : UiRequest * UiCtx * @World recorder :=
  (mkUiRequest "POST" "/login" "" (format_int (Z.of_nat n) +:+ ":1") "" (λ _, []) (λ _, ["guess"]) false [] (λ _, ""),
   mkUiCtx "" "" None, rec_world (Z.of_nat n * Second) empty_db).
Definition fresh_ui : UiState := mkUiState sample_sessions ∅ newGlobalBackoff.


Example guesses_compared :
  length (List.filter wrong_password (attempts (F := exact) (TG := recorder) "secret" (guess_at <$> seq 0 60) fresh_ui)) = 21%nat.
Proof. vm_compute. reflexivity. Qed.
