(* ===== verification/AdminPages.v ===== *)
(** * Admin UI: apps, keys, users and test messages

    The handlers of [internal/adminui/apps.go], [keys.go], [users.go] and
    [testsend.go].  They change the database through the server's API, by way
    of [ApiClient], and, for keys only, through the key store of [AdminKeys].

    [Do] is [net/http]'s transport; [json_Indent] is [encoding/json]'s Indent,
    used on the answer to a test message, which is untrusted text. *)

From stdpp Require Import base gmap list strings sorting.
From Stdlib Require Import Ascii ZArith QArith Lia.
From S2P Require Import Prelude GoStrings Encoding RateLimit AuditChain World AuditLog Auth Registry.
From S2P Require Import Strategy Dispatch Http AdminApi Config AdminSession AdminKeys ApiClient AdminStore.
From S2P Require Import Dashboard AdminUi.

Local Open Scope string_scope.
Local Open Scope Z_scope.
Local Open Scope list_scope.

(** ** apps.go: tables and helpers *)

Definition grantableCapabilities : list string :=
  ["messages.direct.send"; "messages.direct.dm"; "messages.topic.send"; "messages.broadcast.send"; "noop.invoke"].

Definition filterGrantable (vals : list string) : list string := List.filter (λ v, mem v grantableCapabilities) vals.

Definition apiErrorMessages : list (string * string) :=
  [("malformed_json", "요청 형식이 올바르지 않습니다");
   ("missing_required_fields", "필수 항목이 누락되었습니다");
   ("invalid_app_id", "앱 ID 형식이 올바르지 않습니다 (영소문자/숫자/-/_, 3~64자)");
   ("invalid_min_grade", "등급 값이 올바르지 않습니다");
   ("invalid_grade", "등급 값이 올바르지 않습니다");
   ("unknown_capability", "알 수 없는 capability입니다");
   ("forbidden_capability", "부여할 수 없는 capability입니다");
   ("app_already_exists", "이미 존재하는 앱 ID입니다");
   ("app_not_found", "앱을 찾을 수 없습니다");
   ("app_inactive", "비활성화된 앱입니다");
   ("user_not_found", "사용자를 찾을 수 없습니다");
   ("invalid_telegram_id", "텔레그램 ID 형식이 올바르지 않습니다");
   ("subscription_not_found", "구독 정보를 찾을 수 없습니다");
   ("forbidden", "이 키에 권한이 없습니다");
   ("unauthenticated", "인증되지 않았습니다");
   ("rate_limited", "요청이 너무 많습니다. 잠시 후 다시 시도하세요");
   ("db_error", "서버 내부 오류가 발생했습니다");
   ("invalid_limit", "limit은 1~500 사이 숫자여야 합니다");
   ("invalid_before_id", "페이지 커서(before_id)가 올바르지 않습니다");
   ("invalid_since", "since는 RFC3339 형식이어야 합니다 (예: 2026-07-06T00:00:00Z)");
   ("invalid_until", "until은 RFC3339 형식이어야 합니다 (예: 2026-07-06T00:00:00Z)");
   ("invalid_stage", "stage 값이 올바르지 않습니다")].

Definition friendlyAPIError (e : client_error) : string :=
  match e with
  | APIError code _ => match find_first (λ p, String.eqb p.1 code) apiErrorMessages with Some p => p.2 | None => code end
  | OtherError _ => "대상 서버에 연결할 수 없습니다"
  end.

Definition filterApps (l : list uiApp) (active : bool) : list uiApp := List.filter (λ a, Bool.eqb (ua_Active a) active) l.

(** The capability part of a patch: the difference of two states. *)
Definition capability_diff (desired current : list string) : list string * list string :=
  (List.filter (λ c, negb (mem c current)) desired, List.filter (λ c, negb (mem c desired)) current).

(** The patch a form asks for, with the capability lists of the difference. *)
Definition patch_request (r : UiRequest) (diff : list string * list string) : patchAppRequest :=
  mkPatch (if form_has r "description" then Some (FormValue r "description") else None)
    (if form_has r "min_grade" then Some (FormValue r "min_grade") else None)
    (if String.eqb (FormValue r "set_active") "" then None else Some (String.eqb (FormValue r "set_active") "1"))
    diff.1 diff.2.

(** ** keys.go: patterns and helpers *)

Definition appIDPattern : string → bool := appIDRegex.

(** [^[a-z0-9]{4,16}$]. *)
Definition keyPrefixPattern (s : string) : bool :=
  sall (λ c, in_set c "") s && (4 <=? String.length s)%nat && (String.length s <=? 16)%nat.

Definition keySecretBytes : nat := 24.
Definition keyLabelMaxLen : nat := 100.

Definition issueErrorMessage (e : error) : string :=
  if errors_is e UiErrAppNotFound then "앱을 찾을 수 없습니다"
  else if errors_is e ErrAppInactive then "비활성화된 앱에는 키를 발급할 수 없습니다"
  else if errors_is e ErrPrefixTaken then "이미 사용 중인 prefix입니다"
  else "키 발급에 실패했습니다".

Definition filterKeysByStatus (keys : list uiKeyRow) (status : string) : list uiKeyRow :=
  if String.eqb status "all" then keys
  else List.filter (λ k, Bool.eqb (bool_decide (is_Some (ki_RevokedAt k))) (String.eqb status "revoked")) keys.

(** Groups in first-seen order: a key goes to its app's group, or opens it. *)
Fixpoint add_to_group (k : uiKeyRow) (gs : list KeyGroup) : list KeyGroup :=
  match gs with
  | [] => [mkKeyGroup (ki_AppID k) [k]]
  | g :: gs' => if String.eqb (kg_AppID g) (ki_AppID k) then mkKeyGroup (kg_AppID g) (kg_Keys g ++ [k]) :: gs'
                else g :: add_to_group k gs'
  end.
Definition groupKeysByApp (keys : list uiKeyRow) : list KeyGroup := foldl (λ gs k, add_to_group k gs) [] keys.

Definition keys_view (r : UiRequest) : KeysView :=
  let group := query_get r "group" in
  let status := query_get r "status" in
  let app := query_get r "app" in
  mkKeysView (if String.eqb group "app" then group else "key")
    (if String.eqb status "revoked" || String.eqb status "all" then status else "active")
    (if negb (String.eqb app "") && negb (appIDPattern app) then "" else app)
    (negb (String.eqb (query_get r "new") "")) "" "" "".

(** ** users.go: helpers *)

Definition gradeLabels : list (string * string) := [("user", "일반 사용자"); ("developer", "개발자"); ("admin", "관리자")].
Definition gradeBadges : list (string * string) := [("user", "badge-blue"); ("developer", "badge-teal"); ("admin", "badge-purple")].
Definition label_in (table : list (string * string)) (dflt g : string) : string :=
  match find_first (λ p, String.eqb p.1 g) table with Some p => p.2 | None => dflt end.
Definition gradeLabel (g : string) : string := label_in gradeLabels g g.
Definition gradeBadge (g : string) : string := label_in gradeBadges "badge-gray" g.

Definition display_user (u : uiUserRow) : UserDisplay :=
  mkDisplay (ur_TelegramID u) (ur_Username u) (ur_Grade u) (gradeLabel (ur_Grade u)) (gradeBadge (ur_Grade u)) (ur_Subscriptions u).

(** The filter of the users page. *)
Definition user_shown (grade app q : string) (u : uiUserRow) : bool :=
  (String.eqb grade "" || String.eqb (ur_Grade u) grade) &&
  (String.eqb app "" || mem app (ur_Subscriptions u)) &&
  (String.eqb q "" || contains q (format_int (ur_TelegramID u)) || contains q (ur_Username u)).

(** The last user with that id is selected. *)
Definition selected_user (selected : string) (us : list UserDisplay) : option UserDisplay :=
  last (List.filter (λ d, String.eqb (format_int (ud_TelegramID d)) selected) us).

(** ** testsend.go: helpers *)

Definition testSendTimeout : Z := 10 * Second.
Definition testSendTextMax : nat := 1000.
Definition testSendBodyMax : nat := 4096.
Definition testSendDefaultText : string := "adminui 테스트 발송".

(** [http.StatusText]. *)
Definition StatusText (code : Z) : string :=
  default "" (snd <$> find_first (λ p, p.1 =? code)
   [(100, "Continue"); (101, "Switching Protocols"); (102, "Processing"); (103, "Early Hints"); (200, "OK");
    (201, "Created"); (202, "Accepted"); (203, "Non-Authoritative Information"); (204, "No Content");
    (205, "Reset Content"); (206, "Partial Content"); (207, "Multi-Status"); (208, "Already Reported"); (226, "IM Used");
    (300, "Multiple Choices"); (301, "Moved Permanently"); (302, "Found"); (303, "See Other"); (304, "Not Modified");
    (305, "Use Proxy"); (307, "Temporary Redirect"); (308, "Permanent Redirect"); (400, "Bad Request");
    (401, "Unauthorized"); (402, "Payment Required"); (403, "Forbidden"); (404, "Not Found");
    (405, "Method Not Allowed"); (406, "Not Acceptable"); (407, "Proxy Authentication Required");
    (408, "Request Timeout"); (409, "Conflict"); (410, "Gone"); (411, "Length Required"); (412, "Precondition Failed");
    (413, "Request Entity Too Large"); (414, "Request URI Too Long"); (415, "Unsupported Media Type");
    (416, "Requested Range Not Satisfiable"); (417, "Expectation Failed"); (418, "I'm a teapot");
    (421, "Misdirected Request"); (422, "Unprocessable Entity"); (423, "Locked"); (424, "Failed Dependency");
    (425, "Too Early"); (426, "Upgrade Required"); (428, "Precondition Required"); (429, "Too Many Requests");
    (431, "Request Header Fields Too Large"); (451, "Unavailable For Legal Reasons"); (500, "Internal Server Error");
    (501, "Not Implemented"); (502, "Bad Gateway"); (503, "Service Unavailable"); (504, "Gateway Timeout");
    (505, "HTTP Version Not Supported"); (506, "Variant Also Negotiates"); (507, "Insufficient Storage");
    (508, "Loop Detected"); (510, "Not Extended"); (511, "Network Authentication Required")]).

Definition drop_last (s : string) : string := stake (String.length s - 1) s.
(** At most [n] bytes are dropped until the text is valid UTF-8. *)
Fixpoint trim_partial_rune (n : nat) (raw : string) : string :=
  match n with
  | 0%nat => raw
  | S n' => if negb (String.eqb raw "") && negb (utf8_valid raw) then trim_partial_rune n' (drop_last raw) else raw
  end.

(** What is shown of an answer, and whether it was cut. *)
Definition shown_body (raw : string) : string * bool :=
  if (testSendBodyMax <? String.length raw)%nat then (trim_partial_rune 3 (stake testSendBodyMax raw), true)
  else (raw, false).

(** A raw answer: status, body and trace header. *)
Record RawResponse := mkRaw { rw_Status : Z; rw_Body : string; rw_TraceID : string }.

Section pages.
Context `{F : Float64} `{A2 : Argon2} `{PG : Postgres} `{TG : Telegram}.
Context (ParsePage : string → bool) (Do : ClientRequest → M (result Response)).
Context (DoRaw : ClientRequest → M (result RawResponse)) (json_Indent : string → option string).
Context (s : Server).
Local Open Scope go_scope.

Local Abbreviation page := (render ParsePage).

(** The apps of a page, when they can be listed. *)
Definition with_apps (d : pageData) : M pageData :=
  if sv_db s then (let? l := ListApps else e => mret d ;; mret (set_page_apps l d)) else mret d.

(** *** apps.go *)

Definition handleAppsList : PageHandler := λ sm r c,
  d ← basePageData sm c "앱 관리" "apps";
  let q := query_get r "status" in
  let status := if String.eqb q "active" || String.eqb q "inactive" then q else "all" in
  let purged := query_get r "purged" in
  let d := set_view (VApps status) (set_subtitle "/admin/apps" d) in
  let d := if String.eqb purged "" then d else set_success ("앱 '" +:+ purged +:+ "'이(가) 완전히 삭제되었습니다") d in
  guard? sv_db s else mret (page "apps_list.html" (set_db_unavailable d)) ;;
  let? l := ListApps else e => mret (page "apps_list.html" (set_error "앱 목록을 불러오지 못했습니다" d)) ;;
  let l := if String.eqb status "active" then filterApps l true
           else if String.eqb status "inactive" then filterApps l false else l in
  mret (page "apps_list.html" (set_page_apps l d)).

Definition new_app_page (sm : SessionManager) (c : UiCtx) : M pageData :=
  d ← basePageData sm c "앱 관리" "apps";
  mret (set_view (VNewApp grantableCapabilities) (set_subtitle "새 앱 등록" d)).

Definition handleAppNewForm : PageHandler := λ sm r c, d ← new_app_page sm c; mret (page "app_new.html" d).

Definition handleAppCreate : PageHandler := λ sm r c,
  let req := mkCreate (FormValue r "id") (FormValue r "name") (FormValue r "description") (FormValue r "min_grade")
               (filterGrantable (Form r "capabilities")) in
  let? _ := client_CreateApp Do (sv_client s) (uc_TraceID c) req
    else e => (d ← new_app_page sm c; mret (page "app_new.html" (set_error (friendlyAPIError e) d))) ;;
  mret (http_Redirect ("/apps/" +:+ path_escape (ca_ID req))).

Definition app_page (sm : SessionManager) (c : UiCtx) (id : string) : M pageData :=
  d ← basePageData sm c "앱 관리" "apps";
  mret (set_view (VApp id None grantableCapabilities) (set_subtitle id d)).

Definition handleAppDetail : PageHandler := λ sm r c,
  let id := u_Param r "id" in
  d ← app_page sm c id;
  guard? sv_db s else mret (page "app_detail.html" (set_db_unavailable d)) ;;
  let? app := GetApp id
    else e => mret (if errors_is e UiErrAppNotFound then http_NotFound
                    else page "app_detail.html" (set_error "앱 정보를 불러오지 못했습니다" d)) ;;
  let d := set_view (VApp id (Some app) grantableCapabilities) d in
  mret (page "app_detail.html"
    (if negb (String.eqb (query_get r "saved") "") then set_success "저장되었습니다" d
     else if negb (String.eqb (query_get r "deactivated") "") then set_success "비활성화되었습니다" d else d)).

Definition renderAppDetailError (sm : SessionManager) (c : UiCtx) (id message : string) : M UiResponse :=
  d ← app_page sm c id;
  let d := set_error message d in
  guard? sv_db s else mret (page "app_detail.html" (set_db_unavailable d)) ;;
  let? app := GetApp id else e => mret (page "app_detail.html" d) ;;
  mret (page "app_detail.html" (set_view (VApp id (Some app) grantableCapabilities) d)).

(** The end of [handleAppPatch]. *)
Definition send_patch (sm : SessionManager) (c : UiCtx) (id : string) (req : patchAppRequest) : M UiResponse :=
  let? _ := client_PatchApp Do (sv_client s) (uc_TraceID c) id req
    else e => renderAppDetailError sm c id (friendlyAPIError e) ;;
  mret (http_Redirect ("/apps/" +:+ id +:+ "?saved=1")).

Definition handleAppPatch : PageHandler := λ sm r c,
  let id := u_Param r "id" in
  guard? negb (u_FormErr r) else renderAppDetailError sm c id "요청 형식이 올바르지 않습니다" ;;
  if form_has r "capabilities" || form_has r "min_grade" then
    guard? sv_db s else renderAppDetailError sm c id "capability 변경은 DB 연결이 필요합니다" ;;
    let? app := GetApp id else e => renderAppDetailError sm c id "앱 정보를 불러오지 못했습니다" ;;
    send_patch sm c id (patch_request r
      (capability_diff (filterGrantable (Form r "capabilities")) (filterGrantable (ua_Capabilities app))))
  else send_patch sm c id (patch_request r ([], [])).

Definition handleAppDelete : PageHandler := λ sm r c,
  let id := u_Param r "id" in
  guard? String.eqb (FormValue r "confirm_id") id
    else renderAppDetailError sm c id "확인 입력이 앱 ID와 일치하지 않아 삭제하지 않았습니다" ;;
  let? _ := client_PurgeApp Do (sv_client s) (uc_TraceID c) id
    else e => renderAppDetailError sm c id (friendlyAPIError e) ;;
  mret (http_Redirect ("/apps?purged=" +:+ query_escape id)).

Definition handleAppDeactivate : PageHandler := λ sm r c,
  let id := u_Param r "id" in
  let? _ := client_DeleteApp Do (sv_client s) (uc_TraceID c) id
    else e => renderAppDetailError sm c id (friendlyAPIError e) ;;
  mret (http_Redirect ("/apps/" +:+ id +:+ "?deactivated=1")).

(** *** keys.go *)

Definition keysPageData (sm : SessionManager) (r : UiRequest) (c : UiCtx) : M pageData :=
  let v := keys_view r in
  d ← basePageData sm c "API 키" "keys";
  let d := set_view (VKeys [] [] v) (set_subtitle (kw_App v) d) in
  guard? sv_db s else mret (set_db_unavailable d) ;;
  let? keys := ListKeys (kw_App v)
    else e => (Log "error" "adminui_list_keys_failed"
                {["trace_id" := AStr (uc_TraceID c); "app_id" := AStr (kw_App v); "error" := AStr (error_text e)]};;
              mret (set_error "키 목록을 불러오지 못했습니다" d)) ;;
  let keys := filterKeysByStatus keys (kw_Status v) in
  with_apps (set_view (VKeys keys (if String.eqb (kw_Group v) "app" then groupKeysByApp keys else []) v) d).

Definition handleKeysPage : PageHandler := λ sm r c,
  d ← keysPageData sm r c;
  mret (page "keys.html"
    (if negb (String.eqb (query_get r "revoked") "") then set_success "키가 폐기되었습니다" d
     else if negb (String.eqb (query_get r "labeled") "") then set_success "라벨이 변경되었습니다" d else d)).

Definition handleKeysLegacyRedirect : PageHandler := λ sm r c,
  mret (http_Redirect ("/keys?app=" +:+ query_escape (u_Param r "id"))).

Definition renderKeysError (sm : SessionManager) (r : UiRequest) (c : UiCtx) (message : string) : M UiResponse :=
  d ← keysPageData sm r c; mret (page "keys.html" (set_error message d)).

(** The panel is reopened with the input. *)
Definition reopen_panel (appID prefix label : string) (v : view) : view :=
  match v with
  | VKeys keys groups kv => VKeys keys groups (mkKeysView (kw_Group kv) (kw_Status kv) (kw_App kv) true appID prefix label)
  | _ => v
  end.
Definition renderIssueError (sm : SessionManager) (r : UiRequest) (c : UiCtx) (message appID prefix label : string) : M UiResponse :=
  d ← keysPageData sm r c;
  mret (page "keys.html" (set_view (reopen_panel appID prefix label (pd_View d)) (set_error message d))).

Definition writeKeyAudit (c : UiCtx) (st : Stage) (appID prefix : string) : M () :=
  match sv_audit s return M () with
  | None => mret ()
  | Some a =>
      res ← Write a (mkEvent None (uc_TraceID c) "" st appID "" 0 "" "" "" 0 0 "" {["key_prefix" := AStr prefix]});
      match res return M () with
      | Ok _ => mret ()
      | Err e => Log "error" "adminui_audit_write_failed"
                   {["trace_id" := AStr (uc_TraceID c); "stage" := AStr (stage_string st); "app_id" := AStr appID;
                     "key_prefix" := AStr prefix; "error" := AStr (error_text e)]}
      end
  end.

Definition key_plaintext (prefix secret : string) : string := "tg_" +:+ prefix +:+ "_" +:+ secret.

(** The part of [handleKeyIssue] after the validation. *)
Definition issue_key (sm : SessionManager) (r : UiRequest) (c : UiCtx) (appID prefix label : string) : M UiResponse :=
  let? secret := randomHex keySecretBytes else e => mret internal_error ;;
  let plaintext := key_plaintext prefix secret in
  let? hash := HashAPIKey plaintext else e => mret internal_error ;;
  let? _ := IssueKey appID prefix hash label else e => renderIssueError sm r c (issueErrorMessage e) appID prefix label ;;
  writeKeyAudit c StageKeyIssued appID prefix;;
  Log "info" "adminui_key_issued"
    {["trace_id" := AStr (uc_TraceID c); "app_id" := AStr appID; "key_prefix" := AStr prefix]};;
  guard? ParsePage "key_issued.html"
    else mret (http_Error "키가 생성되었을 수 있습니다 — 키 목록을 확인하고 불필요하면 폐기하세요" StatusInternalServerError) ;;
  d ← basePageData sm c "API 키" "keys";
  mret (mkUiResponse StatusOK
    (UiPage "key_issued.html" (set_view (VIssued appID prefix label plaintext) (set_subtitle "발급 완료" d))) [] []).

Definition handleKeyIssue : PageHandler := λ sm r c,
  let appID := trim_space (FormValue r "app_id") in
  let prefix := trim_space (FormValue r "prefix") in
  let label := trim_space (FormValue r "label") in
  let refuse message := renderIssueError sm r c message appID prefix label in
  guard? appIDPattern appID else refuse "앱 ID 형식이 올바르지 않습니다" ;;
  guard? keyPrefixPattern prefix else refuse "prefix는 영소문자/숫자 4~16자여야 합니다" ;;
  guard? (rune_count label <=? keyLabelMaxLen)%nat else refuse "label은 100자 이하여야 합니다" ;;
  guard? sv_db s else refuse "키 관리는 DB 연결이 필요합니다" ;;
  issue_key sm r c appID prefix label.

(** The checks the two updates of a key share. *)
Definition key_form_error (r : UiRequest) : option string :=
  if negb (appIDPattern (u_Param r "app")) then Some "앱 ID 형식이 올바르지 않습니다"
  else if negb (keyPrefixPattern (u_Param r "prefix")) then Some "prefix 형식이 올바르지 않습니다"
  else None.

Definition key_update_error (e : error) (otherwise : string) : string :=
  if errors_is e UiErrKeyNotFound then "이미 폐기되었거나 존재하지 않는 키입니다" else otherwise.

Definition handleKeyRevoke : PageHandler := λ sm r c,
  let appID := u_Param r "app" in
  let prefix := u_Param r "prefix" in
  match key_form_error r with
  | Some m => renderKeysError sm r c m
  | None =>
      guard? String.eqb (FormValue r "confirm") "1" else renderKeysError sm r c "폐기하려면 확인 단계를 거쳐야 합니다" ;;
      guard? sv_db s else renderKeysError sm r c "키 관리는 DB 연결이 필요합니다" ;;
      let? _ := RevokeKey appID prefix else e => renderKeysError sm r c (key_update_error e "키 폐기에 실패했습니다") ;;
      writeKeyAudit c StageKeyRevoked appID prefix;;
      Log "info" "adminui_key_revoked"
        {["trace_id" := AStr (uc_TraceID c); "app_id" := AStr appID; "key_prefix" := AStr prefix]};;
      mret (http_Redirect "/keys?revoked=1")
  end.

Definition handleKeyLabel : PageHandler := λ sm r c,
  let label := trim_space (FormValue r "label") in
  match key_form_error r with
  | Some m => renderKeysError sm r c m
  | None =>
      guard? (rune_count label <=? keyLabelMaxLen)%nat else renderKeysError sm r c "label은 100자 이하여야 합니다" ;;
      guard? sv_db s else renderKeysError sm r c "키 관리는 DB 연결이 필요합니다" ;;
      let? _ := UpdateKeyLabel (u_Param r "app") (u_Param r "prefix") label
        else e => renderKeysError sm r c (key_update_error e "라벨 변경에 실패했습니다") ;;
      mret (http_Redirect "/keys?labeled=1")
  end.

(** *** users.go *)

Definition users_page (sm : SessionManager) (c : UiCtx) : M pageData :=
  d ← basePageData sm c "사용자" "users";
  mret (set_view (VUsers "" "" (mkUsersView "" "" "" [] 0 None)) (set_subtitle "권한 · 구독" d)).

(** [legacyUsersLookup]: the error and the two fields. *)
Definition legacyUsersLookup (r : UiRequest) (d : pageData) : pageData :=
  let raw := query_get r "telegram_id" in
  let appID := query_get r "app_id" in
  let bad := negb (String.eqb raw "") && bool_decide (parse_int raw = None) in
  let tid := if bad then "" else raw in
  let d := if bad then set_error "텔레그램 ID 형식이 올바르지 않습니다" d else d in
  let empty := mkUsersView "" "" "" [] 0 None in
  if negb (String.eqb appID "") && negb (String.eqb tid "") then
    if appIDPattern appID then set_view (VUsers tid appID empty) d
    else set_error "앱 ID 형식이 올바르지 않습니다" (set_view (VUsers tid "" empty) d)
  else set_view (VUsers tid "" empty) d.

Definition users_view (r : UiRequest) (us : list uiUserRow) : UsersView :=
  let g := query_get r "grade" in
  let grade := if mem g (gradeLabels.*1) then g else "" in
  let a := query_get r "app" in
  let app := if negb (String.eqb a "") && negb (appIDPattern a) then "" else a in
  let q := trim_space (query_get r "q") in
  let shown := display_user <$> List.filter (user_shown grade app q) us in
  mkUsersView grade app q shown (Z.of_nat (length shown)) (selected_user (query_get r "selected") shown).

Definition handleUsersPage : PageHandler := λ sm r c,
  d ← users_page sm c;
  let saved := query_get r "saved" in
  let d := if String.eqb saved "grade" then set_success "등급이 변경되었습니다" d
           else if String.eqb saved "sub" then set_success "구독이 추가되었습니다" d
           else if String.eqb saved "unsub" then set_success "구독이 해제되었습니다" d else d in
  guard? sv_db s else mret (page "users.html" (legacyUsersLookup r (set_db_unavailable d))) ;;
  let? us := ListUsers
    else e => (Log "error" "adminui_list_users_failed" {["trace_id" := AStr (uc_TraceID c); "error" := AStr (error_text e)]};;
              mret (page "users.html" (set_error "사용자 목록을 불러오지 못했습니다" d))) ;;
  d ← with_apps (set_view (VUsers "" "" (users_view r us)) d);
  mret (page "users.html" d).

Definition renderUsersError (sm : SessionManager) (c : UiCtx) (telegramID message : string) : M UiResponse :=
  d ← users_page sm c;
  let d := set_error message d in
  guard? sv_db s
    else mret (page "users.html" (set_view (VUsers telegramID "" (mkUsersView "" "" "" [] 0 None)) (set_db_unavailable d))) ;;
  let? us := ListUsers else e => mret (page "users.html" d) ;;
  let shown := display_user <$> us in
  d ← with_apps (set_view (VUsers "" "" (mkUsersView "" "" "" shown (Z.of_nat (length shown)) (selected_user telegramID shown))) d);
  mret (page "users.html" d).

(** The three changes to a user: [call] is the request to the server. *)
Definition user_action (saved : string) (call : UiCtx → UiRequest → Z → M (res client_error ())) : PageHandler := λ sm r c,
  let idStr := u_Param r "id" in
  match parse_int idStr with
  | None => mret (http_Error (error_json "invalid_telegram_id") StatusBadRequest)
  | Some id =>
      let? _ := call c r id else e => renderUsersError sm c idStr (friendlyAPIError e) ;;
      mret (http_Redirect ("/users?selected=" +:+ idStr +:+ "&saved=" +:+ saved))
  end.

Definition handleUserGrade : PageHandler :=
  user_action "grade" (λ c r id, PatchUserGrade Do (sv_client s) (uc_TraceID c) id (FormValue r "grade")).
Definition handleUserSubscribe : PageHandler :=
  user_action "sub" (λ c r id, client_Subscribe Do (sv_client s) (uc_TraceID c) id (FormValue r "app_id")).
Definition handleUserUnsubscribe : PageHandler :=
  user_action "unsub" (λ c r id, client_Unsubscribe Do (sv_client s) (uc_TraceID c) id (u_Param r "app")).

(** *** testsend.go *)

Definition testSendPageData (sm : SessionManager) (c : UiCtx) : M pageData :=
  d ← basePageData sm c "테스트 발송" "testsend";
  with_apps (set_view (VTestSend (mkTestSend "" "" "" None))
    (set_server_url (Ui.TelegramServerURL (sv_cfg s)) (set_subtitle "POST /v1/messages/direct · 붙여넣은 키로 호출" d))).

Definition handleTestSendPage : PageHandler := λ sm r c,
  d ← testSendPageData sm c;
  mret (page "testsend.html" (set_view (VTestSend (mkTestSend "" "" testSendDefaultText None)) d)).

(** The body and the headers of the proxied request. *)
Definition test_request (trace apiKey appID : string) (recipient : Z) (text : string) : ClientRequest :=
  mkClientRequest "POST" (trim_slashes (Ui.TelegramServerURL (sv_cfg s)) +:+ "/v1/messages/direct") ("Bearer " +:+ apiKey) trace
    (Some (JObj [("app_id", jstr appID); ("envelope", JObj [("schema_version", JInt 1); ("text", jstr text)]);
                 ("recipients", JArr [JInt recipient])])).

Definition prettyJSON (raw : string) : string := default raw (json_Indent raw).

Definition proxyTestSend (trace apiKey appID : string) (recipient : Z) (text : string) : M (result TestSendResult) :=
  let? resp := within testSendTimeout (DoRaw (test_request trace apiKey appID recipient text))
    else e => mret (Err (Wrap "adminui: test send call: " e "")) ;;
  let '(shown, cut) := shown_body (rw_Body resp) in
  mret (Ok (mkTestResult (format_int (rw_Status resp) +:+ " " +:+ StatusText (rw_Status resp))
    ((200 <=? rw_Status resp) && (rw_Status resp <? 300)) (prettyJSON shown) cut (rw_TraceID resp))).

(** The validation, in order; "" when there is nothing to complain about. *)
Definition test_send_error (apiKey appID : string) (recipient : option Z) (text : string) : string :=
  if String.eqb apiKey "" then "테스트할 API 키를 입력하세요"
  else if negb (appIDPattern appID) then "앱 ID 형식이 올바르지 않습니다"
  else if match recipient with Some n => n <=? 0 | None => true end then "수신자 telegram_id는 양의 정수여야 합니다"
  else if String.eqb text "" then "메시지 텍스트를 입력하세요"
  else if (testSendTextMax <? rune_count text)%nat then "메시지 텍스트는 1000자 이하여야 합니다"
  else "".

Definition handleTestSendSubmit : PageHandler := λ sm r c,
  let apiKey := trim_space (PostFormValue r "api_key") in
  let appID := trim_space (PostFormValue r "app_id") in
  let recipientRaw := trim_space (PostFormValue r "recipient") in
  let text := trim_space (PostFormValue r "text") in
  d ← testSendPageData sm c;
  let d := set_view (VTestSend (mkTestSend appID recipientRaw text None)) d in
  let recipient := parse_int recipientRaw in
  let err := test_send_error apiKey appID recipient text in
  guard? String.eqb err "" else mret (page "testsend.html" (set_error err d)) ;;
  let? res := proxyTestSend (uc_TraceID c) apiKey appID (default 0 recipient) text
    else e => (Log "error" "adminui_test_send_failed"
                {["trace_id" := AStr (uc_TraceID c); "app_id" := AStr appID; "error" := AStr (error_text e)]};;
              mret (page "testsend.html" (set_error "대상 서버 호출에 실패했습니다 — 서버 주소/기동 상태를 확인하세요" d))) ;;
  mret (page "testsend.html" (set_view (VTestSend (mkTestSend appID recipientRaw text (Some res))) d)).
End pages.

(** ** The capability form *)

Section form.
Context `{PG : Postgres}.

Lemma filterGrantable_elem c l : c ∈ filterGrantable l ↔ c ∈ l ∧ c ∈ grantableCapabilities.
Proof.
  unfold filterGrantable. rewrite !list_elem_of_In, filter_In. unfold mem. rewrite bool_decide_eq_true. by rewrite !list_elem_of_In.
Qed.

Lemma diff_elem desired current c :
  (c ∈ (capability_diff desired current).1 ↔ c ∈ desired ∧ c ∉ current) ∧
  (c ∈ (capability_diff desired current).2 ↔ c ∈ current ∧ c ∉ desired).
Proof.
  unfold capability_diff. simpl. rewrite !list_elem_of_In, !filter_In. unfold mem.
  rewrite !negb_true_iff, !bool_decide_eq_false. by rewrite !list_elem_of_In.
Qed.

Lemma app_caps_elem app db c : c ∈ app_caps app db ↔ (app, c) ∈ app_capabilities db.
Proof.
  unfold app_caps. rewrite plan_perm, list_elem_of_omap. split.
  - intros ([a c']&Hin&Hc). apply elem_of_elements in Hin. destruct (String.eqb_spec a app); simplify_eq. done.
  - intros Hin. exists (app, c). rewrite elem_of_elements, String.eqb_refl. done.
Qed.

Lemma grantable_valid l : (∀ c, c ∈ l → c ∈ grantableCapabilities) → Forall (λ s, utf8_ok s = true) l ∧ validateCapabilityGrant l = None.
Proof.
  intros Hl. induction l as [|c l IH]; [done|].
  destruct IH as [IH1 IH2]; [intros; apply Hl; by right|].
  assert (c ∈ grantableCapabilities) as Hc by (apply Hl; left). unfold grantableCapabilities in Hc.
  set_unfold in Hc. destruct_or?; subst; (split; [by constructor|exact IH2]).
Qed.

Lemma granted_elem app caps a c : (a, c) ∈ granted app caps ↔ a = app ∧ c ∈ caps.
Proof. unfold granted. rewrite elem_of_list_to_set, list_elem_of_fmap. naive_solver. Qed.

End form.
