(* ===== verification/AdminViews.v ===== *)
(** * Admin UI: the log viewer, the dashboard and the delivery page

    The handlers of [internal/adminui/audit.go], [dashboard.go] and
    [delivery.go]. *)

From stdpp Require Import base gmap list strings sorting.
From Stdlib Require Import Ascii ZArith QArith Qround Lia.
From S2P Require Import Prelude GoStrings Encoding GoTime RateLimit AuditChain World AuditLog Auth.
From S2P Require Import Registry Strategy Dispatch Http AdminApi Config AdminSession AdminKeys ApiClient.
From S2P Require Import AdminStore Dashboard AdminUi AdminPages.

Local Open Scope string_scope.
Local Open Scope Z_scope.
Local Open Scope list_scope.

(** ** audit.go: helpers *)

Definition auditVerifyTimeout : Z := 30 * Second.
Definition auditStages : list string :=
  ["received"; "validated"; "dispatched"; "delivered"; "denied"; "retried"; "deferred"; "intrusion_kick";
   "intrusion_unmitigated"; "bot_not_admin"; "telegram_auth_failed"; "key_issued"; "key_revoked"].
Definition auditLimitOptions : list string := ["10"; "20"; "30"; "50"].
Definition defaultAuditLimit : string := "10".

Definition defaultAuditFilters (now : Z) : AuditFilters :=
  mkAuditFilters defaultAuditLimit (format_date now) "" "" "" "" "".

Definition Day_ns : Z := 86400 * Second.

Definition auditDateToRFC3339 (v : string) (endOfDay : bool) : string :=
  match parse_date v with
  | None => v
  | Some t => if String.eqb v "" then v else format_rfc3339 (if endOfDay then t + Day_ns else t)
  end.

Definition normalizeAuditDate (v : string) : string :=
  match parse_rfc3339 v with Some t => format_date t | None => v end.

Definition stageBadge (st : string) : string :=
  if mem st ["key_revoked"; "denied"; "intrusion_kick"; "intrusion_unmitigated"; "telegram_auth_failed"; "bot_not_admin"]
  then "badge-red"
  else if mem st ["key_issued"; "delivered"; "validated"] then "badge-green"
  else if mem st ["received"; "dispatched"] then "badge-blue"
  else if mem st ["retried"; "deferred"] then "badge-purple"
  else "badge-gray".

(** The server renders instants in UTC, so the label is in UTC too. *)
Definition auditTimeLabel (at_ : string) : string :=
  match parse_rfc3339 at_ with Some t => format_label t | None => at_ end.

(** The recipient columns in one cell. *)
Definition recipient_cell (user chat : option Z) : string :=
  match user, chat with
  | Some u, _ => format_int u
  | None, Some c => "chat:" +:+ format_int c
  | None, None => ""
  end.
Definition recipientLabel (row : clientAuditRow) : string := recipient_cell (cw_RecipientUserID row) (cw_RecipientChatID row).

Definition strOrEmpty (o : option string) : string := default "" o.

Definition display_row (row : clientAuditRow) : AuditDisplayRow :=
  mkAuditDisplay (cw_ID row) (auditTimeLabel (cw_At row)) (cw_Stage row) (stageBadge (cw_Stage row))
    (strOrEmpty (cw_AppID row)) (strOrEmpty (cw_Endpoint row)) (strOrEmpty (cw_DeliveryChannel row)) (recipientLabel row)
    (strOrEmpty (cw_ErrorCode row)) (strOrEmpty (cw_TraceID row)).

Definition auditPageURL (f : AuditFilters) (beforeID : string) : string :=
  let vs := set_values [("stage", af_Stage f); ("app_id", af_AppID f); ("trace_id", af_TraceID f); ("limit", af_Limit f);
                        ("since", af_Since f); ("until", af_Until f); ("before_id", beforeID)] in
  match vs with [] => "/audit" | _ => "/audit?" +:+ values_encode vs end.

(** 64-bit addition. *)
Definition wrap64 (z : Z) : Z := (z - int64_min) mod 2 ^ 64 + int64_min.

(** The page size asked for (zero: not a positive number) and the limit that is
    sent: one row more, at most the server's maximum. *)
Definition page_limits (limit : string) : Z * string :=
  match parse_int limit with
  | Some n => if 0 <? n then (n, format_int (Z.min (wrap64 (n + 1)) 500)) else (0, limit)
  | None => (0, limit)
  end.

(** The rows shown, and whether there are more. *)
Definition cut_page {A} (pageSize : Z) (rows : list A) : list A * bool :=
  let hasNext := (0 <? pageSize) && (pageSize <? Z.of_nat (length rows)) in
  (if hasNext then take (Z.to_nat pageSize) rows else rows, hasNext).

(** [Duration.Round(time.Millisecond)] of a duration that is not negative. *)
Definition round_ms (d : Z) : Z := (d + Millisecond / 2) / Millisecond * Millisecond.

(** [hashPrefix]. *)
Definition hashPrefix (h : string) : string := stake 8 (hex_encode h).

(** A list of options that keeps the current choice. *)
Definition with_choice (choice : string) (opts : list string) : list string :=
  if negb (String.eqb choice "") && negb (mem choice opts) then merge_sort (λ a b, String.leb a b) (opts ++ [choice]) else opts.

(** ** dashboard.go: helpers *)

Definition healthCheckTimeout : Z := 5 * Second.

(** [math.Round] of a number that is not negative. *)
Definition round_half_up (q : Q) : Z := Qfloor (q + (1 # 2)).

Definition uptimeString (d : Z) : string :=
  let m := (d + 30 * Second) / (60 * Second) in
  if 0 <? m / 60 then format_int (m / 60) +:+ "h " +:+ format_int (m mod 60) +:+ "m" else format_int (m mod 60) +:+ "m".

(** ** delivery.go: helpers *)

Definition recentFailureLimit : Z := 30.
Definition deliveryWindows : list (string * string * Z) :=
  [("1d", "1일", 1); ("7d", "7일", 7); ("1m", "1개월", 30); ("3m", "3개월", 90); ("6m", "6개월", 180); ("1y", "1년", 365)].
Definition deliveryViews : list (string * string) := [("failures", "최근 실패"); ("trend", "전달 추이"); ("funnel", "퍼널")].

Definition resolveDeliveryView (key : string) : string := if mem key deliveryViews.*1 then key else "failures".

Definition resolveDeliveryWindow (key : string) : string * string * Z :=
  let key := if String.eqb key "24h" then "1d" else key in
  let '(k, label, days) := default ("1d", "1일", 1) (find_first (λ w, String.eqb w.1.1 key) deliveryWindows) in
  (k, "최근 " +:+ label, days).

Definition deliveryStageOptions : list string :=
  deliveryFunnelStages ++ List.filter (λ s, negb (mem s deliveryFunnelStages)) deliveryFailureStages.

Definition failure_display (f : FailureRow) : AuditDisplayRow :=
  mkAuditDisplay 0 (format_label (fr_At f * 1000)) (fr_Stage f) (stageBadge (fr_Stage f)) (fr_AppID f) "" ""
    (recipient_cell (fr_RecipientUserID f) (fr_RecipientChatID f)) (fr_ErrorCode f) (fr_TraceID f).
Definition failureDisplayRows (fs : list FailureRow) : list AuditDisplayRow := failure_display <$> fs.

(** The links of the toggle keep the filters. *)
Definition view_link (window app st err current : string) (v : string * string) : string * string * string * bool :=
  (v.1, v.2, "/delivery?" +:+ values_encode (("view", v.1) :: ("window", window) ::
     set_values [("app", app); ("stage", st); ("error", err)]), String.eqb v.1 current).

Section views.
Context `{F : Float64} `{PG : Postgres} `{TG : Telegram}.
Context (ParsePage : string → bool) (Do : ClientRequest → M (result Response)).
Context (percentile : Q → list Z → Q) (s : Server).
Local Open Scope go_scope.
Local Abbreviation page := (render ParsePage).

(** *** audit.go *)

Definition search_params (f : AuditFilters) : AuditSearchParams :=
  mkSearch (page_limits (af_Limit f)).2 (auditDateToRFC3339 (af_Since f) false) (auditDateToRFC3339 (af_Until f) true)
    (af_TraceID f) (af_AppID f) (af_Stage f) (af_BeforeID f).

Definition audit_app_options (f : AuditFilters) : M (list string) :=
  if sv_db s then (let? l := ListApps else e => mret [] ;; mret (with_choice (af_AppID f) (ua_ID <$> l))) else mret [].

Definition audit_limits (f : AuditFilters) : list string :=
  if negb (String.eqb (af_Limit f) "") && negb (mem (af_Limit f) auditLimitOptions)
  then af_Limit f :: auditLimitOptions else auditLimitOptions.

(** The rows of a page and its link to the next. *)
Definition audit_view (f : AuditFilters) (opts : list string) (rows : list clientAuditRow) : AuditView :=
  let '(shown, hasNext) := cut_page (page_limits (af_Limit f)).1 rows in
  let display := display_row <$> shown in
  mkAuditView f auditStages (audit_limits f) opts display
    (match last display with
     | Some r => if hasNext : bool then auditPageURL f (format_int (ad_ID r)) else ""
     | None => ""
     end)
    (if String.eqb (af_BeforeID f) "" then "" else auditPageURL f "") None.

Definition auditPageData (sm : SessionManager) (c : UiCtx) (f : AuditFilters) : M pageData :=
  d ← basePageData sm c "로그" "audit";
  let d := set_subtitle "/admin/audit/search" d in
  opts ← audit_app_options f;
  let? rows := client_SearchAudit Do (sv_client s) (uc_TraceID c) (search_params f)
    else e => mret (set_error (friendlyAPIError e) (set_view (VAudit (mkAuditView f auditStages (audit_limits f) opts [] "" "" None)) d)) ;;
  mret (set_view (VAudit (audit_view f opts rows)) d).

Definition audit_filters (r : UiRequest) : AuditFilters :=
  let limit := query_get r "limit" in
  mkAuditFilters (if String.eqb limit "" then defaultAuditLimit else limit) (normalizeAuditDate (query_get r "since"))
    (normalizeAuditDate (query_get r "until")) (query_get r "trace_id") (query_get r "app_id") (query_get r "stage")
    (query_get r "before_id").

Definition handleAuditPage : PageHandler := λ sm r c,
  now ← st_gets w_now;
  d ← auditPageData sm c (if String.eqb (u_RawQuery r) "" then defaultAuditFilters now else audit_filters r);
  mret (page "audit.html" d).

Definition verify_break (b : VerifyBreak) : AuditVerifyBreak :=
  mkVerifyBreak (vb_ID b) (format_rfc3339 (vb_At b * 1000)) (vb_Stage b) (vb_Column b) (hashPrefix (vb_Expected b))
    (hashPrefix (vb_Stored b)).

Definition set_verify (v : AuditVerifyView) (x : view) : view :=
  match x with
  | VAudit a => VAudit (mkAuditView (aw_Filters a) (aw_Stages a) (aw_Limits a) (aw_AppOptions a) (aw_Rows a) (aw_NextURL a)
                          (aw_FirstURL a) (Some v))
  | _ => x
  end.

(** The walk under its deadline: the result, the error and whether the deadline
    has passed. *)
Definition verify_walk : M (VerifyResult * option error * bool) :=
  within auditVerifyTimeout (
    res ← VerifyAuditChain;
    past ← st_gets (λ w, past_deadline (w_now w) (w_deadline w));
    mret (res, past)).

Definition handleAuditVerify : PageHandler := λ sm r c,
  now ← st_gets w_now;
  d ← auditPageData sm c (defaultAuditFilters now);
  guard? sv_db s else mret (page "audit.html" (set_error "무결성 검증은 DB 연결이 필요합니다" d)) ;;
  start ← st_gets w_now;
  '(res, err, past) ← verify_walk;
  fin ← st_gets w_now;
  let timedOut := match err with Some e => errors_is e ErrContextDone | None => false end || past in
  match err with
  | Some e =>
      if negb timedOut then
        Log "error" "adminui_audit_verify_failed" {["trace_id" := AStr (uc_TraceID c); "error" := AStr (error_text e)]};;
        mret (page "audit.html" (set_error "무결성 검증 쿼리에 실패했습니다 — DB 상태를 확인하세요" d))
      else mret (page "audit.html" (set_view (set_verify
             (mkVerifyView false true (Rows res) (round_ms (fin - start)) (verify_break <$> Break res)) (pd_View d)) d))
  | None => mret (page "audit.html" (set_view (set_verify
             (mkVerifyView (OK res) false (Rows res) (round_ms (fin - start)) (verify_break <$> Break res)) (pd_View d)) d))
  end.

(** *** dashboard.go *)

(** [formatLatency] of a number of seconds. *)
Definition formatLatency (secs : Q) : string :=
  let ms := round_half_up (rnd (secs * 1000)) in
  if ms <? 1000 then format_int ms +:+ "ms"
  else let tenths := round_half_up (rnd (secs * 10)) in
       if tenths <? 600 then fixed1 (rnd (inject_Z tenths / 10)) +:+ "s"
       else let total := round_half_up secs in format_int (total / 60) +:+ "m " +:+ format_int (total mod 60) +:+ "s".

(** [buildLatencyStrip]; its drawing is [strip_svg] of [Svg]. *)
Definition buildLatencyStrip (samples : list LatencySample) (stats : LatencyStats) : option LatencyStripView :=
  match samples with
  | [] => None
  | _ => Some (mkStrip (ls_Count stats) (Z.of_nat (length samples)) (formatLatency (ls_P50 stats)) (formatLatency (ls_P95 stats))
                 (formatLatency (ls_Max stats)))
  end.

Definition log_view_err (c : UiCtx) (area what : string) (e : error) : M () :=
  Log "error" ("adminui_" +:+ area +:+ "_" +:+ what +:+ "_failed") {["trace_id" := AStr (uc_TraceID c); "error" := AStr (error_text e)]}.
Definition logDashboardErr (c : UiCtx) : string → error → M () := log_view_err c "dashboard".
Definition logDeliveryErr (c : UiCtx) : string → error → M () := log_view_err c "delivery".

(** A section: a failed query is logged and shown as such. *)
Definition view_section {A B} (logErr : string → error → M ()) (what : string) (q : M (result A)) (build : A → M B) : M (option B) :=
  let? a := q else e => (logErr what e;; mret None) ;; b ← build a; mret (Some b).

Definition strip_section (c : UiCtx) : M (section LatencyStripView) :=
  let? lat := DeliveryLatency percentile else e => (logDashboardErr c "latency" e;; mret None) ;;
  view_section (logDashboardErr c) "latency_samples" (LatencySamples latencySampleLimit) (λ samples, mret (buildLatencyStrip samples lat)).

Definition dashboard_sections (c : UiCtx) : M DashboardView :=
  let dash {A B} what (q : M (result A)) (b : A → B) := view_section (logDashboardErr c) what q (λ a, mret (b a)) in
  kpi ← dash "kpi" DeliveryKPICounts (λ n, Some (buildKPIView n));
  pipe ← dash "funnel" PipelineStageCounts buildPipelineFlow;
  pie ← dash "causes" FailureCauseCounts buildFailurePie;
  strip ← strip_section c;
  mret (mkDash kpi pipe pie strip).

Definition handleDashboard : PageHandler := λ sm r c,
  d ← basePageData sm c "대시보드" "dashboard";
  let d := set_server_url (Ui.TelegramServerURL (sv_cfg s)) (set_subtitle "운영 현황 · 최근 24시간" d) in
  h ← within healthCheckTimeout (Health Do (sv_client s) (uc_TraceID c));
  let healthy := match h with Ok b => b | Err _ => false end in
  now ← st_gets w_now;
  let up := uptimeString (time_sub now (sv_start s)) in
  let health := if healthy : bool then "connected" else "unreachable" in
  guard? sv_db s
    else mret (page "dashboard.html" (set_db_unavailable
           (set_view (VDashboard (mkDashPage healthy health up None "" [] (Some None) None)) d))) ;;
  dash ← dashboard_sections c;
  let cr := resolveChartRange (query_get r "range") in
  chart ← view_section (logDashboardErr c) "series" (RequestBuckets (rg_Spec cr))
            (λ series, now ← st_gets w_now; mret (buildLineChart series cr (now / 1000)));
  stats ← view_section (logDashboardErr c) "stats" DashboardStats_query mret;
  mret (page "dashboard.html" (set_view (VDashboard (mkDashPage healthy health up (Some dash) (rg_Title cr)
    ((λ x, (rg_Key x, rg_Label x, String.eqb (rg_Key x) (rg_Key cr))) <$> chartRanges) chart stats)) d)).

(** *** delivery.go *)

(** The data of the selected screen: trend, funnels, failures; the others stay
    empty. *)
Definition delivery_screen (c : UiCtx) (view : string) (days : Z) (app st err : string)
    : M (section LineChart * option (list AppFunnel) * option (list AuditDisplayRow)) :=
  if String.eqb view "funnel" then
    f ← view_section (logDeliveryErr c) "counts" (StageCounts days app) (λ counts, mret (buildFunnels counts));
    mret (Some None, f, Some [])
  else if String.eqb view "trend" then
    t ← view_section (logDeliveryErr c) "trend" (DeliveryDailyCounts (mkTrend days app st err))
          (λ daily, now ← st_gets w_now; mret (buildTrendChart daily days st (now / 1000)));
    mret (t, Some [], Some [])
  else
    f ← view_section (logDeliveryErr c) "failures" (RecentFailures (mkFailures days recentFailureLimit app st err))
          (λ fs, mret (failureDisplayRows fs));
    mret (Some None, Some [], f).

Definition handleDeliveryPage : PageHandler := λ sm r c,
  let '(window, label, days) := resolveDeliveryWindow (query_get r "window") in
  let view := resolveDeliveryView (query_get r "view") in
  let app := query_get r "app" in
  let st := if mem (query_get r "stage") deliveryStageOptions then query_get r "stage" else "" in
  let err := query_get r "error" in
  let filtered := negb (String.eqb app "") || negb (String.eqb st "") || negb (String.eqb err "") in
  let build opts codes '(trend, funnels, failures) :=
    mkDelivery window label ((λ '(k, l, _), (k, l, String.eqb k window)) <$> deliveryWindows) view
      (view_link window app st err view <$> deliveryViews) app st err opts deliveryStageOptions codes filtered
      trend funnels failures in
  d ← basePageData sm c "전달 현황" "delivery";
  let d := set_subtitle (label +:+ " · audit_log 집계") d in
  guard? sv_db s
    else mret (page "delivery.html" (set_db_unavailable (set_view (VDelivery (build [] [] (Some None, Some [], Some []))) d))) ;;
  apps ← view_section (logDeliveryErr c) "apps" ListApps (λ l, mret (ua_ID <$> l));
  codes ← view_section (logDeliveryErr c) "error_codes" (FailureErrorCodes days) mret;
  screen ← delivery_screen c view days app st err;
  mret (page "delivery.html" (set_view (VDelivery
    (build (with_choice app (default [] apps)) (with_choice err (default [] codes)) screen)) d)).
End views.

(** ** The pages of the log viewer *)

(** The limit the server reads when the viewer asks for pages of [n] rows. *)
Definition fetch_limit (n : Z) : Z := default 50 (parse_limit (page_limits (format_int n)).2).

(** The pages an operator gets by following the link to the next page. *)
Fixpoint viewer_pages (fuel : nat) (f : search_filter) (n : Z) (db : Database) : list (list AuditRow) :=
  match fuel with
  | O => []
  | S k =>
      let '(shown, more) := cut_page (page_limits (format_int n)).1 (search_rows f (fetch_limit n) db) in
      shown :: (if more : bool
                then match last shown with Some r => viewer_pages k (from_cursor f (a_id r)) n db | None => [] end else [])
  end.

Lemma page_limits_small n : 1 <= n <= 499 → page_limits (format_int n) = (n, format_int (n + 1)) ∧ fetch_limit n = n + 1.
Proof.
  intros Hn. assert (page_limits (format_int n) = (n, format_int (n + 1))) as E.
  { unfold page_limits. rewrite parse_format_int by (unfold in_int64, int64_min, int64_max; lia).
    destruct (Z.ltb_spec 0 n); [|lia]. repeat f_equal. unfold wrap64, int64_min. rewrite Z.mod_small by lia. lia. }
  split; [done|]. unfold fetch_limit. rewrite E. unfold parse_limit. cbn [snd].
  rewrite parse_format_int by (unfold in_int64, int64_min, int64_max; lia). simpl.
  destruct (Z.leb_spec (n + 1) 0), (Z.ltb_spec 500 (n + 1)); try lia. done.
Qed.



(** From 500 on the surplus row cannot be asked for: one page, without a link;
    a limit the server would refuse is cut to one it accepts. *)
Example limit_500 : page_limits "500" = (500, "500") ∧ page_limits "600" = (600, "500") ∧
  page_limits "9223372036854775807" = (9223372036854775807, "-9223372036854775808") ∧ page_limits "ten" = (0, "ten").
Proof. vm_compute. done. Qed.

(** ** The date filter *)

Lemma unix_day_of d : unix_day (d * 86400 * 1000000000) = d.
Proof. unfold unix_day. by rewrite !Z.div_mul. Qed.

(** Choosing one day in the date pickers searches exactly that day.  The bounds
    the viewer sends for the day, as the server parses them, match the events of
    that day in UTC up to and including the following midnight, and no others; an
    RFC 3339 instant in an old link is shown as its day. *)
Theorem day_filter_exact d r trace app st :
  four_digit_year d = true → four_digit_year (d + 1) = true →
  let day := date_text d in
  matches (mkFilter trace app st (parse_rfc3339 (auditDateToRFC3339 day false)) (parse_rfc3339 (auditDateToRFC3339 day true)) 0) r =
  matches (mkFilter trace app st None None 0) r && (d * Day_us <=? at_us (a_cols r)) && (at_us (a_cols r) <=? (d + 1) * Day_us) ∧
  normalizeAuditDate (auditDateToRFC3339 day false) = day.
Proof.
  intros H1 H2 day. assert (parse_date day = Some (d * 86400 * 1000000000)) as Hp.
  { unfold day. rewrite <- (unix_day_of d) at 1. change (date_text (unix_day ?t)) with (format_date t).
    rewrite parse_format_date by (by rewrite unix_day_of). by rewrite unix_day_of. }
  assert (day ≠ "") as Hne by (intros E; by rewrite E in Hp).
  assert (∀ k, four_digit_year k = true → parse_rfc3339 (format_rfc3339 (k * 86400 * 1000000000)) = Some (k * 86400 * 1000000000)) as Hr.
  { intros k Hk. rewrite parse_format_rfc3339 by (by rewrite unix_day_of). by rewrite Z.div_mul. }
  assert (∀ b, auditDateToRFC3339 day b = format_rfc3339 ((if b : bool then d + 1 else d) * 86400 * 1000000000)) as Ha.
  { intros b. unfold auditDateToRFC3339. rewrite Hp. destruct (String.eqb_spec day ""); [done|]. f_equal.
    unfold Day_ns, Second. destruct b; lia. }
  rewrite !Ha, !Hr by done. split.
  - unfold matches. cbn [sf_trace sf_app sf_stage sf_since sf_until sf_before].
    assert (∀ k, k * 86400 * 1000000000 / 1000 = k * Day_us) as Hd.
    { intros k. unfold Day_us. replace (k * 86400 * 1000000000) with (k * (86400 * 1000000) * 1000) by lia. by rewrite Z.div_mul. }
    rewrite !Hd. change ((0 <=? 0) || _) with true.
    destruct (text_matches trace _), (text_matches app _), (text_matches st _), (_ <=? _), (_ <=? _); done.
  - unfold normalizeAuditDate. rewrite Hr by done. unfold format_date. by rewrite unix_day_of.
Qed.

Lemma day_filter_exact_witness :
  matches (mkFilter "" "" "" (parse_rfc3339 (auditDateToRFC3339 "2026-07-06" false))
    (parse_rfc3339 (auditDateToRFC3339 "2026-07-06" true)) 0) (sample_row 1 StageDenied "" "" (20640 * Day_us)) = true ∧
  normalizeAuditDate (auditDateToRFC3339 "2026-07-06" false) = "2026-07-06".
Proof.
  destruct (day_filter_exact 20640 (sample_row 1 StageDenied "" "" (20640 * Day_us)) "" "" "") as [H1 H2]; [reflexivity..|].
  split; [etrans; [exact H1|reflexivity]|exact H2].
Defined.
