(* ===== verification/Svg.v ===== *)
(** * The drawings of the admin UI

    The SVG that [dashboard.go] and [delivery.go] put into their pages as
    [template.HTML], that is, without the escaping of [html/template]: the
    requests chart, the trend chart, the failure donut and the latency strip,
    drawn from the charts of [Dashboard] and [AdminViews].  Floating point
    operations are rounded one by one (no fused multiply-add). *)

From stdpp Require Import base gmap list strings.
From Stdlib Require Import ZArith QArith Qround Lia.
From S2P Require Import Prelude GoStrings GoTime RateLimit World Http AdminStore Dashboard AdminUi AdminViews.

Local Open Scope string_scope.
Local Open Scope Z_scope.
Local Open Scope list_scope.

(** ** Text *)

Definition sconcat (l : list string) : string := foldr String.append "" l.

(** [strings.Join(l, " ")]. *)
Fixpoint join_space (l : list string) : string :=
  match l with [] => "" | [s] => s | s :: rest => s +:+ " " +:+ join_space rest end.

(** [template.HTMLEscapeString]. *)
Definition escape_byte (c : Ascii.ascii) : string :=
  if Ascii.eqb c (chr 0) then bytes [239; 191; 189]%nat
  else if Ascii.eqb c (chr 34) then "&#34;"
  else if Ascii.eqb c (chr 39) then "&#39;"
  else if Ascii.eqb c (chr 38) then "&amp;"
  else if Ascii.eqb c (chr 60) then "&lt;"
  else if Ascii.eqb c (chr 62) then "&gt;"
  else String c "".
Fixpoint HTMLEscapeString (s : string) : string :=
  match s with "" => "" | String c rest => escape_byte c +:+ HTMLEscapeString rest end.

(** ["%.0f"] and ["%.2f"] of a nonnegative number. *)
Definition fixed0 (q : Q) : string := format_int (round_half_even q).
Definition fixed2 (q : Q) : string :=
  let t := round_half_even (q * 100) in format_int (t / 100) +:+ "." +:+ append_int 2 (t mod 100).

(** ["%.3g"] of a number of at least one: three significant digits, trailing
    zeros dropped; from a thousand on with an exponent. *)
Fixpoint strip_zeros (fuel : nat) (n : Z) (k : nat) : Z * nat :=
  match fuel, k with
  | S fuel, S k' => if n mod 10 =? 0 then strip_zeros fuel (n / 10) k' else (n, k)
  | _, _ => (n, k)
  end.
(** [n] is the number without its point, [k] the digits after the point. *)
Definition point_text (n : Z) (k : nat) : string :=
  let p := 10 ^ Z.of_nat k in
  if (k =? 0)%nat then format_int n else format_int (n / p) +:+ "." +:+ append_int k (n mod p).
Definition general3 (q : Q) : string :=
  let x := (String.length (format_int (Qfloor q)) - 1)%nat in
  let n := round_half_even (q * (100 # 1) / inject_Z (10 ^ Z.of_nat x)) in
  let '(n, x) := if n =? 1000 then (100, S x) else (n, x) in
  if (x <? 3)%nat
  then let '(n, k) := strip_zeros (2 - x) n (2 - x) in point_text n k
  else let '(n, k) := strip_zeros 2 n 2 in point_text n k +:+ "e+" +:+ append_int 2 (Z.of_nat x).

(** ** Tags: attribute values are quoted *)

Definition dquote : string := String (chr 34) "".
Definition attr (a : string * string) : string := " " +:+ a.1 +:+ "=" +:+ dquote +:+ a.2 +:+ dquote.
Definition open_tag (name : string) (attrs : list (string * string)) : string :=
  "<" +:+ name +:+ sconcat (attr <$> attrs) +:+ ">".
Definition empty_tag (name : string) (attrs : list (string * string)) : string :=
  "<" +:+ name +:+ sconcat (attr <$> attrs) +:+ "/>".
Definition close_tag (name : string) : string := "</" +:+ name +:+ ">".

Definition koreanWeekdays : list string := ["일"; "월"; "화"; "수"; "목"; "금"; "토"].
(** The 1st of January 1970 was a Thursday. *)
Definition weekday_text (day : Z) : string := default "" (koreanWeekdays !! Z.to_nat ((day + 4) mod 7)).
Definition month_of (t : Z) : Z := let '(_, m, _) := civil_from_days (t / Day_us) in m.
Definition day_of (t : Z) : Z := let '(_, _, d) := civil_from_days (t / Day_us) in d.
Definition year_of (t : Z) : Z := let '(y, _, _) := civil_from_days (t / Day_us) in y.
Definition hour_of (t : Z) : Z := t / Hour_us mod 24.
Definition month_day (t : Z) : string := format_int (month_of t) +:+ "/" +:+ format_int (day_of t).
Definition in_parens (s : string) : string := "(" +:+ s +:+ ")".

(** [axisLabel] and [pointLabel]. *)
Definition axisLabel (spec : SeriesSpec) (i : nat) (t : Z) : string :=
  if String.eqb (ss_Unit spec) "hour"
  then if negb (i mod 3 =? 0)%nat then "" else format_int (hour_of t) +:+ "시"
  else if String.eqb (ss_Unit spec) "month" then format_int (month_of t) +:+ "월"
  else if ss_Buckets spec <=? 7 then weekday_text (t / Day_us)
  else if negb (i mod 5 =? 0)%nat && negb (Z.of_nat i =? ss_Buckets spec - 1) then ""
  else month_day t.

Definition pointLabel (spec : SeriesSpec) (t : Z) : string :=
  if String.eqb (ss_Unit spec) "hour" then format_int (day_of t) +:+ "일 " +:+ format_int (hour_of t) +:+ "시"
  else if String.eqb (ss_Unit spec) "month" then format_int (year_of t) +:+ "년 " +:+ format_int (month_of t) +:+ "월"
  else month_day t +:+ in_parens (weekday_text (t / Day_us)).

Section drawings.
Context `{F : Float64}.

(** [svgHoverTip]. *)
Definition svgHoverTip (x y w : Q) (label : string) : string :=
  let anchor := if qltb x 80 then "start" else if qltb (w - 80) x then "end" else "middle" in
  open_tag "text" [("class", "tip"); ("x", fixed1 x); ("y", fixed1 y); ("text-anchor", anchor)] +:+
  HTMLEscapeString label +:+ close_tag "text".

Definition svg_open (w h : Q) (title : string) : string :=
  open_tag "svg" [("viewBox", "0 0 " +:+ fixed0 w +:+ " " +:+ fixed0 h); ("role", "img"); ("aria-label", title);
                  ("xmlns", "http://www.w3.org/2000/svg")].

(** ** The line charts *)

Definition padL : Q := 36.
Definition padR : Q := 12.
Definition padT : Q := 12.
Definition padB : Q := 28.

(** The canvas, the number of buckets and the largest count. *)
Record frame := mkFrame { fr_w : Q; fr_h : Q; fr_buckets : Z; fr_max : Z }.
Definition plotW (f : frame) : Q := fr_w f - padL - padR.
Definition plotH (f : frame) : Q := fr_h f - padT - padB.

Definition xAt (f : frame) (i : nat) : Q :=
  if fr_buckets f =? 1 then rnd (padL + rnd (plotW f / 2))
  else rnd (padL + rnd (rnd (plotW f * f64 (Z.of_nat i)) / f64 (fr_buckets f - 1))).
Definition yAt (f : frame) (c : Z) : Q :=
  rnd (padT + rnd (plotH f * rnd (1 - rnd (f64 c / f64 (fr_max f))))).

Definition max_count (lines : list (list Z)) : Z := foldl (λ m c, if m <? c then c else m) 1 (concat lines).

Definition line_tag (x1 y1 x2 y2 color width : string) : string :=
  empty_tag "line" [("x1", x1); ("y1", y1); ("x2", x2); ("y2", y2); ("stroke", color); ("stroke-width", width)].

Definition gridlines (f : frame) : string :=
  sconcat ((λ g, let y := fixed1 (rnd (padT + rnd (rnd (plotH f * f64 (Z.of_nat g)) / 4))) in
                 line_tag (fixed1 padL) y (fixed1 (fr_w f - padR)) y "#e5e7eb" "1") <$> seq 0 5).

Definition x_label (f : frame) (i : nat) (lab : string) : string :=
  open_tag "text" [("x", fixed1 (xAt f i)); ("y", fixed1 (fr_h f - 8)); ("font-size", "11"); ("fill", "#9ca3af");
                   ("text-anchor", "middle")] +:+ lab +:+ close_tag "text".

Definition polyline (f : frame) (color : string) (counts : list Z) : string :=
  let pts := imap (λ i c, fixed1 (xAt f i) +:+ "," +:+ fixed1 (yAt f c)) counts in
  empty_tag "polyline" [("points", join_space pts); ("fill", "none"); ("stroke", color); ("stroke-width", "2.5");
                        ("stroke-linejoin", "round"); ("stroke-linecap", "round")].

(** A point: a wide transparent circle for the pointer, the dot and its tip. *)
Definition point (f : frame) (color : string) (label : string) (i : nat) (c : Z) : string :=
  let x := xAt f i in
  let y := yAt f c in
  let up := rnd (y - 10) in
  let tipY := if qltb up 16 then rnd (y + 20) else up in
  open_tag "g" [("class", "pt")] +:+
  empty_tag "circle" [("cx", fixed1 x); ("cy", fixed1 y); ("r", "9"); ("fill", "transparent")] +:+
  empty_tag "circle" [("cx", fixed1 x); ("cy", fixed1 y); ("r", "3"); ("fill", color)] +:+
  svgHoverTip x tipY (fr_w f) label +:+ close_tag "g".

Definition line_color (n : nat) (ln : lineSeries) : string :=
  if ln_rest ln then restLineColor else cyclic chartPalette n.

Definition at_axis (axis : list Z) (i : nat) : Z := default 0 (axis !! i).

(** The drawing of [buildLineChart]. *)
Definition line_chart_svg (cr : chartRange) (axis : list Z) (lines : list lineSeries) : string :=
  let spec := rg_Spec cr in
  let f := mkFrame 640 240 (ss_Buckets spec) (max_count (ln_counts <$> lines)) in
  svg_open 640 240 ("앱별 요청 수 " +:+ in_parens (HTMLEscapeString (rg_Title cr))) +:+
  gridlines f +:+
  sconcat (imap (λ i t, let lab := axisLabel spec i t in if String.eqb lab "" then "" else x_label f i lab) axis) +:+
  sconcat (imap (λ n ln, polyline f (line_color n ln) (ln_counts ln)) lines) +:+
  sconcat (imap (λ n ln, sconcat (imap (λ i c,
    point f (line_color n ln) (pointLabel spec (at_axis axis i) +:+ " · " +:+ ln_label ln +:+ " · " +:+ format_int c +:+ "건") i c)
    (ln_counts ln))) lines) +:+
  close_tag "svg".

Definition trendPointCap : Z := 90.

(** The drawing of [buildTrendChart]; [series] has the counts of each of the
    [defs]. *)
Definition trend_label (days : Z) (every : nat) (i : nat) (t : Z) : string :=
  if negb (i mod every =? 0)%nat && negb (Z.of_nat i =? days - 1) then ""
  else if days <=? 7 then month_day t +:+ in_parens (weekday_text (t / Day_us)) else month_day t.

Definition trend_svg (days : Z) (axis : list Z) (defs : list trendSeriesDef) (series : list (list Z)) : string :=
  let f := mkFrame 960 220 days (max_count series) in
  let every := if 7 <? days then Z.to_nat ((days + 6) / 7) else 1%nat in
  let lines := zip defs series in
  svg_open 960 220 ("전달 추이 " +:+ in_parens (format_int days +:+ "일")) +:+
  gridlines f +:+
  sconcat (imap (λ i t, let lab := trend_label days every i t in if String.eqb lab "" then "" else x_label f i lab) axis) +:+
  sconcat ((λ p, polyline f (ts_color p.1) p.2) <$> lines) +:+
  (if days <=? trendPointCap
   then sconcat ((λ p, sconcat (imap (λ i c,
          point f (ts_color p.1) (month_day (at_axis axis i) +:+ " · " +:+ ts_label p.1 +:+ " · " +:+ format_int c +:+ "건") i c)
          p.2)) <$> lines)
   else "") +:+
  close_tag "svg".

(** ** The donut *)

Definition math_Pi : Q := 314159265358979323846264338327950288419716939937510582097494459 # 10 ^ 62.
Definition circ : Q := rnd (160 * math_Pi).

(** A slice, starting at the fraction [acc] of the ring. *)
Definition slice (i : nat) (acc frac : Q) (c : ErrorCodeCount) : string :=
  open_tag "g" [("class", "pt")] +:+
  empty_tag "circle" [("cx", "110"); ("cy", "110"); ("r", "80"); ("fill", "none"); ("stroke", cyclic piePalette i);
    ("stroke-width", "36"); ("stroke-dasharray", fixed2 (rnd (frac * circ)) +:+ " " +:+ fixed2 circ);
    ("stroke-dashoffset", "-" +:+ fixed2 (rnd (acc * circ))); ("transform", "rotate" +:+ in_parens "-90 110 110")] +:+
  svgHoverTip 110 114 220
    (ec_Code c +:+ " · " +:+ format_int (ec_Count c) +:+ "건 " +:+ in_parens (fixed0 (rnd (frac * 100)) +:+ "%")) +:+
  close_tag "g".

Fixpoint slices (tot : Z) (i : nat) (acc : Q) (l : list ErrorCodeCount) : string :=
  match l with
  | [] => ""
  | c :: rest => let frac := rnd (f64 (ec_Count c) / f64 tot) in
                 slice i acc frac c +:+ slices tot (S i) (rnd (acc + frac)) rest
  end.

Definition center_text (y size weight fill : string) (content : string) : string :=
  open_tag "text" ([("class", "pie-center"); ("x", "110"); ("y", y); ("font-size", size)] ++
    (if String.eqb weight "" then [] else [("font-weight", weight)]) ++ [("fill", fill); ("text-anchor", "middle")]) +:+
  content +:+ close_tag "text".

Definition pie_svg (tot : Z) (l : list ErrorCodeCount) : string :=
  svg_open 220 220 "실패 원인 분포" +:+
  slices tot 0 0 l +:+
  center_text "108" "32" "800" "#111827" (format_int tot) +:+
  center_text "130" "12" "" "#6b7280" "실패 · 24h" +:+
  close_tag "svg".

(** ** The latency strip: [math.Log10] and [math.Pow] are arguments *)

Section strip.
Context (math_Log10 : Q → Q) (math_Pow : Q → Q → Q).

Definition niceAxisMax (ms : Q) : Q :=
  if Qle_bool ms 0 then 1%Q
  else let mag := math_Pow 10 (inject_Z (Qfloor (math_Log10 ms))) in
       default (rnd (10 * mag)) (find_first (λ v, Qle_bool ms v) ((λ m, rnd (inject_Z m * mag)) <$> [1; 2; 5; 10])).

Definition formatAxisMs (ms : Q) : string :=
  if Qle_bool 1000 ms then general3 (rnd (ms / 1000)) +:+ "s" else fixed0 ms +:+ "ms".

Definition latencySLOMillis : Q := 200.
Definition qmin (a b : Q) : Q := if Qle_bool a b then a else b.
(** The seconds of a sample, an exact numeric of the database, as a float. *)
Definition la_Secs (s : LatencySample) : Q := rnd (la_Micros s # 1000000).
Definition sample_ms (s : LatencySample) : Q := rnd (la_Secs s * 1000).
Definition axis_max (samples : list LatencySample) : Q :=
  niceAxisMax (rnd (foldl (λ m s, if qltb m (sample_ms s) then sample_ms s else m) 0%Q samples * rnd (13 # 10))).

(** 640 by 150, 10 left, 14 right; the axis at 118, the dots around 66. *)
Definition strip_x (axisMax ms : Q) : Q := rnd (10 + rnd (rnd (616 * ms) / axisMax)).

Definition small_text (x y : string) (extra : list (string * string)) (fill anchor content : string) : string :=
  open_tag "text" ([("x", x); ("y", y); ("font-size", "11")] ++ extra ++ [("fill", fill); ("text-anchor", anchor)]) +:+
  content +:+ close_tag "text".

Definition tick (axisMax : Q) (i : nat) : string :=
  let ms := rnd (rnd (axisMax * f64 (Z.of_nat i)) / 4) in
  let x := fixed1 (strip_x axisMax ms) in
  line_tag x "118.0" x "122.0" "#e5e7eb" "1" +:+
  small_text x "136.0" [] "#9ca3af" (if (i =? 0)%nat then "start" else if (i =? 4)%nat then "end" else "middle") (formatAxisMs ms).

Definition slo_mark (axisMax : Q) : string :=
  let off := qltb axisMax latencySLOMillis in
  let x := if off then 626%Q else strip_x axisMax latencySLOMillis in
  let label := "SLO " +:+ fixed0 latencySLOMillis +:+ "ms" +:+ (if off then " →" else "") in
  empty_tag "line" [("x1", fixed1 x); ("y1", "16"); ("x2", fixed1 x); ("y2", "118.0"); ("stroke", "#dc2626");
                    ("stroke-width", "1.5"); ("stroke-dasharray", "4 3")] +:+
  small_text (fixed1 x) "12" [] "#dc2626" (if qltb 560 x then "end" else "middle") label.

Definition p50_mark (axisMax p50 : Q) : string :=
  let x := fixed1 (strip_x axisMax (qmin (rnd (p50 * 1000)) axisMax)) in
  line_tag x "42" x "90" "#111827" "2" +:+
  small_text x "36" [("font-weight", "600")] "#111827" "middle" ("p50 " +:+ formatLatency p50).

Definition jitter : list Q := [0; -9; 9; -17; 17]%Q.

Definition dot (axisMax : Q) (i : nat) (s : LatencySample) : string :=
  let label := (if String.eqb (la_AppID s) "" then "" else la_AppID s +:+ " · ") +:+ formatLatency (la_Secs s) in
  let x := strip_x axisMax (qmin (sample_ms s) axisMax) in
  let cy := (66 + default 0 (jitter !! (i mod 5)%nat))%Q in
  open_tag "g" [("class", "pt")] +:+
  empty_tag "circle" [("cx", fixed1 x); ("cy", fixed1 cy); ("r", "11"); ("fill", "transparent")] +:+
  empty_tag "circle" [("cx", fixed1 x); ("cy", fixed1 cy); ("r", "6"); ("fill", "#2563eb"); ("fill-opacity", "0.55")] +:+
  svgHoverTip x (cy - 14) 640 label +:+ close_tag "g".

(** The drawing of [buildLatencyStrip]. *)
Definition strip_svg (samples : list LatencySample) (stats : LatencyStats) : string :=
  let axisMax := axis_max samples in
  svg_open 640 150 "전달 지연 스트립 플롯" +:+
  line_tag "10.0" "118.0" "626.0" "118.0" "#e5e7eb" "1" +:+
  sconcat (tick axisMax <$> seq 0 5) +:+
  slo_mark axisMax +:+
  p50_mark axisMax (ls_P50 stats) +:+
  sconcat (imap (dot axisMax) samples) +:+
  close_tag "svg".
End strip.
End drawings.

(** ** Markup

    How a browser reads the drawings: text, inside a tag, or inside a quoted
    attribute value.  [scan] collects what is not text. *)

Inductive mode := MText | MTag | MQuoted.

Definition next_mode (m : mode) (c : Ascii.ascii) : mode :=
  match m with
  | MText => if Ascii.eqb c (chr 60) then MTag else MText
  | MTag => if Ascii.eqb c (chr 34) then MQuoted else if Ascii.eqb c (chr 62) then MText else MTag
  | MQuoted => if Ascii.eqb c (chr 34) then MTag else MQuoted
  end.

Definition is_text (m m' : mode) : bool := match m, m' with MText, MText => true | _, _ => false end.

Fixpoint scan (m : mode) (s : string) : string * mode :=
  match s with
  | "" => ("", m)
  | String c rest =>
      let m' := next_mode m c in
      let '(t, m2) := scan m' rest in (if is_text m m' then t else String c t, m2)
  end.

Definition markup (s : string) : string := (scan MText s).1.
(** No tag and no quotation is left open. *)
Definition complete (s : string) : Prop := (scan MText s).2 = MText.

Lemma scan_app m a b :
  scan m (a +:+ b) = ((scan m a).1 +:+ (scan (scan m a).2 b).1, (scan (scan m a).2 b).2).
Proof.
  revert m. induction a as [|c a IH]; intros m; [rewrite sapp_nil_l; simpl; by destruct (scan m b)|].
  rewrite sapp_cons. simpl. rewrite IH. destruct (scan (next_mode m c) a) as [t m1]. simpl. by case_match.
Qed.

Lemma scan_seq m a ta m1 b tb m2 : scan m a = (ta, m1) → scan m1 b = (tb, m2) → scan m (a +:+ b) = (ta +:+ tb, m2).
Proof. intros Ha Hb. rewrite scan_app, Ha. simpl. by rewrite Hb. Qed.

(** Both are complete and have the same tags: a partial equivalence. *)
Definition same_markup (a b : string) : Prop := ∃ t, scan MText a = (t, MText) ∧ scan MText b = (t, MText).

#[export] Instance same_markup_sym : Symmetric same_markup.
Proof. intros a b (t&?&?). by exists t. Qed.
#[export] Instance same_markup_trans : Transitive same_markup.
Proof. intros a b c (t&?&?) (t'&?&?). exists t. split; congruence. Qed.

#[export] Instance same_markup_app : Proper (same_markup ==> same_markup ==> same_markup) String.append.
Proof.
  intros a a' (t&Ha&Ha') b b' (u&Hb&Hb'). exists (t +:+ u). split; by eapply scan_seq.
Qed.

(** Two texts are the same to the scanner. *)
Lemma scan_text s : no_byte (chr 60) s = true → scan MText s = ("", MText).
Proof.
  induction s as [|c s IH]; [done|]. rewrite no_byte_cons_ne. intros [Hc Hs]. simpl.
  destruct (Ascii.eqb_spec c (chr 60)); [done|]. simpl. by rewrite IH.
Qed.
Lemma same_text a b : no_byte (chr 60) a = true → no_byte (chr 60) b = true → same_markup a b.
Proof. intros Ha Hb. exists "". by rewrite !scan_text. Qed.

Lemma escape_inert l : no_byte (chr 60) (HTMLEscapeString l) = true.
Proof.
  induction l as [|c l IH]; [done|]. simpl. rewrite no_byte_app, IH, andb_true_r. unfold escape_byte.
  repeat case_match; try done. apply no_byte_cons_ne. split; [|done]. by apply Ascii.eqb_neq.
Qed.
Lemma escape_no_quote l : no_byte (chr 34) (HTMLEscapeString l) = true.
Proof.
  induction l as [|c l IH]; [done|]. simpl. rewrite no_byte_app, IH, andb_true_r. unfold escape_byte.
  repeat case_match; try done. apply no_byte_cons_ne. split; [|done]. by apply Ascii.eqb_neq.
Qed.

(** A tag with quoted values is complete. *)
Definition name_ok (k : string) : bool := no_byte (chr 34) k && no_byte (chr 62) k.
Definition attr_ok (a : string * string) : Prop := name_ok a.1 = true ∧ no_byte (chr 34) a.2 = true.

Lemma scan_name k : name_ok k = true → scan MTag k = (k, MTag).
Proof.
  unfold name_ok. rewrite andb_true_iff. induction k as [|c k IH]; [done|].
  rewrite !no_byte_cons_ne. intros [[H1 ?] [H2 ?]]. simpl.
  destruct (Ascii.eqb_spec c (chr 34)); [done|]. destruct (Ascii.eqb_spec c (chr 62)); [done|]. by rewrite IH.
Qed.
Lemma scan_value v : no_byte (chr 34) v = true → scan MQuoted v = (v, MQuoted).
Proof.
  induction v as [|c v IH]; [done|]. rewrite no_byte_cons_ne. intros [Hc Hv]. simpl.
  destruct (Ascii.eqb_spec c (chr 34)); [done|]. by rewrite IH.
Qed.
Lemma scan_attr a : attr_ok a → scan MTag (attr a) = (attr a, MTag).
Proof.
  intros [Hk Hv]. unfold attr. repeat eapply scan_seq; first [by apply scan_name|by apply scan_value|reflexivity].
Qed.
Lemma scan_attrs attrs : Forall attr_ok attrs → scan MTag (sconcat (attr <$> attrs)) = (sconcat (attr <$> attrs), MTag).
Proof.
  induction 1 as [|a attrs Ha _ IH]; [done|]. cbn [fmap list_fmap sconcat foldr].
  eapply scan_seq; [by apply scan_attr|exact IH].
Qed.

Lemma scan_tag name attrs close : name_ok name = true → Forall attr_ok attrs →
  close = ">" ∨ close = "/>" →
  same_markup ("<" +:+ name +:+ sconcat (attr <$> attrs) +:+ close) ("<" +:+ name +:+ sconcat (attr <$> attrs) +:+ close).
Proof.
  intros Hn Ha Hc. exists ("<" +:+ name +:+ sconcat (attr <$> attrs) +:+ close).
  assert (scan MText ("<" +:+ name +:+ sconcat (attr <$> attrs) +:+ close) =
    ("<" +:+ name +:+ sconcat (attr <$> attrs) +:+ close, MText)); [|done].
  repeat eapply scan_seq; [reflexivity|by apply scan_name|by apply scan_attrs|].
  by destruct Hc as [-> | ->].
Qed.
Lemma same_open name attrs : name_ok name = true → Forall attr_ok attrs → same_markup (open_tag name attrs) (open_tag name attrs).
Proof. intros. apply scan_tag; auto. Qed.
Lemma same_empty name attrs : name_ok name = true → Forall attr_ok attrs → same_markup (empty_tag name attrs) (empty_tag name attrs).
Proof. intros. apply scan_tag; auto. Qed.

(** Lists of fragments, drawn alike. *)
Lemma same_imap {A B} (P : A → B → Prop) (f : nat → A → string) (g : nat → B → string) l l' :
  Forall2 P l l' → (∀ i x y, P x y → same_markup (f i x) (g i y)) →
  same_markup (sconcat (imap f l)) (sconcat (imap g l')).
Proof.
  intros Hl. revert f g. induction Hl as [|x y l l' Hxy _ IH]; intros f g Hfg; [by exists ""|].
  cbn [imap sconcat foldr]. apply same_markup_app; [by apply Hfg|]. apply IH. intros. by apply Hfg.
Qed.
Lemma same_map {A B} (P : A → B → Prop) (f : A → string) (g : B → string) l l' :
  Forall2 P l l' → (∀ x y, P x y → same_markup (f x) (g y)) → same_markup (sconcat (f <$> l)) (sconcat (g <$> l')).
Proof.
  intros Hl Hfg. induction Hl as [|x y l l' Hxy _ IH]; [by exists ""|].
  cbn [fmap list_fmap sconcat foldr]. apply same_markup_app; [by apply Hfg|done].
Qed.

(** ** Numbers and labels are clean: no quote, no tag *)

Definition clean (s : string) : bool := no_byte (chr 34) s && no_byte (chr 60) s.

Lemma clean_app a b : clean (a +:+ b) = clean a && clean b.
Proof. unfold clean. rewrite !no_byte_app. by destruct (no_byte (chr 34) a), (no_byte (chr 60) a), (no_byte (chr 34) b). Qed.
Lemma clean_int z : clean (format_int z) = true.
Proof. unfold clean. by rewrite !format_int_no_byte. Qed.
Lemma clean_escape l : clean (HTMLEscapeString l) = true.
Proof. unfold clean. by rewrite escape_no_quote, escape_inert. Qed.
Lemma pad_digits n v : sall is_digit (pad n v) = true.
Proof.
  revert v. induction n as [|n IH]; intros v; [done|]. cbn [pad]. rewrite sall_app, IH. cbn [sall].
  by rewrite is_digit_digit by (apply N.mod_lt; done).
Qed.
Lemma digits_clean s : sall is_digit s = true → clean s = true.
Proof.
  intros Hs. unfold clean. rewrite andb_true_iff. split; (eapply sall_impl; [|exact Hs]); intros x Hx; cbv beta;
    by rewrite digit_not.
Qed.
Lemma clean_append_int n v : clean (append_int n v) = true.
Proof.
  assert (∀ u, clean (if (u <? 10 ^ N.of_nat n)%N then pad n u else format_uint u) = true) as Hb.
  { intros u. apply digits_clean. case_match; [apply pad_digits|apply format_uint_digits]. }
  unfold append_int. case_match; [|apply Hb]. by rewrite clean_app, Hb.
Qed.
Create Rewrite HintDb svg.
#[export] Hint Rewrite clean_app clean_int clean_escape clean_append_int : svg.

Ltac clean_up := repeat case_match; autorewrite with svg; try reflexivity.

Lemma clean_fixed0 q : clean (fixed0 q) = true.
Proof. unfold fixed0. clean_up. Qed.
Lemma clean_fixed1 q : clean (fixed1 q) = true.
Proof. unfold fixed1. cbv zeta. clean_up. Qed.
Lemma clean_fixed2 q : clean (fixed2 q) = true.
Proof. unfold fixed2. cbv zeta. clean_up. Qed.
Lemma clean_lookup l i : forallb clean l = true → clean (default "" (l !! i)) = true.
Proof.
  intros Hl. destruct (l !! i) as [s|] eqn:E; [|done]. simpl. rewrite forallb_forall in Hl.
  apply Hl, list_elem_of_In. by eapply list_elem_of_lookup_2.
Qed.
Lemma clean_weekday d : clean (weekday_text d) = true.
Proof. by apply clean_lookup. Qed.
Lemma clean_cyclic p i : forallb clean p = true → clean (cyclic p i) = true.
Proof. intros. unfold cyclic. by apply clean_lookup. Qed.
Lemma clean_line_color n ln : clean (line_color n ln) = true.
Proof. unfold line_color. case_match; [done|by apply clean_cyclic]. Qed.
Lemma clean_pie_color i : clean (cyclic piePalette i) = true.
Proof. by apply clean_cyclic. Qed.
#[export] Hint Rewrite clean_fixed0 clean_fixed1 clean_fixed2 clean_weekday clean_line_color clean_pie_color : svg.

Lemma clean_month_day t : clean (month_day t) = true.
Proof. unfold month_day. clean_up. Qed.
Lemma clean_in_parens s : clean (in_parens s) = clean s.
Proof. unfold in_parens. rewrite !clean_app. by destruct (clean s). Qed.
#[export] Hint Rewrite clean_month_day clean_in_parens : svg.
Lemma clean_axisLabel spec i t : clean (axisLabel spec i t) = true.
Proof. unfold axisLabel. clean_up. Qed.
Lemma clean_trend_label days every i t : clean (trend_label days every i t) = true.
Proof. unfold trend_label. clean_up. Qed.
Lemma clean_point_text n k : clean (point_text n k) = true.
Proof. unfold point_text. cbv zeta. clean_up. Qed.
#[export] Hint Rewrite clean_axisLabel clean_trend_label clean_point_text : svg.
Lemma clean_general3 q : clean (general3 q) = true.
Proof. unfold general3. cbv zeta. clean_up. Qed.
Lemma clean_join l : forallb clean l = true → clean (join_space l) = true.
Proof.
  induction l as [|s [|s' l] IH]; [done|by simpl; rewrite andb_true_r|]. intros Hl. cbn [forallb] in Hl.
  apply andb_true_iff in Hl as [Hs Hl]. 
  change (join_space (s :: s' :: l)) with (s +:+ " " +:+ join_space (s' :: l)). rewrite !clean_app, Hs. by rewrite IH.
Qed.
Lemma clean_formatLatency `{Float64} q : clean (formatLatency q) = true.
Proof. unfold formatLatency. cbv zeta. clean_up. Qed.
#[export] Hint Rewrite clean_general3 @clean_formatLatency : svg.

(** ** The drawings, fragment by fragment *)

Lemma attr_clean k v : name_ok k = true → clean v = true → attr_ok (k, v).
Proof. intros Hk [Hv _]%andb_true_iff. by split. Qed.
Lemma same_clean a b : clean a = true → clean b = true → same_markup a b.
Proof. intros [_ Ha]%andb_true_iff [_ Hb]%andb_true_iff. by apply same_text. Qed.

Ltac attrs_ok :=
  repeat case_match; simpl app;
  repeat (apply Forall_cons_2; [apply attr_clean; [reflexivity|clean_up; try done]|]); apply Forall_nil_2.
(** Fragments in sequence: tags, clean text, or what the hypotheses say. *)
Ltac same_step :=
  match goal with
  | |- same_markup (open_tag _ _) (open_tag _ _) => apply same_open; [reflexivity|attrs_ok]
  | |- same_markup (empty_tag _ _) (empty_tag _ _) => apply same_empty; [reflexivity|attrs_ok]
  | |- same_markup (close_tag ?n) (close_tag ?n) => exists (close_tag n); split; reflexivity
  | |- same_markup (_ +:+ _) (_ +:+ _) => apply same_markup_app
  | |- same_markup "" "" => by exists ""
  end.
Ltac same_all := repeat same_step.
Ltac same_split := repeat match goal with |- same_markup (_ +:+ _) (_ +:+ _) => apply same_markup_app end.

Section fragments.
Context `{F : Float64}.

Lemma same_tip x y w l l' : same_markup (svgHoverTip x y w l) (svgHoverTip x y w l').
Proof. unfold svgHoverTip. same_all. apply same_clean; apply clean_escape. Qed.
Lemma same_svg_open w h title : clean title = true → same_markup (svg_open w h title) (svg_open w h title).
Proof. intros Ht. unfold svg_open. same_all. Qed.
Lemma same_line x1 y1 x2 y2 color width :
  forallb clean [x1; y1; x2; y2; color; width] = true →
  same_markup (line_tag x1 y1 x2 y2 color width) (line_tag x1 y1 x2 y2 color width).
Proof. simpl. rewrite !andb_true_iff. intros (?&?&?&?&?&?&_). unfold line_tag. same_all. Qed.
Lemma same_refl_map {A} (f : A → string) l : (∀ x, same_markup (f x) (f x)) → same_markup (sconcat (f <$> l)) (sconcat (f <$> l)).
Proof. intros Hf. apply (same_map eq); [reflexivity|]. by intros x y ->. Qed.
Lemma same_refl_imap {A} (f : nat → A → string) l :
  (∀ i x, same_markup (f i x) (f i x)) → same_markup (sconcat (imap f l)) (sconcat (imap f l)).
Proof. intros Hf. apply (same_imap eq); [reflexivity|]. by intros i x y ->. Qed.

Lemma same_grid f : same_markup (gridlines f) (gridlines f).
Proof. unfold gridlines. apply same_refl_map. intros g. apply same_line. simpl. clean_up. Qed.
Lemma same_x_label f i lab : clean lab = true → same_markup (x_label f i lab) (x_label f i lab).
Proof. intros. unfold x_label. same_all. by apply same_clean. Qed.
Lemma same_polyline f color counts : clean color = true → same_markup (polyline f color counts) (polyline f color counts).
Proof.
  intros Hc. unfold polyline. cbv zeta.
  assert (clean (join_space (imap (λ i c, fixed1 (xAt f i) +:+ "," +:+ fixed1 (yAt f c)) counts)) = true) as Hp.
  { apply clean_join, forallb_forall. intros s Hs%list_elem_of_In.
    apply list_elem_of_lookup in Hs as [i Hi]. rewrite list_lookup_imap in Hi.
    destruct (counts !! i); simplify_eq/=. clean_up. }
  same_all.
Qed.
Lemma same_point f color l l' i c : clean color = true → same_markup (point f color l i c) (point f color l' i c).
Proof. intros Hc. unfold point. cbv zeta. same_all. apply same_tip. Qed.

(** The points of a line, under two labels. *)
Lemma same_points f color (l l' : nat → Z → string) counts : clean color = true →
  same_markup (sconcat (imap (λ i c, point f color (l i c) i c) counts))
    (sconcat (imap (λ i c, point f color (l' i c) i c) counts)).
Proof.
  intros Hc. apply (same_imap eq); [reflexivity|]. intros i x y ->. by apply same_point.
Qed.
End fragments.

(** ** Texts are shown as they are *)

Definition entities : list (string * Ascii.ascii) :=
  [("#34;", chr 34); ("#39;", chr 39); ("amp;", chr 38); ("lt;", chr 60); ("gt;", chr 62)].

(** What a browser shows: references are replaced by their characters. *)
Fixpoint decode_aux (fuel : nat) (s : string) : string :=
  match fuel, s with
  | S fuel, String c rest =>
      if Ascii.eqb c (chr 38) then
        match find_first (λ e, has_prefix e.1 rest) entities with
        | Some e => String e.2 (decode_aux fuel (trim_prefix e.1 rest))
        | None => String c (decode_aux fuel rest)
        end
      else String c (decode_aux fuel rest)
  | _, _ => ""
  end.
Definition decode (s : string) : string := decode_aux (String.length s) s.

(** NUL is not allowed in a page; it is shown as the replacement character. *)
Fixpoint without_nul (s : string) : string :=
  match s with
  | "" => ""
  | String c rest => (if Ascii.eqb c (chr 0) then bytes [239; 191; 189]%nat else String c "") +:+ without_nul rest
  end.

Lemma decode_escape_aux l fuel : (String.length (HTMLEscapeString l) <= fuel)%nat →
  decode_aux fuel (HTMLEscapeString l) = without_nul l.
Proof.
  revert fuel. induction l as [|c l IH]; intros fuel Hf; [by destruct fuel|].
  cbn [HTMLEscapeString without_nul] in *. unfold escape_byte in *.
  destruct (Ascii.eqb_spec c (chr 0)) as [->|H0].
  { unfold bytes in *. cbn [foldr] in *. rewrite ?sapp_cons, ?sapp_nil_l in *. simpl in Hf.
    do 3 (destruct fuel as [|fuel]; [lia|]). simpl. by rewrite IH by lia. }
  rewrite (sapp_cons c ""), sapp_nil_l.
  repeat (match goal with |- context [if Ascii.eqb c ?x then _ else _] => destruct (Ascii.eqb_spec c x) as [->|?] end;
    [rewrite ?sapp_cons, ?sapp_nil_l in *; destruct fuel as [|fuel]; simpl in *; [lia|]; unfold trim_prefix; simpl; by rewrite IH by lia|]).
  rewrite ?sapp_cons, ?sapp_nil_l in *. destruct fuel as [|fuel]; simpl in *; [lia|].
  destruct (Ascii.eqb_spec c (chr 38)); [done|]. by rewrite IH by lia.
Qed.

(** ** Inertness *)

(** The same lines, slices and samples under other names. *)
Definition rename_lines (g : nat → string) (lines : list lineSeries) : list lineSeries :=
  imap (λ n ln, mkLine (g n) (ln_counts ln) (ln_rest ln)) lines.
Definition rename_defs (g : nat → string) (defs : list trendSeriesDef) : list trendSeriesDef :=
  imap (λ n d, mkSeries (g n) (ts_color d) (ts_stages d)) defs.
Definition rename_causes (g : nat → string) (l : list ErrorCodeCount) : list ErrorCodeCount :=
  imap (λ n c, mkCodeCount (g n) (ec_Count c)) l.
Definition rename_samples (g : nat → string) (l : list LatencySample) : list LatencySample :=
  imap (λ n s, mkSample (g n) (la_Micros s)) l.

Lemma imap_related {A} (P : A → A → Prop) (f : nat → A → A) l : (∀ i x, P x (f i x)) → Forall2 P l (imap f l).
Proof. revert f. induction l as [|x l IH]; intros f Hf; simpl; [done|]. constructor; [apply Hf|]. apply (IH (f ∘ S)). intros. apply Hf. Qed.

Section inert.
Context `{F : Float64}.

Definition like_line (a b : lineSeries) : Prop := ln_counts a = ln_counts b ∧ ln_rest a = ln_rest b.
Lemma like_color n a b : like_line a b → line_color n a = line_color n b.
Proof. intros [_ Hr]. unfold line_color. by rewrite Hr. Qed.

Lemma same_line_chart cr axis lines lines' : Forall2 like_line lines lines' →
  same_markup (line_chart_svg cr axis lines) (line_chart_svg cr axis lines').
Proof.
  intros Hl. unfold line_chart_svg. cbv zeta.
  assert (ln_counts <$> lines = ln_counts <$> lines') as ->
    by (induction Hl as [|a b l l' [Hc _] _ IH]; [done|by rewrite !fmap_cons, Hc, IH]).
  same_split.
  - apply same_svg_open. clean_up.
  - apply same_grid.
  - apply same_refl_imap. intros i t. case_match; [by exists ""|]. apply same_x_label. clean_up.
  - apply (same_imap like_line); [done|]. intros n a b Hab. rewrite (like_color n a b Hab). destruct Hab as [-> _].
    apply same_polyline. clean_up.
  - apply (same_imap like_line); [done|]. intros n a b Hab. rewrite (like_color n a b Hab). destruct Hab as [-> _].
    apply (same_points _ _ (λ i c, _) (λ i c, _)). clean_up.
  - same_all.
Qed.

(** A renamed series keeps its color, which is one of the constants. *)
Definition like_def (a b : trendSeriesDef * list Z) : Prop :=
  ts_color a.1 = ts_color b.1 ∧ a.2 = b.2 ∧ clean (ts_color b.1) = true.

Lemma same_trend days axis defs defs' series : Forall2 like_def (zip defs series) (zip defs' series) →
  same_markup (trend_svg days axis defs series) (trend_svg days axis defs' series).
Proof.
  intros Hl. unfold trend_svg. cbv zeta. same_split.
  - apply same_svg_open. clean_up.
  - apply same_grid.
  - apply same_refl_imap. intros i t. case_match; [by exists ""|]. apply same_x_label. clean_up.
  - apply (same_map like_def); [done|]. intros a b (->&->&Hc). by apply same_polyline.
  - case_match; [|by exists ""]. apply (same_map like_def); [done|]. intros a b (->&->&Hc).
    by apply (same_points _ _ (λ i c, _) (λ i c, _)).
  - same_all.
Qed.

Lemma trend_defs_clean stage : Forall (λ d, clean (ts_color d) = true) (trend_defs stage).
Proof. unfold trend_defs. case_match; repeat (apply Forall_cons_2; [reflexivity|]); apply Forall_nil_2. Qed.

Lemma like_renamed g defs series : Forall (λ d, clean (ts_color d) = true) defs →
  Forall2 like_def (zip defs series) (zip (rename_defs g defs) series).
Proof.
  unfold rename_defs. intros Hd. revert g series. induction Hd as [|d defs Hd _ IH]; intros g series; [constructor|].
  destruct series as [|s series]; [constructor|]. simpl. constructor; [done|]. apply (IH (g ∘ S)).
Qed.

Definition like_cause (a b : ErrorCodeCount) : Prop := ec_Count a = ec_Count b.
Lemma same_slices tot i acc l l' : Forall2 like_cause l l' → same_markup (slices tot i acc l) (slices tot i acc l').
Proof.
  intros Hl. revert i acc. induction Hl as [|a b l l' Hab _ IH]; intros i acc; [by exists ""|].
  cbn [slices]. cbv zeta. unfold like_cause in Hab. rewrite Hab. apply same_markup_app; [|apply IH].
  unfold slice. same_all. apply same_tip.
Qed.
Lemma same_pie tot l l' : Forall2 like_cause l l' → same_markup (pie_svg tot l) (pie_svg tot l').
Proof.
  intros Hl. unfold pie_svg, center_text. apply same_markup_app; [by apply same_svg_open|].
  apply same_markup_app; [by apply same_slices|]. same_all; apply same_clean; clean_up.
Qed.

Section strip.
Context (math_Log10 : Q → Q) (math_Pow : Q → Q → Q).

Definition like_sample (a b : LatencySample) : Prop := la_Micros a = la_Micros b.
Lemma like_axis l l' : Forall2 like_sample l l' → axis_max math_Log10 math_Pow l = axis_max math_Log10 math_Pow l'.
Proof.
  intros Hl. unfold axis_max. do 3 f_equal. generalize 0%Q. induction Hl as [|a b l l' Hab _ IH]; intros q; [done|].
  simpl. unfold sample_ms, la_Secs in *. rewrite Hab. apply IH.
Qed.
Lemma same_small_text x y extra fill anchor content :
  Forall attr_ok extra → forallb clean [x; y; fill; anchor; content] = true →
  same_markup (small_text x y extra fill anchor content) (small_text x y extra fill anchor content).
Proof.
  simpl. rewrite !andb_true_iff. intros He (?&?&?&?&?&_). unfold small_text. apply same_markup_app.
  - apply same_open; [done|]. apply Forall_app_2; [attrs_ok|]. apply Forall_app_2; [done|]. attrs_ok.
  - apply same_markup_app; [by apply same_clean|same_all].
Qed.
Lemma clean_formatAxisMs ms : clean (formatAxisMs ms) = true.
Proof. unfold formatAxisMs. clean_up. Qed.
Lemma same_tick a i : same_markup (tick a i) (tick a i).
Proof.
  unfold tick. cbv zeta. apply same_markup_app; [apply same_line|apply same_small_text; [constructor|]];
    cbn [forallb]; rewrite ?clean_formatAxisMs; clean_up.
Qed.
Lemma same_slo a : same_markup (slo_mark a) (slo_mark a).
Proof.
  unfold slo_mark. cbv zeta. same_step; [same_all|]. apply same_small_text; [constructor|]. cbn [forallb]. clean_up.
Qed.
Lemma same_p50 a p : same_markup (p50_mark a p) (p50_mark a p).
Proof.
  unfold p50_mark. cbv zeta. same_step; [apply same_line|apply same_small_text]; cbn [forallb]; clean_up. attrs_ok.
Qed.
Lemma same_dot a i s s' : like_sample s s' → same_markup (dot a i s) (dot a i s').
Proof.
  intros Hs. unfold dot, sample_ms, la_Secs. rewrite Hs. cbv zeta. same_all. apply same_tip.
Qed.

Lemma same_strip stats l l' : Forall2 like_sample l l' →
  same_markup (strip_svg math_Log10 math_Pow l stats) (strip_svg math_Log10 math_Pow l' stats).
Proof.
  intros Hl. unfold strip_svg. rewrite (like_axis _ _ Hl). cbv zeta. same_split.
  - by apply same_svg_open.
  - by apply same_line.
  - apply same_refl_map, same_tick.
  - apply same_slo.
  - apply same_p50.
  - apply (same_imap like_sample); [done|]. intros. by apply same_dot.
  - same_all.
Qed.
End strip.

(** Both drawings are complete and have the same tags. *)
Definition drawn_alike (a b : string) : Prop := complete a ∧ complete b ∧ markup a = markup b.

Lemma same_drawn_alike a b : same_markup a b → drawn_alike a b.
Proof. intros (t&Ha&Hb). unfold drawn_alike, complete, markup. by rewrite Ha, Hb. Qed.

(** C32: names in the database cannot change the pages' drawings.  The four
    drawings, which go into the pages without the escaping of the templates,
    are complete markup, and whatever app ids, error codes and stages they
    show, their tags and attributes are the same; and a name in the tip of a
    drawing is shown as it was stored, but for NUL bytes. *)
Theorem drawings_inert (math_Log10 : Q → Q) (math_Pow : Q → Q → Q) (g : nat → string)
    cr axis lines days stage series tot causes samples stats label :
  drawn_alike (line_chart_svg cr axis lines) (line_chart_svg cr axis (rename_lines g lines)) ∧
  drawn_alike (trend_svg days axis (trend_defs stage) series) (trend_svg days axis (rename_defs g (trend_defs stage)) series) ∧
  drawn_alike (pie_svg tot causes) (pie_svg tot (rename_causes g causes)) ∧
  drawn_alike (strip_svg math_Log10 math_Pow samples stats) (strip_svg math_Log10 math_Pow (rename_samples g samples) stats) ∧
  decode (HTMLEscapeString label) = without_nul label.
Proof.
  split; [|split; [|split; [|split]]].
  - apply same_drawn_alike, same_line_chart, imap_related. done.
  - apply same_drawn_alike, same_trend, like_renamed, trend_defs_clean.
  - apply same_drawn_alike, same_pie, imap_related. done.
  - apply same_drawn_alike, same_strip, imap_related. done.
  - by apply decode_escape_aux.
Qed.
End inert.

(** ** The drawings of the charts *)

Section charts.
Context `{F : Float64}.

(** The [SVG] fields of [LineChart] and [FailurePieView]. *)
Definition line_chart_SVG (cr : chartRange) (c : LineChart) : string := line_chart_svg cr (lc_Axis c) (lc_Lines c).
Definition trend_SVG (stage : string) (c : LineChart) : string :=
  trend_svg (Z.of_nat (length (lc_Axis c))) (lc_Axis c) (trend_defs stage) (ln_counts <$> lc_Lines c).
Definition failure_pie_SVG (counts : list ErrorCodeCount) : string :=
  pie_svg (total (ec_Count <$> counts)) (pie_slices counts).
End charts.

(** Axis labels, and a name that looks like markup. *)
Example axis_labels :
  general3 (5 # 4) = "1.25" ∧ general3 20 = "20" ∧ general3 (75 # 2) = "37.5" ∧ general3 375 = "375" ∧
  general3 1000 = "1e+03" ∧ general3 1250 = "1.25e+03" ∧ general3 (9996 # 10) = "1e+03".
Proof. vm_compute. done. Qed.
Example hostile_name : HTMLEscapeString "</text><script>" = "&lt;/text&gt;&lt;script&gt;".
Proof. done. Qed.
