(* ===== verification/AdminServer.v ===== *)
(** * The admin UI as a whole

    [internal/adminui/server.go]: the routes with their session and CSRF
    middleware, and what no request to them can do.  chi is the interface [Mux]
    of [Router]; the middleware of a [Group] and of a [With] wraps each route's
    handler, so a path without a route answers without it. *)

From stdpp Require Import base gmap list strings sorting.
From Stdlib Require Import Ascii ZArith QArith Lia.
From S2P Require Import Prelude GoStrings Encoding GoTime RateLimit AuditChain World AuditLog Auth.
From S2P Require Import Registry Strategy Dispatch Http AdminApi Router Config AdminSession AdminKeys.
From S2P Require Import ApiClient AdminStore Dashboard AdminUi AdminPages AdminViews.

Local Open Scope string_scope.
Local Open Scope Z_scope.
Local Open Scope list_scope.

Section server.
Context `{F : Float64} `{A2 : Argon2} `{PG : Postgres} `{TG : Telegram} `{X : Mux}.
Context (ParsePage : string → bool) (Do : ClientRequest → M (result Response)).
Context (DoRaw : ClientRequest → M (result RawResponse)) (json_Indent : string → option string).
Context (percentile : Q → list Z → Q) (size : ui_body → Z) (s : Server).

(** A route: method, pattern, whether it needs a session and a CSRF token, and
    its handler. *)
Record ui_route := mkUiRoute {
  ut_Method : string; ut_Pattern : string; ut_Session : bool; ut_CSRF : bool; ut_Handler : UiHandler }.

Definition GET (pattern : string) (h : PageHandler) : ui_route := mkUiRoute "GET" pattern true false (lift_page h).
Definition POST (pattern : string) (h : PageHandler) : ui_route := mkUiRoute "POST" pattern true true (lift_page h).

Definition ui_routes : list ui_route :=
  [mkUiRoute "GET" "/login" false false (lift_page (handleLoginPage ParsePage));
   mkUiRoute "POST" "/login" false true (handleLoginSubmit (Ui.Password (sv_cfg s)));
   GET "/" (handleDashboard ParsePage Do percentile s);
   GET "/delivery" (handleDeliveryPage ParsePage s);
   mkUiRoute "POST" "/logout" true true handleLogout;
   GET "/apps" (handleAppsList ParsePage s);
   GET "/apps/new" (handleAppNewForm ParsePage);
   POST "/apps" (handleAppCreate ParsePage Do s);
   GET "/apps/{id}" (handleAppDetail ParsePage s);
   POST "/apps/{id}/patch" (handleAppPatch ParsePage Do s);
   POST "/apps/{id}/deactivate" (handleAppDeactivate ParsePage Do s);
   POST "/apps/{id}/delete" (handleAppDelete ParsePage Do s);
   GET "/keys" (handleKeysPage ParsePage s);
   POST "/keys" (handleKeyIssue ParsePage s);
   POST "/keys/{app}/{prefix}/revoke" (handleKeyRevoke ParsePage s);
   POST "/keys/{app}/{prefix}/label" (handleKeyLabel ParsePage s);
   GET "/apps/{id}/keys" handleKeysLegacyRedirect;
   GET "/audit" (handleAuditPage ParsePage Do s);
   POST "/audit/verify" (handleAuditVerify ParsePage Do s);
   GET "/test-send" (handleTestSendPage ParsePage s);
   POST "/test-send" (handleTestSendSubmit ParsePage DoRaw json_Indent s);
   GET "/users" (handleUsersPage ParsePage s);
   POST "/users/{id}/grade" (handleUserGrade ParsePage Do s);
   POST "/users/{id}/subscriptions" (handleUserSubscribe ParsePage Do s);
   POST "/users/{id}/subscriptions/{app}/delete" (handleUserUnsubscribe ParsePage Do s)].

(** The session check comes first. *)
Definition protect (t : ui_route) : UiHandler :=
  let h := if ut_CSRF t then RequireCSRF (ut_Handler t) else ut_Handler t in
  if ut_Session t then Middleware h else h.

Definition as_http (r : UiRequest) : HttpRequest :=
  mkRequest (u_Method r) (u_Path r) "" (u_TraceHeader r) (u_RemoteAddr r) (query_get r) (u_Param r) None.
Definition with_ui_params (r : UiRequest) (ps : string → string) : UiRequest :=
  mkUiRequest (u_Method r) (u_Path r) (u_TraceHeader r) (u_RemoteAddr r) (u_RawQuery r) (u_Query r) (u_PostForm r)
    (u_FormErr r) (u_Cookies r) ps.

(** The route of a request. *)
Definition ui_find (r : UiRequest) : option (ui_route * (string → string)) :=
  match mux_find "" ((λ t, (ut_Method t, ut_Pattern t)) <$> ui_routes) (as_http r) with
  | RFound i ps => (λ t, (t, ps)) <$> ui_routes !! i
  | _ => None
  end.

Definition ui_select : UiHandler := λ r c st,
  match ui_find r with
  | Some (t, ps) => protect t (with_ui_params r ps) c st
  | None =>
      match mux_find "" ((λ t, (ut_Method t, ut_Pattern t)) <$> ui_routes) (as_http r) with
      | RMethodNotAllowed => (mkUiResponse StatusMethodNotAllowed (UiText "") [] [], st)
      | _ => (http_NotFound, st)
      end
  end.

(** One request, from an empty context. *)
Definition ui_serve (r : UiRequest) : U UiResponse :=
  ui_RequestID (ui_Recover (ui_AccessLog size (securityHeaders (ui_total ui_select)))) r (mkUiCtx "" "" None).

(** [NewServer]: a fresh key, no sessions, full buckets. *)
Definition NewServer : M (result UiState) :=
  (let? sm := NewSessionManager (Ui.CookieSecure (sv_cfg s)) else e => mret (Err e) ;;
   mret (Ok (mkUiState sm ∅ newGlobalBackoff)))%go.
End server.

(** ** Invariants of the database *)

Section ui_inv.
Context `{F : Float64} `{A2 : Argon2} `{PG : Postgres} `{TG : Telegram} `{X : Mux}.
Context (P : Database → Prop) `{!AuditClosed P} `{!KeyClosed P}.
Local Abbreviation kept := (keeps (inv_step P)).

Context (ParsePage : string → bool) (Do : ClientRequest → M (result Response)).
Context (DoRaw : ClientRequest → M (result RawResponse)) (json_Indent : string → option string).
Context (percentile : Q → list Z → Q) (size : ui_body → Z) (s : Server).
Context (HDo : ∀ q, kept (Do q)) (HDoRaw : ∀ q, kept (DoRaw q)) (Haw : server_writer (sv_audit s)).

Lemma inv_reads {A} (m : M A) : keeps reads m → kept m.
Proof using Type. intros H w. apply reads_inv, H. Qed.

Lemma inv_store_query {A} what args (f : Z → Database → result A) : kept (store_query what args f).
Proof using Type. apply inv_within. keeps_all. Qed.

Lemma inv_stream {A} (l : list A) : kept (stream l).
Proof using Type. induction l; simpl; keeps_all. Qed.

Lemma inv_VerifyAuditChain : kept VerifyAuditChain.
Proof using Type. unfold VerifyAuditChain. pose proof @inv_stream. keeps_all. Qed.

Lemma inv_GetApp id : kept (GetApp id).
Proof using Type. apply inv_within. keeps_all. Qed.
Lemma inv_ListKeys app : kept (ListKeys app).
Proof using Type. apply inv_reads, reads_ListKeys. Qed.

Local Hint Resolve inv_store_query inv_GetApp inv_ListKeys inv_VerifyAuditChain inv_within : srv.
Local Hint Extern 1 (keeps (inv_step P) ListApps) => apply inv_store_query : srv.
Local Hint Extern 1 (keeps (inv_step P) ListUsers) => apply inv_store_query : srv.

Lemma inv_basePageData sm c title active : kept (basePageData sm c title active).
Proof using Type. unfold basePageData. keeps_all. Qed.
Local Hint Resolve inv_basePageData : srv.

Lemma inv_with_apps d : kept (with_apps s d).
Proof using Type. unfold with_apps. keeps_all. Qed.
Lemma inv_app_page sm c id : kept (app_page sm c id).
Proof using Type. unfold app_page. keeps_all. Qed.
Lemma inv_new_app_page sm c : kept (new_app_page sm c).
Proof using Type. unfold new_app_page. keeps_all. Qed.
Lemma inv_users_page sm c : kept (users_page sm c).
Proof using Type. unfold users_page. keeps_all. Qed.
Local Hint Resolve inv_with_apps inv_app_page inv_new_app_page inv_users_page : srv.

Lemma inv_keysPageData sm r c : kept (keysPageData s sm r c).
Proof using Type. unfold keysPageData. keeps_all. Qed.
Lemma inv_renderAppDetailError sm c id m : kept (renderAppDetailError ParsePage s sm c id m).
Proof using Type. unfold renderAppDetailError. keeps_all. Qed.
Local Hint Resolve inv_keysPageData inv_renderAppDetailError : srv.
Lemma inv_renderKeysError sm r c m : kept (renderKeysError ParsePage s sm r c m).
Proof using Type. unfold renderKeysError. keeps_all. Qed.
Lemma inv_renderIssueError sm r c m a p l : kept (renderIssueError ParsePage s sm r c m a p l).
Proof using Type. unfold renderIssueError. keeps_all. Qed.
Lemma inv_renderUsersError sm c t m : kept (renderUsersError ParsePage s sm c t m).
Proof using Type. unfold renderUsersError. keeps_all. Qed.
Lemma inv_randomHex n : kept (randomHex n).
Proof using Type. unfold randomHex. keeps_all. Qed.
Lemma inv_HashAPIKey k : kept (HashAPIKey k).
Proof using Type. unfold HashAPIKey. keeps_all. Qed.
Local Hint Resolve inv_renderKeysError inv_renderIssueError inv_renderUsersError inv_randomHex inv_HashAPIKey : srv.

Lemma inv_writeKeyAudit c st a p : kept (writeKeyAudit s c st a p).
Proof using AuditClosed0 Haw.
  unfold writeKeyAudit. destruct Haw as [-> | ->]; [keeps_all|]. apply keeps_bind; [apply _|apply inv_PgWrite; [apply ac_seq|apply ac_recorded]|].
  intros. keeps_all.
Qed.
Lemma inv_testSendPageData sm c : kept (testSendPageData s sm c).
Proof using Type. unfold testSendPageData. keeps_all. Qed.
Local Hint Resolve inv_writeKeyAudit inv_testSendPageData : srv.

Lemma inv_doAdmin cl t me p b : kept (doAdmin Do cl t me p b).
Proof using HDo. unfold doAdmin. keeps_all. Qed.
Lemma inv_client_SearchAudit cl t p : kept (client_SearchAudit Do cl t p).
Proof using HDo. unfold client_SearchAudit. keeps_all. Qed.
Lemma inv_Health cl t : kept (Health Do cl t).
Proof using HDo. unfold Health. keeps_all. Qed.
Local Hint Resolve inv_doAdmin inv_client_SearchAudit inv_Health : srv.

Lemma inv_log_view_err c area what e : kept (log_view_err c area what e).
Proof using Type. unfold log_view_err. keeps_all. Qed.
Lemma inv_view_section {A B} logErr what (q : M (result A)) (build : A → M B) :
  (∀ w e, kept (logErr w e)) → kept q → (∀ a, kept (build a)) → kept (view_section logErr what q build).
Proof using Type. intros. unfold view_section. keeps_all. Qed.
Local Hint Resolve inv_log_view_err inv_view_section : srv.

(** *** Handlers *)

Definition page_kept (h : PageHandler) : Prop := ∀ sm r c, kept (h sm r c).
Local Ltac pages := intros sm r c; keeps_all.

Lemma inv_login_page : page_kept (handleLoginPage ParsePage).
Proof using Type. intros sm r c. unfold handleLoginPage, IssueCSRFCookie. keeps_all. Qed.

Lemma inv_app_pages : page_kept (handleAppsList ParsePage s) ∧ page_kept (handleAppNewForm ParsePage) ∧
  page_kept (handleAppCreate ParsePage Do s) ∧ page_kept (handleAppDetail ParsePage s) ∧
  page_kept (handleAppPatch ParsePage Do s) ∧ page_kept (handleAppDelete ParsePage Do s) ∧
  page_kept (handleAppDeactivate ParsePage Do s).
Proof using HDo.
  split_and!; intros sm r c; unfold handleAppsList, handleAppNewForm, handleAppCreate, handleAppDetail, handleAppPatch,
    handleAppDelete, handleAppDeactivate, send_patch, client_CreateApp, client_PatchApp, client_PurgeApp, client_DeleteApp; keeps_all.
Qed.

Lemma inv_key_pages : page_kept (handleKeysPage ParsePage s) ∧ page_kept handleKeysLegacyRedirect ∧
  page_kept (handleKeyIssue ParsePage s) ∧ page_kept (handleKeyRevoke ParsePage s) ∧ page_kept (handleKeyLabel ParsePage s).
Proof using AuditClosed0 KeyClosed0 Haw.
  split_and!; intros sm r c; unfold handleKeysPage, handleKeysLegacyRedirect, handleKeyIssue, issue_key, handleKeyRevoke, handleKeyLabel;
    keeps_all.
Qed.

Lemma inv_user_pages : page_kept (handleUsersPage ParsePage s) ∧ page_kept (handleUserGrade ParsePage Do s) ∧
  page_kept (handleUserSubscribe ParsePage Do s) ∧ page_kept (handleUserUnsubscribe ParsePage Do s).
Proof using HDo.
  split_and!; intros sm r c; unfold handleUsersPage, handleUserGrade, handleUserSubscribe, handleUserUnsubscribe, user_action,
    PatchUserGrade, client_Subscribe, client_Unsubscribe; keeps_all.
Qed.

Lemma inv_test_pages : page_kept (handleTestSendPage ParsePage s) ∧ page_kept (handleTestSendSubmit ParsePage DoRaw json_Indent s).
Proof using HDoRaw.
  split; intros sm r c; unfold handleTestSendPage, handleTestSendSubmit, proxyTestSend; keeps_all.
Qed.

Lemma inv_auditPageData sm c f : kept (auditPageData Do s sm c f).
Proof using HDo. unfold auditPageData, audit_app_options. keeps_all. Qed.
Lemma inv_verify_walk : kept verify_walk.
Proof using Type. apply inv_within. keeps_all. Qed.
Local Hint Resolve inv_auditPageData inv_verify_walk : srv.

Lemma inv_audit_pages : page_kept (handleAuditPage ParsePage Do s) ∧ page_kept (handleAuditVerify ParsePage Do s).
Proof using HDo. split; intros sm r c; unfold handleAuditPage, handleAuditVerify; keeps_all. Qed.

Lemma inv_RequestBuckets spec : kept (RequestBuckets spec).
Proof using Type. unfold RequestBuckets. keeps_all. Qed.
Local Hint Resolve inv_RequestBuckets : srv.

Local Ltac sections :=
  keeps_all; repeat (apply inv_view_section; [auto with srv| |intros ?]); try apply inv_store_query; keeps_all.

Lemma inv_delivery_page : page_kept (handleDeliveryPage ParsePage s).
Proof using Type.
  intros sm r c. unfold handleDeliveryPage, delivery_screen, logDeliveryErr.
  destruct (resolveDeliveryWindow _) as [[window label] days]. sections.
Qed.

Lemma inv_dashboard_page : page_kept (handleDashboard ParsePage Do percentile s).
Proof using HDo.
  intros sm r c. unfold handleDashboard, dashboard_sections, strip_section, logDashboardErr. sections.
Qed.

(** *** The whole UI *)

Definition ui_kept (h : UiHandler) : Prop := ∀ r c st w, inv_step P w (h r c (st, w)).2.2.

Lemma ui_lift h : page_kept h → ui_kept (lift_page h).
Proof using Type. intros Hh r c st w. unfold lift_page. specialize (Hh (ui_sessions st) r c w). by destruct (h _ _ _ _). Qed.

Lemma ui_Middleware h : ui_kept h → ui_kept (Middleware h).
Proof using Type.
  intros H r c st w. unfold Middleware. destruct (cookie_value _ _); [|reflexivity].
  destruct (verify _ _ _) as [[nonce e]|]; [|reflexivity]. apply H.
Qed.
Lemma ui_RequireCSRF h : ui_kept h → ui_kept (RequireCSRF h).
Proof using Type. intros Hh r c st w. unfold RequireCSRF. repeat (case_match; [reflexivity|]). apply Hh. Qed.

Lemma ui_login pw : ui_kept (handleLoginSubmit pw).
Proof using Type.
  intros r c st w. unfold handleLoginSubmit. destruct (LoginAllow _ _ _) as [ok bs].
  repeat (case_match; [reflexivity|]). case_match; [intros Hi; exact Hi|].
  intros Hdb. destruct (Issue (ui_sessions st) w) as [res w'] eqn:E.
  assert (db_inv P w') as Hw'.
  { assert (kept (Issue (ui_sessions st))) as Hi by (unfold Issue; keeps_all). specialize (Hi w Hdb). by rewrite E in Hi. }
  by destruct res as [[]|].
Qed.

Lemma ui_protect t : ui_kept (ut_Handler t) → ui_kept (protect t).
Proof using Type.
  intros H. unfold protect. repeat case_match; auto using ui_Middleware, ui_RequireCSRF.
Qed.

Lemma ui_routes_kept : Forall (λ t, ui_kept (ut_Handler t)) (ui_routes ParsePage Do DoRaw json_Indent percentile s).
Proof using HDo HDoRaw Haw AuditClosed0 KeyClosed0.
  destruct inv_app_pages as (?&?&?&?&?&?&?), inv_key_pages as (?&?&?&?&?), inv_user_pages as (?&?&?&?),
    inv_test_pages as (?&?), inv_audit_pages as (?&?).
  repeat apply Forall_cons_2; [..|constructor]; simpl;
    try (apply ui_lift; auto using inv_login_page, inv_dashboard_page, inv_delivery_page).
  - apply ui_login.
  - intros r c st w Hw. exact Hw.
Qed.

Lemma ui_serve_kept r st w :
  inv_step P w (ui_serve ParsePage Do DoRaw json_Indent percentile size s r (st, w)).2.2.
Proof using HDo HDoRaw Haw AuditClosed0 KeyClosed0.
  unfold ui_serve, ui_RequestID.
  assert (∀ c w, inv_step P w ((ui_Recover (ui_AccessLog size (securityHeaders (ui_total (ui_select ParsePage Do DoRaw json_Indent percentile s))))) r c (st, w)).2.2) as Hlog.
  { clear w. intros c w. unfold ui_Recover, ui_AccessLog, securityHeaders, ui_total, ui_select.
    destruct (ui_find ParsePage Do DoRaw json_Indent percentile s r) as [[t ps]|] eqn:E.
    - assert (ui_kept (protect t)) as Ht.
      { apply ui_protect. unfold ui_find in E. destruct (mux_find _ _ _) as [i q| |]; [|done|done].
        apply fmap_Some in E as (t'&Hi&[= <- _]). pose proof ui_routes_kept as Hr. rewrite Forall_lookup in Hr. by apply (Hr i). }
      specialize (Ht (with_ui_params r ps) c st w). destruct (protect t _ _ _) as [resp [st' w']]. exact Ht.
    - destruct (mux_find _ _ _); simpl; intros Hw; exact Hw. }
  destruct (if String.eqb (u_TraceHeader r) "" then _ else _) as [t w1] eqn:E.
  assert (inv_step P w w1) as H1.
  { assert (kept (if String.eqb (u_TraceHeader r) "" then uuid_NewString else mret (u_TraceHeader r))) as Hk by keeps_all.
    specialize (Hk w). by destruct (String.eqb _ _); rewrite E in Hk. }
  specialize (Hlog (mkUiCtx t "" None) w1). destruct (ui_Recover _ _ _ _) as [resp [st' w']]. simpl in *.
  intros Hw. by apply Hlog, H1.
Qed.
End ui_inv.

(** A page that panics is answered 500 with internal_error, and the answer has
    the trace id and the security headers that were set before the page ran. *)
Lemma ui_panics_contained `{F : Float64} `{TG : Telegram} size (next : PanicUiHandler) r st w :
  let '(t, w1) := trace_of (as_http r) w in
  ∀ hs, (next r (mkUiCtx t "" None) (st, w1)).1 = inr hs →
  (ui_RequestID (ui_Recover (ui_AccessLog size (securityHeaders next))) r (mkUiCtx "" "" None) (st, w)).1 =
  mkUiResponse 500 (UiText (error_json "internal_error")) [] (("X-Trace-Id", t) :: security_headers ++ hs).
Proof.
  unfold trace_of, ui_RequestID, ui_Recover, ui_AccessLog, securityHeaders.
  destruct (if String.eqb _ _ then _ else _) as [t w1] eqn:E. intros hs Hn.
  replace ((if String.eqb (u_TraceHeader r) "" then uuid_NewString else mret (u_TraceHeader r)) w) with (t, w1)
    by (rewrite <- E; unfold mret, st_ret; simpl; by destruct (String.eqb (u_TraceHeader r) "")).
  destruct (next r _ _) as [o [st' w']]. simpl in *. subst o. unfold add_headers. simpl. by rewrite app_nil_r.
Qed.

(** ** Nothing happens without a session *)

Section guarded.
Context `{F : Float64} `{A2 : Argon2} `{PG : Postgres} `{TG : Telegram} `{X : Mux}.
Context (ParsePage : string → bool) (Do : ClientRequest → M (result Response)).
Context (DoRaw : ClientRequest → M (result RawResponse)) (json_Indent : string → option string).
Context (percentile : Q → list Z → Q) (size : ui_body → Z) (s : Server).
Local Abbreviation routes := (ui_routes ParsePage Do DoRaw json_Indent percentile s).
Local Abbreviation find := (ui_find ParsePage Do DoRaw json_Indent percentile s).

(** No call was made: only identifiers and random bytes were drawn and lines
    logged. *)
Definition idle : relation World := λ w w',
  w_db w' = w_db w ∧ w_tx w' = w_tx w ∧ w_now w' = w_now w ∧ w_deadline w' = w_deadline w ∧ w_oracle w' = w_oracle w ∧
  w_tg w' = w_tg w ∧ w_requests w' = w_requests w ∧ w_dispatch w' = w_dispatch w.

#[export] Instance idle_preorder : PreOrder idle.
Proof. split; [by repeat split|]. unfold idle. intros ??? H1 H2. destruct_and!. by split_and!; etrans. Qed.

Lemma idle_rand n : keeps idle (rand_Read n).
Proof. intros w. by repeat split. Qed.
Lemma idle_uuid : keeps idle uuid_NewString.
Proof. intros w. by repeat split. Qed.
Lemma idle_Log l e f : keeps idle (Log l e f).
Proof. intros w. by repeat split. Qed.
Local Hint Resolve idle_rand idle_uuid idle_Log : srv.

(** The request left the world and the sessions alone. *)
Definition no_effect (x : UiState * World) (p : UiResponse * (UiState * World)) : Prop :=
  idle x.2 p.2.2 ∧ ui_sessions p.2.1 = ui_sessions x.1.

Lemma login_page_no_effect r c x : no_effect x (lift_page (handleLoginPage ParsePage) r c x).
Proof.
  destruct x as [st w]. unfold lift_page.
  assert (keeps idle (handleLoginPage ParsePage (ui_sessions st) r c)) as Hk
    by (unfold handleLoginPage, IssueCSRFCookie, randomHex; keeps_all).
  specialize (Hk w). by destruct (handleLoginPage _ _ _ _ _).
Qed.

Lemma login_no_effect pw r c x : no_effect x (handleLoginSubmit pw r c x).
Proof.
  destruct x as [st w]. unfold handleLoginSubmit. destruct (LoginAllow _ _ _) as [ok bs].
  repeat (case_match; [by split; [repeat split|]|]).
  assert (keeps idle (Issue (ui_sessions st))) as Hk by (unfold Issue, randomHex; keeps_all). specialize (Hk w).
  destruct (Issue _ _) as [[[? ?]|] w']; split; try done.
Qed.

(** A route needs a session, and a token when it is a POST; or it is the login. *)
Definition guarded_route (t : ui_route) : Prop :=
  (ut_Session t = true ∧ (ut_Method t = "POST" → ut_CSRF t = true)) ∨
  (ut_Session t = false ∧ ut_Pattern t = "/login" ∧ ∀ r c x, no_effect x (ut_Handler t r c x)).

Lemma routes_guarded : Forall guarded_route routes.
Proof.
  unfold guarded_route. repeat apply Forall_cons_2; [..|constructor]; simpl; try (left; done);
    right; split_and!; try done; [apply login_page_no_effect|apply login_no_effect].
Qed.

(** The request carries a valid session cookie and, on a POST, its token. *)
Definition authorized (sm : SessionManager) (now : Z) (r : UiRequest) (t : ui_route) : Prop :=
  ∃ v nonce expiry, cookie_value r sessionCookieName = Some v ∧ verify now sm v = Some (nonce, expiry) ∧
    (ut_Method t = "POST" → ∀ tr, csrf_ok sm r (mkUiCtx tr nonce (Some expiry)) = true).

Lemma RequireCSRF_no_effect h r c x : u_FormErr r = true ∨ csrf_ok (ui_sessions x.1) r c = false → no_effect x (RequireCSRF h r c x).
Proof.
  destruct x as [st w]. unfold RequireCSRF. simpl. intros [-> | ->]; [|simpl; case_match]; by repeat split.
Qed.

Lemma protect_guarded t r c x : guarded_route t → 
  (ut_Session t = true ∧ authorized (ui_sessions x.1) (w_now x.2) r t) ∨ no_effect x (protect t r c x).
Proof.
  destruct x as [st w]. intros [[Hs Hm]|(Hs&_&Hn)]; unfold protect; rewrite Hs.
  - unfold Middleware. destruct (cookie_value r sessionCookieName) as [v|] eqn:Ec; [|right; by repeat split].
    destruct (verify (w_now w) (ui_sessions st) v) as [[nonce e]|] eqn:Ev; [|right; by repeat split].
    destruct (decide (ut_Method t = "POST" ∧ csrf_ok (ui_sessions st) r (mkUiCtx (uc_TraceID c) nonce (Some e)) = false))
      as [[Hp Hc]|Hc].
    + right. rewrite (Hm Hp). apply RequireCSRF_no_effect. by right.
    + left. split; [done|]. exists v, nonce, e. split_and!; [done|done|]. intros Hp tr.
      destruct (csrf_ok (ui_sessions st) r (mkUiCtx (uc_TraceID c) nonce (Some e))) eqn:E; [|naive_solver]. exact E.
  - right. destruct (ut_CSRF t); [|apply Hn]. unfold RequireCSRF. repeat (case_match; [by repeat split|]). apply Hn.
Qed.

Lemma find_guarded r t ps : find r = Some (t, ps) → guarded_route t.
Proof.
  unfold ui_find. destruct (mux_find _ _ _) as [i q| |]; [|done|done]. intros (t'&Hi&[= <- _])%fmap_Some.
  pose proof routes_guarded as Hr. rewrite Forall_lookup in Hr. by apply (Hr i).
Qed.

(** C4: the admin UI does nothing for strangers.  A request has no effect at
    all (no database statement, no call to the server, no session touched; only
    lines logged, random bytes drawn and the login brakes moved) unless the
    router finds it a route and it carries a session cookie that verifies at
    that moment and, when the route is a POST, the CSRF token of that session.
    And every response carries the security headers. *)
Theorem ui_guarded r st w :
  let p := ui_serve ParsePage Do DoRaw json_Indent percentile size s r (st, w) in
  (no_effect (st, w) p ∨
   ∃ t ps, find r = Some (t, ps) ∧ ut_Session t = true ∧ authorized (ui_sessions st) (w_now w) r t) ∧
  ∃ tr hs, ux_Headers p.1 = ("X-Trace-Id", tr) :: security_headers ++ hs.
Proof.
  cbn zeta. unfold ui_serve, ui_RequestID.
  assert (keeps idle (if String.eqb (u_TraceHeader r) "" then uuid_NewString else mret (u_TraceHeader r))) as Hk by keeps_all.
  specialize (Hk w).
  match type of Hk with idle _ (?m w).2 => change (idle w (m w).2) in Hk; destruct (m w) as [tr w1] end.
  simpl in Hk. rename Hk into H1.
  unfold ui_Recover, ui_AccessLog, securityHeaders, ui_total, ui_select. destruct H1 as (Hdb&Htx&Hnow&H1).
  destruct (find r) as [[t ps]|] eqn:Ef.
  - destruct (protect_guarded t (with_ui_params r ps) (mkUiCtx tr "" None) (st, w1) (find_guarded _ _ _ Ef)) as [[Hs Ha]|[Hi Hs]];
      destruct (protect t _ _ _) as [resp [st' w']]; simpl in *; (split; [|by eexists tr, _]).
    + right. exists t, ps. rewrite <- Hnow. done.
    + left. unfold no_effect, idle in *. simpl in *. destruct_and!. repeat split; congruence.
  - destruct (mux_find _ _ _); simpl; (split; [left; unfold no_effect, idle; simpl; destruct_and!; repeat split; congruence|by eexists tr, _]).
Qed.
End guarded.
