(* ===== verification/UiTyped.v ===== *)
(** * The types of the admin UI's responses, and its templates

    [internal/adminui/templates/templates.go]: the embedded files and
    [ParsePage], with [html/template] as a parameter; and what every response of
    [internal/adminui] is: a page that is embedded, a redirect that stays on the
    site, or a text with an error status, with cookies that scripts and other
    sites cannot use. *)

From stdpp Require Import base gmap list strings.
From Stdlib Require Import ZArith QArith Lia.
From S2P Require Import Prelude GoStrings RateLimit AuditChain World AuditLog Auth Http Router Typed Config.
From S2P Require Import AdminSession AdminKeys ApiClient AdminStore Dashboard AdminUi AdminPages AdminViews AdminServer.

Local Open Scope string_scope.
Local Open Scope Z_scope.
Local Open Scope list_scope.

(** ** templates.go *)

(** [FS]: the files the binary embeds. *)
Definition FS : list string :=
  ["app_detail.html"; "app_new.html"; "apps_list.html"; "audit.html"; "base.html"; "dashboard.html"; "delivery.html";
   "key_issued.html"; "keys.html"; "login.html"; "testsend.html"; "users.html"].

(** [ParsePage]: [template.ParseFS] fails when a file is missing, otherwise it
    is [parses] of the files. *)
Definition ParsePage (parses : list string → bool) (page : string) : bool :=
  bool_decide ("base.html" ∈ FS) && bool_decide (page ∈ FS) && parses ["base.html"; page].

(** ** Shapes *)

(** A path on this site: not a URL with a scheme, and not one with a host. *)
Definition local_url (url : string) : bool := has_prefix "/" url && negb (has_prefix "//" url).

Definition ui_error_statuses : list Z :=
  [StatusBadRequest; StatusForbidden; StatusNotFound; StatusMethodNotAllowed; StatusTooManyRequests; StatusInternalServerError].

Definition body_shape (status : Z) (b : ui_body) : Prop :=
  match b with
  | UiPage page _ => status = StatusOK ∧ page ∈ FS
  | UiRedirect url => status = StatusSeeOther ∧ local_url url = true
  | UiText _ => status ∈ ui_error_statuses
  end.

Definition guarded_cookie (secure : bool) (ck : Cookie) : Prop :=
  ck_HttpOnly ck = true ∧ ck_SameSiteStrict ck = true ∧ ck_Path ck = "/" ∧ ck_Secure ck = secure.

Definition ui_shape (secure : bool) (resp : UiResponse) : Prop :=
  body_shape (ux_Status resp) (ux_Body resp) ∧ Forall (guarded_cookie secure) (ux_Cookies resp).

Section shapes.
Context (secure : bool).

Lemma shape_error text status : status ∈ ui_error_statuses → ui_shape secure (http_Error text status).
Proof. intros H. split; [exact H|constructor]. Qed.
Lemma shape_internal : ui_shape secure internal_error.
Proof. apply shape_error. listed. Qed.
Lemma shape_not_found : ui_shape secure http_NotFound.
Proof. apply shape_error. listed. Qed.
Lemma shape_redirect url : local_url url = true → ui_shape secure (http_Redirect url).
Proof. intros H. split; [by split|constructor]. Qed.
Lemma shape_page page d : page ∈ FS → ui_shape secure (mkUiResponse StatusOK (UiPage page d) [] []).
Proof. intros H. split; [by split|constructor]. Qed.
Lemma shape_render Parse page d : page ∈ FS → ui_shape secure (render Parse page d).
Proof. intros H. unfold render. case_match; [by apply shape_page|apply shape_internal]. Qed.
Lemma shape_headers hs resp : ui_shape secure resp → ui_shape secure (add_headers hs resp).
Proof. done. Qed.
End shapes.

(** One step through a page handler. *)
Ltac shape_step :=
  match goal with
  | |- returns _ (match ?x with _ => _ end) => destruct x
  | |- returns _ (mbind _ _) => apply returns_any; intros ?
  | |- returns _ (mret _) => apply returns_ret
  | |- ui_shape _ (if ?b then _ else _) => destruct b
  | |- ui_shape _ (render _ _ _) => apply shape_render; listed
  | |- ui_shape _ (http_Redirect _) => apply shape_redirect; reflexivity
  | |- ui_shape _ internal_error => apply shape_internal
  | |- ui_shape _ http_NotFound => apply shape_not_found
  | |- ui_shape _ (http_Error _ _) => apply shape_error; listed
  | |- ui_shape _ (mkUiResponse StatusOK (UiPage _ _) [] []) => apply shape_page; listed
  end.
Create HintDb shape.
Ltac shapes := repeat (shape_step; cbv zeta).

Section pages.
Context `{F : Float64} `{A2 : Argon2} `{PG : Postgres} `{TG : Telegram} `{X : Mux}.
Context (Parse : string → bool) (Do : ClientRequest → M (result Response)).
Context (DoRaw : ClientRequest → M (result RawResponse)) (json_Indent : string → option string).
Context (percentile : Q → list Z → Q) (s : Server).

(** The handler's responses have the shape, with the session manager's setting
    for cookies. *)
Definition shaped (h : PageHandler) : Prop := ∀ sm r c, returns (ui_shape (sm_secure sm)) (h sm r c).

Lemma shaped_login_page : shaped (handleLoginPage Parse).
Proof.
  intros sm r c. unfold handleLoginPage. case_match; [apply returns_ret, shape_internal|].
  unfold IssueCSRFCookie. intros w. rewrite bind_run.
  destruct (randomHex 16 w) as [[nonce|e] w1] eqn:E; unfold mbind, st_bind, mret, st_ret; rewrite E; simpl; [|apply shape_internal].
  split; [split; [done|listed]|]. by repeat constructor.
Qed.

Lemma shaped_renderAppDetailError sm c id m : returns (ui_shape (sm_secure sm)) (renderAppDetailError Parse s sm c id m).
Proof. unfold renderAppDetailError. shapes. Qed.
Lemma shaped_renderKeysError sm r c m : returns (ui_shape (sm_secure sm)) (renderKeysError Parse s sm r c m).
Proof. unfold renderKeysError. shapes. Qed.
Lemma shaped_renderIssueError sm r c m a p l : returns (ui_shape (sm_secure sm)) (renderIssueError Parse s sm r c m a p l).
Proof. unfold renderIssueError. shapes. Qed.
Lemma shaped_renderUsersError sm c t m : returns (ui_shape (sm_secure sm)) (renderUsersError Parse s sm c t m).
Proof. unfold renderUsersError. shapes. Qed.
Lemma shaped_send_patch sm c id req : returns (ui_shape (sm_secure sm)) (send_patch Parse Do s sm c id req).
Proof. unfold send_patch. shapes. apply shaped_renderAppDetailError. Qed.
Lemma shaped_issue_key sm r c a p l : returns (ui_shape (sm_secure sm)) (issue_key Parse s sm r c a p l).
Proof. unfold issue_key. shapes. apply shaped_renderIssueError. Qed.
Lemma shaped_user_action saved call : shaped (user_action Parse s saved call).
Proof. intros sm r c. unfold user_action. shapes. apply shaped_renderUsersError. Qed.

Local Hint Resolve shaped_renderAppDetailError shaped_renderKeysError shaped_renderIssueError shaped_renderUsersError
  shaped_send_patch shaped_issue_key : shape.

Lemma shaped_apps : shaped (handleAppsList Parse s) ∧ shaped (handleAppNewForm Parse) ∧ shaped (handleAppCreate Parse Do s) ∧
  shaped (handleAppDetail Parse s) ∧ shaped (handleAppPatch Parse Do s) ∧ shaped (handleAppDelete Parse Do s) ∧
  shaped (handleAppDeactivate Parse Do s).
Proof.
  split_and!; intros sm r c;
    unfold handleAppsList, handleAppNewForm, handleAppCreate, handleAppDetail, handleAppPatch, handleAppDelete, handleAppDeactivate;
    shapes; eauto with shape.
Qed.
Lemma shaped_keys : shaped (handleKeysPage Parse s) ∧ shaped handleKeysLegacyRedirect ∧ shaped (handleKeyIssue Parse s) ∧
  shaped (handleKeyRevoke Parse s) ∧ shaped (handleKeyLabel Parse s).
Proof.
  split_and!; intros sm r c; unfold handleKeysPage, handleKeysLegacyRedirect, handleKeyIssue, handleKeyRevoke, handleKeyLabel;
    shapes; eauto with shape.
Qed.
Lemma shaped_users : shaped (handleUsersPage Parse s) ∧ shaped (handleUserGrade Parse Do s) ∧
  shaped (handleUserSubscribe Parse Do s) ∧ shaped (handleUserUnsubscribe Parse Do s).
Proof.
  split_and!; [|apply shaped_user_action..]. intros sm r c. unfold handleUsersPage. shapes.
Qed.
Lemma shaped_views : shaped (handleTestSendPage Parse s) ∧ shaped (handleTestSendSubmit Parse DoRaw json_Indent s) ∧
  shaped (handleAuditPage Parse Do s) ∧ shaped (handleAuditVerify Parse Do s) ∧ shaped (handleDashboard Parse Do percentile s) ∧
  shaped (handleDeliveryPage Parse s).
Proof.
  split_and!; intros sm r c;
    unfold handleTestSendPage, handleTestSendSubmit, handleAuditPage, handleAuditVerify, handleDashboard, handleDeliveryPage;
    shapes.
Qed.

(** *** Handlers with the server's own state *)

Definition ui_shaped (h : UiHandler) : Prop := ∀ r c st w, ui_shape (sm_secure (ui_sessions st)) (h r c (st, w)).1.

Lemma shaped_lift h : shaped h → ui_shaped (lift_page h).
Proof.
  intros Hh r c st w. unfold lift_page. pose proof (Hh (ui_sessions st) r c w) as H. by destruct (h _ _ _ w).
Qed.
Lemma shaped_login_submit pw : ui_shaped (handleLoginSubmit pw).
Proof.
  intros r c st w. unfold handleLoginSubmit. destruct (LoginAllow _ _ _) as [ok bs].
  destruct (negb ok); [apply shape_error; listed|]. destruct (negb _); [apply shape_error; listed|].
  destruct (negb _); [by apply shape_redirect|].
  unfold Issue. rewrite bind_run. destruct (randomHex 16 w) as [[nonce|e] w1]; simpl; [|apply shape_internal].
  split; [by split|]. by repeat constructor.
Qed.
Lemma shaped_logout : ui_shaped handleLogout.
Proof.
  intros r c st w. unfold handleLogout. split; [by split|]. simpl. repeat constructor. unfold Revoke. by case_match.
Qed.

Lemma shaped_protect t : ui_shaped (ut_Handler t) → ui_shaped (protect t).
Proof.
  intros Ht. assert (ui_shaped (if ut_CSRF t then RequireCSRF (ut_Handler t) else ut_Handler t)) as Hc.
  { case_match; [|done]. intros r c st w. unfold RequireCSRF. repeat case_match; try (apply shape_error; listed). apply Ht. }
  unfold protect. destruct (ut_Session t); [|done]. revert Hc. generalize (if ut_CSRF t then RequireCSRF (ut_Handler t) else ut_Handler t).
  intros h Hh r c st w. unfold Middleware. repeat case_match; try (by apply shape_redirect). apply Hh.
Qed.

Lemma shaped_routes : Forall (λ t, ui_shaped (ut_Handler t)) (ui_routes Parse Do DoRaw json_Indent percentile s).
Proof.
  destruct shaped_apps as (?&?&?&?&?&?&?), shaped_keys as (?&?&?&?&?), shaped_users as (?&?&?&?), shaped_views as (?&?&?&?&?&?).
  unfold ui_routes. repeat apply Forall_cons_2; [..|constructor]; simpl;
    first [apply shaped_login_submit|apply shaped_logout|apply shaped_lift; auto using shaped_login_page].
Qed.

Lemma shaped_select : ui_shaped (ui_select Parse Do DoRaw json_Indent percentile s).
Proof.
  intros r c st w. unfold ui_select. destruct (ui_find _ _ _ _ _ s r) as [[t ps]|] eqn:E.
  - apply shaped_protect. unfold ui_find in E. destruct (mux_find _ _ _) as [i q| |]; [|done|done].
    apply fmap_Some in E as (t'&Hi&[= -> _]). pose proof shaped_routes as Hr. rewrite Forall_lookup in Hr. by apply (Hr i).
  - destruct (mux_find _ _ _); simpl; [apply shape_not_found..|]. apply (shape_error _ ""). listed.
Qed.

(** C14: the admin UI's responses are well formed.  Whatever the request, the
    state of the world and the failures met, the answer is a page whose template
    the binary embeds, with status 200; or a redirect to a path of the site
    itself, with status 303; or a text with one of six error statuses.  Every
    cookie it sets is out of reach of scripts and of other sites' requests, and
    restricted to TLS when the configuration says so. *)
Theorem ui_responses_typed size r st w :
  let resp := (ui_serve Parse Do DoRaw json_Indent percentile size s r (st, w)).1 in
  match ux_Body resp with
  | UiPage page _ => ux_Status resp = StatusOK ∧ page ∈ FS
  | UiRedirect url => ux_Status resp = StatusSeeOther ∧ local_url url = true
  | UiText _ => ux_Status resp ∈ ui_error_statuses
  end ∧ Forall (guarded_cookie (sm_secure (ui_sessions st))) (ux_Cookies resp).
Proof.
  cbn zeta. unfold ui_serve, ui_RequestID.
  destruct ((if String.eqb (u_TraceHeader r) "" then uuid_NewString else mret (u_TraceHeader r)) w) as [t w1].
  unfold ui_Recover, ui_AccessLog, securityHeaders, ui_total.
  pose proof (shaped_select r (mkUiCtx t "" None) st w1) as H. simpl.
  destruct (ui_select _ _ _ _ _ _ _ _ _) as [resp [st' w2]]. exact H.
Qed.
End pages.

(** With templates that parse, no page fails for want of its template. *)
Lemma embedded_pages_parse parses page : page ∈ FS → (∀ fs, parses fs = true) → ParsePage parses page = true.
Proof. intros Hp Ha. unfold ParsePage. rewrite Ha, !bool_decide_true; [done|done|listed]. Qed.
