(* ===== verification/KeyIssue.v ===== *)
(** * From the admin UI to the server: an issued key authenticates

    What [handleKeyIssue] of [internal/adminui/keys.go] shows on its page against
    what [KeyStore.Resolve] of [internal/auth/store.go] accepts. *)

From stdpp Require Import base gmap list strings sorting.
From Stdlib Require Import Ascii ZArith QArith Lia.
From S2P Require Import Prelude GoStrings Encoding RateLimit AuditChain World AuditLog Auth Registry.
From S2P Require Import Strategy Dispatch Http AdminApi Router Config AdminSession AdminKeys ApiClient.
From S2P Require Import AdminStore Dashboard AdminUi AdminPages AdminViews AdminServer.

Local Open Scope string_scope.
Local Open Scope Z_scope.
Local Open Scope list_scope.

(** ** Texts of the two patterns *)

Lemma in_set_ascii c extra : sall (λ x, in_range x 1 127) extra = true → in_set c extra = true → in_range c 1 127 = true.
Proof.
  intros He. unfold in_set. rewrite !orb_true_iff, negb_true_iff. unfold in_range.
  intros [[H|H]|H]; [rewrite !andb_true_iff, !Nat.leb_le in *; lia..|].
  induction extra as [|x extra IH]; [done|]. cbn [sall] in He. apply andb_true_iff in He as [Hx He].
  destruct (Ascii.eqb_spec c x) as [->|Hne]; [exact Hx|].
  apply IH; [done|]. rewrite <- H. symmetry. unfold no_byte. simpl.
  destruct (Ascii.eqb_spec x c); [congruence|done].
Qed.

Lemma ascii_utf8_ok s : sall (λ x, in_range x 1 127) s = true → utf8_ok s = true.
Proof. induction s as [|c s IH]; [done|]. cbn [sall utf8_ok]. intros [-> H]%andb_true_iff. auto. Qed.

Lemma prefix_pattern_ok s : keyPrefixPattern s = true → s ≠ "" ∧ no_byte "_" s = true ∧ utf8_ok s = true.
Proof.
  unfold keyPrefixPattern. rewrite !andb_true_iff, !Nat.leb_le. intros [[Hs H1] H2]. split_and!.
  - intros ->. simpl in H1. lia.
  - revert Hs. apply sall_impl. intros c Hc. destruct (Ascii.eqb_spec c "_") as [->|]; [done|]. done.
  - apply ascii_utf8_ok. revert Hs. apply sall_impl. intros c. by apply in_set_ascii.
Qed.

Lemma app_pattern_ok s : appIDPattern s = true → utf8_ok s = true.
Proof.
  destruct s as [|c s]; [done|]. unfold appIDPattern, appIDRegex. rewrite !andb_true_iff. intros [[[Hc Hs] _] _].
  apply ascii_utf8_ok. cbn [sall]. rewrite (in_set_ascii c ""), andb_true_l by done.
  revert Hs. apply sall_impl. intros d. by apply in_set_ascii.
Qed.

(** ** Issuing *)

Section issued.
Context `{F : Float64} `{A2 : Argon2} `{PG : Postgres} `{TG : Telegram}.
Context (ParsePage : string → bool) (s : Server).

(** The app, the prefix and the plaintext on the page that shows an issued key. *)
Definition shown_key (resp : UiResponse) : option (string * string * string) :=
  match ux_Body resp with
  | UiPage name d =>
      match pd_View d with
      | VIssued app prefix _ plaintext => if String.eqb name "key_issued.html" then Some (app, prefix, plaintext) else None
      | _ => None
      end
  | _ => None
  end.
Definition shows_key (resp : UiResponse) (app prefix plaintext : string) : Prop := shown_key resp = Some (app, prefix, plaintext).

Lemma render_no_key page d app prefix pt : page ≠ "key_issued.html" → ¬ shows_key (render ParsePage page d) app prefix pt.
Proof.
  intros Hp. unfold shows_key, shown_key, render. destruct (ParsePage page); [|done]. simpl.
  destruct (pd_View d); try done. by destruct (String.eqb_spec page "key_issued.html").
Qed.

Lemma renderIssueError_no_key sm r c m a p l w app prefix pt :
  ¬ shows_key (renderIssueError ParsePage s sm r c m a p l w).1 app prefix pt.
Proof.
  unfold renderIssueError, mbind, st_bind. destruct (keysPageData s sm r c w). by apply render_no_key.
Qed.

Lemma audits_writeKeyAudit c st a p : server_writer (sv_audit s) → keeps audits (writeKeyAudit s c st a p).
Proof. intros Haw. unfold writeKeyAudit. destruct Haw as [-> | ->]; simpl; keeps_all. Qed.

(** [db] has a live key of an active app that [plaintext] verifies against. *)
Definition accepts (db : Database) (app prefix plaintext : string) : Prop :=
  ∃ i k a, app_keys db !! i = Some k ∧ revoked_at k = None ∧ key_prefix k = prefix ∧ k_app_id k = app ∧
    VerifyAPIKey plaintext (key_hash k) = Ok true ∧ apps db !! app = Some a ∧ app_active a = true.

Lemma accepts_sans db db' app prefix pt : sans_audit db' = sans_audit db → accepts db app prefix pt → accepts db' app prefix pt.
Proof.
  intros Hs (i&k&a&Hk&?&?&?&?&Ha&?).
  assert (app_keys db' = app_keys db) as Ek by exact (f_equal app_keys Hs).
  assert (apps db' = apps db) as Ea by exact (f_equal apps Hs).
  exists i, k, a. by rewrite Ek, Ea.
Qed.

Lemma insert_accepts app prefix plaintext salt label now db :
  issuable app prefix db → (sql_insert_key app (encodeArgon2id plaintext salt) prefix label now db).1 = Ok () →
  accepts (sql_insert_key app (encodeArgon2id plaintext salt) prefix label now db).2 app prefix plaintext.
Proof.
  intros (Hp&a&Ha&Hact). unfold sql_insert_key. rewrite Hp, Ha. simpl. case_bool_decide; [done|]. intros _.
  exists (seq_keys db), (mkKey app (encodeArgon2id plaintext salt) prefix label now None), a. simpl.
  rewrite lookup_insert_eq. split_and!; try done. by rewrite verify_encoded, String.eqb_refl.
Qed.

Lemma issue_key_shows sm r c app prefix label w app' prefix' pt :
  server_writer (sv_audit s) → shows_key (issue_key ParsePage s sm r c app prefix label w).1 app' prefix' pt →
  app' = app ∧ prefix' = prefix ∧ (∃ secret, secret ≠ "" ∧ pt = key_plaintext prefix secret) ∧
  accepts (w_db (issue_key ParsePage s sm r c app prefix label w).2) app prefix pt.
Proof.
  intros Haw. unfold issue_key, randomHex, HashAPIKey, rand_Read, mbind, st_bind, mret, st_ret.
  destruct (w_rand w (w_rand_n w)) as [b|]; [|done].
  pose proof (hex_encode_length (fit keySecretBytes b)) as Hlen. rewrite fit_length in Hlen.
  set (secret := hex_encode (fit keySecretBytes b)) in *. set (w1 := with_rand_n _ w).
  destruct (w_rand w1 (w_rand_n w1)) as [b2|]; [|done]. set (w2 := with_rand_n _ w1).
  set (hash := encodeArgon2id _ _).
  destruct (IssueKey_outcome app prefix hash label w2) as [[_ Hno]|(now&Hiss&Hins&Hdb)];
    destruct (IssueKey app prefix hash label w2) as [[[]|e] w3]; simpl in Hno || simpl in Hdb; try done;
    try (by intros ?%renderIssueError_no_key).
  pose proof (audits_writeKeyAudit c StageKeyIssued app prefix Haw w3) as [Hs _].
  destruct (writeKeyAudit s c StageKeyIssued app prefix w3) as [[] w4]. simpl in Hs |- *.
  destruct (ParsePage "key_issued.html"); simpl; [|done].
  intros Hv. unfold shows_key in Hv. simpl in Hv. injection Hv as <- <- <-.
  split_and!; [done|done| |].
  - exists secret. split; [|done]. intros E. rewrite E in Hlen. done.
  - apply (accepts_sans (w_db w3)); [exact Hs|]. rewrite Hdb. by apply insert_accepts.
Qed.

Lemma handleKeyIssue_shows sm r c w app prefix pt :
  server_writer (sv_audit s) → shows_key (handleKeyIssue ParsePage s sm r c w).1 app prefix pt →
  appIDPattern app = true ∧ keyPrefixPattern prefix = true ∧ (∃ secret, secret ≠ "" ∧ pt = key_plaintext prefix secret) ∧
  accepts (w_db (handleKeyIssue ParsePage s sm r c w).2) app prefix pt.
Proof.
  intros Haw. unfold handleKeyIssue.
  destruct (appIDPattern _) eqn:Ea; [|by intros ?%renderIssueError_no_key].
  destruct (keyPrefixPattern _) eqn:Ep; [|by intros ?%renderIssueError_no_key].
  destruct (rune_count _ <=? _)%nat; [|by intros ?%renderIssueError_no_key].
  destruct (sv_db s); [|by intros ?%renderIssueError_no_key].
  intros (->&->&Hs&Hk)%issue_key_shows; [|done]. done.
Qed.

(** C15: a key the admin UI shows works.  When issuing a key ends in the page with
    the plaintext, the server accepts exactly that text as a bearer token, from
    the database as it is then: it resolves to the app the key was issued for. *)
Theorem issued_key_resolves sm r c w app prefix pt w2 :
  db_wf (w_db w) → w_tx w = None → server_writer (sv_audit s) →
  shows_key (handleKeyIssue ParsePage s sm r c w).1 app prefix pt →
  calm w2 → w_db w2 = w_db (handleKeyIssue ParsePage s sm r c w).2 →
  ∃ caps ver, Resolve pt w2 = (Ok (mkRequester app caps ver prefix), w2).
Proof.
  intros Hwf Ht Haw Hshow Hcalm Hdb.
  destruct (handleKeyIssue_shows _ _ _ _ _ _ _ Haw Hshow) as (Ha&Hp&(secret&Hsec&->)&(i&k&a&Hk&Hr&<-&<-&Hv&Happ&Hact)).
  destruct (prefix_pattern_ok _ Hp) as (Hne&Hnb&Hu).
  assert (db_wf (w_db w2)) as Hwf2.
  { rewrite Hdb. assert (keeps (inv_step db_wf) (handleKeyIssue ParsePage s sm r c)) as Hkeep
      by (apply (inv_key_pages db_wf ParsePage s Haw)).
    destruct (Hkeep w) as [Hw _]; [|exact Hw]. split; [done|]. intros db. by rewrite Ht. }
  rewrite <- Hdb in Hk, Happ.
  destruct (Resolve_calm (key_plaintext (key_prefix k) secret) w2 i k a) as (caps&E); try done.
  - exact (wf_prefix _ Hwf2).
  - apply parse_bearer_iff. by exists secret.
  - by apply app_pattern_ok.
  - by exists caps, (capability_set_version a).
Qed.
End issued.

(** ** A concrete key *)

Definition sample_ui : @Server recorder :=
  @mkServer recorder (Ui.mkConfig "127.0.0.1:8081" "secret" "tg_root_x" "http://127.0.0.1:8080" "postgres" false)
    (ApiClientNew "http://127.0.0.1:8080/" "tg_root_x") true (Some (PgWriter (PG := text_order))) 0.

(** A form as the browser sends it. *)
Definition form_request (path : string) (fields params cookies : list (string * string)) : UiRequest :=
  let get l k := default "" (snd <$> find_first (λ p, String.eqb p.1 k) l) in
  mkUiRequest "POST" path "trace" "10.0.0.7:4711" "" (λ _, [])
    (λ k, snd <$> List.filter (λ p, String.eqb p.1 k) fields) false cookies (get params).

Definition issue_form : UiRequest :=
  form_request "/keys" [("app_id", " root "); ("prefix", "news1"); ("label", "for the news")] [] [].
Definition sample_ctx : UiCtx := mkUiCtx "trace" "nonce" (Some 44200).

Local Abbreviation issued_run :=
  (handleKeyIssue (A2 := toy_argon2) (TG := recorder) (PG := text_order) (λ _, true) sample_ui sample_sessions
    issue_form sample_ctx (rec_world 0 registrar_db)).

(** The key on the page, as the server resolves it. *)
Lemma issued_key_resolves_witness :
  ∃ pt caps ver, shown_key issued_run.1 = Some ("root", "news1", pt) ∧
    (Resolve (A2 := toy_argon2) (H := text_order) (H0 := recorder) pt (rec_world 5 (w_db issued_run.2))).1 =
    Ok (mkRequester "root" caps ver "news1").
Proof.
  destruct (shown_key issued_run.1) as [[[app prefix] pt]|] eqn:E; [|vm_compute in E; discriminate].
  assert (app = "root" ∧ prefix = "news1") as [-> ->] by (vm_compute in E; injection E as <- <- _; done).
  destruct (issued_key_resolves (A2 := toy_argon2) (PG := text_order) (TG := recorder) (λ _, true) sample_ui
    sample_sessions issue_form sample_ctx (rec_world 0 registrar_db) "root" "news1" pt (rec_world 5 (w_db issued_run.2)))
    as (caps&ver&Hr).
  - exact registrar_db_wf.
  - reflexivity.
  - right. reflexivity.
  - exact E.
  - apply rec_world_calm.
  - apply rec_world_db.
  - exists pt, caps, ver. split; [reflexivity|]. by rewrite Hr.
Defined.
