(* ===== verification/Deployment.v ===== *)
(** * The deployment: server, bot and admin UI over one database

    [cmd/server] and [cmd/adminui] are two processes that share the database;
    the admin UI also calls the server's API.  Their work is a sequence of
    events, in any order: requests to the server, updates of the bot, requests
    to the admin UI.  A request of the admin UI's client is delivered to the
    server, unless the call fails; its answer may be lost.

    [wire] is what [net/http] makes of a client's request on the server's side
    and [raw] the bytes of an answer; the theorems hold for any of them. *)

From stdpp Require Import base gmap list strings sorting.
From Stdlib Require Import Ascii ZArith QArith Lia.
From S2P Require Import Prelude GoStrings Encoding GoTime RateLimit AuditChain World AuditLog Auth.
From S2P Require Import Registry Strategy Dispatch Http Messages AdminApi Router Bot System.
From S2P Require Import Config AdminSession AdminKeys ApiClient AdminStore Dashboard AdminUi AdminPages.
From S2P Require Import AdminViews AdminServer KeyIssue.

Local Open Scope string_scope.
Local Open Scope Z_scope.
Local Open Scope list_scope.

Inductive process_event :=
| EvServer (r : HttpRequest)
| EvBot (u : Update)
| EvUi (r : UiRequest).

Section deployment.
Context `{F : Float64} `{A2 : Argon2} `{PG : Postgres} `{TG : Telegram} `{X : Mux}.
(** The server process. *)
Context (size : body → Z) (policy : string → Policy) (botID : Z) (botName : string).
(** The network between the processes. *)
Context (wire : ClientRequest → HttpRequest) (raw : Response → RawResponse).
(** The admin UI process. *)
Context (ParsePage : string → bool) (json_Indent : string → option string) (percentile : Q → list Z → Q).
Context (ui_size : ui_body → Z) (s : Server).

(** The server handles a request with a context of its own. *)
Definition isolated {A} (m : M A) : M A :=
  old ← st_gets w_deadline; st_modify (with_deadline None);; a ← m; st_modify (with_deadline old);; mret a.

Definition transport (q : ClientRequest) : M (result Response) :=
  '(out, e) ← call;
  match out return M (result Response) with
  | Failed => mret (Err e)
  | _ => resp ← isolated (serve size (server_deps (request_limiter policy)) (wire q));
         mret (match out with Done => Ok resp | _ => Err e end)
  end.
Definition transport_raw (q : ClientRequest) : M (result RawResponse) :=
  r ← transport q; mret (match r with Ok resp => Ok (raw resp) | Err e => Err e end).

Definition ui_process : UiRequest → U UiResponse :=
  ui_serve ParsePage transport transport_raw json_Indent percentile ui_size s.

Definition process_step (e : process_event) (x : UiState * World) : UiState * World :=
  match e with
  | EvServer r => (x.1, (serve size (server_deps (request_limiter policy)) r x.2).2)
  | EvBot u => (x.1, (Bot.dispatch (bot_handlers botID botName (Some PgWriter)) u x.2).2)
  | EvUi r => (ui_process r x).2
  end.

Definition run_processes (es : list process_event) (x : UiState * World) : UiState * World :=
  foldl (λ x e, process_step e x) x es.

Section invariants.
Context (P : Database → Prop) `{!AdminClosed P} `{!BotClosed P} `{!KeyClosed P}.
Context (Haw : server_writer (sv_audit s)).
Local Abbreviation kept := (keeps (inv_step P)).

Lemma inv_isolated {A} (m : M A) : kept m → kept (isolated m).
Proof using Type. intros Hm. unfold isolated. repeat (keeps_step || exact Hm || (apply inv_modify; done)). Qed.

Lemma inv_transport q : kept (transport q).
Proof using AdminClosed0.
  unfold transport. apply keeps_bind; [apply _|apply inv_call|]. intros [out e].
  assert (kept (isolated (serve size (server_deps (request_limiter policy)) (wire q)))) as Hs
    by (apply inv_isolated; exact (inv_NewRouter P size policy _ _)).
  destruct out; keeps_all.
Qed.
Lemma inv_transport_raw q : kept (transport_raw q).
Proof using AdminClosed0. unfold transport_raw. pose proof inv_transport. keeps_all. Qed.

Lemma process_step_kept e x : db_inv P x.2 → db_inv P (process_step e x).2.
Proof using AdminClosed0 BotClosed0 KeyClosed0 Haw.
  destruct x as [st w]. destruct e as [r|u|r]; cbn [process_step fst snd]; intros Hi.
  - exact (inv_NewRouter P size policy r (mkCtx "" None) w Hi).
  - refine (inv_dispatch P (Some PgWriter) (or_intror eq_refl) botID botName u _ _ w Hi). done.
  - exact (ui_serve_kept P ParsePage transport transport_raw json_Indent percentile ui_size s
             inv_transport inv_transport_raw Haw r st w Hi).
Qed.

Lemma run_processes_kept es x : db_inv P x.2 → db_inv P (run_processes es x).2.
Proof using AdminClosed0 BotClosed0 KeyClosed0 Haw.
  revert x. induction es as [|e es IH]; intros x Hi; simpl; [done|]. by apply IH, process_step_kept.
Qed.

Lemma run_processes_inv es x : w_tx x.2 = None → P (w_db x.2) → P (w_db (run_processes es x).2).
Proof using AdminClosed0 BotClosed0 KeyClosed0 Haw.
  intros Ht HP. apply run_processes_kept. split; [done|]. intros db Hdb. congruence.
Qed.
End invariants.
End deployment.

(** ** What the invariants are *)

(** Management capabilities are among those of [init]. *)
Definition management_within (init db : Database) : Prop :=
  ∀ a c, c ∈ forbiddenCapabilities → (a, c) ∈ app_capabilities db → (a, c) ∈ app_capabilities init.

#[export] Instance management_admin_closed init : AdminClosed (management_within init).
Proof.
  split; [split; done|..]; intros; statement_cases; unfold management_within in *; intros a' d Hd.
  - set_unfold. naive_solver.
  - set_unfold. naive_solver.
  - intros [_ Hin]%elem_of_filter. auto.
Qed.
#[export] Instance management_bot_closed init : BotClosed (management_within init).
Proof. split; [apply _|..]; intros; try done; bot_statement_cases. Qed.

Ltac key_statement_cases := unfold sql_insert_key, sql_update_keys; repeat case_match; simplify_eq/=; try done.

#[export] Instance management_key_closed init : KeyClosed (management_within init).
Proof. split; intros; key_statement_cases. Qed.
#[export] Instance log_extends_key_closed log : KeyClosed (log_extends log).
Proof. unfold log_extends. split; intros; key_statement_cases. Qed.

#[export] Instance dead_key_admin_closed i : AdminClosed (dead_key i).
Proof.
  unfold dead_key. split.
  - split; done.
  - intros; statement_cases. - intros; statement_cases. - intros; statement_cases. - intros; statement_cases.
  - intros; statement_cases. - intros; statement_cases. - intros; statement_cases. - intros; statement_cases.
  - intros app now db [Hi Hk]. statement_cases. split; [done|]. intros k [? _]%map_lookup_filter_Some. by apply Hk.
  - intros; statement_cases. - intros; statement_cases. - intros; statement_cases.
Qed.
#[export] Instance dead_key_bot_closed i : BotClosed (dead_key i).
Proof. unfold dead_key. split; [apply _|..]; intros; try done; bot_statement_cases. Qed.

(** ** A revoked key is dead *)

Section revoked.
Context `{F : Float64} `{A2 : Argon2} `{PG : Postgres} `{TG : Telegram}.
Context (ParsePage : string → bool) (s : Server).

Lemma render_not_redirect page d url : render ParsePage page d ≠ http_Redirect url.
Proof. unfold render. by case_match. Qed.
Lemma renderKeysError_not_redirect sm r c m url w : (renderKeysError ParsePage s sm r c m w).1 ≠ http_Redirect url.
Proof.
  unfold renderKeysError, mbind, st_bind. destruct (keysPageData s sm r c w) as [d w1]. apply render_not_redirect.
Qed.

Lemma update_keys_tx what app prefix args f w : w_tx (update_keys what app prefix args f w).2 = w_tx w.
Proof.
  unfold update_keys.
  match goal with |- context [within ?d ?m w] => destruct (within_run d m w) as (dl&_&_&E) end; unfold result in *; rewrite E; clear E.
  unfold mbind, st_bind. match goal with |- context [db_exec ?a ?g ?w0] => destruct (db_exec_spec a g w0) as ((T&_)&_);
    destruct (db_exec a g w0) as [[n|e] w1] end; simpl in *; [by case_match|done].
Qed.

(** A revocation that is reported has killed the key. *)
Lemma revoke_reported sm r c w i k :
  db_wf (w_db w) → w_tx w = None → server_writer (sv_audit s) →
  app_keys (w_db w) !! i = Some k → k_app_id k = u_Param r "app" → key_prefix k = u_Param r "prefix" →
  (handleKeyRevoke ParsePage s sm r c w).1 = http_Redirect "/keys?revoked=1" →
  db_inv (dead_key i) (handleKeyRevoke ParsePage s sm r c w).2.
Proof.
  intros Hwf Ht Haw Hk Ha Hp. unfold handleKeyRevoke.
  destruct (key_form_error r); [by intros ?%renderKeysError_not_redirect|].
  destruct (String.eqb (FormValue r "confirm") "1"); [|by intros ?%renderKeysError_not_redirect].
  destruct (sv_db s); [|by intros ?%renderKeysError_not_redirect].
  rewrite bind_run. destruct (update_keys_outcome "adminui: revoke key: " (u_Param r "app") (u_Param r "prefix")
    [u_Param r "prefix"; u_Param r "app"] set_revoked w) as [_ HR].
  pose proof (update_keys_tx "adminui: revoke key: " (u_Param r "app") (u_Param r "prefix")
    [u_Param r "prefix"; u_Param r "app"] set_revoked w) as HT.
  unfold RevokeKey. destruct (update_keys _ _ _ _ _ w) as [[[]|e] w1]; [|by intros ?%renderKeysError_not_redirect].
  intros _. destruct (HR eq_refl) as (now&Hdb&_). simpl in *.
  assert (db_inv (dead_key i) w1) as Hi.
  { split; [rewrite Hdb; by apply (revoke_kills _ _ _ _ _ k)|]. intros db. rewrite HT, Ht. done. }
  pose proof (inv_writeKeyAudit (dead_key i) s Haw c StageKeyRevoked (u_Param r "app") (u_Param r "prefix") w1 Hi) as H2.
  rewrite bind_run. destruct (writeKeyAudit _ _ _ _ _ w1) as [[] w2]. exact H2.
Qed.

(** No request is authenticated by a dead key. *)
Lemma dead_key_unresolved i bearer w id : dead_key i (w_db w) → (Resolve bearer w).1 = Ok id →
  ∃ j k, j ≠ i ∧ app_keys (w_db w) !! j = Some k ∧ VerifyAPIKey bearer (key_hash k) = Ok true ∧ ri_AppID id = k_app_id k.
Proof.
  intros [_ Hd] (j&k&a&Hj&Hr&_&_&_&Hv&Hid&_)%Resolve_Ok. exists j, k. split_and!; try done.
  intros ->. destruct (Hd k Hj) as [? ?]. congruence.
Qed.
End revoked.

(** ** Theorems *)

Section theorems.
Context `{F : Float64} `{A2 : Argon2} `{PG : Postgres} `{TG : Telegram} `{X : Mux}.
Context (size : body → Z) (policy : string → Policy) (botID : Z) (botName : string).
Context (wire : ClientRequest → HttpRequest) (raw : Response → RawResponse).
Context (ParsePage : string → bool) (json_Indent : string → option string) (percentile : Q → list Z → Q).
Context (ui_size : ui_body → Z) (s : Server).

(** What every run keeps: the constraints of the schema, the rows of the audit
    log and its chain, and who holds management capabilities. *)
Definition db_safe (init db : Database) : Prop :=
  db_wf db ∧ audit_log init `prefix_of` audit_log db ∧ (verify_table (audit_log db)).1.(OK) = true ∧
  management_within init db.

Lemma run_processes_safe es st w : db_wf (w_db w) → w_tx w = None → server_writer (sv_audit s) →
  db_safe (w_db w)
    (w_db (run_processes size policy botID botName wire raw ParsePage json_Indent percentile ui_size s es (st, w)).2).
Proof.
  intros Hwf Ht Haw. set (w' := (run_processes _ _ _ _ _ _ _ _ _ _ _ _ _).2).
  assert (db_wf (w_db w')) as Hwf' by (by apply (run_processes_inv _ _ _ _ _ _ _ _ _ _ _ db_wf)).
  split; [done|split; [|split]].
  - apply (run_processes_inv _ _ _ _ _ _ _ _ _ _ _ (log_extends (audit_log (w_db w)))); [done|done|].
    unfold log_extends. reflexivity.
  - destruct (wf_audit _ Hwf') as [[_ Hl] _]. by rewrite linked_verify_table.
  - apply (run_processes_inv _ _ _ _ _ _ _ _ _ _ _ (management_within (w_db w))); [done|done|]. unfold management_within. auto.
Qed.

(** C1: the deployment keeps the database well formed and its audit log tamper
    evident.  Whatever requests and updates the server, the bot and the admin
    UI handle, in whatever order, and whichever database, Telegram or API calls
    fail or lose their acknowledgement: the constraints of the schema hold
    afterwards, every audit row that was there is still there unchanged, the hash
    chain of the whole log verifies, and management capabilities are only held by
    apps that held them before. *)
Theorem deployment_safe es st w :
  db_wf (w_db w) → w_tx w = None → server_writer (sv_audit s) →
  let w' := (run_processes size policy botID botName wire raw ParsePage json_Indent percentile ui_size s es (st, w)).2 in
  db_wf (w_db w') ∧ audit_log (w_db w) `prefix_of` audit_log (w_db w') ∧
  (verify_table (audit_log (w_db w'))).1.(OK) = true ∧
  (∀ a c, c ∈ forbiddenCapabilities → (a, c) ∈ app_capabilities (w_db w') → (a, c) ∈ app_capabilities (w_db w)).
Proof. apply run_processes_safe. Qed.

(** C8: revoking a key is final.  Once the admin UI has reported that a key is
    revoked, no later event of any of the processes, with any calls failing,
    brings it back: every bearer token the server still accepts is accepted by
    another key. *)
Theorem revoked_forever sm r c st w i k es :
  db_wf (w_db w) → w_tx w = None → server_writer (sv_audit s) →
  app_keys (w_db w) !! i = Some k → k_app_id k = u_Param r "app" → key_prefix k = u_Param r "prefix" →
  (handleKeyRevoke ParsePage s sm r c w).1 = http_Redirect "/keys?revoked=1" →
  let w' := (run_processes size policy botID botName wire raw ParsePage json_Indent percentile ui_size s es (st, (handleKeyRevoke ParsePage s sm r c w).2)).2 in
  ∀ bearer id, (Resolve bearer w').1 = Ok id →
    ∃ j k', j ≠ i ∧ app_keys (w_db w') !! j = Some k' ∧ VerifyAPIKey bearer (key_hash k') = Ok true ∧ ri_AppID id = k_app_id k'.
Proof.
  intros Hwf Ht Haw Hk Ha Hp HR w' bearer id. apply dead_key_unresolved.
  pose proof (revoke_reported ParsePage s sm r c w i k Hwf Ht Haw Hk Ha Hp HR) as Hi.
  exact (proj1 (run_processes_kept size policy botID botName wire raw ParsePage json_Indent percentile ui_size s (dead_key i) Haw es
    (st, (handleKeyRevoke ParsePage s sm r c w).2) Hi)).
Qed.
End theorems.

(** ** A concrete deployment *)

(** The operator's session cookie and token. *)
Definition operator_cookies : list (string * string) := [(sessionCookieName, sign sample_sessions 44200 sample_nonce)].
Definition operator_token : string := CSRFToken sample_sessions sample_nonce.
Definition operator_form (path : string) (fields : list (string * string)) : UiRequest :=
  form_request path (("csrf_token", operator_token) :: fields) [] operator_cookies.

Definition local_ui : @Server recorder :=
  @mkServer recorder (Ui.mkConfig "127.0.0.1:8081" "secret" "tg_ab_c" "http://127.0.0.1:8080" "postgres" false)
    (ApiClientNew "http://127.0.0.1:8080/" "tg_ab_c") true (Some (PgWriter (PG := text_order))) 0.

(** The server's side of a client request. *)
Definition local_wire (q : ClientRequest) : HttpRequest :=
  mkRequest (cr_Method q) (sanitizePath (trim_prefix "http://127.0.0.1:8080" (cr_URL q))) (cr_Authorization q) (cr_TraceID q)
    "127.0.0.1:5555" (λ _, "") (λ _, "") (cr_Body q).
Definition local_raw (r : Response) : RawResponse := mkRaw (rs_Status r) "" (default "" (rs_TraceID r)).

Local Abbreviation local_run := (run_processes (F := exact) (A2 := toy_argon2) (PG := text_order) (TG := recorder) (X := path_mux)
  (λ _, 0) (request_policy default_policy ∅) 999 "a_bot" local_wire local_raw (λ _, true) (λ _, None) (λ _ _, 0%Q) (λ _, 0) local_ui).

(** An app is registered through the admin UI, which may not grant it more than
    an ordinary capability, and gets a key; a user joins; a stranger tries. *)
Definition local_events : list process_event :=
  [EvUi (operator_form "/apps" [("id", "shop"); ("name", "Shop"); ("capabilities", CapNoopInvoke); ("capabilities", CapAuditSearch)]);
   EvUi (operator_form "/keys" [("app_id", "shop"); ("prefix", "shop1")]);
   EvBot (start_update (-1001) "/agree");
   EvUi (form_request "/keys" [("app_id", "shop"); ("prefix", "shop2")] [] operator_cookies)].

Definition local_state : UiState := mkUiState sample_sessions ∅ newGlobalBackoff.

Example local_run_effect :
  let db := w_db (local_run local_events (local_state, rec_world 0 registrar_db)).2 in
  elements (dom (apps db)) = ["shop"; "root"] ∧
  elements (app_capabilities db) = [("shop", CapNoopInvoke); ("root", CapAppsRegister)] ∧
  (key_prefix <$> (map_to_list (app_keys db)).*2) = ["shop1"; "ab"] ∧
  (λ r, stage (a_cols r)) <$> audit_log db = ["received"; "validated"; "delivered"; "key_issued"; "validated"].
Proof. vm_compute. done. Qed.

Lemma deployment_safe_witness :
  let w' := (local_run local_events (local_state, rec_world 0 registrar_db)).2 in
  db_wf (w_db w') ∧ audit_log registrar_db `prefix_of` audit_log (w_db w') ∧
  (verify_table (audit_log (w_db w'))).1.(OK) = true ∧
  (∀ a c, c ∈ forbiddenCapabilities → (a, c) ∈ app_capabilities (w_db w') → (a, c) ∈ app_capabilities registrar_db).
Proof.
  apply (deployment_safe (F := exact) (A2 := toy_argon2) (PG := text_order) (TG := recorder) (X := path_mux)
    (λ _, 0) (request_policy default_policy ∅) 999 "a_bot" local_wire local_raw (λ _, true) (λ _, None) (λ _ _, 0%Q) (λ _, 0)
    local_ui local_events local_state (rec_world 0 registrar_db)).
  - exact registrar_db_wf.
  - reflexivity.
  - right. reflexivity.
Defined.

(** The registrar's key with a prefix the form accepts, revoked. *)
Definition old_key : KeyRow := mkKey "root" (encodeArgon2id (A2 := toy_argon2) "tg_abcd_c" "0123456789abcdef") "abcd" "" 0 None.
Definition old_key_db : Database := set_keys (λ _, {[0 := old_key]}) registrar_db.

Lemma old_key_db_wf : db_wf old_key_db.
Proof.
  destruct registrar_db_wf as [Wu Wt Wa Wc Wk Wp Ws Wo Wtok Wau]. constructor; try done.
  - intros i k Hk. simpl in Hk. apply lookup_singleton_Some in Hk as [<- <-]. split; [by eexists|done].
  - intros i j k k' Hi Hj _. simpl in Hi, Hj. apply lookup_singleton_Some in Hi as [<- _], Hj as [<- _]. done.
Qed.

Definition revoke_form : UiRequest :=
  form_request "/keys/root/abcd/revoke" [("confirm", "1")] [("app", "root"); ("prefix", "abcd")] [].
Local Abbreviation revoke_run := (handleKeyRevoke (PG := text_order) (TG := recorder) (λ _, true) local_ui
  sample_sessions revoke_form sample_ctx (rec_world 0 old_key_db)).

Lemma revoked_forever_witness :
  (Resolve (A2 := toy_argon2) (H := text_order) (H0 := recorder) "tg_abcd_c" (rec_world 0 old_key_db)).1 ≠ Err (Sentinel ErrKeyNotFound) ∧
  let w' := (local_run local_events (local_state, revoke_run.2)).2 in
  ∀ bearer id, (Resolve (A2 := toy_argon2) (H := text_order) (H0 := recorder) bearer w').1 = Ok id →
    ∃ j k', j ≠ 0 ∧ app_keys (w_db w') !! j = Some k' ∧ VerifyAPIKey (A2 := toy_argon2) bearer (key_hash k') = Ok true ∧ ri_AppID id = k_app_id k'.
Proof.
  split; [vm_compute; discriminate|].
  apply (revoked_forever (F := exact) (A2 := toy_argon2) (PG := text_order) (TG := recorder) (X := path_mux)
    (λ _, 0) (request_policy default_policy ∅) 999 "a_bot" local_wire local_raw (λ _, true) (λ _, None) (λ _ _, 0%Q) (λ _, 0)
    local_ui sample_sessions revoke_form sample_ctx local_state (rec_world 0 old_key_db) 0 old_key local_events).
  - exact old_key_db_wf.
  - reflexivity.
  - right. reflexivity.
  - reflexivity.
  - reflexivity.
  - reflexivity.
  - vm_compute. reflexivity.
Defined.
