(* ===== verification/Statements.v ===== *)
(** * The statements of the deployment

    Every change the processes of [Deployment] make to the database is the
    effect of an SQL statement of the source.  Here the statements are data:
    [statement] has one constructor per statement of
    [internal/audit/postgres.go], [internal/api/handlers/admin_*.go],
    [internal/registry/], [internal/bot/] and [internal/adminui/keystore.go]
    that a process can reach, [exec] is its effect, and [issues] says which
    process issues it.

    [commits_refine] shows that the processes refine this specification: a run
    of events commits a list of statements, each one its process may issue, and
    nothing else.  What holds of every list of statements then holds of every
    schedule, also of goroutines whose statements interleave: a transaction
    commits its statements at once, a statement outside a transaction alone. *)

From stdpp Require Import base gmap list strings.
From Stdlib Require Import ZArith QArith Lia.
From S2P Require Import Prelude GoStrings AuditChain RateLimit World AuditLog Auth Registry Http.
From S2P Require Import Dispatch Messages AdminApi Router Bot System Config AdminKeys ApiClient AdminStore.
From S2P Require Import Dashboard AdminSession AdminUi AdminPages AdminServer KeyIssue Deployment.

Local Open Scope string_scope.
Local Open Scope Z_scope.
Local Open Scope list_scope.

Inductive statement :=
(* audit_log *)
| SNextval
| SRecord (c : AuditCols)
(* apps and app_capabilities *)
| SInsertApp (id name desc grade by_ : string)
| SAddCapability (app c : string)
| SRemoveCapability (app c : string)
| SSetDescription (app d : string)
| SSetMinGrade (app g : string)
| SSetActive (app : string) (b : bool)
| SBumpVersion (app : string)
| SDeactivate (app : string)
| SDeleteApp (app : string)
(* users and user_subscriptions *)
| SSetGrade (t : Z) (g : string)
| SSubscribe (i : Z) (app : string)
| SUnsubscribeBy (t : Z) (app : string)
| SUnsubscribe (i : Z) (app : string)
| SUpsertUser (t : Z) (name lang : string)
| SAgree (i : Z)
| SLink (i chat : Z)
| SSetBotAdmin (i : Z) (b : bool)
(* bot_pending_tokens and user_topics *)
| SIssueToken (token : string) (i secs : Z)
| SRedeemToken (token : string)
| SAddTopic (i : Z) (app : string) (t : Z)
| SRemoveTopic (i : Z) (app : string)
(* app_keys *)
| SInsertKey (app hash prefix label : string)
| SRevokeKey (app prefix : string)
| SLabelKey (app prefix label : string).

Definition exec (now : Z) (s : statement) (db : Database) : Database :=
  match s with
  | SNextval => set_seq_audit (λ n, n + 1) db
  | SRecord c => recorded c db
  | SInsertApp id name desc g by_ => (sql_insert_app id name desc g by_ now db).2
  | SAddCapability app c => (sql_add_capability app c now db).2
  | SRemoveCapability app c => (sql_remove_capability app c now db).2
  | SSetDescription app d => (sql_update_app app (app_set_description d) now db).2
  | SSetMinGrade app g => (sql_update_app app (app_set_grade g) now db).2
  | SSetActive app b => (sql_update_app app (app_set_active b) now db).2
  | SBumpVersion app => (sql_update_app app app_bump now db).2
  | SDeactivate app => (sql_update_app app (λ a, app_bump (app_set_active false a)) now db).2
  | SDeleteApp app => (sql_delete_app app now db).2
  | SSetGrade t g => (sql_set_grade t g now db).2
  | SSubscribe i app => (sql_subscribe i app now db).2
  | SUnsubscribeBy t app => (sql_unsubscribe_by t app now db).2
  | SUnsubscribe i app => (sql_unsubscribe i app now db).2
  | SUpsertUser t name lang => (sql_upsert_user t name lang now db).2
  | SAgree i => (sql_update_user i (λ u, bool_decide (agreed_at u = None)) set_agreed now db).2
  | SLink i chat => (sql_update_user i not_anonymized (λ now, set_link (Some chat) (Some now) now) now db).2
  | SSetBotAdmin i b => (sql_update_user i (λ _, true) (set_bot_admin b) now db).2
  | SIssueToken token i secs => (sql_issue_token token i secs now db).2
  | SRedeemToken token => (sql_delete_token token now db).2
  | SAddTopic i app t => (sql_add_topic i app t now db).2
  | SRemoveTopic i app => set_topics (delete (i, app)) db
  | SInsertKey app hash prefix label => (sql_insert_key app hash prefix label now db).2
  | SRevokeKey app prefix => (sql_update_keys app prefix set_revoked now db).2
  | SLabelKey app prefix label => (sql_update_keys app prefix (set_label label) now db).2
  end.

(** Statements in order, each with the time of its transaction. *)
Definition exec_all (acts : list (Z * statement)) (db : Database) : Database :=
  foldl (λ db a, exec a.1 a.2 db) db acts.

Inductive process := PServer | PBot | PUi.

(** The admin UI issues the statements on keys itself; what it has the server do
    for it is issued by the server. *)
Definition issues (p : process) (s : statement) : bool :=
  match s with
  | SNextval | SRecord _ => true
  | SAddCapability _ c => match p with PBot => false | _ => true end && bool_decide (c ∉ forbiddenCapabilities)
  | SInsertApp _ _ _ _ _ | SRemoveCapability _ _ | SSetDescription _ _ | SSetMinGrade _ _ | SSetActive _ _
  | SBumpVersion _ | SDeactivate _ | SDeleteApp _ | SSetGrade _ _ | SUnsubscribeBy _ _ =>
      match p with PBot => false | _ => true end
  | SSubscribe _ _ => true
  | SUnsubscribe _ _ | SUpsertUser _ _ _ | SAgree _ | SLink _ _ | SSetBotAdmin _ _ | SIssueToken _ _ _
  | SRedeemToken _ | SAddTopic _ _ _ | SRemoveTopic _ _ => match p with PBot => true | _ => false end
  | SInsertKey _ _ _ _ | SRevokeKey _ _ | SLabelKey _ _ _ => match p with PUi => true | _ => false end
  end.

(** ** Databases reached by statements *)

Section reaches.
Context (p : process) (start : Database → Prop).

(** From a database of [start], by statements of [p]. *)
Definition reaches (db : Database) : Prop :=
  ∃ init acts, start init ∧ Forall (λ a, issues p a.2 = true) acts ∧ db = exec_all acts init.

Lemma reaches_start db : start db → reaches db.
Proof. intros Hs. by exists db, []. Qed.

Lemma reaches_exec s now db : issues p s = true → reaches db → reaches (exec now s db).
Proof.
  intros Hs (init&acts&Hi&Ha&->). exists init, (acts ++ [(now, s)]).
  split_and!; [done|by apply Forall_app_2; [|constructor]|]. unfold exec_all. by rewrite foldl_app.
Qed.

#[export] Instance reaches_audit_closed : AuditClosed reaches.
Proof. split; intros; [by apply (reaches_exec SNextval 0)|by apply (reaches_exec (SRecord _) 0)]. Qed.

#[export] Instance reaches_admin_closed : p ≠ PBot → AdminClosed reaches.
Proof.
  intros Hp. split; [apply _|..]; intros.
  - apply (reaches_exec (SInsertApp _ _ _ _ _)); [by destruct p|done].
  - apply (reaches_exec (SAddCapability _ _)); [|done]. simpl. rewrite bool_decide_true by done. by destruct p.
  - apply (reaches_exec (SRemoveCapability _ _) now); [by destruct p|done].
  - apply (reaches_exec (SSetDescription _ _)); [by destruct p|done].
  - apply (reaches_exec (SSetMinGrade _ _)); [by destruct p|done].
  - apply (reaches_exec (SSetActive _ _)); [by destruct p|done].
  - apply (reaches_exec (SBumpVersion _)); [by destruct p|done].
  - apply (reaches_exec (SDeactivate _)); [by destruct p|done].
  - apply (reaches_exec (SDeleteApp _)); [by destruct p|done].
  - apply (reaches_exec (SSetGrade _ _)); [by destruct p|done].
  - by apply (reaches_exec (SSubscribe _ _)).
  - apply (reaches_exec (SUnsubscribeBy _ _)); [by destruct p|done].
Qed.

#[export] Instance reaches_bot_closed : p = PBot → BotClosed reaches.
Proof.
  intros Hp. split; [apply _|..]; intros.
  - by apply (reaches_exec (SUpsertUser _ _ _)); [rewrite Hp|].
  - by apply (reaches_exec (SAgree _)); [rewrite Hp|].
  - by apply (reaches_exec (SIssueToken _ _ _)); [rewrite Hp|].
  - by apply (reaches_exec (SRedeemToken _)); [rewrite Hp|].
  - by apply (reaches_exec (SLink _ _)); [rewrite Hp|].
  - by apply (reaches_exec (SSetBotAdmin _ _)); [rewrite Hp|].
  - by apply (reaches_exec (SAddTopic _ _ _)); [rewrite Hp|].
  - by apply (reaches_exec (SRemoveTopic _ _) 0); [rewrite Hp|].
  - by apply (reaches_exec (SSubscribe _ _)).
  - by apply (reaches_exec (SUnsubscribe _ _) now); [rewrite Hp|].
Qed.

#[export] Instance reaches_key_closed : p = PUi → KeyClosed reaches.
Proof.
  intros Hp. split; intros.
  - by apply (reaches_exec (SInsertKey _ _ _ _)); [rewrite Hp|].
  - by apply (reaches_exec (SRevokeKey _ _)); [rewrite Hp|].
  - by apply (reaches_exec (SLabelKey _ _ _)); [rewrite Hp|].
Qed.

End reaches.

(** A preorder that the statements of a list keep holds between the first
    and the last database. *)
Lemma exec_all_ind (R : relation Database) `{!PreOrder R} acts db :
  Forall (λ a, ∀ db, R db (exec a.1 a.2 db)) acts → R db (exec_all acts db).
Proof.
  intros Ha. unfold exec_all. revert db. induction Ha as [|[now s] acts Hs _ IH]; intros db; simpl; [done|].
  etrans; [apply Hs|apply IH].
Qed.

(** ** The processes issue these statements and nothing else *)

Definition process_of (e : process_event) : process :=
  match e with EvServer _ => PServer | EvBot _ => PBot | EvUi _ => PUi end.

(** Each event commits a list of statements of its process. *)
Definition commits (es : list process_event) (actss : list (list (Z * statement))) : Prop :=
  Forall2 (λ e acts, Forall (λ a, issues (process_of e) a.2 = true) acts) es actss.

Section refinement.
Context `{F : Float64} `{A2 : Argon2} `{PG : Postgres} `{TG : Telegram} `{X : Mux}.
Context (size : body → Z) (policy : string → Policy) (botID : Z) (botName : string).
Context (wire : ClientRequest → HttpRequest) (raw : Response → RawResponse).
Context (ParsePage : string → bool) (json_Indent : string → option string) (percentile : Q → list Z → Q).
Context (ui_size : ui_body → Z) (s : Server).

Lemma step_reaches start e x : server_writer (sv_audit s) → db_inv start x.2 →
  db_inv (reaches (process_of e) start)
    (process_step size policy botID botName wire raw ParsePage json_Indent percentile ui_size s e x).2.
Proof.
  intros Haw [Hd Ht]. destruct x as [st w].
  assert (db_inv (reaches (process_of e) start) w) as Hi
    by (split; [by apply reaches_start|intros db Hdb; by apply reaches_start, Ht]).
  destruct e as [r|u|r]; cbn [process_of process_step fst snd] in *.
  - assert (AdminClosed (reaches PServer start)) by (by apply reaches_admin_closed).
    exact (inv_NewRouter _ size policy r (mkCtx "" None) w Hi).
  - assert (BotClosed (reaches PBot start)) by (by apply reaches_bot_closed).
    refine (inv_dispatch _ (Some PgWriter) (or_intror eq_refl) botID botName u _ _ w Hi). done.
  - assert (AdminClosed (reaches PUi start)) by (by apply reaches_admin_closed).
    assert (KeyClosed (reaches PUi start)) by (by apply reaches_key_closed).
    apply (ui_serve_kept _ ParsePage _ _ json_Indent percentile ui_size s); [..|done|exact Hi].
    + apply inv_transport, _.
    + apply inv_transport_raw, _.
Qed.

Lemma run_reaches es x init : server_writer (sv_audit s) →
  db_inv (λ db, ∃ actss, commits es.1 actss ∧ db = exec_all (concat actss) init) x.2 →
  db_inv (λ db, ∃ actss, commits (es.1 ++ es.2) actss ∧ db = exec_all (concat actss) init)
    (run_processes size policy botID botName wire raw ParsePage json_Indent percentile ui_size s es.2 x).2.
Proof.
  intros Haw. destruct es as [done_ es]. simpl. revert done_ x.
  induction es as [|e es IH]; intros pre x Hi; simpl; [by rewrite app_nil_r|].
  rewrite cons_middle, app_assoc. apply IH. pose proof (step_reaches _ e x Haw Hi) as Hs.
  assert (∀ db, reaches (process_of e) (λ db, ∃ actss, commits pre actss ∧ db = exec_all (concat actss) init) db →
    ∃ actss, commits (pre ++ [e]) actss ∧ db = exec_all (concat actss) init) as Hc.
  { intros db (mid&acts&(actss&Hc&->)&Ha&->). exists (actss ++ [acts]). split.
    - by apply Forall2_app; [|constructor].
    - rewrite concat_app. simpl. rewrite app_nil_r. unfold exec_all. by rewrite foldl_app. }
  destruct Hs as [Hd Ht]. split; [by apply Hc|]. intros db Hdb. by apply Hc, Ht.
Qed.
End refinement.

(** ** What the statements keep *)

(** A property closed under the statements of the components is closed under
    every statement a process may issue. *)
Lemma exec_closed (P : Database → Prop) `{!AdminClosed P} `{!BotClosed P} `{!KeyClosed P} p st now db :
  issues p st = true → P db → P (exec now st db).
Proof.
  intros Hs HP. destruct st; simpl in *;
    first [by apply ac_seq|by apply ac_recorded|by apply adc_insert|by apply adc_remove|by apply adc_description
          |by apply adc_grade|by apply adc_active|by apply adc_bump|by apply adc_deactivate|by apply adc_delete
          |by apply adc_user|by apply adc_subscribe|by apply adc_unsubscribe|by apply bc_unsubscribe|by apply bc_upsert
          |by apply bc_agree|by apply bc_link|by apply bc_admin|by apply bc_issue|by apply bc_redeem|by apply bc_topic
          |by apply bc_untopic|by apply kc_insert|by apply kc_revoke|by apply kc_label|idtac].
  - apply adc_add; [|done]. apply andb_true_iff in Hs as [_ Hs]. by apply bool_decide_eq_true in Hs.
  - by apply (adc_remove _ _ now).
  - by apply (bc_unsubscribe _ _ now).
Qed.

Lemma exec_all_closed (P : Database → Prop) `{!AdminClosed P} `{!BotClosed P} `{!KeyClosed P} acts db :
  Forall (λ a, ∃ p, issues p a.2 = true) acts → P db → P (exec_all acts db).
Proof.
  intros Ha. unfold exec_all. revert db. induction Ha as [|[now st] acts [p Hs] _ IH]; intros db HP; simpl; [done|].
  apply IH. by eapply exec_closed.
Qed.

(** What a process cannot write. *)
Definition bounded (p : process) (db db' : Database) : Prop :=
  policies db' = policies db ∧
  match p with
  | PBot => apps db' = apps db ∧ app_capabilities db' = app_capabilities db ∧ app_keys db' = app_keys db
  | PServer => app_keys db' ⊆ app_keys db ∧ pending_tokens db' = pending_tokens db ∧
      user_topics db' ⊆ user_topics db ∧ dom (users db') = dom (users db)
  | PUi => pending_tokens db' = pending_tokens db ∧ user_topics db' ⊆ user_topics db ∧ dom (users db') = dom (users db)
  end.

#[export] Instance bounded_preorder p : PreOrder (bounded p).
Proof.
  split; [intros db; by destruct p|]. intros db1 db2 db3 [? H1] [? H2]. split; [congruence|].
  destruct p; destruct_and!; split_and!; try congruence; by etrans.
Qed.

Lemma exec_bounded p now st db : issues p st = true → bounded p db (exec now st db).
Proof.
  unfold bounded. destruct p, st; simpl; try discriminate; intros _;
    unfold sql_insert_app, sql_add_capability, sql_remove_capability, sql_update_app, sql_delete_app, sql_set_grade,
      sql_subscribe, sql_unsubscribe_by, sql_unsubscribe, sql_upsert_user, sql_update_user, sql_issue_token,
      sql_delete_token, sql_add_topic, sql_insert_key, sql_update_keys;
    repeat case_match; simplify_eq/=; split_and!;
    first [done|apply map_filter_subseteq|by apply dom_insert_lookup_L|idtac].
Qed.

(** ** Tokens under every schedule *)

(** How often a list of statements redeems a token, that is deletes and returns
    its row, and how often it offers to issue it. *)
Fixpoint redeemed (token : string) (acts : list (Z * statement)) (db : Database) : nat :=
  match acts with
  | [] => 0
  | (now, st) :: rest =>
      (match st with
       | SRedeemToken t => if String.eqb t token && bool_decide (is_Some (pending_tokens db !! token)) then 1 else 0
       | _ => 0
       end + redeemed token rest (exec now st db))%nat
  end.
Definition offers (token : string) (a : Z * statement) : bool :=
  match a.2 with SIssueToken t _ _ => String.eqb t token | _ => false end.
Definition offered (token : string) (acts : list (Z * statement)) : nat := length (List.filter (offers token) acts).

Lemma offered_cons token a acts : offered token (a :: acts) = ((if offers token a then 1 else 0) + offered token acts)%nat.
Proof. unfold offered. simpl. by destruct (offers token a). Qed.

Lemma exec_tokens token now st db :
  match st with
  | SIssueToken t _ _ => t ≠ token → pending_tokens (exec now st db) !! token = pending_tokens db !! token
  | SRedeemToken t => pending_tokens (exec now st db) !! token = if String.eqb t token then None else pending_tokens db !! token
  | _ => pending_tokens (exec now st db) = pending_tokens db
  end.
Proof.
  destruct st; simpl; try done;
    unfold sql_insert_app, sql_add_capability, sql_update_app, sql_delete_app, sql_set_grade, sql_subscribe,
      sql_unsubscribe_by, sql_upsert_user, sql_update_user, sql_issue_token, sql_delete_token, sql_add_topic, sql_insert_key;
    try (repeat case_match; simplify_eq/=; done).
  - intros Ht. repeat case_match; simplify_eq/=; try done. by rewrite lookup_insert_ne.
  - destruct (String.eqb_spec token0 token) as [->|Hn]; case_match; simplify_eq/=; try done.
    + by rewrite lookup_delete_eq.
    + by rewrite lookup_delete_ne.
Qed.

(** A token is spent once.  However the statements of concurrent bot handlers,
    requests and pages are ordered, a token is redeemed at most as often as it
    was issued: two users who send the same token at the same time do not both
    get the group. *)
Theorem tokens_spent_once token acts db :
  (redeemed token acts db <= offered token acts + (if bool_decide (is_Some (pending_tokens db !! token)) then 1 else 0))%nat.
Proof.
  revert db. induction acts as [|[now st] acts IH]; intros db; [simpl; lia|]. rewrite offered_cons. cbn [redeemed].
  specialize (IH (exec now st db)). pose proof (exec_tokens token now st db) as He.
  destruct st; cbn [offers snd] in *; try (rewrite He in IH; lia).
  - match goal with |- context [String.eqb ?t token] => destruct (String.eqb_spec t token) as [->|Hn] end.
    + repeat case_bool_decide; lia.
    + rewrite He in IH by done. lia.
  - rewrite He in IH. clear He.
    match goal with |- context [String.eqb ?t token] => destruct (String.eqb_spec t token) as [->|Hn] end; [|cbn [andb]; lia].
    rewrite bool_decide_false in IH by (intros [? ?]; done). cbn [andb]. lia.
Qed.

(** ** Theorems *)

Section theorems.
Context `{F : Float64} `{A2 : Argon2} `{PG : Postgres} `{TG : Telegram} `{X : Mux}.
Context (size : body → Z) (policy : string → Policy) (botID : Z) (botName : string).
Context (wire : ClientRequest → HttpRequest) (raw : Response → RawResponse).
Context (ParsePage : string → bool) (json_Indent : string → option string) (percentile : Q → list Z → Q).
Context (ui_size : ui_body → Z) (s : Server).


(** C7: least privilege.  An update of the bot, whatever its sender writes,
    leaves apps, capabilities and keys alone.  A request to the server issues and
    changes no key, leaves binding tokens alone and neither adds a user nor a
    topic.  A request to the admin UI, with what it has the server do, leaves
    binding tokens alone and adds neither user nor topic.  And none of them
    changes the rate limit policies. *)
Theorem least_privilege e st w : w_tx w = None → server_writer (sv_audit s) →
  let db' := w_db (process_step size policy botID botName wire raw ParsePage json_Indent percentile ui_size s e (st, w)).2 in
  bounded (process_of e) (w_db w) db'.
Proof.
  intros Ht Haw db'.
  destruct (step_reaches size policy botID botName wire raw ParsePage json_Indent percentile ui_size s
    (eq (w_db w)) e (st, w) Haw) as [(init&acts&<-&Ha&Hd) _]; [by split; [|intros db Hdb; simpl in Hdb; congruence]|].
  subst db'. rewrite Hd.
  apply exec_all_ind; [apply _|]. eapply Forall_impl; [exact Ha|]. intros [now st'] Hs db. by apply exec_bounded.
Qed.

End theorems.

(** ** A concrete run *)

Local Abbreviation local_step := (process_step (F := exact) (A2 := toy_argon2) (PG := text_order) (TG := recorder) (X := path_mux)
  (λ _, 0) (request_policy default_policy ∅) 999 "a_bot" local_wire local_raw (λ _, true) (λ _, None) (λ _ _, 0%Q) (λ _, 0) local_ui).

Local Abbreviation local_run := (run_processes (F := exact) (A2 := toy_argon2) (PG := text_order) (TG := recorder) (X := path_mux)
  (λ _, 0) (request_policy default_policy ∅) 999 "a_bot" local_wire local_raw (λ _, true) (λ _, None) (λ _ _, 0%Q) (λ _, 0) local_ui).

(** The statements of the events of [Deployment], with the audit rows, the
    key's hash and the binding token the run produces: an app and its capability,
    a key, a user who joins, agrees and gets the token; the stranger's request commits nothing. *)
Definition local_db : Database := w_db (local_run local_events (local_state, rec_world 0 registrar_db)).2.
Definition local_records : list (Z * statement) := (λ r, (0, SRecord (a_cols r))) <$> audit_log local_db.
Definition local_hash : string := default "" (key_hash <$> app_keys local_db !! 1).

Definition local_token : string * TokenRow := default ("", mkToken 0 0 0) (head (map_to_list (pending_tokens local_db))).

Definition local_statements : list (list (Z * statement)) :=
  [take 1 local_records ++
     [(0, SInsertApp "shop" "Shop" "" "" "root"); (0, SAddCapability "shop" CapNoopInvoke)] ++ take 2 (drop 1 local_records);
   [(0, SInsertKey "shop" local_hash "shop1" "")] ++ take 1 (drop 3 local_records);
   [(0, SUpsertUser 500 "ann" "ko"); (0, SAgree 1); (0, SIssueToken local_token.1 1 (expires_at local_token.2 / 1000000))] ++ take 1 (drop 4 local_records);
   []].

#[export] Instance database_eq_dec : EqDecision Database.
Proof. solve_decision. Defined.

Example local_statements_effect : exec_all (concat local_statements) registrar_db = local_db.
Proof. apply (bool_decide_eq_true_1 _). vm_compute. reflexivity. Qed.


Lemma least_privilege_witness :
  bounded PBot registrar_db
    (w_db (local_step (EvBot (start_update (-1001) "/agree")) (local_state, rec_world 0 registrar_db)).2).
Proof.
  apply (least_privilege (F := exact) (A2 := toy_argon2) (PG := text_order) (TG := recorder) (X := path_mux)
    (λ _, 0) (request_policy default_policy ∅) 999 "a_bot" local_wire local_raw (λ _, true) (λ _, None) (λ _ _, 0%Q) (λ _, 0)
    local_ui (EvBot (start_update (-1001) "/agree")) local_state (rec_world 0 registrar_db)); [reflexivity|right; reflexivity].
Defined.

