(* ===== verification/Process.v ===== *)
(** * The processes: start-up, cancellation and shutdown

    [run] of [cmd/server/main.go] and of [cmd/adminui/main.go]: what has to
    succeed before a process serves, with which parts it then serves, what the
    cancellation of the bot's context does to the updates still to be handled,
    and the way from the first signal to the return of [run].

    [pgxpool.New], [telego.NewBot] and [getMe] are parameters: any functions
    with their results.  The shutdown is a timed state machine whose events are
    the ends of requests and updates, the signal, the failure of the listener
    and the passing of time; [time.After] and the context of [srv.Shutdown] are
    timers that time does not overtake. *)

From stdpp Require Import base gmap list strings relations.
From Stdlib Require Import ZArith QArith Lia.
From S2P Require Import Prelude GoStrings AuditChain RateLimit World AuditLog Auth Registry Strategy.
From S2P Require Import Dispatch Http Messages AdminApi Router Bot System Config AdminSession AdminKeys.
From S2P Require Import ApiClient AdminStore Dashboard AdminUi AdminPages AdminViews AdminServer KeyIssue Deployment.

Local Open Scope string_scope.
Local Open Scope Z_scope.
Local Open Scope list_scope.

(** ** Start-up *)

Section start.
Context `{F : Float64} `{A2 : Argon2} `{PG : Postgres} `{TG : Telegram} `{X : Mux}.
Context (pgxpool_New : string → result ()) (telego_NewBot : string → string → result ()).
Context (tg_getMe : tg → res string (option Z) * tg) (size : body → Z).

(** A started server: its address, router and bot handlers. *)
Record Running := mkRunning {
  rn_Addr : string;
  rn_Router : HttpRequest → M Response;
  rn_Handlers : list BotHandler;
}.

(** [bot.GetMe]: a failure, or no result, leaves the id at zero. *)
Definition self_id : M Z :=
  me ← tg_call tg_getMe; mret (match me with Ok (Some id) => id | _ => 0 end).

(** The rest of [run] before it listens, once the database answers. *)
Definition wire_server (cfg : Server.Config) : M (result Running) :=
  (let? rl := BuildRequestLimiter "request" default_policy
     else e => mret (Err (Wrap "ratelimit policies: " e "")) ;;
   match telego_NewBot (Server.TelegramBotToken cfg) (Server.TelegramAPIURL cfg) return M (result Running) with
   | Err e => mret (Err (Wrap "telego: " e ""))
   | Ok _ =>
       id ← self_id;
       Log "info" "server_starting" {["addr" := AStr (Server.HTTPListenAddr cfg);
         "bot_username" := AStr (Server.TelegramBotUsername cfg)]};;
       mret (Ok (mkRunning (Server.HTTPListenAddr cfg) (serve size (server_deps rl))
         (bot_handlers id (Server.TelegramBotUsername cfg) (Some PgWriter))))
   end)%go.

(** [None]: the wait for the database is out of fuel. *)
Definition server_start (fuel : nat) (env : Env) : M (option (result Running)) :=
  match Server.Load env return M (option (result Running)) with
  | Err e => mret (Some (Err (Wrap "config: " e "")))
  | Ok cfg =>
      match pgxpool_New (Server.DatabaseURL cfg) return M (option (result Running)) with
      | Err e => mret (Some (Err (Wrap "db: " e "")))
      | Ok _ =>
          o ← waitForDB fuel (30 * Second);
          match o return M (option (result Running)) with
          | None => mret None
          | Some (Err e) => mret (Some (Err (Wrap "db wait: " e "")))
          | Some (Ok _) => r ← wire_server cfg; mret (Some r)
          end
      end
  end.

(** The events a started server handles. *)
Definition serve_events (rn : Running) (es : list event) : M () :=
  st_fold (λ _ e, match e with
                  | EvRequest r => rn_Router rn r;; mret ()
                  | EvUpdate u => Bot.dispatch (rn_Handlers rn) u
                  end) () es.

(** The admin UI: without a database URL there are no stores and no audit
    writer; the database is not asked whether it answers. *)
Definition ui_server (cfg : Ui.Config) (start : Z) : Server :=
  let db := negb (String.eqb (Ui.DatabaseURL cfg) "") in
  mkServer _ cfg (ApiClientNew (Ui.TelegramServerURL cfg) (Ui.APIKey cfg)) db (if db then Some PgWriter else None) start.

Definition ui_start (start : Z) (env : Env) : M (result (Server * UiState)) :=
  match Ui.Load env return M (result (Server * UiState)) with
  | Err e => mret (Err (Wrap "config: " e ""))
  | Ok cfg =>
      match (if String.eqb (Ui.DatabaseURL cfg) "" then Ok () else pgxpool_New (Ui.DatabaseURL cfg))
          return M (result (Server * UiState)) with
      | Err e => mret (Err (Wrap "db: " e ""))
      | Ok _ =>
          st ← NewServer (ui_server cfg start);
          match st return M (result (Server * UiState)) with
          | Err e => mret (Err (Wrap "server: " e ""))
          | Ok st =>
              (if negb (Ui.CookieSecure cfg) && negb (Ui.ListensLoopbackOnly cfg)
               then Log "warn" "adminui_insecure_cookies_on_public_addr" {["addr" := AStr (Ui.ListenAddr cfg);
                      "hint" := AStr "set ADMINUI_COOKIE_SECURE=true behind TLS, or bind to 127.0.0.1"]}
               else mret ());;
              Log "info" "adminui_starting" {["addr" := AStr (Ui.ListenAddr cfg);
                "target_server" := AStr (Ui.TelegramServerURL cfg)]};;
              mret (Ok (ui_server cfg start, st))
          end
      end
  end.
End start.

(** ** What has started *)

Section started.
Context `{F : Float64} `{A2 : Argon2} `{PG : Postgres} `{TG : Telegram} `{X : Mux}.
Context (pgxpool_New : string → result ()) (telego_NewBot : string → string → result ()).
Context (tg_getMe : tg → res string (option Z) * tg) (size : body → Z).

(** The rows of the scope that overrides the default policy. *)
Definition request_rows (db : Database) : list (string * Z * Z) :=
  plan (omap (λ '(sc, target, rate, burst), if String.eqb sc "request" then Some (target, rate, burst) else None) (policies db)).

(** The database and an open transaction are left alone. *)
Definition idles : relation World := λ w w', w_db w' = w_db w ∧ w_tx w' = w_tx w.
#[local] Instance idles_preorder : PreOrder idles.
Proof. split; [done|]. intros ??? [??] [??]. split; congruence. Qed.

Lemma idles_reads {A} (m : M A) : keeps reads m → keeps idles m.
Proof. intros Hm w. by destruct (Hm w) as (D&(T&_)&_). Qed.
Lemma idles_tg_call {A} (f : tg → res string A * tg) : keeps idles (tg_call f).
Proof.
  unfold tg_call. apply keeps_bind; [apply _|apply idles_reads, reads_call|]. intros [[] e]; [|by apply keeps_ret, _|];
    intros w; by destruct (f (w_tg w)).
Qed.
Lemma idles_Log level event fields : keeps idles (Log level event fields).
Proof. done. Qed.
Lemma idles_self_id : keeps idles (self_id tg_getMe).
Proof. unfold self_id. apply keeps_bind; [apply _|apply idles_tg_call|]. intros. by apply keeps_ret, _. Qed.

Lemma idles_wait_loop fuel deadline : keeps idles (wait_loop fuel deadline).
Proof.
  induction fuel as [|fuel IH]; simpl; [by apply keeps_ret, _|].
  apply keeps_bind; [apply _|apply idles_reads, reads_within, reads_db_ping|].
  intros [u|e]; [by apply keeps_ret, _|]. apply keeps_bind; [apply _|by apply keeps_gets, _|]. intros now.
  case_match; [by apply keeps_ret, _|]. apply keeps_bind; [apply _|done|]. intros _. exact IH.
Qed.

Lemma waitForDB_run fuel w :
  idles w (waitForDB (62 + fuel) (30 * Second) w).2 ∧ (waitForDB (62 + fuel) (30 * Second) w).1 ≠ None.
Proof.
  pose proof (idles_wait_loop (62 + fuel) (w_now w + 30 * Second) w) as Hi.
  destruct (wait_loop_ends (61 + fuel) (w_now w + 30 * Second) w) as (Hn&_&_); [unfold Millisecond, Second; lia..|].
  change (S (61 + fuel)) with (62 + fuel)%nat in Hn. split; [exact Hi|].
  change (waitForDB (62 + fuel) (30 * Second) w) with (wait_loop (62 + fuel) (w_now w + 30 * Second) w).
  by destruct (wait_loop (62 + fuel) _ w) as [[?|] ?].
Qed.

Lemma BuildRequestLimiter_run w :
  idles w (BuildRequestLimiter "request" default_policy w).2 ∧
  ∀ rl, (BuildRequestLimiter "request" default_policy w).1 = Ok rl →
    rl = request_limiter (request_policy default_policy (RateLimit.Load (request_rows (w_db w)))).
Proof.
  unfold BuildRequestLimiter, PolicyLoader_Load, mbind, st_bind.
  match goal with |- context [db_query ?a ?f ?w0] => destruct (db_query_spec a f w0) as (D&(T&_)&R);
    destruct (db_query a f w0) as [[rows|e] w1] end; simpl in *; (split; [done|]); [|done].
  intros rl [= <-]. by destruct (R rows eq_refl) as [_ [= <-]].
Qed.

(** The parts a started server has. *)
Definition started_with (env : Env) (db : Database) (rn : Running) : Prop := ∃ cfg botID,
  Server.Load env = Ok cfg ∧
  rn = mkRunning (Server.HTTPListenAddr cfg)
         (serve size (server_deps (request_limiter (request_policy default_policy (RateLimit.Load (request_rows db))))))
         (bot_handlers botID (Server.TelegramBotUsername cfg) (Some PgWriter)).

Lemma wire_server_run cfg env w : Server.Load env = Ok cfg →
  let p := wire_server telego_NewBot tg_getMe size cfg w in
  idles w p.2 ∧
  match p.1 with
  | Ok rn => started_with env (w_db w) rn
  | Err e => ∃ s e', e = Wrap s e' "" ∧ s ∈ ["ratelimit policies: "; "telego: "]
  end.
Proof.
  intros Hc. cbn zeta. unfold wire_server. rewrite bind_run.
  destruct (BuildRequestLimiter_run w) as [Hi Hr]. destruct (BuildRequestLimiter _ _ w) as [[rl|e] w1]; simpl in *;
    [|split; [done|]; eexists _, _; split; [done|set_solver]].
  destruct (telego_NewBot _ _) as [u|e]; [|split; [done|]; eexists _, _; split; [done|set_solver]].
  rewrite bind_run. pose proof (idles_self_id w1) as Hs. destruct (self_id tg_getMe w1) as [id w2].
  split; [etrans; [exact Hi|exact Hs]|]. exists cfg, id. by rewrite (Hr rl eq_refl).
Qed.

Lemma server_start_run fuel env w :
  let p := server_start pgxpool_New telego_NewBot tg_getMe size (62 + fuel) env w in
  idles w p.2 ∧
  match p.1 with
  | None => False
  | Some (Ok rn) => started_with env (w_db w) rn
  | Some (Err e) => ∃ s e', e = Wrap s e' "" ∧ s ∈ ["config: "; "db: "; "db wait: "; "ratelimit policies: "; "telego: "]
  end.
Proof.
  cbn zeta. unfold server_start. destruct (Server.Load env) as [cfg|e] eqn:Hc;
    [|split; [done|]; eexists _, _; split; [done|set_solver]].
  destruct (pgxpool_New _) as [u|e]; [|split; [done|]; eexists _, _; split; [done|set_solver]].
  rewrite bind_run. destruct (waitForDB_run fuel w) as [Hi Hn].
  destruct (waitForDB (62 + fuel) _ w) as [[[[]|e]|] w1]; cbn [fst snd] in *;
    [|split; [done|]; eexists _, _; split; [done|set_solver]|done].
  rewrite bind_run. destruct (wire_server_run cfg env w1 Hc) as [Hj Hp]. destruct Hi as [Hd Ht].
  destruct (wire_server _ _ _ cfg w1) as [[rn|e] w2]; simpl in *; (split; [by etrans; [split|]|]); [by rewrite <- Hd|].
  destruct Hp as (s&e'&->&Hs). exists s, e'. split; [done|set_solver].
Qed.

Lemma ui_start_run start env w :
  let p := ui_start pgxpool_New start env w in
  idles w p.2 ∧
  match p.1 with
  | Ok (s, st) => ∃ cfg, Ui.Load env = Ok cfg ∧ s = ui_server cfg start ∧ ui_limiter st = ∅ ∧ ui_backoff st = newGlobalBackoff
  | Err e => ∃ s e', e = Wrap s e' "" ∧ s ∈ ["config: "; "db: "; "server: "]
  end.
Proof.
  cbn zeta. unfold ui_start. destruct (Ui.Load env) as [cfg|e] eqn:Hc;
    [|split; [done|]; eexists _, _; split; [done|set_solver]].
  destruct (if String.eqb _ _ then _ else _) as [u|e]; [|split; [done|]; eexists _, _; split; [done|set_solver]].
  rewrite bind_run. unfold NewServer, NewSessionManager, rand_Read, mbind, st_bind, mret, st_ret.
  destruct (w_rand w (w_rand_n w)) as [b|]; [|split; [done|]; eexists _, _; split; [done|set_solver]].
  destruct (negb (Ui.CookieSecure cfg) && _); (split; [done|exists cfg; done]).
Qed.

Lemma ui_server_writer cfg start : server_writer (sv_audit (ui_server cfg start)).
Proof. unfold ui_server. simpl. destruct (negb _); [by right|by left]. Qed.
End started.

(** ** From start-up to the last event *)

Section lifecycle.
Context `{F : Float64} `{A2 : Argon2} `{PG : Postgres} `{TG : Telegram} `{X : Mux}.
Context (pgxpool_New : string → result ()) (telego_NewBot : string → string → result ()).
Context (tg_getMe : tg → res string (option Z) * tg) (size : body → Z).

(** The server starts or says why not.  Sixty-two rounds of waiting always
    decide.  When it starts, it serves with the configuration of the
    environment, the audit writer everywhere and the request policies of the
    table over the default; otherwise the error names the step that failed.
    Either way nothing in the database has changed and no transaction is left
    open. *)
Theorem server_starts fuel env w :
  let p := server_start pgxpool_New telego_NewBot tg_getMe size (62 + fuel) env w in
  (w_db p.2 = w_db w ∧ w_tx p.2 = w_tx w) ∧
  match p.1 with
  | None => False
  | Some (Ok rn) => started_with size env (w_db w) rn
  | Some (Err e) => ∃ s e', e = Wrap s e' "" ∧ s ∈ ["config: "; "db: "; "db wait: "; "ratelimit policies: "; "telego: "]
  end.
Proof. apply server_start_run. Qed.

Context (wire : ClientRequest → HttpRequest) (raw : Response → RawResponse).
Context (ParsePage : string → bool) (json_Indent : string → option string) (percentile : Q → list Z → Q).
Context (ui_size : ui_body → Z).

End lifecycle.

(** ** A cancelled context

    [botCancel] cancels the context the poller passes to its handlers.  In the
    model it is a deadline that has passed: [call] fails every call from then
    on.  A call that starts under a cancelled context is not sent, so none of
    them can take effect unreported. *)

Section cancelled.
Context `{PG : Postgres} `{TG : Telegram}.

Definition cancelled (w : World) : Prop :=
  past_deadline (w_now w) (w_deadline w) = true ∧ Forall (λ p, p.2 ≠ Unacked) (w_oracle w).

Definition stalled : relation World := λ w w', cancelled w →
  cancelled w' ∧ w_now w <= w_now w' ∧ w_db w' = w_db w ∧ w_tx w' = w_tx w ∧ w_tg w' = w_tg w.

#[export] Instance stalled_preorder : PreOrder stalled.
Proof.
  split; [intros w Hc; by split_and!|]. intros w1 w2 w3 H1 H2 (?&?&?&?&?)%H1.
  destruct H2 as (?&?&?&?&?); [done|]. split_and!; [done|lia|congruence..].
Qed.

Lemma stalled_call w : cancelled w → (call w).1.1 = Failed ∧ stalled w (call w).2.
Proof.
  unfold stalled, cancelled, call, past_deadline. intros [Hd Ho]. destruct (w_deadline w) as [d|] eqn:Ed; [|done].
  destruct (w_oracle w) as [|[lat out] rest] eqn:Eo; [|inversion Ho as [|? ? Hn Hr]; subst];
    (case_match; [|lia]); simpl; rewrite Ed; (split; [by destruct out || done|]); intros _; split_and!; try done; lia.
Qed.

(** A computation that starts with a call whose failure it reports. *)
Lemma stalled_first {A} (k : outcome * error → M A) :
  (∀ e, ∃ a, k (Failed, e) = mret a) → keeps stalled (call ≫= k).
Proof.
  intros Hk w Hc. destruct (stalled_call w Hc) as [Hf Hs]. rewrite bind_run.
  destruct (call w) as [[out e] w1]. simpl in *. subst out. destruct (Hk e) as [a ->]. by apply Hs.
Qed.

Lemma stalled_db_exec {A} args (f : Z → Database → result A * Database) : keeps stalled (db_exec args f).
Proof. apply stalled_first. eauto. Qed.
Lemma stalled_db_query {A} args (f : Z → Database → result A) : keeps stalled (db_query args f).
Proof. apply stalled_db_exec. Qed.
Lemma stalled_tg_call {A} (f : tg → res string A * tg) : keeps stalled (tg_call f).
Proof. apply stalled_first. eauto. Qed.
Lemma stalled_PgWrite e : keeps stalled (PgWrite e).
Proof. apply stalled_first. eauto. Qed.
Lemma stalled_rand n : keeps stalled (rand_Read n).
Proof. intros w Hc. by split_and!. Qed.
Lemma stalled_Log level event fields : keeps stalled (Log level event fields).
Proof. intros w Hc. by split_and!. Qed.
Lemma stalled_write_opt aw e : server_writer aw → keeps stalled (write_opt aw e).
Proof. intros [-> | ->]; simpl; [by apply keeps_ret, _|apply stalled_PgWrite]. Qed.
Hint Resolve stalled_db_exec stalled_db_query stalled_tg_call stalled_PgWrite stalled_rand stalled_Log stalled_write_opt : srv.

Lemma stalled_bot_handler botID bot aw u h : server_writer aw → h ∈ bot_handlers botID bot aw → keeps stalled (bh_Handle h u).
Proof.
  intros Haw. unfold bot_handlers. rewrite !elem_of_cons. intros Hh. destruct_or!; subst; [..|set_solver];
    simpl; unfold unhandled, consumed.
  - unfold redeem, ConsumeToken, LinkSupergroup, reply, SendMessage. keeps_all.
  - unfold promote_member, promoted, sendReady, warnMissingRights, markNotAdmin, FindUserByChatID, SetBotIsAdmin,
      EnsureForSubscribedApps, ensure_one, ListSubscribedAppsWithoutTopic, AddTopic, CreateForumTopic, reply, SendMessage.
    keeps_all.
  - unfold expel, BanChatMember, FindUserByChatID. keeps_all.
  - unfold list_apps, toggle, subscribe_app, unsubscribe_app, GetByTelegramID, reply, SendMessage, EnsureForSubscribedApps,
      ensure_one, ListSubscribedAppsWithoutTopic, AddTopic, CreateForumTopic, Close, GetTopicID, CloseForumTopic, RemoveTopic.
    keeps_all.
  - unfold handleStart, handleAgree, issueStartgroupDeeplink, newToken, UpsertOnStart, GetByTelegramID, MarkAgreed,
      IssueToken, reply, SendMessage. keeps_all.
Qed.

Lemma stalled_dispatch botID bot aw u hs : server_writer aw → hs ⊆ bot_handlers botID bot aw → keeps stalled (Bot.dispatch hs u).
Proof.
  intros Haw. induction hs as [|h hs IH]; intros Hs; simpl; [by apply keeps_ret, _|].
  apply keeps_bind; [apply _|apply (stalled_bot_handler botID bot aw); [done|set_solver]|]. intros [handled [?|e]]; [|keeps_all].
  destruct handled; [by apply keeps_ret, _|]. apply IH. set_solver.
Qed.

(** [Poller.Run]: the channel's updates, or the error of
    [UpdatesViaLongPolling]; a second run beside a first returns at once.  With
    the flag [running] afterwards. *)
Definition Poller_Run (hs : list BotHandler) (updates : result (list Update)) (running : bool) : M (result () * bool) :=
  if running then mret (Ok (), running)
  else match updates return M (result () * bool) with
       | Err e => mret (Err e, false)
       | Ok us => Bot.Run hs us;; mret (Ok (), false)
       end.

(** The goroutine of [run]. *)
Definition bot_goroutine (hs : list BotHandler) (updates : result (list Update)) : M () :=
  p ← Poller_Run hs updates false;
  match fst p return M () with
  | Err e => Log "error" "bot_poller_run" {["error" := AStr (error_text e)]}
  | Ok _ => mret ()
  end.

End cancelled.

(** ** Shutdown *)

(** What differs between the two processes: whether there is a poller, and the
    names of the log events. *)
Record daemon := mkDaemon { dm_bot : bool; dm_requested : string; dm_failed : string; dm_stopped : string }.
Definition server_daemon : daemon := mkDaemon true "shutdown_requested" "shutdown_failed" "server_stopped".
Definition ui_daemon : daemon := mkDaemon false "adminui_shutdown_requested" "adminui_shutdown_failed" "adminui_stopped".

(** Where the main goroutine is: in its first select, waiting for the poller, in
    [srv.Shutdown], or returned, with an error or not; a wait starts at a time. *)
Inductive phase := Serving | DrainingBot (since : Z) | DrainingHttp (since : Z) | Returned (failed : bool).

Record Proc := mkProc {
  pr_phase : phase;
  pr_now : Z;
  pr_signal : option Z;     (* when the signal came *)
  pr_poller : bool;         (* the poller's goroutine runs *)
  pr_cancelled : bool;      (* its context is cancelled *)
  pr_inflight : nat;        (* requests being handled *)
  pr_listening : bool;
  pr_pool : bool;           (* the connection pool is open *)
  pr_logs : list string;
}.

Definition up (d : daemon) (now : Z) : Proc := mkProc Serving now None (dm_bot d) false 0 true true [].

Inductive pevent :=
| Tick (d : Z) | RequestArrives | RequestDone | PollerExits
| Signal | ListenFails | BotDrained | BotTimeout | HttpDrained | HttpTimeout.

Definition drain : Z := 10 * Second.

Definition running (p : Proc) : bool := match pr_phase p with Returned _ => false | _ => true end.
Definition timer (p : Proc) : option Z :=
  match pr_phase p with DrainingBot t | DrainingHttp t => Some (t + drain) | _ => None end.
Definition fired (p : Proc) : bool := bool_decide (timer p = Some (pr_now p)).

(** [srv.Shutdown] closes the listeners, then waits. *)
Definition enter_shutdown (logs : list string) (p : Proc) : Proc :=
  mkProc (DrainingHttp (pr_now p)) (pr_now p) (pr_signal p) (pr_poller p) (pr_cancelled p) (pr_inflight p) false
    (pr_pool p) (pr_logs p ++ logs).
(** The deferred calls: [botCancel], then [pool.Close]. *)
Definition return_with (failed : bool) (logs : list string) (p : Proc) : Proc :=
  mkProc (Returned failed) (pr_now p) (pr_signal p) (pr_poller p) true (pr_inflight p) false false (pr_logs p ++ logs).

Definition pstep (d : daemon) (e : pevent) (p : Proc) : option Proc :=
  let set now poller inflight :=
    mkProc (pr_phase p) now (pr_signal p) poller (pr_cancelled p) inflight (pr_listening p) (pr_pool p) (pr_logs p) in
  match e with
  | Tick t =>
      if running p && (0 <=? t) && match timer p with Some u => pr_now p + t <=? u | None => true end
      then Some (set (pr_now p + t) (pr_poller p) (pr_inflight p)) else None
  | RequestArrives =>
      if running p && pr_listening p then Some (set (pr_now p) (pr_poller p) (S (pr_inflight p))) else None
  | RequestDone =>
      match pr_inflight p with
      | S n => if running p then Some (set (pr_now p) (pr_poller p) n) else None
      | 0%nat => None
      end
  | PollerExits => if running p && pr_poller p then Some (set (pr_now p) false (pr_inflight p)) else None
  | Signal =>
      match pr_phase p with
      | Serving =>
          let p' := mkProc (DrainingBot (pr_now p)) (pr_now p) (Some (pr_now p)) (pr_poller p) true (pr_inflight p)
                      (pr_listening p) (pr_pool p) (pr_logs p ++ [dm_requested d]) in
          Some (if dm_bot d then p' else enter_shutdown [] p')
      | _ => None
      end
  | ListenFails => match pr_phase p with Serving => Some (return_with true [] p) | _ => None end
  | BotDrained =>
      match pr_phase p with DrainingBot _ => if pr_poller p then None else Some (enter_shutdown [] p) | _ => None end
  | BotTimeout =>
      match pr_phase p with
      | DrainingBot _ => if fired p then Some (enter_shutdown ["bot_poller_drain_timeout"] p) else None
      | _ => None
      end
  | HttpDrained =>
      match pr_phase p with
      | DrainingHttp _ => if (pr_inflight p =? 0)%nat then Some (return_with false [dm_stopped d] p) else None
      | _ => None
      end
  | HttpTimeout =>
      match pr_phase p with
      | DrainingHttp _ => if fired p then Some (return_with false [dm_failed d; dm_stopped d] p) else None
      | _ => None
      end
  end.

Inductive reachable (d : daemon) : Proc → Prop :=
| reach_up now : reachable d (up d now)
| reach_step p e p' : reachable d p → pstep d e p = Some p' → reachable d p'.

(** The poller has stopped, or the log says that it was not waited for. *)
Definition poller_settled (p : Proc) : Prop := pr_poller p = false ∨ "bot_poller_drain_timeout" ∈ pr_logs p.
Definition requests_settled (d : daemon) (p : Proc) : Prop := pr_inflight p = 0%nat ∨ dm_failed d ∈ pr_logs p.

Definition proc_ok (d : daemon) (p : Proc) : Prop :=
  pr_pool p = running p ∧
  match pr_phase p with
  | Serving => pr_signal p = None ∧ pr_cancelled p = false ∧ pr_listening p = true ∧ (dm_bot d = false → pr_poller p = false)
  | DrainingBot t => dm_bot d = true ∧ pr_signal p = Some t ∧ t <= pr_now p <= t + drain ∧ pr_cancelled p = true
  | DrainingHttp t => ∃ s, pr_signal p = Some s ∧ s <= t <= s + (if dm_bot d then drain else 0) ∧
      t <= pr_now p <= t + drain ∧ pr_cancelled p = true ∧ pr_listening p = false ∧ poller_settled p
  | Returned true => pr_signal p = None
  | Returned false => ∃ s, pr_signal p = Some s ∧ s <= pr_now p <= s + (if dm_bot d then 2 * drain else drain) ∧
      poller_settled p ∧ requests_settled d p ∧ last (pr_logs p) = Some (dm_stopped d)
  end.

Lemma pstep_ok d e p p' : proc_ok d p → pstep d e p = Some p' → proc_ok d p'.
Proof.
  assert (0 < drain) by (unfold drain, Second; lia).
  unfold proc_ok, poller_settled, requests_settled, pstep, fired, timer, running, enter_shutdown, return_with.
  destruct p as [ph now sig pol can infl lis pool logs]. simpl. intros [Hp Hph].
  destruct e, ph as [|t|t|[]]; simpl; try discriminate; repeat case_match; intros; simplify_eq/=;
    repeat (match goal with
            | H : _ && _ = true |- _ => apply andb_true_iff in H as [? ?]
            | H : bool_decide _ = true |- _ => apply bool_decide_eq_true in H; simplify_eq
            | H : (_ <=? _) = true |- _ => apply Z.leb_le in H
            | H : (_ =? 0)%nat = true |- _ => apply Nat.eqb_eq in H; subst
            | H : ∃ _, _ |- _ => destruct H
            | H : _ ∧ _ |- _ => destruct H
            end; simplify_eq/=);
    split; try done; split_and?; eauto; try lia.
  all: try (eexists; split_and!; [done|..]; try lia; rewrite ?last_snoc, ?last_app; try done; set_solver).
Qed.

Lemma reachable_ok d p : reachable d p → proc_ok d p.
Proof.
  induction 1 as [now|p e p' _ IH He]; [|by eapply pstep_ok]. split; [done|]. by split_and!.
Qed.

(** Events in order; [None]: one of them was not possible. *)
Definition run_proc (d : daemon) (es : list pevent) (p : Proc) : option Proc :=
  foldl (λ o e, o ≫= pstep d e) (Some p) es.

(** The events that do not depend on requests and updates coming to an end. *)
Definition own_event (e : pevent) : bool :=
  match e with Tick _ | BotTimeout | HttpTimeout => true | _ => false end.

Lemma http_times_out d p t : proc_ok d p → pr_phase p = DrainingHttp t →
  run_proc d [Tick (t + drain - pr_now p); HttpTimeout] p =
  Some (return_with false [dm_failed d; dm_stopped d]
    (mkProc (DrainingHttp t) (t + drain) (pr_signal p) (pr_poller p) (pr_cancelled p) (pr_inflight p) (pr_listening p)
       (pr_pool p) (pr_logs p))).
Proof.
  intros [_ Hp] Ht. rewrite Ht in Hp. destruct Hp as (s&_&_&Hn&_).
  unfold run_proc. simpl. unfold running, timer. rewrite Ht. simpl.
  rewrite (proj2 (Z.leb_le 0 _)), (proj2 (Z.leb_le _ (t + drain))) by lia. simpl.
  replace (pr_now p + (t + drain - pr_now p)) with (t + drain) by lia.
  unfold fired, timer. simpl. by rewrite bool_decide_true.
Qed.

Lemma bot_times_out d p t : proc_ok d p → pr_phase p = DrainingBot t →
  ∃ p', run_proc d [Tick (t + drain - pr_now p); BotTimeout] p = Some p' ∧ pr_phase p' = DrainingHttp (t + drain).
Proof.
  intros [_ Hp] Ht. rewrite Ht in Hp. destruct Hp as (_&_&Hn&_).
  unfold run_proc. simpl. unfold running, timer. rewrite Ht. simpl.
  rewrite (proj2 (Z.leb_le 0 _)), (proj2 (Z.leb_le _ (t + drain))) by lia. simpl.
  replace (pr_now p + (t + drain - pr_now p)) with (t + drain) by lia.
  unfold fired, timer. simpl. rewrite bool_decide_true by done. eauto.
Qed.

Lemma run_proc_app d es es' p p' : run_proc d es p = Some p' → run_proc d (es ++ es') p = run_proc d es' p'.
Proof. unfold run_proc. intros H. by rewrite foldl_app, H. Qed.

Lemma run_proc_reachable d es p p' : reachable d p → run_proc d es p = Some p' → reachable d p'.
Proof.
  unfold run_proc. revert p. induction es as [|e es IH]; intros p Hr; simpl; [by intros [= <-]|].
  destruct (pstep d e p) as [p1|] eqn:E; [apply IH; by econstructor|].
  assert (∀ l, foldl (λ o e, o ≫= pstep d e) None l = None) as Hn by (intros l; induction l as [|x l IHl]; [done|exact IHl]).
  simpl. by rewrite Hn.
Qed.



(** ** Concrete processes *)

(** A cancelled poller with a registration in its channel: both updates are
    consumed, their errors are logged, and the user is not registered. *)
Definition late_updates : list Update := [start_update (-1001) "/start"; start_update (-1001) "/agree"].
Definition late_world : @World recorder := with_deadline (TG := recorder) (Some 0) (rec_world 0 registrar_db).


(** The same updates a moment earlier. *)
Example early_updates_kept :
  elements (dom (users (w_db (bot_goroutine (TG := recorder)
    (bot_handlers (PG := text_order) (TG := recorder) 999 "a_bot" (Some (PgWriter (PG := text_order)))) (Ok late_updates) (rec_world 0 registrar_db)).2))) = [1].
Proof. vm_compute. reflexivity. Qed.

(** A [getMe] that fails goes unnoticed: the process starts with the id zero,
    and the bot's own arrival in a linked group gets the bot banned by itself. *)
Definition no_getMe (t : list tg_event) : res string (option Z) * list tg_event := (Err "Bad Gateway", t).
Example self_expelled :
  let '(id, w) := self_id (TG := recorder) no_getMe (rec_world 0 owned_db) in
  id = 0 ∧
  w_tg (bh_Handle (IntrusionHandler (PG := text_order) (TG := recorder) id (Some (PgWriter (PG := text_order)))) (member_update (-1001) 999) w).2 =
    [EvBanned (-1001) 999].
Proof. vm_compute. done. Qed.

Definition sample_env (k : string) : string :=
  if String.eqb k "TELEGRAM_BOT_TOKEN" then "123:abc" else if String.eqb k "TELEGRAM_BOT_USERNAME" then "a_bot"
  else if String.eqb k "DATABASE_URL" then "postgres" else if String.eqb k "ADMINUI_PASSWORD" then "secret"
  else if String.eqb k "ADMINUI_API_KEY" then "tg_ab_c" else "".
Definition ok_New (url : string) : result () := Ok ().
Definition ok_NewBot (token url : string) : result () := Ok ().
Definition ok_getMe (t : list tg_event) : res string (option Z) * list tg_event := (Ok (Some 999), t).

Local Abbreviation sample_start := (server_start (F := exact) (A2 := toy_argon2) (PG := text_order) (TG := recorder) (X := path_mux)
  ok_New ok_NewBot ok_getMe (λ _, 0) (62 + 0) sample_env (rec_world 0 registrar_db)).
Local Abbreviation sample_ui := (ui_start (PG := text_order) (TG := recorder) ok_New 0 sample_env sample_start.2).

(** Both start, over the loopback addresses, and the first event is an operator
    who has not logged in. *)
Definition sample_config : Ui.Config := Ui.mkConfig "127.0.0.1:8081" "secret" "tg_ab_c" "http://127.0.0.1:8080" "postgres" false.
Definition sample_uistate : UiState := mkUiState (mkSessions (fit 32 "entropy-entropy0") false ∅) ∅ newGlobalBackoff.

Local Abbreviation sample_router policy := (serve (F := exact) (TG := recorder) (X := path_mux) (λ _, 0)
  (server_deps (F := exact) (A2 := toy_argon2) (PG := text_order) (TG := recorder) (request_limiter (F := exact) policy))).
Definition sample_policy : string → Policy :=
  request_policy default_policy (RateLimit.Load (F := exact) (request_rows (PG := text_order) registrar_db)).


(** A signal while a request is handled: both drain, or neither does. *)
Definition graceful : list pevent :=
  [RequestArrives; Signal; Tick Second; PollerExits; BotDrained; RequestDone; HttpDrained].
Definition stuck : list pevent := [RequestArrives; Signal; Tick drain; BotTimeout; Tick drain; HttpTimeout].
Definition after (es : list pevent) : Proc := default (up server_daemon 0) (run_proc server_daemon es (up server_daemon 0)).



(** When the listener fails there is no draining: [run] returns with the pool
    closed while the poller and a request are still at work. *)
Example listen_error_abrupt :
  let p := after [RequestArrives; ListenFails] in
  pr_phase p = Returned true ∧ pr_pool p = false ∧ pr_poller p = true ∧ pr_inflight p = 1%nat.
Proof. vm_compute. done. Qed.
