(* ===== verification/DevTools.v ===== *)
(** * The development tools

    [internal/skillsharness/harness.go], the fixture runner of the end-to-end
    tests; [cmd/devseed/main.go], which prints the keys of the development
    apps; and the address of [cmd/mocktelegram/main.go].

    The harness is written over any client: [NewRequest] says whether
    [http.NewRequestWithContext] accepts a method and a URL, [Do] sends a
    request.  A body is its bytes with the JSON value they are ([raw_body] of
    [MockTelegram]).  The client is then the stack of the end-to-end runs, a
    server that calls the mock, and the server of [Router]. *)

From stdpp Require Import base gmap list strings.
From Stdlib Require Import ZArith Lia.
From S2P Require Import Prelude GoStrings Encoding AuditChain RateLimit World AuditLog Auth Registry Strategy.
From S2P Require Import Dispatch Http Messages AdminApi Router MockTelegram Config.

Local Open Scope string_scope.
Local Open Scope Z_scope.
Local Open Scope list_scope.

(** ** Transcripts *)

Record CleanupCall := mkCleanup { cc_Method : string; cc_Path : string }.
Record HTTPCall := mkHTTPCall {
  hc_Method : string; hc_Path : string; hc_Body : option json; hc_Status : Z; hc_Contains : list string }.
Record MockCall := mkMockCall { mc_Method : string; mc_MinCount : Z }.
Record Transcript := mkTranscript {
  tr_Skill : string;
  tr_Description : string;
  tr_Env : gmap string string;
  tr_CleanupPaths : list CleanupCall;
  tr_HTTPCalls : list HTTPCall;
  tr_Expected : list MockCall;
}.

(** [json.Unmarshal] into a struct: unknown members are ignored. *)
Definition decode_loose {S} (fs : list (field S)) (j : json) (s : S) : option S :=
  match j with
  | JNull => Some s
  | JObj kvs => foldl (λ acc '(k, v), s ← acc; match find_field fs k with Some f => f.2 v s | None => Some s end) (Some s) kvs
  | _ => None
  end.

(** Into a [map[string]string]. *)
Definition decode_map (j : json) (old : gmap string string) : option (gmap string string) :=
  match j with
  | JNull => Some ∅
  | JObj kvs => foldl (λ acc '(k, v), m ← acc; s ← decode_string v ""; Some (<[k := s]> m)) (Some old) kvs
  | _ => None
  end.

Definition cleanup_fields : list (field CleanupCall) :=
  [("method", λ j c, (λ s, mkCleanup s (cc_Path c)) <$> decode_string j (cc_Method c));
   ("path", λ j c, (λ s, mkCleanup (cc_Method c) s) <$> decode_string j (cc_Path c))].

Definition call_fields : list (field HTTPCall) :=
  [("method", λ j c, (λ s, mkHTTPCall s (hc_Path c) (hc_Body c) (hc_Status c) (hc_Contains c)) <$> decode_string j (hc_Method c));
   ("path", λ j c, (λ s, mkHTTPCall (hc_Method c) s (hc_Body c) (hc_Status c) (hc_Contains c)) <$> decode_string j (hc_Path c));
   ("body", λ j c, Some (mkHTTPCall (hc_Method c) (hc_Path c) (Some j) (hc_Status c) (hc_Contains c)));
   ("expected_status", λ j c, (λ n, mkHTTPCall (hc_Method c) (hc_Path c) (hc_Body c) n (hc_Contains c)) <$>
                                decode_int64 j (hc_Status c));
   ("assert_body_contains", λ j c, (λ l, mkHTTPCall (hc_Method c) (hc_Path c) (hc_Body c) (hc_Status c) l) <$>
                                     decode_list "" decode_string j)].

Definition mock_fields : list (field MockCall) :=
  [("method", λ j c, (λ s, mkMockCall s (mc_MinCount c)) <$> decode_string j (mc_Method c));
   ("min_count", λ j c, (λ n, mkMockCall (mc_Method c) n) <$> decode_int64 j (mc_MinCount c))].

Definition transcript_fields : list (field Transcript) :=
  [("skill", λ j t, (λ s, mkTranscript s (tr_Description t) (tr_Env t) (tr_CleanupPaths t) (tr_HTTPCalls t) (tr_Expected t)) <$>
                      decode_string j (tr_Skill t));
   ("description", λ j t, (λ s, mkTranscript (tr_Skill t) s (tr_Env t) (tr_CleanupPaths t) (tr_HTTPCalls t) (tr_Expected t)) <$>
                            decode_string j (tr_Description t));
   ("env", λ j t, (λ m, mkTranscript (tr_Skill t) (tr_Description t) m (tr_CleanupPaths t) (tr_HTTPCalls t) (tr_Expected t)) <$>
                    decode_map j (tr_Env t));
   ("cleanup_paths", λ j t, (λ l, mkTranscript (tr_Skill t) (tr_Description t) (tr_Env t) l (tr_HTTPCalls t) (tr_Expected t)) <$>
                              decode_list (mkCleanup "" "") (decode_loose cleanup_fields) j);
   ("http_calls", λ j t, (λ l, mkTranscript (tr_Skill t) (tr_Description t) (tr_Env t) (tr_CleanupPaths t) l (tr_Expected t)) <$>
                           decode_list (mkHTTPCall "" "" None 0 []) (decode_loose call_fields) j);
   ("expected_mocktelegram_calls", λ j t,
      (λ l, mkTranscript (tr_Skill t) (tr_Description t) (tr_Env t) (tr_CleanupPaths t) (tr_HTTPCalls t) l) <$>
        decode_list (mkMockCall "" 0) (decode_loose mock_fields) j)].

(** [LoadTranscript]; [ReadFile] reads a file of the transcripts directory. *)
Definition LoadTranscript (ReadFile : string → result raw_body) (skill : string) : result Transcript :=
  match ReadFile (skill +:+ ".json") with
  | Err e => Err (Wrap ("skillsharness: load transcript " +:+ go_quote skill +:+ ": ") e "")
  | Ok b =>
      match rb_json b ≫= λ j, decode_loose transcript_fields j (mkTranscript "" "" ∅ [] [] []) with
      | None => Err (Wrap ("skillsharness: parse transcript " +:+ go_quote skill +:+ ": ") (Msg "invalid JSON") "")
      | Some t => Ok t
      end
  end.

(** ** The runner *)

Record HarnessRequest := mkHarnessRequest {
  hq_Method : string; hq_URL : string; hq_Body : option json; hq_Authorization : option string }.
Record HarnessResponse := mkHarnessResponse { hp_Status : Z; hp_Body : raw_body }.

(** The recorded calls: the [method] member of each element. *)
Definition recorded_methods (b : raw_body) : option (list string) :=
  j ← rb_json b;
  decode_list "" (decode_loose [("method", λ j s, decode_string j s)]) j.

(** [counts[m]]. *)
Definition count_method (m : string) (l : list string) : Z := Z.of_nat (length (filter (λ x, x = m) l)).

Section runner.
Context {W : Type} (NewRequest : string → string → result ()) (Do : HarnessRequest → ST W (result HarnessResponse)).

Definition bearer_header (tr : Transcript) : option string :=
  let key := default "" (tr_Env tr !! "TELEGRAM_API_KEY") in
  if String.eqb key "" then None else Some ("Bearer " +:+ key).

(** Best effort: a request that cannot be built or sent is skipped. *)
Definition best_effort (q : HarnessRequest) : ST W () :=
  match NewRequest (hq_Method q) (hq_URL q) with
  | Err _ => mret ()
  | Ok _ => Do q;; mret ()
  end.

Definition cleanup_request (tr : Transcript) (url : string) (c : CleanupCall) : HarnessRequest :=
  mkHarnessRequest (cc_Method c) (url +:+ cc_Path c) None (bearer_header tr).
Definition reset_request (mock : string) : HarnessRequest := mkHarnessRequest "POST" (mock +:+ "/test/reset") None None.
Definition calls_request (mock : string) : HarnessRequest := mkHarnessRequest "GET" (mock +:+ "/test/calls") None None.
Definition call_request (tr : Transcript) (url : string) (c : HTTPCall) : HarnessRequest :=
  mkHarnessRequest (hc_Method c) (url +:+ hc_Path c) (hc_Body c) (bearer_header tr).

Definition call_label (i : nat) (c : HTTPCall) : string :=
  "call[" +:+ format_int (Z.of_nat i) +:+ "] " +:+ hc_Method c +:+ " " +:+ hc_Path c +:+ ": ".

(** The checks of one response. *)
Fixpoint check_contains (label bodyStr : string) (wants : list string) : result () :=
  match wants with
  | [] => Ok ()
  | want :: rest =>
      if contains want bodyStr then check_contains label bodyStr rest
      else Err (Msg (label +:+ "body does not contain " +:+ go_quote want +:+ "; body: " +:+ bodyStr))
  end.
Definition check_response (label : string) (c : HTTPCall) (resp : HarnessResponse) : result () :=
  if negb (hp_Status resp =? hc_Status c)
  then Err (Msg (label +:+ "got status " +:+ format_int (hp_Status resp) +:+ ", want " +:+ format_int (hc_Status c) +:+
                 "; body: " +:+ rb_bytes (hp_Body resp)))
  else check_contains label (rb_bytes (hp_Body resp)) (hc_Contains c).

Fixpoint run_calls (tr : Transcript) (url : string) (i : nat) (calls : list HTTPCall) : ST W (result ()) :=
  match calls with
  | [] => mret (Ok ())
  | c :: rest =>
      let q := call_request tr url c in
      match NewRequest (hq_Method q) (hq_URL q) return ST W (result ()) with
      | Err e => mret (Err (Wrap (call_label i c +:+ "build request: ") e ""))
      | Ok _ =>
          r ← Do q;
          match r return ST W (result ()) with
          | Err e => mret (Err (Wrap (call_label i c +:+ "http: ") e ""))
          | Ok resp =>
              match check_response (call_label i c) c resp return ST W (result ()) with
              | Err e => mret (Err e)
              | Ok _ => run_calls tr url (S i) rest
              end
          end
      end
  end.

Fixpoint check_counts (methods : list string) (expected : list MockCall) : result () :=
  match expected with
  | [] => Ok ()
  | mc :: rest =>
      let got := count_method (mc_Method mc) methods in
      if got <? mc_MinCount mc
      then Err (Msg ("mocktelegram: method " +:+ go_quote (mc_Method mc) +:+ " called " +:+ format_int got +:+
                     " times, want at least " +:+ format_int (mc_MinCount mc)))
      else check_counts methods rest
  end.

Definition check_mock (tr : Transcript) (mock : string) : ST W (result ()) :=
  let q := calls_request mock in
  match NewRequest (hq_Method q) (hq_URL q) return ST W (result ()) with
  | Err e => mret (Err (Wrap "mocktelegram /test/calls: build request: " e ""))
  | Ok _ =>
      r ← Do q;
      mret (match r with
            | Err e => Err (Wrap "mocktelegram /test/calls: " e "")
            | Ok resp =>
                match recorded_methods (hp_Body resp) with
                | None => Err (Wrap "mocktelegram /test/calls: parse response: " (Msg "invalid JSON") "")
                | Some methods => check_counts methods (tr_Expected tr)
                end
            end)
  end.

Definition runFixtureWithMock (tr : Transcript) (url mock : string) : ST W (result ()) :=
  st_fold (λ _ c, best_effort (cleanup_request tr url c)) () (tr_CleanupPaths tr);;
  (if String.eqb mock "" then mret () else best_effort (reset_request mock));;
  r ← run_calls tr url 0 (tr_HTTPCalls tr);
  match r return ST W (result ()) with
  | Err e => mret (Err e)
  | Ok _ => if String.eqb mock "" || bool_decide (tr_Expected tr = []) then mret (Ok ()) else check_mock tr mock
  end.

Definition RunFixture (env : Env) (tr : Transcript) (url : string) : ST W (result ()) :=
  runFixtureWithMock tr url (env "MOCKTELEGRAM_URL").

(** Live mode is not there yet. *)
Definition RunLive (env : Env) : result () :=
  if String.eqb (env "CLAUDE_API_KEY") "" then Err (Msg "CLAUDE_API_KEY not set; live mode unimplemented")
  else Err (Msg "CLAUDE_API_KEY is set but live mode claude-CLI subprocess plumbing is deferred to Phase 6").
End runner.

(** ** What a passing fixture has seen *)

Section seen.
Context {W : Type} (NewRequest : string → string → result ()) (Do : HarnessRequest → ST W (result HarnessResponse)).

(** The client with a record of its exchanges. *)
Definition exchange : Type := HarnessRequest * result HarnessResponse.
Definition logged (q : HarnessRequest) : ST (W * list exchange) (result HarnessResponse) := λ '(w, log),
  let '(r, w') := Do q w in (r, (w', log ++ [(q, r)])).

(** The exchange a call asks for. *)
Definition as_expected (tr : Transcript) (url : string) (c : HTTPCall) (x : exchange) : Prop :=
  x.1 = call_request tr url c ∧ ∃ resp, x.2 = Ok resp ∧ hp_Status resp = hc_Status c ∧
  Forall (λ want, contains want (rb_bytes (hp_Body resp)) = true) (hc_Contains c).

Lemma check_contains_Ok label s wants u : check_contains label s wants = Ok u →
  Forall (λ want, contains want s = true) wants.
Proof.
  induction wants as [|x wants IH]; simpl; [constructor|]. destruct (contains x s) eqn:E; [|done]. constructor; auto.
Qed.

Lemma run_calls_seen tr url i calls w log u st :
  run_calls NewRequest logged tr url i calls (w, log) = (Ok u, st) →
  ∃ xs, st.2 = log ++ xs ∧ Forall2 (as_expected tr url) calls xs.
Proof.
  revert i w log. induction calls as [|c calls IH]; intros i w log; simpl.
  { intros [= <- <-]. exists []. split; [by rewrite app_nil_r|constructor]. }
  destruct (NewRequest _ _) as [?|e]; [|done]. rewrite bind_run. unfold logged at 1.
  destruct (Do _ w) as [[resp|e] w1]; [|done].
  destruct (check_response _ c resp) as [?|e] eqn:Hc; [|done]. intros (xs&Hl&Hx)%IH.
  eexists (_ :: xs). rewrite Hl, <- app_assoc. split; [done|]. constructor; [|done].
  unfold check_response in Hc. destruct (Z.eqb_spec (hp_Status resp) (hc_Status c)); [|done]. simpl in Hc.
  split; [done|]. exists resp. split_and!; [done|done|]. by eapply check_contains_Ok.
Qed.

Lemma best_effort_seen q w log : ∃ w' xs, best_effort NewRequest logged q (w, log) = ((), (w', log ++ xs)).
Proof.
  unfold best_effort. destruct (NewRequest _ _) as [?|e]; [|exists w, []; by rewrite app_nil_r].
  rewrite bind_run. unfold logged. destruct (Do q w) as [r w']. by eexists _, _.
Qed.

Lemma cleanup_seen tr url cs w log : ∃ w' xs,
  st_fold (λ _ c, best_effort NewRequest logged (cleanup_request tr url c)) () cs (w, log) = ((), (w', log ++ xs)).
Proof.
  revert w log. induction cs as [|c cs IH]; intros w log; simpl; [exists w, []; by rewrite app_nil_r|].
  rewrite bind_run. destruct (best_effort_seen (cleanup_request tr url c) w log) as (w1&xs&->).
  destruct (IH w1 (log ++ xs)) as (w2&ys&->). exists w2, (xs ++ ys). by rewrite app_assoc.
Qed.

Lemma check_counts_Ok methods expected u : check_counts methods expected = Ok u →
  Forall (λ mc, mc_MinCount mc <= count_method (mc_Method mc) methods) expected.
Proof.
  induction expected as [|mc rest IH]; simpl; [constructor|].
  destruct (Z.ltb_spec (count_method (mc_Method mc) methods) (mc_MinCount mc)); [done|]. constructor; auto.
Qed.

Lemma check_mock_seen tr mock w log u st :
  check_mock NewRequest logged tr mock (w, log) = (Ok u, st) →
  ∃ resp methods, st.2 = log ++ [(calls_request mock, Ok resp)] ∧ recorded_methods (hp_Body resp) = Some methods ∧
    Forall (λ mc, mc_MinCount mc <= count_method (mc_Method mc) methods) (tr_Expected tr).
Proof.
  unfold check_mock. destruct (NewRequest _ _) as [?|e]; [|done]. rewrite bind_run. unfold logged.
  destruct (Do _ w) as [[resp|e] w1]; [|done]. destruct (recorded_methods _) as [methods|] eqn:Em; [|done].
  intros [= Hc <-]. exists resp, methods. split_and!; [done..|]. by eapply check_counts_Ok.
Qed.

(** A fixture that passes has checked what its transcript says.  The client
    has sent every call of the transcript, in order, with its method, path, body
    and key; each was answered with the status and all the substrings expected
    of it; and if there is a mock and something is expected of it, the list of
    recorded calls was read last and holds each expected method at least as
    often as required. *)
Theorem fixture_sound tr url mock w w' log :
  runFixtureWithMock NewRequest logged tr url mock (w, []) = (Ok (), (w', log)) →
  ∃ before calls after, log = before ++ calls ++ after ∧
    Forall2 (as_expected tr url) (tr_HTTPCalls tr) calls ∧
    if String.eqb mock "" || bool_decide (tr_Expected tr = []) then after = []
    else ∃ resp methods, after = [(calls_request mock, Ok resp)] ∧ recorded_methods (hp_Body resp) = Some methods ∧
      Forall (λ mc, mc_MinCount mc <= count_method (mc_Method mc) methods) (tr_Expected tr).
Proof.
  unfold runFixtureWithMock. rewrite bind_run. destruct (cleanup_seen tr url (tr_CleanupPaths tr) w []) as (w1&xs1&->).
  rewrite bind_run.
  assert (∃ w2 xs2, (if String.eqb mock "" then mret () else best_effort NewRequest logged (reset_request mock)) (w1, [] ++ xs1) =
    ((), (w2, xs1 ++ xs2))) as (w2&xs2&->).
  { destruct (String.eqb mock ""); [by exists w1, []; rewrite app_nil_r|apply best_effort_seen]. }
  rewrite bind_run. destruct (run_calls NewRequest logged tr url 0 (tr_HTTPCalls tr) (w2, xs1 ++ xs2)) as [[[]|e] [w3 l3]] eqn:Ec; [|done].
  apply run_calls_seen in Ec as (calls&Hl&Hcalls). simpl in Hl. subst l3.
  destruct (String.eqb mock "" || bool_decide (tr_Expected tr = [])).
  - intros [= <- <-]. exists (xs1 ++ xs2), calls, []. by rewrite app_nil_r.
  - intros (resp&methods&Hl&Hm&Hx)%check_mock_seen. simpl in Hl. subst log.
    exists (xs1 ++ xs2), calls, [(calls_request mock, Ok resp)]. rewrite <- app_assoc. split; [done|]. split; [done|]. eauto.
Qed.
End seen.

(** ** The stack of the end-to-end runs

    A server whose Bot API is the mock.  [server] is any server: its answer, its
    new state and the requests it sends to the mock meanwhile.  [sk_sent] are
    the Bot API methods among those requests since the last reset. *)

Record Stack (S : Type) := mkStack { sk_server : S; sk_mock : Mock windows; sk_sent : list string }.
Arguments mkStack {S} _ _ _.
Arguments sk_server {S} _.
Arguments sk_mock {S} _.
Arguments sk_sent {S} _.

Section stack.
Context {S : Type} (server : HarnessRequest → S → result HarnessResponse * S * list MockRequest).
Context (to_any : json → option json) (text : json → string) (mock : string).

Definition call_object (c : string * string * json) : json :=
  JObj [("method", JStr c.1.1); ("token", JStr c.1.2); ("body", c.2)].

(** The bytes of a reply; a panic closes the connection. *)
Definition mock_response (r : mock_reply) : result HarnessResponse :=
  let ok j := Ok (mkHarnessResponse StatusOK (MockTelegram.mkRaw (text j) (Some j))) in
  match r with
  | MJson j => ok j
  | MCalls (Some l) _ => ok (JArr (call_object <$> l))
  | MCalls None _ => Ok (mkHarnessResponse StatusOK (MockTelegram.mkRaw "" None))
  | MUpdates l => ok (JArr ((λ u, JObj (map_to_list u)) <$> l))
  | MNotFound => Ok (mkHarnessResponse StatusNotFound (MockTelegram.mkRaw "" None))
  | MPanic => Err (Msg "EOF")
  end.

Definition bot_methods (rs : list MockRequest) : list string := omap (λ r, snd <$> split_path (mr_Path r)) rs.
Definition to_mock (rs : list MockRequest) (m : Mock windows) : Mock windows :=
  foldl (λ m r, (mock_serve to_any r [] m).2) m rs.

Definition addressed (method url : string) (q : HarnessRequest) : bool :=
  String.eqb (hq_Method q) method && String.eqb (hq_URL q) url.

Definition stack_Do (q : HarnessRequest) : ST (Stack S) (result HarnessResponse) := λ st,
  let test path sent :=
    let '(r, m) := mock_serve to_any (mkMockRequest (hq_Method q) path (MockTelegram.mkRaw "" None)) [] (sk_mock st) in
    (mock_response r, mkStack (sk_server st) m sent) in
  if addressed "POST" (mock +:+ "/test/reset") q then test "/test/reset" []
  else if addressed "GET" (mock +:+ "/test/calls") q then test "/test/calls" (sk_sent st)
  else
    let '(r, s, rs) := server q (sk_server st) in
    (r, mkStack s (to_mock rs (sk_mock st)) (sk_sent st ++ bot_methods rs)).

(** The mock has recorded no method more often than the server sent it. *)
Definition counted (st : Stack S) : Prop :=
  ∀ m, count_method m (cl_Method <$> ws_calls (mk_store (sk_mock st))) <= count_method m (sk_sent st).

Lemma count_app m l l' : count_method m (l ++ l') = count_method m l + count_method m l'.
Proof. unfold count_method. rewrite filter_app, length_app. lia. Qed.
Lemma count_drop m n l : count_method m (drop n l) <= count_method m l.
Proof. rewrite <- (take_drop n l) at 2. rewrite count_app. unfold count_method. lia. Qed.

Lemma count_push m n (c : Call) l :
  count_method m (cl_Method <$> MockTelegram.push n c l) <= count_method m (cl_Method <$> l) + count_method m [cl_Method c].
Proof.
  unfold MockTelegram.push. case_match; rewrite fmap_app, count_app; [|simpl; lia].
  rewrite fmap_drop. pose proof (count_drop m 1 (cl_Method <$> l)). simpl. lia.
Qed.

(** A request to the mock adds at most its own method. *)
Lemma bot_method_calls method b (k : Mock windows) :
  ws_calls (mk_store (bot_method to_any method b [] k).2) = ws_calls (mk_store k).
Proof.
  unfold bot_method, getUpdates, mbind, st_bind, mret, st_ret. repeat (case_match; simpl; try done);
    unfold mret, st_ret in *; by simplify_eq/=.
Qed.

Lemma Inject_calls b (k : Mock windows) : ws_calls (mk_store (Inject to_any b k).2) = ws_calls (mk_store k).
Proof. unfold Inject. rewrite bind_run. simpl. by destruct (default _ _). Qed.

Lemma mock_serve_counts m r (k : Mock windows) :
  count_method m (cl_Method <$> ws_calls (mk_store (mock_serve to_any r [] k).2)) <=
  count_method m (cl_Method <$> ws_calls (mk_store k)) + count_method m (bot_methods [r]).
Proof.
  assert (∀ l, 0 <= count_method m l) as Hz by (intros; unfold count_method; lia).
  pose proof (Hz (bot_methods [r])) as Hb. pose proof (Hz (cl_Method <$> ws_calls (mk_store k))) as Hk.
  unfold mock_serve. destruct (String.eqb (mr_Path r) "/test/inject-update").
  { rewrite bind_run. pose proof (Inject_calls (mr_Body r) k) as Hi. destruct (Inject to_any (mr_Body r) k) as [x k'].
    unfold mret, st_ret. cbn [fst snd] in *. rewrite Hi. lia. }
  destruct (_ && _); [unfold st_get, mbind, st_bind, mret, st_ret; cbn [fst snd]; lia|].
  destruct (_ && _).
  { rewrite bind_run. unfold to_store, on_store, mret, st_ret. cbn [fst snd mk_store Reset windows_store ws_calls].
    change (count_method m (cl_Method <$> [])) with 0. lia. }
  destruct (split_path (mr_Path r)) as [[token method]|] eqn:Es; [|unfold mret, st_ret; cbn [fst snd]; lia].
  replace (bot_methods [r]) with [method] by (unfold bot_methods; simpl; by rewrite Es).
  rewrite bind_run. unfold to_store, on_store. cbn [fst snd]. rewrite bot_method_calls. apply count_push.
Qed.

Lemma to_mock_counts m rs (k : Mock windows) :
  count_method m (cl_Method <$> ws_calls (mk_store (to_mock rs k))) <=
  count_method m (cl_Method <$> ws_calls (mk_store k)) + count_method m (bot_methods rs).
Proof.
  revert k. induction rs as [|r rs IH]; intros k; [simpl; change (count_method m []) with 0; lia|].
  change (to_mock (r :: rs) k) with (to_mock rs (mock_serve to_any r [] k).2).
  pose proof (IH (mock_serve to_any r [] k).2). pose proof (mock_serve_counts m r k).
  assert (count_method m (bot_methods (r :: rs)) = count_method m (bot_methods [r]) + count_method m (bot_methods rs)) as ->.
  { rewrite <- count_app. unfold bot_methods. by rewrite <- omap_app. }
  lia.
Qed.

Lemma mock_reset (k : Mock windows) b :
  ws_calls (mk_store (mock_serve to_any (mkMockRequest "POST" "/test/reset" b) [] k).2) = [].
Proof. done. Qed.
Lemma mock_calls (k : Mock windows) b :
  mock_serve to_any (mkMockRequest "GET" "/test/calls" b) [] k =
  (MCalls (mapM call_json (ws_calls (mk_store k))) (format_int (ws_dropped (mk_store k))), k).
Proof. done. Qed.

Lemma stack_counted q st : counted st → counted (stack_Do q st).2.
Proof.
  intros Hc. unfold stack_Do. destruct (addressed "POST" _ q) eqn:E1.
  { apply andb_true_iff in E1 as [Em%String.eqb_eq _]. rewrite Em. intros m.
    pose proof (mock_reset (sk_mock st) (MockTelegram.mkRaw "" None)) as Hr.
    destruct (mock_serve _ _ _ _) as [r k]. simpl in *. rewrite Hr. done. }
  destruct (addressed "GET" _ q) eqn:E2.
  { apply andb_true_iff in E2 as [Em%String.eqb_eq _]. rewrite Em, mock_calls. exact Hc. }
  destruct (server q (sk_server st)) as [[r s] rs]. intros m. simpl. rewrite count_app.
  pose proof (to_mock_counts m rs (sk_mock st)). specialize (Hc m). lia.
Qed.

Context (NewRequest : string → string → result ()).

Lemma calls_counted tr url i calls st : counted st → counted (run_calls NewRequest stack_Do tr url i calls st).2.
Proof.
  revert i st. induction calls as [|c calls IH]; intros i st Hc; simpl; [done|].
  destruct (NewRequest _ _); [|done]. rewrite bind_run. pose proof (stack_counted (call_request tr url c) st Hc) as H1.
  destruct (stack_Do _ st) as [[resp|e] st1]; [|done]. destruct (check_response _ _ _); [by apply IH|done].
Qed.

Lemma recorded_methods_calls l : recorded_methods (MockTelegram.mkRaw (text (JArr (call_object <$> l))) (Some (JArr (call_object <$> l)))) =
  Some ((λ c, c.1.1) <$> l).
Proof.
  unfold recorded_methods. cbn [rb_json mbind option_bind decode_list].
  induction l as [|[[m t] b] l IH]; [done|]. cbn [fmap list_fmap mapM]. rewrite IH. done.
Qed.

Lemma mapM_call_json cs l : mapM call_json cs = Some l → (λ c, c.1.1) <$> l = cl_Method <$> cs.
Proof.
  revert l. induction cs as [|c cs IH]; intros l; simpl; [by intros [= <-]|].
  intros (x&Hx&(l'&Hl&[= <-])%bind_Some)%bind_Some. unfold call_json in Hx. apply bind_Some in Hx as (j&_&[= <-]).
  rewrite !fmap_cons. f_equal. by apply IH.
Qed.

End stack.

(** ** cmd/mocktelegram/main.go and cmd/devseed/main.go *)

Definition mock_addr (env : Env) : string :=
  let addr := trim_space (env "MOCKTELEGRAM_ADDR") in if String.eqb addr "" then ":8090" else addr.

Record devKey := mkDevKey { dk_appID : string; dk_prefix : string; dk_cleartext : string; dk_label : string }.

Definition dev_keys : list devKey :=
  [mkDevKey "dev-admin" "devadmin" "tg_devadmin_0123456789abcdef0123456789abcdef" "Local dev admin key";
   mkDevKey "dev-developer" "devdev" "tg_devdev_0123456789abcdef0123456789abcdef" "Local dev developer key";
   mkDevKey "dev-user" "devuser" "tg_devuser_0123456789abcdef0123456789abcdef" "Local dev user-grade key"].

Section devseed.
Context `{A2 : Argon2} `{TG : Telegram}.

(** What is printed for a key. *)
Record seed_line := mkSeed { sd_key : devKey; sd_hash : string }.

(** [main]: the lines in order; an error ends the program with status 1, after
    the lines printed before. *)
Fixpoint devseed (keys : list devKey) : M (list seed_line * Z) :=
  match keys with
  | [] => mret ([], 0)
  | k :: rest =>
      h ← HashAPIKey (dk_cleartext k);
      match h return M (list seed_line * Z) with
      | Err _ => mret ([], 1)
      | Ok h => out ← devseed rest; mret (mkSeed k h :: fst out, snd out)
      end
  end.
End devseed.

(** The development keys work.  When the seed program ends well it has
    printed the three keys in order, and each line is consistent: the cleartext
    is a bearer token with the printed prefix, the printed hash verifies it and,
    in any database that holds the row for an active app, the server resolves the
    cleartext to that app. *)
Theorem dev_keys_resolve `{A2 : Argon2} `{PG : Postgres} `{TG : Telegram} w lines w' :
  devseed dev_keys w = ((lines, 0), w') →
  sd_key <$> lines = dev_keys ∧
  Forall (λ l, let k := sd_key l in
    ParseBearer (dk_cleartext k) = Ok (dk_prefix k) ∧ VerifyAPIKey (dk_cleartext k) (sd_hash l) = Ok true ∧
    ∀ w2 i a t, calm w2 → prefix_unique (w_db w2) →
      app_keys (w_db w2) !! i = Some (mkKey (dk_appID k) (sd_hash l) (dk_prefix k) (dk_label k) t None) →
      apps (w_db w2) !! dk_appID k = Some a → app_active a = true →
      ∃ caps, (Resolve (dk_cleartext k) w2).1 = Ok (mkRequester (dk_appID k) caps (capability_set_version a) (dk_prefix k))) lines.
Proof.
  intros Hd.
  assert (∀ keys w lines w', devseed keys w = ((lines, 0), w') →
    sd_key <$> lines = keys ∧ Forall (λ l, VerifyAPIKey (dk_cleartext (sd_key l)) (sd_hash l) = Ok true) lines) as Hs.
  { clear. induction keys as [|k keys IH]; intros w lines w'; simpl; [by intros [= <- _]|].
    unfold HashAPIKey. rewrite !bind_run. destruct (rand_Read _ w) as [[salt|e] w1]; [|done]. simpl.
    rewrite bind_run. destruct (devseed keys w1) as [[ls st] w2] eqn:E. intros [= <- -> _].
    destruct (IH _ _ _ E) as [H1 H2]. split; [by rewrite fmap_cons, H1|]. constructor; [|done].
    simpl. by rewrite verify_encoded, String.eqb_refl. }
  destruct (Hs _ _ _ _ Hd) as [Hk Hv]. split; [done|].
  assert (Forall (λ k, ParseBearer (dk_cleartext k) = Ok (dk_prefix k) ∧ utf8_ok (dk_prefix k) = true ∧
    utf8_ok (dk_appID k) = true) (sd_key <$> lines)) as Hp by (rewrite Hk; repeat constructor).
  rewrite Forall_fmap in Hp. eapply Forall_impl; [exact (proj2 (Forall_and _ _) (conj Hv Hp))|].
  intros l (Hl&Hb&U1&U2). split_and!; [done..|]. intros w2 i a t Hc Hu Hi Ha Hact.
  destruct (Resolve_calm (dk_cleartext (sd_key l)) w2 i _ a Hc Hu Hi eq_refl Ha Hact Hb Hl U1 U2) as [caps ->]. by exists caps.
Qed.

(** ** A run against the server of [Router] *)

(** Answers as text: a flat object. *)
Definition render_any (v : any) : string :=
  match v with
  | AStr s => go_quote s
  | AInt z => format_int z
  | ABool b => if b then "true" else "false"
  | _ => "null"
  end.
Definition render_body (b : body) : string :=
  match b with
  | BError code => error_json code
  | BObject m => "{" +:+ foldr (λ '(k, v) acc, go_quote k +:+ ":" +:+ render_any v +:+ "," +:+ acc) "}" (map_to_list m)
  | BText s => s
  | _ => ""
  end.

Definition base_url : string := "http://127.0.0.1:8080".
Definition server_Do (q : HarnessRequest) : ST (@World recorder) (result HarnessResponse) := λ w,
  let r := mkRequest (hq_Method q) (trim_prefix base_url (hq_URL q)) (default "" (hq_Authorization q)) "" "127.0.0.1:5555"
             (λ _, "") (λ _, "") (hq_Body q) in
  let '(rs, w') := serve (F := exact) (TG := recorder) (X := path_mux) (λ _, 0) sample_deps r w in
  (Ok (mkHarnessResponse (rs_Status rs) (MockTelegram.mkRaw (render_body (rs_Body rs)) None)), w').

Definition dev_hash : string := encodeArgon2id (A2 := toy_argon2) "tg_devadmin_0123456789abcdef0123456789abcdef" "0123456789abcdef".
Definition dev_db : Database :=
  set_keys (λ _, {[0 := mkKey "dev-admin" dev_hash "devadmin" "Local dev admin key" 0 None]})
    (sql_add_capability "dev-admin" CapAppsRegister 0
      (sql_insert_app "dev-admin" "Dev" "" "admin" "" 0 empty_db).2).2.

(** transcripts/register-app.json *)
Definition register_app_json : json :=
  JObj [("skill", JStr "register-app"); ("description", JStr "happy path: register a new app with a single capability");
        ("env", JObj [("TELEGRAM_API_KEY", JStr "tg_devadmin_0123456789abcdef0123456789abcdef")]);
        ("cleanup_paths", JArr [JObj [("method", JStr "DELETE"); ("path", JStr "/admin/apps/phase5-test-app")]]);
        ("http_calls", JArr [JObj [("method", JStr "POST"); ("path", JStr "/admin/apps");
           ("body", JObj [("id", JStr "phase5-test-app"); ("name", JStr "Phase 5 Test App");
              ("description", JStr "Created by the skills harness"); ("min_grade", JStr "user");
              ("capabilities", JArr [JStr "messages.direct.send"])]);
           ("expected_status", JInt 201); ("assert_body_contains", JArr [JStr (go_quote "id"); JStr "phase5-test-app"])]]);
        ("expected_mocktelegram_calls", JArr [])].
Definition transcripts (name : string) : result raw_body :=
  if String.eqb name "register-app.json" then Ok (MockTelegram.mkRaw "" (Some register_app_json)) else Err (Msg "no such file").

Definition any_request (method url : string) : result () := Ok ().
Definition register_app : Transcript :=
  match LoadTranscript transcripts "register-app" with Ok t => t | Err _ => mkTranscript "" "" ∅ [] [] [] end.
Local Abbreviation run_register := (runFixtureWithMock any_request server_Do register_app base_url "").

(** The transcript passes against a fresh server and not against the same
    server again: its clean-up request deactivates the app and leaves its row,
    whose id is then taken. *)
Example rerun_fails :
  tr_HTTPCalls register_app ≠ [] ∧
  let '(first, w1) := run_register (rec_world 0 dev_db) in
  let '(second, w2) := run_register w1 in
  first = Ok () ∧
  match second with Err e => has_prefix "call[0] POST /admin/apps: got status 409, want 201" (error_text e) = true | Ok _ => False end ∧
  app_active <$> apps (w_db w2) !! "phase5-test-app" = Some false.
Proof. vm_compute. repeat split; discriminate. Qed.

Local Abbreviation logged_register :=
  (runFixtureWithMock any_request (logged server_Do) register_app base_url "" (rec_world 0 dev_db, [])).

Lemma fixture_sound_witness : ∃ before calls after, logged_register.2.2 = before ++ calls ++ after ∧
  Forall2 (as_expected register_app base_url) (tr_HTTPCalls register_app) calls ∧ after = [].
Proof.
  apply (fixture_sound any_request server_Do register_app base_url "" (rec_world 0 dev_db) logged_register.2.1).
  vm_compute. reflexivity.
Defined.

(** A server that sends one message for each request, over a mock with one call
    recorded before. *)
Definition echo_server (q : HarnessRequest) (n : Z) : result HarnessResponse * Z * list MockRequest :=
  (Ok (mkHarnessResponse 200 (MockTelegram.mkRaw "delivered" None)), n + 1,
   [mkMockRequest "POST" "/bot1/sendMessage" (MockTelegram.mkRaw "{}" (Some (JObj [])))]).
Definition notify : Transcript :=
  mkTranscript "send-notification" "" ∅ [] [mkHTTPCall "POST" "/v1/messages/direct" (Some JNull) 200 ["delivered"]]
    [mkMockCall "sendMessage" 1].
Definition used_stack : Stack Z :=
  mkStack 0 (mkMock (mkWindows [mkCall "getMe" "1" (MockTelegram.mkRaw "" None)] 0 []) 0 0 0) ["getMe"].
Local Abbreviation run_notify := (runFixtureWithMock any_request (stack_Do echo_server Some (λ _, "") "http://127.0.0.1:8090")
  notify base_url "http://127.0.0.1:8090" used_stack).


Lemma dev_keys_resolve_witness :
  (sd_key <$> (devseed (A2 := toy_argon2) (TG := recorder) dev_keys (rec_world 0 dev_db)).1.1) = dev_keys.
Proof.
  refine (proj1 (dev_keys_resolve (A2 := toy_argon2) (PG := text_order) (TG := recorder) (rec_world 0 dev_db) _ _ _)).
  vm_compute. reflexivity.
Defined.
